(* ===== verification/_CoqProject ===== *)
-Q . S2P
Prelude.v
Events.v
Platform.v
Samples.v
Text.v
BootDiagnostics.v
Fault.v
Watchdog.v
RingBuffer.v
DiagnosticTiming.v
HostEventLog.v
HostEventSpec.v
HostEventRestore.v
HostEventProps.v
HostEventTypes.v
HostEventDump.v
HostEventDumpProps.v
Chronicle.v
FlashLog.v
JournalQueue.v
ExclusiveHost.v
ExclusiveHostProps.v
ReconnectWatch.v
ReconnectWatchProps.v
HandoffDiagnostics.v
HandoffReport.v
HandoffRadioTx.v
HandoffProps.v
SecurityTiming.v
HidReportDiagnostics.v
HidReportProps.v
HidConnectionLog.v
HostPolicies.v
StudioConsole.v
ConsoleLogs.v
DumpReader.v
Composition.v
Survival.v
