(* ===== verification/Prelude.v ===== *)
(** * The Totem module of the ZMK configuration, verified

    The repository configures the ZMK firmware of a split keyboard and adds a C module
    (src/src/*.c, src/include/*.h) that runs on its central half.  The module keeps only the
    computer of the selected Bluetooth profile connected, recovers when that computer does not
    come back, and keeps an event journal in RAM and flash with which its behaviour can be
    reconstructed.  This library is a model of those files and the theorems that make
    them correct.

    ** How the program is put together

    Everything reports to the event journal (host_event_log.c): [record] and [record_timing]
    append to a ring in RAM, a delayable work item writes blocks of it to rotating slots of the
    flash, the next boot restores them, and a dump sends all of it as text over the console.
    Controller and interrupt code may not take the journal's mutex; it goes through the timing
    inbox (diagnostic_timing.c), which a work item drains.  The policies are exclusive_host.c
    (disconnect other computers), reconnect_watch.c (recovery after a switch or a loss),
    lazy_inactive_host.c and usb_host_quiet.c (two alternatives).  The observers wrap functions
    of ZMK, of the Bluetooth host and of the controller at link time:
    handoff_diagnostics.c, handoff_radio_tx.c, security_timing.c, security_controller_timing.c,
    hid_report_diagnostics.c, hid_connection_log.c.  What happened before a boot comes from
    boot_diagnostics.c (a counter in flash, a marker in RAM), totem_fault.c (a sealed record
    in RAM) and totem_watchdog.c (reset cause, feeders, expiry).  The console files are
    totem_studio_extras.c, totem_studio_usb.c, totem_battery_log.c, totem_endpoint_log.c,
    conn_params_log.c.

    ** Files of the library

    - [Prelude]: C integers as [Z] with explicit casts, little-endian packing, arrays, record
      update, the monad of handlers with its two logics ([wp], [keeps]; [talks] for exact
      calls), segments of lists.
    - [Events]: include/totem_host_event_log.h, and [EventSink], the interface a client of the
      journal is proved against.  [Platform]: Kconfig symbols with their ranges ([Config]), what
      a handler observes ([View]), [Crc32], include/totem_usb_quiet.h.  [Samples]: concrete
      clock, CRC and views on which the witnesses are evaluated.  [Text]: the conversions of
      snprintk and a reader for them.  [RingBuffer]: arrays read modulo their capacity.
    - [BootDiagnostics] ([Boot], [BootProps]), [Fault] ([Fault], [FaultProps]), [Watchdog]
      ([Watchdog] composed with the two before it, [WatchdogProps]).
    - [DiagnosticTiming]: [Inbox], its specification [InboxSpec] (a bounded queue with a drop
      counter), the simulation [InboxRefinement], [SettingsWrap], [InboxProps].
    - [HostEventLog] ([Journal], the code), [HostEventSpec] (well-formedness and the abstract
      bounded log), [HostEventRestore] (bytes of a block, restore path), [HostEventProps]
      (traces, the instance [journal_sink] of [EventSink], the properties), [HostEventTypes]
      (typing of its variables), [HostEventDump] and [HostEventDumpProps] (the dump).
    - [Chronicle]: the history of any sequence of boots and power cuts, numbered as the journal
      numbers it ([Chronicle]), and what every dump says about it ([DumpTruth]).
      [FlashLog]: the slots of the flash, in the order of their numbers, as the last blocks of all
      that was ever stored.  [JournalQueue]: the writer, the settings observer, the boot counter
      and the inbox as the system work queue runs them, while other contexts record and writes
      fail.
    - [ExclusiveHost], [ExclusiveHostProps]; [ReconnectWatch], [ReconnectWatchProps];
      [HandoffDiagnostics] ([Handoff]), [HandoffReport] (its counters and the report),
      [HandoffRadioTx] ([RadioTx]), [HandoffProps] (the radio interleaved with the host and the
      link layer, [TxRun]);
      [SecurityTiming]; [HidReportDiagnostics], [HidReportProps], [HidConnectionLog];
      [HostPolicies]; [StudioConsole]; [ConsoleLogs].
    - [DumpReader]: tools/read_diag_dump.py, the script on the computer that asks for a dump and
      accepts it ([Reader]), on what the console of [HostEventDump] sends ([ReaderProps]).
    - [Composition]: a handoff's report followed from the radio through the inbox into the journal
      ([Evidence]); the journal followed through a power cycle into the next boot's dump
      ([BlackBox]); exclusive host, watch and USB policy run side by side ([Policies]).
    - [Survival]: what a trace persists lies in the flash without a gap while the ring is not
      overrun and the slots are not used up ([StoreTail]); the report of a handoff from the radio
      of one boot to the dump of the next ([Survival]).

    Each component is a Module whose record holds the static variables of its file under their
    C names and whose definitions carry the names of the C functions.  A handler is a [proc]:
    it reads and writes that record, reads the clock, and emits the calls whose result it
    ignores as effects, in program order.  A function that calls into a second modelled file
    runs that file's definition on its part of a joint state ([zoom]).

    ** What the theorems show

    - Journal: recording refines appending to a bounded log; the writer stores exactly the next
      slice under the next slot, no more often than configured, and drains; over any
      interleaving of records, successful and failed writes and records made during a write,
      nothing is lost or reordered except by the ring's capacity; a power cycle restores
      what was written and reuses the number of no stored event; any stored value is safe to
      restore.
    - Over many boots: there is one numbered history of which every event line of every dump,
      complete or broken off, is true, from flash or RAM, with the lines of each source in
      ascending order; the blocks in flash are segments of it, disjoint and in order
      ([Chronicle.told]); over any flights of boots the flash holds the newest blocks of all that
      were stored, as many as there are slots ([FlashLog]).
    - The journal records its own flash writes, and settles all the same: the writer and the drain
      run a bounded number of times, whatever other threads record in between or while a
      write is under way and however many writes fail, a bounded number for each such event.
    - From end to end: the report of a handoff reaches the journal in one piece, and once the
      writer got past it, the dump of the boot after a power cut shows it in one piece,
      under known numbers.
    - Dump: a receiver sees a prefix of one text, the end marker only after all of it; a
      transport that accepts each line in time yields all of it; a reader of that text gets
      back the events of the journal.  The script read_diag_dump.py accepts it exactly when every line
      of it arrived, whatever is lost, mixed in or cut up on the way.
    - Inbox: it refines its queue under every interleaving; a drain delivers all, also with
      captures between its turns.
    - Policies: only links that policy allows are ever disconnected, evictions are capped per
      window, the exact condition of a kick; the ladder of the watch is armed exactly
      while scheduled, ends in three steps and balances its connection references; the
      USB policy drops all computers and never the split link; side by side, in any
      interleaving, they spare the split link and the selected computer and never work against
      each other.
    - Observers: they call the wrapped function once with the caller's arguments and return its
      result; counters stay consistent and are reported once; a transmission set up is
      resolved once; only metadata of the security exchange is read; no HID count is lost; the
      milestones of a link are journalled once.
    - Boot: boots are counted through any resets and failed saves, a corrupt counter is
      discarded, a fault is reported and printed once, a hang is attributed to the context that stopped.
    - Console: the buffer of the RSSI line is never overrun, the battery lines are rate
      limited, the retries towards USB end.

    ** Bounds and fuel

    Loops over arrays and lists are structural.  The bounded loops of the source keep their own
    bounds: 40 attempts of [dump_send], 21 runs of [totem_studio_prefer_usb].  The loop of
    [timing_drain] has no bound in the source: it runs until it finds the inbox empty.  Its fuel
    is one turn more than the slots and the captures that arrive between its turns
    ([timing_drain_busy]), and always suffices ([timing_drain_delivers]); without such captures
    that is 25 turns, the form in which other files use it ([timing_drain]).  [dec] prints at most 10 decimal digits, which a 32-bit number
    fits ([read_dec], [len_dec]).  The turns of the work queue in [JournalQueue] are a relation
    without fuel; the measure [credit] bounds them.  Sequence numbers of the journal are
    32-bit: the trace theorems assume fewer than 2^32 recorded events, at one a second more than
    a century.  Uptime is an unbounded [Z] where the source has int64_t, and is cut to 32 bits
    where the source cuts it.

    ** Modelling assumptions

    - A critical section (ring_mu, a spin lock) is one atomic step; the interleaving
      theorems range over all orders of these steps.  A flash write happens outside ring_mu: the
      records made while it runs are an argument of the writer.
    - The composed systems ([JournalQueue], [Composition], [Survival]) run a drain of the inbox as
      one turn, with the captures before or after it.
    - Bluetooth callbacks and work handlers run on cooperative threads: what they read of ZMK
      and the host stack is one [View] per run and arbitrary between two runs.
    - The code of ZMK, Zephyr, the Bluetooth host, the controller and the settings backend is
      not in the repository.  Its results are parameters, its documented laws (CRC in 32 bits,
      a clock that never goes back, ranges of Kconfig) are laws of classes.
    - Text of log lines is left out, except where the text is the function: the dump, the boot
      line, the fault and watchdog lines, the RSSI and battery lines, the console logs.
    - A power cut ends a trace of records and writer runs.  A cut during a write is one of the
      two traces in which that write was the last run: it succeeded if the block had reached the
      flash, and failed otherwise; the RAM is lost either way.

    ** Not modelled

    The registration of callbacks, threads and listeners; other log-only text; keymap, shields,
    devicetree, build files; the battery and merge scripts in tools/; the tests; the patches,
    which are to code that is not here. Of read_diag_dump.py the serial port and the wording of
    its messages are left out, and the digits of Unicode outside ASCII are a parameter; the
    console is assumed to frame a line the way the script's own [frame] does. Preemption inside
    a handler other than at a flash write or a disconnect request is not modelled. *)
From stdpp Require Export base list numbers strings sorting sets.
From Stdlib Require Export ZArith Lia.

#[global] Open Scope Z_scope.

(** * Fixed-width C integers

    A w-bit C integer is a [Z]; every conversion the source writes (or that an
    assignment to a narrower object performs) is one of the casts below.  The
    64-bit uptime is an unwrapped [Z]: it counts milliseconds and its signed
    overflow would be undefined behaviour in C. *)

Definition u8 (z : Z) : Z := z `mod` 2 ^ 8.
Definition u16 (z : Z) : Z := z `mod` 2 ^ 16.
Definition u32 (z : Z) : Z := z `mod` 2 ^ 32.
Definition i8 (z : Z) : Z := (z + 2 ^ 7) `mod` 2 ^ 8 - 2 ^ 7.
Definition i32 (z : Z) : Z := (z + 2 ^ 31) `mod` 2 ^ 32 - 2 ^ 31.

(** The casts reduce on numerals only, never in the middle of a proof. *)
#[global] Arguments u8 : simpl never.
#[global] Arguments u16 : simpl never.
#[global] Arguments u32 : simpl never.
#[global] Arguments i8 : simpl never.
#[global] Arguments i32 : simpl never.

Definition UINT8_MAX : Z := 255.
Definition UINT16_MAX : Z := 65535.

(** [IS_ENABLED]-style booleans used as integers. *)
Definition b2z (b : bool) : Z := if b then 1 else 0.

Create HintDb cint.
Create Rewrite HintDb cint.

(** Linear arithmetic over the casts: they are unfolded to [mod] and [mod] to
    its defining equations. *)
Ltac solve_cint :=
  unfold u8, u16, u32, i8, i32, UINT8_MAX, UINT16_MAX, b2z in *;
  Z.div_mod_to_equations; lia.

Lemma u8_range z : 0 <= u8 z < 256.
Proof. solve_cint. Qed.
Lemma u16_range z : 0 <= u16 z < 65536.
Proof. solve_cint. Qed.
Lemma u32_range z : 0 <= u32 z < 4294967296.
Proof. solve_cint. Qed.
Lemma i8_range z : -128 <= i8 z < 128.
Proof. solve_cint. Qed.
Lemma u8_small z : 0 <= z < 256 -> u8 z = z.
Proof. solve_cint. Qed.
Lemma u16_small z : 0 <= z < 65536 -> u16 z = z.
Proof. solve_cint. Qed.
Lemma u32_small z : 0 <= z < 4294967296 -> u32 z = z.
Proof. solve_cint. Qed.
Lemma i8_small z : -128 <= z < 128 -> i8 z = z.
Proof. solve_cint. Qed.
Lemma i32_small z : -2147483648 <= z < 2147483648 -> i32 z = z.
Proof. solve_cint. Qed.
Lemma u8_idemp z : u8 (u8 z) = u8 z.
Proof. solve_cint. Qed.
Lemma u16_idemp z : u16 (u16 z) = u16 z.
Proof. solve_cint. Qed.
Lemma u32_idemp z : u32 (u32 z) = u32 z.
Proof. solve_cint. Qed.
Lemma u8_i8 z : u8 (i8 z) = u8 z.
Proof. solve_cint. Qed.
Lemma i8_u8 z : i8 (u8 z) = i8 z.
Proof. solve_cint. Qed.
Lemma i8_idemp z : i8 (i8 z) = i8 z.
Proof. solve_cint. Qed.
Lemma u32_add_l a b : u32 (u32 a + b) = u32 (a + b).
Proof. solve_cint. Qed.
Lemma b2z_range b : 0 <= b2z b <= 1.
Proof. destruct b; cbn; lia. Qed.

#[export] Hint Resolve u8_range u16_range u32_range i8_range b2z_range : cint.
#[export] Hint Rewrite u8_idemp u16_idemp u32_idemp u8_i8 i8_u8 i8_idemp : cint.

(** Little-endian packing of a [uint16_t]/[uint32_t] into bytes, the encoding
    both the journal records and the flash blocks use. *)
Definition le16 (w : Z) : list Z := [u8 w; u8 (w ≫ 8)].
Definition le32 (w : Z) : list Z := [u8 w; u8 (w ≫ 8); u8 (w ≫ 16); u8 (w ≫ 24)].
#[global] Arguments le16 : simpl never.
#[global] Arguments le32 : simpl never.
Definition of_le16 (b0 b1 : Z) : Z := b0 + 256 * b1.
Definition of_le32 (b0 b1 b2 b3 : Z) : Z := b0 + 256 * (b1 + 256 * (b2 + 256 * b3)).

Lemma shiftr_div z n : 0 <= n -> z ≫ n = z `div` 2 ^ n.
Proof. intros. by rewrite Z.shiftr_div_pow2. Qed.

Lemma of_le16_le16 w : of_le16 (u8 w) (u8 (w ≫ 8)) = u16 w.
Proof. rewrite shiftr_div by lia. unfold of_le16. solve_cint. Qed.

Lemma of_le32_le32 w :
  of_le32 (u8 w) (u8 (w ≫ 8)) (u8 (w ≫ 16)) (u8 (w ≫ 24)) = u32 w.
Proof. rewrite !shiftr_div by lia. unfold of_le32. solve_cint. Qed.

Lemma length_le16 w : length (le16 w) = 2%nat.
Proof. done. Qed.
Lemma length_le32 w : length (le32 w) = 4%nat.
Proof. done. Qed.

Definition is_byte (z : Z) : Prop := 0 <= z < 256.

Lemma le16_of_le16 a b : is_byte a -> is_byte b -> le16 (of_le16 a b) = [a; b].
Proof.
  unfold is_byte, le16, of_le16. intros ??. rewrite shiftr_div by lia.
  repeat f_equal; solve_cint.
Qed.
Lemma le32_of_le32 a b c d :
  is_byte a -> is_byte b -> is_byte c -> is_byte d -> le32 (of_le32 a b c d) = [a; b; c; d].
Proof.
  unfold is_byte, le32, of_le32. intros ????. rewrite !shiftr_div by lia.
  repeat f_equal; solve_cint.
Qed.

Lemma le16_bytes w : Forall is_byte (le16 w).
Proof. repeat constructor; solve_cint. Qed.
Lemma le32_bytes w : Forall is_byte (le32 w).
Proof. repeat constructor; solve_cint. Qed.
#[export] Hint Resolve le16_bytes le32_bytes : cint.

(** * Arrays

    A C array of fixed length is a list updated by index.  Reads and writes
    outside the array are undefined behaviour in C; here they read the
    inhabitant and write nothing, and every component's well-formedness
    invariant shows that its indices stay in range. *)
Section arrays.
Context {A : Type} `{!Inhabited A}.
Implicit Types (l : list A) (i j n : Z) (x : A).

Definition aget l i : A := l !!! Z.to_nat i.
Definition aset l i x : list A := <[Z.to_nat i := x]> l.
Definition alen l : Z := Z.of_nat (length l).

#[global] Arguments aget : simpl never.
#[global] Arguments aset : simpl never.

Lemma alen_aset l i x : alen (aset l i x) = alen l.
Proof. unfold alen, aset. by rewrite length_insert. Qed.
Lemma alen_replicate n x : 0 <= n -> alen (replicate (Z.to_nat n) x) = n.
Proof. intros. unfold alen. rewrite length_replicate. lia. Qed.
Lemma aget_aset_eq l i x : 0 <= i < alen l -> aget (aset l i x) i = x.
Proof. unfold alen, aget, aset. intros. apply list_lookup_total_insert_eq. lia. Qed.
Lemma aget_aset_ne l i j x : 0 <= i -> 0 <= j -> i <> j -> aget (aset l i x) j = aget l j.
Proof. unfold aget, aset. intros. apply list_lookup_total_insert_ne. lia. Qed.
Lemma aget_aset l i j x :
  0 <= i < alen l -> 0 <= j ->
  aget (aset l i x) j = if decide (i = j) then x else aget l j.
Proof.
  intros. case_decide; subst; [by apply aget_aset_eq|apply aget_aset_ne; lia].
Qed.
Lemma lookup_aget l i : 0 <= i < alen l -> l !! Z.to_nat i = Some (aget l i).
Proof.
  unfold alen, aget. intros. apply list_lookup_lookup_total_lt. lia.
Qed.
Lemma aget_replicate n x i : 0 <= i < n -> aget (replicate (Z.to_nat n) x) i = x.
Proof. intros. unfold aget. apply lookup_total_replicate_2. lia. Qed.
Lemma Forall_aget (P : A -> Prop) l i : Forall P l -> 0 <= i < alen l -> P (aget l i).
Proof. intros HP Hi. eapply Forall_lookup_1; [done|]. by apply lookup_aget. Qed.
Lemma Forall_aset (P : A -> Prop) l i x : Forall P l -> P x -> Forall P (aset l i x).
Proof. intros. by apply Forall_insert. Qed.

(** A slice read by index. *)
Lemma slice_seqZ l k n :
  0 <= k -> 0 <= n -> k + n <= alen l ->
  (fun i => aget l (k + i)) <$> seqZ 0 n = take (Z.to_nat n) (drop (Z.to_nat k) l).
Proof.
  unfold alen. intros Hk Hn Hl. apply list_eq. intros i. rewrite list_lookup_fmap.
  destruct (decide (i < Z.to_nat n)%nat).
  - rewrite lookup_seqZ_lt by lia. rewrite lookup_take_lt by lia.
    rewrite lookup_drop. cbn. rewrite <- lookup_aget by (unfold alen; lia). f_equal. lia.
  - rewrite lookup_seqZ_ge by lia. rewrite lookup_take_ge by lia. done.
Qed.
End arrays.

#[export] Hint Rewrite @alen_aset : cint.

(** The last [n] elements of a list, what a bounded ring keeps of its input. *)
Definition lastn {A} (n : nat) (l : list A) : list A := drop (length l - n) l.

Section lastn.
Context {A : Type}.
Implicit Types l : list A.

Lemma length_lastn n l : length (lastn n l) = (n `min` length l)%nat.
Proof. unfold lastn. rewrite length_drop. lia. Qed.
Lemma lastn_all n l : (length l <= n)%nat -> lastn n l = l.
Proof. intros. unfold lastn. replace (_ - _)%nat with 0%nat by lia. done. Qed.
Lemma lastn_snoc n l x :
  (0 < n)%nat -> lastn n (lastn n l ++ [x]) = lastn n (l ++ [x]).
Proof.
  intros Hn. unfold lastn at 1 3. rewrite !length_app, length_lastn. cbn [length].
  destruct (decide (length l <= n)%nat).
  - rewrite lastn_all by done. f_equal. lia.
  - unfold lastn. rewrite !drop_app_le by (rewrite ?length_drop; lia).
    rewrite drop_drop. do 2 f_equal. lia.
Qed.
Lemma lastn_app_lastn n l (k : list A) :
  (0 < n)%nat -> lastn n (lastn n l ++ k) = lastn n (l ++ k).
Proof.
  intros Hn. revert l. induction k as [|x k IH]; intros l.
  { rewrite !app_nil_r. apply lastn_all. rewrite length_lastn. lia. }
  change (x :: k) with ([x] ++ k). rewrite !app_assoc, <- (IH (lastn n l ++ [x])).
  by rewrite lastn_snoc, IH.
Qed.
Lemma lastn_full_snoc n l x :
  length l = n -> (0 < n)%nat -> lastn n (l ++ [x]) = tail l ++ [x].
Proof.
  intros Hl Hn. unfold lastn. rewrite length_app. cbn [length].
  replace (length l + 1 - n)%nat with 1%nat by lia. by destruct l; cbn in *; [lia|].
Qed.
Lemma lookup_lastn n l i :
  (i < n `min` length l)%nat -> lastn n l !! i = l !! (length l - (n `min` length l) + i)%nat.
Proof. intros. unfold lastn. rewrite lookup_drop. f_equal. lia. Qed.
End lastn.

(** * Record update

    [r <| f := v |>] replaces one field.  A record type gives its expansion into
    its own fields once, as an instance of [Eta]. *)
Class Eta (R : Type) := eta : R -> R.
Class Setter {R E : Type} (proj : R -> E) := set_field : (E -> E) -> R -> R.

Ltac derive_setter proj :=
  let f := fresh "f" in
  let r := fresh "r" in
  intros f r;
  let e := eval hnf in (eta r) in
  lazymatch eval pattern (proj r) in e with
  | ?h _ => exact (h (f (proj r)))
  end.

#[export] Hint Extern 1 (Setter ?p) => derive_setter p : typeclass_instances.
Arguments set_field {R E} proj {_} _ _.

Declare Scope field_scope.
Delimit Scope field_scope with field.
#[global] Open Scope field_scope.
Notation "r <| p := v |>" := (set_field p (fun _ => v) r)
  (at level 1, left associativity, p constr at level 1, format "r  <| p  :=  v |>") : field_scope.

(** * Handlers

    A handler of the firmware reads and writes the static variables of its file
    ([St]), reads the uptime clock, and calls out: to the kernel, to ZMK and to
    the other files of the module.  Calls whose result the handler does not use
    are emitted as effects, in program order. *)
Record outcome (St E A : Type) := Outcome {
  val : A;
  fin : St;
  clk : nat;          (* number of clock reads made so far *)
  eff : list E;
}.
Arguments Outcome {St E A}.
Arguments val {St E A}.
Arguments fin {St E A}.
Arguments clk {St E A}.
Arguments eff {St E A}.

Definition proc (St E A : Type) : Type := St -> nat -> outcome St E A.

(** Zephyr's uptime clock: the n-th reading of [k_uptime_get], in milliseconds
    since boot.  It never goes back. *)
Class Clock := {
  uptime : nat -> Z;
  uptime_nonneg : forall n, 0 <= uptime n;
  uptime_mono : forall n m, (n <= m)%nat -> uptime n <= uptime m;
}.

Section proc.
Context {St E : Type}.

Definition ret {A} (a : A) : proc St E A := fun s t => Outcome a s t [].
Definition bind {A B} (m : proc St E A) (k : A -> proc St E B) : proc St E B :=
  fun s t =>
    let r := m s t in
    let r' := k (val r) (fin r) (clk r) in
    Outcome (val r') (fin r') (clk r') (eff r ++ eff r').
Definition get : proc St E St := fun s t => Outcome s s t [].
Definition modify (f : St -> St) : proc St E () := fun s t => Outcome () (f s) t [].
Definition emit (e : E) : proc St E () := fun s t => Outcome () s t [e].
Definition k_uptime_get `{!Clock} : proc St E Z := fun s t => Outcome (uptime t) s (S t) [].
Definition k_uptime_get_32 `{!Clock} : proc St E Z :=
  fun s t => Outcome (u32 (uptime t)) s (S t) [].
Definition when (b : bool) (m : proc St E ()) : proc St E () := if b then m else ret ().
Fixpoint for_each {A} (l : list A) (f : A -> proc St E ()) : proc St E () :=
  match l with
  | [] => ret ()
  | x :: l => bind (f x) (fun _ => for_each l f)
  end.
(** A loop that threads a local variable. *)
Fixpoint fold_each {A B} (l : list A) (f : A -> B -> proc St E B) (b : B) : proc St E B :=
  match l with
  | [] => ret b
  | x :: l => bind (f x b) (fold_each l f)
  end.
End proc.

(** Running a handler on a part of a larger state, with its effects renamed. *)
Definition zoom {S T E F A} (proj : T -> S) (inj : S -> T -> T) (ren : E -> F)
    (m : proc S E A) : proc T F A :=
  fun s t =>
    let r := m (proj s) t in Outcome (val r) (inj (fin r) s) (clk r) (ren <$> eff r).

Declare Scope proc_scope.
Delimit Scope proc_scope with proc.
#[global] Open Scope proc_scope.
Notation "x <- m ;; k" := (bind m (fun x => k))
  (at level 100, m at next level, right associativity) : proc_scope.
Notation "m ;; k" := (bind m (fun _ => k))
  (at level 100, right associativity) : proc_scope.

(** Postconditions: [wp m Q s t] says the run of [m] from state [s] and clock
    position [t] ends in a result satisfying [Q]. *)
Definition wp {St E A} (m : proc St E A) (Q : A -> St -> nat -> list E -> Prop)
    (s : St) (t : nat) : Prop :=
  Q (val (m s t)) (fin (m s t)) (clk (m s t)) (eff (m s t)).

Section wp.
Context {St E : Type}.

Lemma wp_bind {A B} (m : proc St E A) (k : A -> proc St E B) Q s t :
  wp m (fun a s' t' es => wp (k a) (fun b s'' t'' es' => Q b s'' t'' (es ++ es')) s' t') s t ->
  wp (bind m k) Q s t.
Proof. done. Qed.

Lemma wp_and {A} (m : proc St E A) (Q Q' : A -> St -> nat -> list E -> Prop) s t :
  wp m Q s t -> wp m Q' s t -> wp m (fun a s' t' es => Q a s' t' es /\ Q' a s' t' es) s t.
Proof. by split. Qed.

Lemma wp_ret {A} (a : A) (Q : A -> St -> nat -> list E -> Prop) s t :
  Q a s t [] -> wp (ret a) Q s t.
Proof. done. Qed.
Lemma wp_get (Q : St -> St -> nat -> list E -> Prop) s t : Q s s t [] -> wp get Q s t.
Proof. done. Qed.
Lemma wp_modify f (Q : () -> St -> nat -> list E -> Prop) s t :
  Q () (f s) t [] -> wp (modify f) Q s t.
Proof. done. Qed.
Lemma wp_emit e (Q : () -> St -> nat -> list E -> Prop) s t :
  Q () s t [e] -> wp (emit e) Q s t.
Proof. done. Qed.
Lemma wp_uptime `{!Clock} (Q : Z -> St -> nat -> list E -> Prop) s t :
  Q (uptime t) s (S t) [] -> wp k_uptime_get Q s t.
Proof. done. Qed.
Lemma wp_uptime_32 `{!Clock} (Q : Z -> St -> nat -> list E -> Prop) s t :
  Q (u32 (uptime t)) s (S t) [] -> wp k_uptime_get_32 Q s t.
Proof. done. Qed.
Lemma wp_mono {A} (m : proc St E A) (Q Q' : A -> St -> nat -> list E -> Prop) s t :
  wp m Q s t -> (forall a s' t' es, Q a s' t' es -> Q' a s' t' es) -> wp m Q' s t.
Proof. intros H HQ. by apply HQ. Qed.

(** An invariant of state and clock that every step of a loop preserves, together
    with a property of every effect it emits. *)
Lemma wp_for_each {A} (I : St -> nat -> Prop) (P : E -> Prop) (l : list A)
    (f : A -> proc St E ()) s t :
  I s t ->
  (forall x s t, x ∈ l -> I s t -> wp (f x) (fun _ s' t' es => I s' t' /\ Forall P es) s t) ->
  wp (for_each l f) (fun _ s' t' es => I s' t' /\ Forall P es) s t.
Proof.
  intros HI Hf. revert s t HI. induction l as [|x l IH]; intros s t HI; cbn [for_each].
  { split; [exact HI|constructor]. }
  apply wp_bind. eapply wp_mono; [apply Hf; [set_solver|exact HI]|].
  intros [] s' t' es [HI' Hes].
  eapply wp_mono; [apply IH; [|exact HI']|].
  - intros y s0 t0 Hy. apply Hf. set_solver.
  - intros [] s'' t'' es' [HI'' Hes']. split; [done|]. by apply Forall_app.
Qed.
End wp.

(** [keeps I P m]: the run of [m] from a state and clock position satisfying [I] ends in
    one satisfying [I], and every effect satisfies [P]. *)
Definition keeps {St E A} (I : St -> nat -> Prop) (P : E -> Prop) (m : proc St E A) : Prop :=
  forall s t, I s t -> wp m (fun _ s' t' es => I s' t' /\ Forall P es) s t.

(** An invariant that survives the passage of time. *)
Class Timeless {St} (I : St -> nat -> Prop) := timeless s t : I s t -> I s (S t).

Section keeps.
Context {St E : Type} (I : St -> nat -> Prop) (P : E -> Prop).

Lemma keeps_ret {A} (a : A) : keeps I P (ret a).
Proof. intros s t HI. by repeat constructor. Qed.
Lemma keeps_get : keeps I P get.
Proof. intros s t HI. by repeat constructor. Qed.
Lemma keeps_modify f : (forall s t, I s t -> I (f s) t) -> keeps I P (modify f).
Proof. intros Hf s t HI. split; [by apply Hf|constructor]. Qed.
Lemma keeps_emit e : P e -> keeps I P (emit e).
Proof. intros He s t HI. split; [done|by repeat constructor]. Qed.
Lemma keeps_uptime `{!Clock} `{!Timeless I} : keeps I P k_uptime_get.
Proof. intros s t HI. split; [by apply timeless|constructor]. Qed.
Lemma keeps_uptime_32 `{!Clock} `{!Timeless I} : keeps I P k_uptime_get_32.
Proof. intros s t HI. split; [by apply timeless|constructor]. Qed.
Lemma keeps_bind {A B} (m : proc St E A) (k : A -> proc St E B) :
  keeps I P m -> (forall a, keeps I P (k a)) -> keeps I P (bind m k).
Proof.
  intros Hm Hk s t HI. apply wp_bind. eapply wp_mono; [by apply Hm|].
  intros a s' t' es [HI' Hes]. eapply wp_mono; [by apply Hk|].
  intros b s'' t'' es' [HI'' Hes']. split; [done|]. by apply Forall_app.
Qed.
Lemma keeps_when b (m : proc St E ()) : (b = true -> keeps I P m) -> keeps I P (when b m).
Proof. intros Hm. destruct b; [by apply Hm|apply keeps_ret]. Qed.
Lemma keeps_if {A} (b : bool) (m m' : proc St E A) :
  (b = true -> keeps I P m) -> (b = false -> keeps I P m') -> keeps I P (if b then m else m').
Proof. destruct b; auto. Qed.
Lemma keeps_for_each {A} (l : list A) (f : A -> proc St E ()) :
  (forall x, x ∈ l -> keeps I P (f x)) -> keeps I P (for_each l f).
Proof. intros Hf s t HI. apply wp_for_each; [done|]. intros x s' t' Hx HI'. by apply Hf. Qed.
End keeps.

(** Decomposes a handler along its control structure; the goals left are its
    updates and its effects, and the handlers it calls that no hint covers. *)
Create HintDb keeps.
Ltac keeps_step :=
  lazymatch goal with
  | |- keeps _ _ (bind _ _) => apply keeps_bind; [|intros ?; cbv beta zeta]
  | |- keeps _ _ (ret _) => apply keeps_ret
  | |- keeps _ _ get => apply keeps_get
  | |- keeps _ _ (modify _) => apply keeps_modify
  | |- keeps _ _ (emit _) => apply keeps_emit
  | |- keeps _ _ k_uptime_get => apply keeps_uptime; try apply _
  | |- keeps _ _ k_uptime_get_32 => apply keeps_uptime_32; try apply _
  | |- keeps _ _ (when _ _) => apply keeps_when; intros ?
  | |- keeps _ _ (for_each _ _) => apply keeps_for_each; intros ? ?
  | |- keeps _ _ (if _ then _ else _) => apply keeps_if; intros ?
  end.
Ltac keeps_steps :=
  cbv zeta; repeat (first [solve [auto with keeps nocore] | keeps_step]).

(** [talks f cs m]: whatever the state, the calls [m] makes (the effects [f] selects) are
    exactly [cs], in this order. *)
Section talks.
Context {St E C : Type} (f : E -> option C).

Definition talks {A} (cs : list C) (m : proc St E A) : Prop :=
  forall s t, omap f (eff (m s t)) = cs.
Definition mute {A} (m : proc St E A) : Prop :=
  keeps (fun _ _ => True) (fun e => f e = None) m.

Lemma talks_mute {A} (m : proc St E A) : mute m -> talks [] m.
Proof.
  intros Hm s t. destruct (Hm s t I) as [_ Hes].
  induction Hes as [|e es He _ IH]; cbn; [done|]. by rewrite He.
Qed.
Lemma talks_bind {A B} cs cs' (m : proc St E A) (k : A -> proc St E B) :
  talks cs m -> (forall a, talks cs' (k a)) -> talks (cs ++ cs') (bind m k).
Proof. intros Hm Hk s t. cbn. by rewrite omap_app, Hm, Hk. Qed.
Lemma talks_emit e c : f e = Some c -> talks [c] (emit e).
Proof. intros He s t. cbn. by rewrite He. Qed.
Lemma talks_ret {A} (a : A) : talks [] (ret a).
Proof. done. Qed.
Lemma talks_for_each {A} (cs : A -> list C) (g : A -> proc St E ()) l :
  (forall x, talks (cs x) (g x)) -> talks (l ≫= cs) (for_each l g).
Proof. intros Hg. induction l as [|x l IH]; [apply talks_ret|]. by apply talks_bind. Qed.

#[export] Instance true_timeless : Timeless (fun (_ : St) (_ : nat) => True).
Proof. by intros s t. Qed.
End talks.

(** Symbolic execution of the straight-line prefix of a handler. *)
Ltac wp_step :=
  lazymatch goal with
  | |- wp (bind _ _) _ _ _ => apply wp_bind
  | |- wp (ret _) _ _ _ => apply wp_ret
  | |- wp get _ _ _ => apply wp_get
  | |- wp (modify _) _ _ _ => apply wp_modify
  | |- wp (emit _) _ _ _ => apply wp_emit
  | |- wp k_uptime_get _ _ _ => apply wp_uptime
  | |- wp k_uptime_get_32 _ _ _ => apply wp_uptime_32
  end; cbv beta.
Ltac wp_steps := cbv zeta; repeat wp_step; cbn [app].

(** Use the specification [H] of the handler that runs next. *)
Tactic Notation "wp_use" uconstr(H) := eapply wp_mono; [eapply H|cbv beta].

Lemma list_bind_ext_elem {A B} (f g : A -> list B) (l : list A) :
  (forall x, x ∈ l -> f x = g x) -> l ≫= f = l ≫= g.
Proof.
  intros Hfg. induction l as [|x l IH]; [done|]. cbn. rewrite Hfg by set_solver.
  f_equal. apply IH. set_solver.
Qed.

(** * Segments of a list *)
Definition seg {A} (i j : nat) (l : list A) : list A := take (j - i) (drop i l).

Section seg.
Context {A : Type}.
Implicit Types l : list A.

Lemma seg_same i l : seg i i l = [].
Proof. unfold seg. by rewrite Nat.sub_diag. Qed.
Lemma seg_app_l i j l (k : list A) : (j <= length l)%nat -> seg i j (l ++ k) = seg i j l.
Proof.
  intros Hj. unfold seg. destruct (decide (i <= j)%nat).
  - rewrite drop_app_le by lia. rewrite take_app_le; [done|]. rewrite length_drop. lia.
  - replace (j - i)%nat with 0%nat by lia. done.
Qed.
Lemma seg_trans i j k l : (i <= j <= k)%nat -> seg i j l ++ seg j k l = seg i k l.
Proof.
  intros Hij. unfold seg. replace (k - i)%nat with ((j - i) + (k - j))%nat by lia.
  rewrite <- take_take_drop, drop_drop. do 3 f_equal. lia.
Qed.
Lemma seg_drop n l : seg n (length l) l = drop n l.
Proof. unfold seg. apply take_ge. rewrite length_drop. lia. Qed.
Lemma drop_seg n i j l : (i <= n <= j)%nat -> drop (n - i) (seg i j l) = seg n j l.
Proof.
  intros. unfold seg. rewrite skipn_firstn_comm, drop_drop.
  replace (j - i - (n - i))%nat with (j - n)%nat by lia.
  replace (i + (n - i))%nat with n by lia. done.
Qed.
Lemma length_seg i j l : (i <= j <= length l)%nat -> length (seg i j l) = (j - i)%nat.
Proof. intros. unfold seg. rewrite length_take, length_drop. lia. Qed.
Lemma seg_nested i m n l : (i <= m)%nat -> seg m n l `sublist_of` seg i n l.
Proof.
  intros. destruct (decide (m <= n)%nat).
  - rewrite <- (drop_seg m i n l) by lia. apply sublist_drop.
  - unfold seg. replace (n - m)%nat with 0%nat by lia. apply sublist_nil_l.
Qed.
End seg.
