(* ===== verification/Events.v ===== *)
(** * The shared event schema (include/totem_host_event_log.h)

    The event kinds every component records, the packed [struct totem_host_event]
    the ring and the flash blocks hold, and its 10-byte layout. *)
From S2P Require Import Prelude.

(** [enum totem_host_evt]: stable numeric identifiers. *)
Inductive totem_host_evt :=
| TOTEM_HEVT_NONE | TOTEM_HEVT_DISC | TOTEM_HEVT_CONN | TOTEM_HEVT_CONN_FAIL
| TOTEM_HEVT_SEC_OK | TOTEM_HEVT_SEC_FAIL | TOTEM_HEVT_BG_EVICT
| TOTEM_HEVT_ACTIVE_DOWN_ARM | TOTEM_HEVT_WATCH_ARM | TOTEM_HEVT_WATCH_STEP
| TOTEM_HEVT_PROFILE_CHANGED | TOTEM_HEVT_IDENTITY | TOTEM_HEVT_CLASS_A_SUSPECT
| TOTEM_HEVT_THRASH_WIN | TOTEM_HEVT_BOOT | TOTEM_HEVT_FAULT | TOTEM_HEVT_USB
| TOTEM_HEVT_ADV | TOTEM_HEVT_SPLIT | TOTEM_HEVT_REPEAT | TOTEM_HEVT_HID_SUBSCRIBED
| TOTEM_HEVT_HID_FIRST_ATTEMPT | TOTEM_HEVT_HID_TX_RESULT | TOTEM_HEVT_ADV_RESULT
| TOTEM_HEVT_SEC_REQUEST | TOTEM_HEVT_SEC_REQUEST_RESULT | TOTEM_HEVT_FLASH_BEGIN
| TOTEM_HEVT_FLASH_END | TOTEM_HEVT_HCI_DISC | TOTEM_HEVT_CONN_HANDLE
| TOTEM_HEVT_TIMING_DROPPED | TOTEM_HEVT_HID_COUNT | TOTEM_HEVT_HID_ERROR
| TOTEM_HEVT_HANDOFF_PARAM | TOTEM_HEVT_HANDOFF_TERM | TOTEM_HEVT_HANDOFF_RADIO
| TOTEM_HEVT_ENCRYPT_EVENT | TOTEM_HEVT_SECURITY_TIMING | TOTEM_HEVT_SECURITY_EXCHANGE
| TOTEM_HEVT_HANDOFF_TX | TOTEM_HEVT_BOOT_RAW | TOTEM_HEVT_BOOT_READ_RESULT
| TOTEM_HEVT_BOOT_FAULT_STATUS | TOTEM_HEVT_BOOT_COUNTER | TOTEM_HEVT_BOOT_PREVIOUS_UPTIME
| TOTEM_HEVT_BOOT_PREVIOUS_STATE | TOTEM_HEVT_BOOT_RAM_STATUS | TOTEM_HEVT_HEARTBEAT.

#[export] Instance totem_host_evt_eq_dec : EqDecision totem_host_evt.
Proof. solve_decision. Defined.

Definition evt (k : totem_host_evt) : Z :=
  match k with
  | TOTEM_HEVT_NONE => 0 | TOTEM_HEVT_DISC => 1 | TOTEM_HEVT_CONN => 2
  | TOTEM_HEVT_CONN_FAIL => 3 | TOTEM_HEVT_SEC_OK => 4 | TOTEM_HEVT_SEC_FAIL => 5
  | TOTEM_HEVT_BG_EVICT => 6 | TOTEM_HEVT_ACTIVE_DOWN_ARM => 7 | TOTEM_HEVT_WATCH_ARM => 8
  | TOTEM_HEVT_WATCH_STEP => 9 | TOTEM_HEVT_PROFILE_CHANGED => 10 | TOTEM_HEVT_IDENTITY => 11
  | TOTEM_HEVT_CLASS_A_SUSPECT => 12 | TOTEM_HEVT_THRASH_WIN => 13 | TOTEM_HEVT_BOOT => 14
  | TOTEM_HEVT_FAULT => 15 | TOTEM_HEVT_USB => 16 | TOTEM_HEVT_ADV => 17
  | TOTEM_HEVT_SPLIT => 18 | TOTEM_HEVT_REPEAT => 19 | TOTEM_HEVT_HID_SUBSCRIBED => 20
  | TOTEM_HEVT_HID_FIRST_ATTEMPT => 21 | TOTEM_HEVT_HID_TX_RESULT => 22
  | TOTEM_HEVT_ADV_RESULT => 23 | TOTEM_HEVT_SEC_REQUEST => 24
  | TOTEM_HEVT_SEC_REQUEST_RESULT => 25 | TOTEM_HEVT_FLASH_BEGIN => 26
  | TOTEM_HEVT_FLASH_END => 27 | TOTEM_HEVT_HCI_DISC => 28 | TOTEM_HEVT_CONN_HANDLE => 29
  | TOTEM_HEVT_TIMING_DROPPED => 30 | TOTEM_HEVT_HID_COUNT => 31 | TOTEM_HEVT_HID_ERROR => 32
  | TOTEM_HEVT_HANDOFF_PARAM => 33 | TOTEM_HEVT_HANDOFF_TERM => 34
  | TOTEM_HEVT_HANDOFF_RADIO => 35 | TOTEM_HEVT_ENCRYPT_EVENT => 36
  | TOTEM_HEVT_SECURITY_TIMING => 37 | TOTEM_HEVT_SECURITY_EXCHANGE => 38
  | TOTEM_HEVT_HANDOFF_TX => 39 | TOTEM_HEVT_BOOT_RAW => 40 | TOTEM_HEVT_BOOT_READ_RESULT => 41
  | TOTEM_HEVT_BOOT_FAULT_STATUS => 42 | TOTEM_HEVT_BOOT_COUNTER => 43
  | TOTEM_HEVT_BOOT_PREVIOUS_UPTIME => 44 | TOTEM_HEVT_BOOT_PREVIOUS_STATE => 45
  | TOTEM_HEVT_BOOT_RAM_STATUS => 46 | TOTEM_HEVT_HEARTBEAT => 47
  end.
Coercion evt : totem_host_evt >-> Z.

Lemma evt_range k : 0 <= evt k <= 47.
Proof. destruct k; cbn; lia. Qed.
#[export] Instance evt_inj : Inj eq eq evt.
Proof. intros [] [] H; (reflexivity || discriminate H). Qed.

(** [struct totem_host_event], packed. *)
Record event := Event {
  uptime_ms : Z;    (* uint32_t *)
  type : Z;         (* uint8_t *)
  idx : Z;          (* int8_t *)
  active : Z;       (* int8_t *)
  reason : Z;       (* uint8_t *)
  thrash_win : Z;   (* uint8_t *)
  extra : Z;        (* uint8_t *)
}.

#[export] Instance event_inhabited : Inhabited event := populate (Event 0 0 0 0 0 0 0).
#[export] Instance event_eq_dec : EqDecision event.
Proof. solve_decision. Defined.

(** Every field holds a value of its C type. *)
Definition event_ok (e : event) : Prop :=
  0 <= uptime_ms e < 2 ^ 32 /\ is_byte (type e) /\ -128 <= idx e < 128 /\
  -128 <= active e < 128 /\ is_byte (reason e) /\ is_byte (thrash_win e) /\ is_byte (extra e).

(** The argument conversions of a call that builds an event. *)
Definition mk_event (uptime_ms type idx active reason pair extra : Z) : event :=
  Event (u32 uptime_ms) (u8 type) (i8 idx) (i8 active) (u8 reason) (u8 pair) (u8 extra).

Lemma mk_event_ok u t i a r w x : event_ok (mk_event u t i a r w x).
Proof.
  unfold event_ok, is_byte; cbn. pose proof (u32_range u).
  change (2 ^ 32) with 4294967296. eauto 10 with cint.
Qed.
#[export] Hint Resolve mk_event_ok : cint.

Lemma mk_event_id e :
  event_ok e ->
  mk_event (uptime_ms e) (type e) (idx e) (active e) (reason e) (thrash_win e) (extra e) = e.
Proof.
  destruct e. unfold event_ok, is_byte, mk_event. cbn. change (2 ^ 32) with 4294967296.
  intros (?&?&?&?&?&?&?). by rewrite u32_small, !u8_small, !i8_small by done.
Qed.

Lemma event_ok_fields e :
  event_ok e ->
  u32 (uptime_ms e) = uptime_ms e /\ u8 (type e) = type e /\ i8 (idx e) = idx e /\
  i8 (active e) = active e /\ u8 (reason e) = reason e /\ u8 (thrash_win e) = thrash_win e /\
  u8 (extra e) = extra e.
Proof. intros He%mk_event_id. by rewrite <- He at 2 4 6 8 10 12 14. Qed.

(** ** Memory layout (little-endian, packed: 10 bytes) *)
Definition EVENT_SIZE : nat := 10.

Definition event_bytes (e : event) : list Z :=
  le32 (uptime_ms e) ++
  [u8 (type e); u8 (idx e); u8 (active e); u8 (reason e); u8 (thrash_win e); u8 (extra e)].

Definition event_of_bytes (bs : list Z) : event :=
  Event (of_le32 (aget bs 0) (aget bs 1) (aget bs 2) (aget bs 3))
    (aget bs 4) (i8 (aget bs 5)) (i8 (aget bs 6)) (aget bs 7) (aget bs 8) (aget bs 9).

Lemma length_event_bytes e : length (event_bytes e) = EVENT_SIZE.
Proof. done. Qed.

Lemma event_bytes_ok e : Forall is_byte (event_bytes e).
Proof.
  unfold event_bytes. apply Forall_app. split; [eauto with cint|].
  repeat constructor; apply u8_range.
Qed.

Lemma event_of_bytes_event_bytes e : event_ok e -> event_of_bytes (event_bytes e) = e.
Proof.
  destruct e as [u t i a r w x]. unfold event_ok, is_byte. cbn [uptime_ms type idx active reason thrash_win extra].
  change (2 ^ 32) with 4294967296. intros (?&?&?&?&?&?&?).
  change (Event (of_le32 (u8 u) (u8 (u ≫ 8)) (u8 (u ≫ 16)) (u8 (u ≫ 24)))
            (u8 t) (i8 (u8 i)) (i8 (u8 a)) (u8 r) (u8 w) (u8 x) = Event u t i a r w x).
  by rewrite of_le32_le32, u32_small, !i8_u8, !i8_small, !u8_small by lia.
Qed.

Lemma event_bytes_of_bytes bs :
  length bs = EVENT_SIZE -> Forall is_byte bs -> event_bytes (event_of_bytes bs) = bs.
Proof.
  intros Hl Hb. do 10 (destruct bs as [|? bs]; [done|]). destruct bs; [|done].
  repeat match goal with H : Forall _ (_ :: _) |- _ => apply Forall_cons in H as [? H] end.
  unfold event_bytes, event_of_bytes. cbn [uptime_ms type idx active reason thrash_win extra].
  change (le32 (of_le32 z z0 z1 z2) ++ [u8 z3; u8 (i8 z4); u8 (i8 z5); u8 z6; u8 z7; u8 z8] =
          [z; z0; z1; z2; z3; z4; z5; z6; z7; z8]).
  by rewrite le32_of_le32, !u8_i8, !u8_small by done.
Qed.

Lemma event_of_bytes_ok bs :
  length bs = EVENT_SIZE -> Forall is_byte bs -> event_ok (event_of_bytes bs).
Proof.
  intros Hl Hb. do 10 (destruct bs as [|? bs]; [done|]). destruct bs; [|done].
  repeat match goal with H : Forall _ (_ :: _) |- _ => apply Forall_cons in H as [? H] end.
  unfold event_ok, is_byte in *. change (2 ^ 32) with 4294967296.
  change (0 <= of_le32 z z0 z1 z2 < 4294967296 /\ 0 <= z3 < 256 /\ -128 <= i8 z4 < 128 /\
          -128 <= i8 z5 < 128 /\ 0 <= z6 < 256 /\ 0 <= z7 < 256 /\ 0 <= z8 < 256).
  unfold of_le32. pose proof (i8_range z4). pose proof (i8_range z5). lia.
Qed.

(** ** The interface of an event log

    What the producers of events rely on: a log accepts one event at a time and
    retains the most recent ones, in order.  The journal of [HostEventLog.v] is
    the implementation. *)
Class EventSink (J : Type) := {
  sink_ok : J -> Prop;
  sink_put : event -> J -> J;
  sink_recent : J -> list event;
  sink_cap : nat;
  sink_cap_pos : (0 < sink_cap)%nat;
  sink_put_ok e j : sink_ok j -> event_ok e -> sink_ok (sink_put e j);
  sink_put_recent e j :
    sink_ok j -> event_ok e -> sink_recent (sink_put e j) = lastn sink_cap (sink_recent j ++ [e]);
  sink_bounded j : sink_ok j -> (length (sink_recent j) <= sink_cap)%nat;
}.

Section sink.
Context `{EventSink J}.

Definition sink_put_all (es : list event) (j : J) : J := foldl (fun j e => sink_put e j) j es.

Lemma sink_put_all_spec es j :
  sink_ok j -> Forall event_ok es ->
  sink_ok (sink_put_all es j) /\
  sink_recent (sink_put_all es j) = lastn sink_cap (sink_recent j ++ es).
Proof.
  intros Hj Hes. revert j Hj. induction Hes as [|e es He Hes IH]; intros j Hj; cbn.
  { split; [done|]. rewrite app_nil_r, lastn_all by (by apply sink_bounded). done. }
  destruct (IH (sink_put e j)) as [Hok Hr]; [by apply sink_put_ok|]. split; [done|].
  unfold sink_put_all in Hr |- *. rewrite Hr, sink_put_recent by done.
  rewrite lastn_app_lastn, <- app_assoc by apply sink_cap_pos. done.
Qed.
End sink.
