(* ===== verification/Platform.v ===== *)
(** * The platform the module runs on

    Kconfig symbols with their ranges, the constants of Zephyr's public headers
    the source compares against, what a handler can observe of ZMK and of the
    Bluetooth host, and the calls a handler makes. *)
From S2P Require Import Prelude Events.

(** ** Configuration (Kconfig)

    The integer symbols carry the [range] the Kconfig file gives them. *)
Class Config := {
  CONFIG_TOTEM_HOST_EVENT_LOG_SIZE : Z;
  CONFIG_TOTEM_HOST_EVENT_LOG_PERSIST_EVERY : Z;
  CONFIG_TOTEM_HOST_EVENT_LOG_PERSIST_MIN_MS : Z;
  CONFIG_TOTEM_HOST_EVENT_LOG_BLOCK_SIZE : Z;
  CONFIG_TOTEM_HOST_EVENT_LOG_SLOTS : Z;
  CONFIG_TOTEM_THRASH_DETECT : bool;
  CONFIG_TOTEM_THRASH_WINDOW_SEC : Z;
  CONFIG_TOTEM_BG_EVICT_IGNORE_MS : Z;
  CONFIG_TOTEM_BG_EVICT_CAP : Z;
  CONFIG_TOTEM_EVICT_REQUIRES_BONDED_ACTIVE : bool;
  CONFIG_TOTEM_BOND_HEAL : bool;
  CONFIG_TOTEM_BOND_HEAL_THRESHOLD : Z;
  CONFIG_TOTEM_RECONNECT_WATCH_SEC : Z;
  CONFIG_TOTEM_RECONNECT_WATCH_ON_ACTIVE_DOWN : bool;
  CONFIG_ZMK_BLE_ADV_BOOST : bool;
  CONFIG_ZMK_BLE_ADV_BOOST_SEC : Z;
  EVICT_DISCONNECT_REASON : Z;
  ZMK_BLE_PROFILE_COUNT : Z;
  CONFIG_BT_MAX_CONN : Z;
  log_size_range : 32 <= CONFIG_TOTEM_HOST_EVENT_LOG_SIZE <= 1024;
  persist_every_range : 1 <= CONFIG_TOTEM_HOST_EVENT_LOG_PERSIST_EVERY <= 128;
  persist_min_ms_range : 5000 <= CONFIG_TOTEM_HOST_EVENT_LOG_PERSIST_MIN_MS <= 600000;
  block_size_range : 8 <= CONFIG_TOTEM_HOST_EVENT_LOG_BLOCK_SIZE <= 32;
  slots_range : 4 <= CONFIG_TOTEM_HOST_EVENT_LOG_SLOTS <= 8;
  thrash_window_range : 3 <= CONFIG_TOTEM_THRASH_WINDOW_SEC <= 60;
  bg_evict_ignore_range : 0 <= CONFIG_TOTEM_BG_EVICT_IGNORE_MS <= 60000;
  bg_evict_cap_range : 1 <= CONFIG_TOTEM_BG_EVICT_CAP <= 16;
  bond_heal_range : 2 <= CONFIG_TOTEM_BOND_HEAL_THRESHOLD <= 10;
  watch_sec_range : 4 <= CONFIG_TOTEM_RECONNECT_WATCH_SEC <= 30;
  evict_reason_range : 0 <= EVICT_DISCONNECT_REASON < 256;
  profile_count_pos : 0 < ZMK_BLE_PROFILE_COUNT <= 127;
  max_conn_pos : 0 < CONFIG_BT_MAX_CONN;
}.

(** config/totem.conf and config/totem_left.conf; five ZMK profiles, six links. *)
#[export, refine] Instance totem_left_conf : Config := {|
  CONFIG_TOTEM_HOST_EVENT_LOG_SIZE := 1024;
  CONFIG_TOTEM_HOST_EVENT_LOG_PERSIST_EVERY := 64;
  CONFIG_TOTEM_HOST_EVENT_LOG_PERSIST_MIN_MS := 300000;
  CONFIG_TOTEM_HOST_EVENT_LOG_BLOCK_SIZE := 16;
  CONFIG_TOTEM_HOST_EVENT_LOG_SLOTS := 8;
  CONFIG_TOTEM_THRASH_DETECT := true;
  CONFIG_TOTEM_THRASH_WINDOW_SEC := 10;
  CONFIG_TOTEM_BG_EVICT_IGNORE_MS := 10000;
  CONFIG_TOTEM_BG_EVICT_CAP := 4;
  CONFIG_TOTEM_EVICT_REQUIRES_BONDED_ACTIVE := true;
  CONFIG_TOTEM_BOND_HEAL := false;
  CONFIG_TOTEM_BOND_HEAL_THRESHOLD := 3;
  CONFIG_TOTEM_RECONNECT_WATCH_SEC := 8;
  CONFIG_TOTEM_RECONNECT_WATCH_ON_ACTIVE_DOWN := true;
  CONFIG_ZMK_BLE_ADV_BOOST := true;
  CONFIG_ZMK_BLE_ADV_BOOST_SEC := 20;
  EVICT_DISCONNECT_REASON := 0x13;
  ZMK_BLE_PROFILE_COUNT := 5;
  CONFIG_BT_MAX_CONN := 6;
|}.
Proof. all: lia. Defined.

(** ** Constants of the public headers *)
Definition BT_CONN_ROLE_CENTRAL : Z := 0.
Definition BT_CONN_ROLE_PERIPHERAL : Z := 1.
Definition BT_CONN_STATE_CONNECTED : Z := 2.
Definition BT_CONN_TYPE_LE : Z := 1.
Definition BT_SECURITY_L2 : Z := 2.
Definition BT_HCI_ERR_AUTH_FAIL : Z := 0x05.
Definition BT_HCI_ERR_REMOTE_USER_TERM_CONN : Z := 0x13.

(** Error numbers. *)
Definition ENOENT : Z := 2.
Definition EAGAIN : Z := 11.
Definition EMSGSIZE : Z := 122.

Definition K_MSEC (ms : Z) : Z := ms.
Definition K_SECONDS (s : Z) : Z := 1000 * s.
Definition K_MINUTES (m : Z) : Z := 60000 * m.

(** Zephyr's [crc32_ieee] over a byte buffer. *)
Class Crc32 := {
  crc32_ieee : list Z -> Z;
  crc32_ieee_range bs : 0 <= crc32_ieee bs < 2 ^ 32;
}.

(** ** What a handler observes

    A [bt_conn] is named by its slot in the host's connection table. *)
Definition conn : Type := nat.

Record bt_conn_info := ConnInfo {
  info_type : Z;
  info_role : Z;
  info_state : Z;
  le_interval : Z;
  le_latency : Z;
  le_timeout : Z;
}.

Inductive zmk_transport := ZMK_TRANSPORT_NONE | ZMK_TRANSPORT_USB | ZMK_TRANSPORT_BLE.
#[export] Instance zmk_transport_eq_dec : EqDecision zmk_transport.
Proof. solve_decision. Defined.

(** The Bluetooth callbacks and work handlers run on cooperative threads, so what
    they read of ZMK and of the host stack does not change while one runs; it may
    change arbitrarily between two of them.  Every handler takes the view it runs
    in; only the clock moves inside a handler. *)
Class View := {
  bt_addr_le_t : Type;
  le_conns : list conn;                        (* what bt_conn_foreach visits *)
  bt_conn_get_info : conn -> option bt_conn_info;  (* None: nonzero error *)
  bt_conn_get_dst : conn -> bt_addr_le_t;
  bt_conn_get_security : conn -> Z;
  bt_hci_get_conn_handle : conn -> option Z;   (* None: nonzero error *)
  bt_conn_disconnect_err : conn -> Z -> Z;     (* what bt_conn_disconnect returns *)
  zmk_ble_profile_index : bt_addr_le_t -> Z;
  zmk_ble_active_profile_index : Z;
  zmk_ble_active_profile_is_open : bool;
  zmk_ble_active_profile_is_connected : bool;
  zmk_ble_host_adv_suppressed : bool;
  zmk_endpoint_get_selected_transport : zmk_transport;
  zmk_usb_is_powered : bool;
}.

(** [include/totem_usb_quiet.h]. *)
Definition totem_hid_is_usb `{!View} : bool :=
  bool_decide (zmk_endpoint_get_selected_transport = ZMK_TRANSPORT_USB).
Definition totem_usb_cable_up `{!View} : bool := zmk_usb_is_powered.

(** How a signed result is split into a class byte and a magnitude byte. *)
Definition err_class (err : Z) : Z := if err <? 0 then 1 else if 0 <? err then 2 else 0.
Definition err_magnitude (err : Z) : Z := if err <? 0 then - err else err.
Definition err_byte (err : Z) : Z := u8 (Z.min (err_magnitude err) UINT8_MAX).

(** ** What a handler does *)
Inductive work :=
| exclusive_host_evict_work | exclusive_host_retry_work | exclusive_host_fallback_work
| bond_heal_clear_active_work | reconnect_watch_work | active_down_arm_work
| persist_work | timing_work | summary_work | usb_host_quiet_work | lazy_host_work.
#[export] Instance work_eq_dec : EqDecision work.
Proof. solve_decision. Defined.

Inductive effect :=
| k_work_submit (w : work)
| k_work_schedule (w : work) (ms : Z)          (* keeps a pending deadline *)
| k_work_reschedule (w : work) (ms : Z)        (* replaces the deadline *)
| k_work_cancel_delayable (w : work)
| log_record (type idx active reason thrash_win extra : Z)
| log_record_timing (uptime_ms type idx active reason pair extra : Z)
| timing_capture_call (uptime_ms type idx active reason pair extra : Z)
| log_persist
| boot_diagnostics_persist                       (* totem_boot_diagnostics_persist() *)
| boot_diagnostics_loaded (uptime profile endpoint : Z)
| settings_write (name : string) (value : list Z)   (* the storage backend is called *)
| bt_conn_disconnect (c : conn) (reason : Z)
| bt_conn_ref (c : conn)
| bt_conn_unref (c : conn)
| zmk_ble_clear_bonds
| zmk_ble_adv_boost_rearm
| zmk_ble_adv_kick.
#[export] Instance effect_eq_dec : EqDecision effect.
Proof. solve_decision. Defined.

Section calls.
Context {St : Type}.

(** The argument conversions of [totem_host_event_log_record]'s prototype. *)
Definition totem_host_event_log_record_call (type idx active reason thrash_win extra : Z)
    : proc St effect () :=
  emit (log_record (u8 type) (i8 idx) (i8 active) (u8 reason) (u8 thrash_win) (u8 extra)).

(** [totem_diag_log_record]: the same with no thrash count. *)
Definition totem_diag_log_record (type idx active reason extra : Z) : proc St effect () :=
  totem_host_event_log_record_call type idx active reason 0 extra.

Definition totem_host_event_log_record_timing_call
    (uptime_ms type idx active reason pair extra : Z) : proc St effect () :=
  emit (log_record_timing (u32 uptime_ms) (u8 type) (i8 idx) (i8 active) (u8 reason)
          (u8 pair) (u8 extra)).

Definition totem_diagnostic_timing_capture_call
    (uptime_ms type idx active reason pair extra : Z) : proc St effect () :=
  emit (timing_capture_call (u32 uptime_ms) (u8 type) (i8 idx) (i8 active) (u8 reason)
          (u8 pair) (u8 extra)).
End calls.
