(* ===== verification/Samples.v ===== *)
(** * Concrete instances of the platform

    A clock, a CRC and a view of the Bluetooth host on which the examples of the
    development are evaluated. *)
From S2P Require Import Prelude Events Platform.

(** A clock that advances by [step] milliseconds per reading, from [start]. *)
#[local, refine] Instance ticking (start step : N) : Clock :=
  {| uptime n := Z.of_N start + Z.of_N step * Z.of_nat n |}.
Proof.
  - intros n. nia.
  - intros n m Hnm. nia.
Defined.

(** CRC-32/ISO-HDLC, the polynomial of [crc32_ieee]. *)
Definition crc_bit (c : Z) : Z := if Z.odd c then Z.lxor (c ≫ 1) 0xEDB88320 else c ≫ 1.
Definition crc_byte (c b : Z) : Z := Nat.iter 8 crc_bit (Z.lxor c b).
#[local, refine] Instance ieee_crc : Crc32 :=
  {| crc32_ieee bs := u32 (Z.lxor (foldl crc_byte 0xFFFFFFFF bs) 0xFFFFFFFF) |}.
Proof. intros. apply u32_range. Defined.

(** The check value of the algorithm: CRC-32 of "123456789". *)
Example ieee_crc_check :
  @crc32_ieee ieee_crc [49; 50; 51; 52; 53; 54; 55; 56; 57] = 0xCBF43926.
Proof. vm_compute. reflexivity. Qed.

(** A log as a plain bounded list: the reference implementation of [EventSink]. *)
#[local, refine] Instance list_sink (n : nat) : EventSink (list event) := {|
  sink_ok l := (length l <= S n)%nat;
  sink_put e l := lastn (S n) (l ++ [e]);
  sink_recent l := l;
  sink_cap := S n;
|}.
Proof.
  - lia.
  - intros e l ? ?. rewrite length_lastn. lia.
  - done.
  - done.
Defined.

(** A view of the host stack given by the links, each with its information, its
    security level and the profile its address maps to, and by the selected profile. *)
Record link := Link { link_info : bt_conn_info; link_security : Z; link_profile : Z }.
#[export] Instance link_inhabited : Inhabited link := populate (Link (ConnInfo 0 0 0 0 0 0) 0 0).

Definition host_view (links : list link) (active : Z) (open connected suppressed : bool)
    (transport : zmk_transport) (powered : bool) : View := {|
  bt_addr_le_t := Z;
  le_conns := seq 0 (length links);
  bt_conn_get_info c := link_info <$> links !! c;
  bt_conn_get_dst c := link_profile (links !!! c);
  bt_conn_get_security c := link_security (links !!! c);
  bt_hci_get_conn_handle c := Some (Z.of_nat c);
  bt_conn_disconnect_err _ _ := 0;
  zmk_ble_profile_index a := a;
  zmk_ble_active_profile_index := active;
  zmk_ble_active_profile_is_open := open;
  zmk_ble_active_profile_is_connected := connected;
  zmk_ble_host_adv_suppressed := suppressed;
  zmk_endpoint_get_selected_transport := transport;
  zmk_usb_is_powered := powered;
|}.

Definition peripheral_info : bt_conn_info :=
  ConnInfo BT_CONN_TYPE_LE BT_CONN_ROLE_PERIPHERAL BT_CONN_STATE_CONNECTED 12 0 400.
Definition central_info : bt_conn_info :=
  ConnInfo BT_CONN_TYPE_LE BT_CONN_ROLE_CENTRAL BT_CONN_STATE_CONNECTED 6 30 400.
