(* ===== verification/Text.v ===== *)
(** * Text of the diagnostic lines

    The conversions of [snprintk] the source uses (%u, %d, %08x, %s, %c), their lengths,
    and a reader that undoes them. *)
From Stdlib Require Import Ascii String.
From S2P Require Import Prelude.
Local Open Scope string_scope.
Local Open Scope Z_scope.

Definition digit (d : Z) : ascii :=
  ascii_of_N (Z.to_N (if d <? 10 then 48 + d else 87 + d)).
(** The decimal digits of a number below 10^fuel, without leading zeros. *)
Fixpoint dec (fuel : nat) (z : Z) : string :=
  match fuel with
  | O => ""
  | S fuel =>
      (if z <? 10 then "" else dec fuel (z `div` 10)) ++ String (digit (z `mod` 10)) ""
  end.
(** [%u] of a 32-bit value and [%d] of an [int]: ten digits are enough. *)
Definition fmt_u (z : Z) : string := dec 10 z.
Definition fmt_d (z : Z) : string := if z <? 0 then "-" ++ fmt_u (- z) else fmt_u z.
(** The [n] low hexadecimal digits: [%08x] of a 32-bit value is [hex 8]. *)
Fixpoint hex (n : nat) (z : Z) : string :=
  match n with
  | O => ""
  | S n => hex n (z `div` 16) ++ String (digit (z `mod` 16)) ""
  end.
Definition fmt_08x (z : Z) : string := hex 8 z.

Definition len (s : string) : Z := Z.of_nat (String.length s).

(** ** Lengths *)
Lemma len_app s s' : len (s ++ s') = len s + len s'.
Proof.
  unfold len. rewrite <- Nat2Z.inj_add. f_equal.
  induction s as [|a s IH]; cbn; [done|]. by rewrite <- IH.
Qed.
Lemma len_nonneg s : 0 <= len s.
Proof. unfold len. lia. Qed.

(** A number with at most [k] digits takes at most [k] characters. *)
Lemma len_dec fuel z (k : nat) : (0 < k)%nat -> z < 10 ^ Z.of_nat k -> len (dec fuel z) <= Z.of_nat k.
Proof.
  revert fuel z. induction k as [|k IH]; intros fuel z Hk Hz; [lia|].
  destruct fuel as [|fuel]; cbn [dec]; [change (len "") with 0; lia|]. rewrite len_app.
  change (len (String (digit (z `mod` 10)) "")) with 1.
  destruct (Z.ltb_spec z 10); [change (len "") with 0; lia|].
  destruct (decide (k = 0%nat)) as [->|Hne]; [cbn in Hz; lia|].
  rewrite Nat2Z.inj_succ, Z.pow_succ_r in Hz by lia.
  assert (z `div` 10 < 10 ^ Z.of_nat k) by (apply Z.div_lt_upper_bound; lia).
  specialize (IH fuel (z `div` 10) ltac:(lia) ltac:(done)). lia.
Qed.
Lemma len_fmt_u z k : (0 < k)%nat -> z < 10 ^ Z.of_nat k -> len (fmt_u z) <= Z.of_nat k.
Proof. apply len_dec. Qed.
Lemma len_u32 z : z < 2 ^ 32 -> len (fmt_u z) <= 10.
Proof. intros. apply (len_fmt_u z 10); lia. Qed.
Lemma len_u16 z : z < 2 ^ 16 -> len (fmt_u z) <= 5.
Proof. intros. apply (len_fmt_u z 5); lia. Qed.
Lemma len_u8 z : z < 256 -> len (fmt_u z) <= 3.
Proof. intros. apply (len_fmt_u z 3); lia. Qed.
Lemma len_i8 z : -128 <= z < 128 -> len (fmt_d z) <= 4.
Proof.
  intros. unfold fmt_d. destruct (Z.ltb_spec z 0).
  - rewrite len_app. pose proof (len_fmt_u (- z) 3 ltac:(lia) ltac:(lia)). cbn [len String.length] in *.
    change (len "-") with 1. lia.
  - pose proof (len_fmt_u z 3 ltac:(lia) ltac:(lia)). lia.
Qed.
Lemma len_i32 z : - 2 ^ 31 <= z < 2 ^ 31 -> len (fmt_d z) <= 11.
Proof.
  intros. unfold fmt_d. destruct (Z.ltb_spec z 0).
  - rewrite len_app. pose proof (len_fmt_u (- z) 10 ltac:(lia) ltac:(lia)). change (len "-") with 1. lia.
  - pose proof (len_fmt_u z 10 ltac:(lia) ltac:(lia)). lia.
Qed.
Lemma len_hex n z : len (hex n z) = Z.of_nat n.
Proof.
  revert z. induction n as [|n IH]; intros z; cbn [hex]; [done|]. rewrite len_app, IH.
  change (len (String (digit (z `mod` 16)) "")) with 1. lia.
Qed.

(** ** Reading the numbers back *)
Definition digit_value (a : ascii) : Z := Z.of_N (N_of_ascii a) - 48.
Definition is_digit (a : ascii) : bool := (0 <=? digit_value a) && (digit_value a <? 10).
Fixpoint read_digits (acc : Z) (s : string) : option Z :=
  match s with
  | "" => Some acc
  | String a s => if is_digit a then read_digits (10 * acc + digit_value a) s else None
  end.
Definition read_u (s : string) : option Z := if len s =? 0 then None else read_digits 0 s.
Definition read_d (s : string) : option Z :=
  match s with
  | String "-" s => Z.opp <$> read_u s
  | _ => read_u s
  end.

Lemma digit_small d : 0 <= d < 10 -> digit_value (digit d) = d.
Proof.
  intros Hd. unfold digit_value, digit. destruct (Z.ltb_spec d 10); [|lia].
  rewrite N_ascii_embedding by lia. lia.
Qed.
Lemma digit_is_digit d : 0 <= d < 10 -> is_digit (digit d) = true.
Proof. intros Hd. unfold is_digit. rewrite digit_small by done. lia. Qed.

Lemma read_digits_cons acc a s :
  read_digits acc (String a s) =
  if is_digit a then read_digits (10 * acc + digit_value a) s else None.
Proof. done. Qed.
Lemma cons_app a s s' : String a s ++ s' = String a (s ++ s').
Proof. done. Qed.
Lemma nil_app s : "" ++ s = s.
Proof. done. Qed.

Lemma read_digits_app acc s d :
  0 <= d < 10 ->
  read_digits acc (s ++ String (digit d) "") = (fun v => 10 * v + d) <$> read_digits acc s.
Proof.
  intros Hd. revert acc. induction s as [|a s IH]; intros acc.
  - rewrite nil_app, read_digits_cons, digit_is_digit, digit_small by done. done.
  - rewrite cons_app, !read_digits_cons. destruct (is_digit a); [apply IH|done].
Qed.
Lemma read_dec fuel z : 0 <= z < 10 ^ Z.of_nat fuel -> (0 < fuel)%nat -> read_digits 0 (dec fuel z) = Some z.
Proof.
  revert z. induction fuel as [|fuel IH]; intros z Hz Hf; [lia|]. cbn [dec].
  rewrite read_digits_app by (apply Z.mod_pos_bound; lia).
  rewrite Nat2Z.inj_succ, Z.pow_succ_r in Hz by lia.
  destruct (Z.ltb_spec z 10).
  - by rewrite Z.mod_small by lia.
  - destruct (decide (fuel = 0%nat)) as [->|]; [cbn in Hz; lia|].
    assert (0 <= z `div` 10 < 10 ^ Z.of_nat fuel).
    { split; [apply Z.div_pos; lia|apply Z.div_lt_upper_bound; lia]. }
    rewrite IH by (done || lia).
    cbn. f_equal. pose proof (Z.div_mod z 10 ltac:(lia)). lia.
Qed.
Lemma read_fmt_u z : 0 <= z < 2 ^ 32 -> read_u (fmt_u z) = Some z.
Proof.
  intros Hz. unfold read_u, fmt_u. rewrite read_dec by lia.
  destruct (Z.eqb_spec (len (dec 10 z)) 0) as [He|]; [|done].
  cbn [dec] in He. rewrite len_app in He. change (len (String (digit (z `mod` 10)) "")) with 1 in He.
  match type of He with len ?x + 1 = 0 => pose proof (len_nonneg x) end. lia.
Qed.

(** Every character of a number is a digit, so a number never contains a separator. *)
Fixpoint all_chars (P : ascii -> bool) (s : string) : bool :=
  match s with "" => true | String a s => P a && all_chars P s end.
Lemma all_chars_app P s s' : all_chars P (s ++ s') = all_chars P s && all_chars P s'.
Proof.
  induction s as [|a s IH]; [done|]. rewrite cons_app. cbn. by rewrite IH, andb_assoc.
Qed.
Lemma dec_digits fuel z : 0 <= z -> all_chars is_digit (dec fuel z) = true.
Proof.
  revert z. induction fuel as [|fuel IH]; intros z Hz; cbn [dec]; [done|].
  rewrite all_chars_app. cbn -[is_digit digit]. rewrite digit_is_digit by (apply Z.mod_pos_bound; lia).
  rewrite andb_true_r. destruct (z <? 10); [done|]. apply IH. apply Z.div_pos; lia.
Qed.

Lemma read_fmt_d z : - 2 ^ 31 <= z < 2 ^ 31 -> read_d (fmt_d z) = Some z.
Proof.
  intros Hz. unfold fmt_d. destruct (Z.ltb_spec z 0).
  - rewrite cons_app, nil_app. unfold read_d. rewrite read_fmt_u by lia. cbn. f_equal. lia.
  - pose proof (read_fmt_u z ltac:(lia)) as Hr. pose proof (dec_digits 10 z ltac:(lia)) as Hd.
    fold (fmt_u z) in Hd. destruct (fmt_u z) as [|a s]; [done|]. cbn [all_chars] in Hd.
    apply andb_true_iff in Hd as [Ha _]. unfold read_d.
    destruct a as [[] [] [] [] [] [] [] []]; try exact Hr; discriminate Ha.
Qed.

(** ** Splitting a line into words and fields *)
Definition glue (a : string) (ws : list string) : list string :=
  match ws with w :: ws => (a ++ w) :: ws | [] => [a] end.
Fixpoint words (s : string) : list string :=
  match s with
  | "" => [""]
  | String a s => if Ascii.eqb a " "%char then "" :: words s else glue (String a "") (words s)
  end.
(** The value of a word [k=value]. *)
Definition field (k : ascii) (w : string) : option string :=
  match w with
  | String a (String b v) => if Ascii.eqb a k && Ascii.eqb b "="%char then Some v else None
  | _ => None
  end.

Definition no_space (a : ascii) : bool := negb (Ascii.eqb a " "%char).
Lemma words_cons a s :
  words (String a s) = if Ascii.eqb a " "%char then "" :: words s else glue (String a "") (words s).
Proof. done. Qed.
Lemma str_app_assoc s s' s'' : s ++ (s' ++ s'') = (s ++ s') ++ s''.
Proof. induction s as [|a s IH]; [done|]. rewrite !cons_app. by rewrite IH. Qed.
Lemma glue_glue a b ws : glue a (glue b ws) = glue (a ++ b) ws.
Proof. destruct ws as [|w ws]; cbn; [done|]. by rewrite str_app_assoc. Qed.
Lemma glue_nil ws : ws <> [] -> glue "" ws = ws.
Proof. by destruct ws. Qed.
Lemma words_nonempty s : words s <> [].
Proof. destruct s as [|a s]; [done|]. rewrite words_cons. destruct (Ascii.eqb a _); [done|]. by destruct (words s). Qed.
Lemma words_app s s' : all_chars no_space s = true -> words (s ++ s') = glue s (words s').
Proof.
  induction s as [|a s IH]; intros Ha; [by rewrite nil_app, glue_nil by apply words_nonempty|].
  cbn [all_chars] in Ha. apply andb_true_iff in Ha as [Ha Hs]. unfold no_space in Ha.
  rewrite cons_app, words_cons, IH by done. destruct (Ascii.eqb a _); [done|]. by rewrite glue_glue.
Qed.
Lemma all_chars_impl (P Q : ascii -> bool) s :
  (forall a, P a = true -> Q a = true) -> all_chars P s = true -> all_chars Q s = true.
Proof.
  intros HPQ. induction s as [|a s IH]; [done|]. cbn. rewrite !andb_true_iff. intros [? ?]. auto.
Qed.
Lemma digit_no_space a : is_digit a = true -> no_space a = true.
Proof. destruct a as [[] [] [] [] [] [] [] []]; intros H; try reflexivity; discriminate H. Qed.
Lemma words_fmt_u z s : 0 <= z -> words (fmt_u z ++ s) = glue (fmt_u z) (words s).
Proof. intros. apply words_app. eapply all_chars_impl; [apply digit_no_space|by apply dec_digits]. Qed.
Lemma words_fmt_d z s : words (fmt_d z ++ s) = glue (fmt_d z) (words s).
Proof.
  unfold fmt_d. destruct (Z.ltb_spec z 0); [|by apply words_fmt_u].
  rewrite cons_app, nil_app, cons_app, words_cons, words_fmt_u by lia. cbn -[words fmt_u].
  apply glue_glue.
Qed.
Lemma str_app_nil s : s ++ "" = s.
Proof. induction s as [|a s IH]; [done|]. rewrite cons_app. by rewrite IH. Qed.
Lemma words_u z : 0 <= z -> words (fmt_u z) = [fmt_u z].
Proof.
  intros. rewrite <- (str_app_nil (fmt_u z)) at 1. rewrite words_fmt_u by done. cbn. by rewrite str_app_nil.
Qed.
