(* ===== verification/BootDiagnostics.v ===== *)
(** * Boot diagnostics (src/boot_diagnostics.c)

    What is known about the previous and the current boot: the reset reason, whether RAM
    survived, and a boot counter in flash.  [Boot] is the code, [BootProps] what it
    guarantees across power cycles. *)
From S2P Require Import Prelude Events Platform Samples Text.
Local Open Scope Z_scope.

Module Boot.

Definition BOOT_RAM_MAGIC : Z := 0x5442524d.
Definition complement32 (z : Z) : Z := u32 (Z.lnot z).

(** The static variables of the file; [boot_ram] is not cleared by a reset. *)
Record boot := MkBoot {
  ram_magic : Z; ram_inverse : Z;         (* boot_ram *)
  counter_count : Z; counter_crc_word : Z;   (* boot_counter *)
  raw_reset : Z;
  raw_available : Z;
  ram_survived : Z;
  counter_status : Z;
  counter_pending : bool;
  boot_loaded : bool;
  reset_read_result : Z;
  fault_status : Z;
  saved_previous_uptime : Z;
  saved_previous_profile : Z;
  saved_previous_endpoint : Z;
}.
#[export] Instance boot_eta : Eta boot := fun s =>
  MkBoot (ram_magic s) (ram_inverse s) (counter_count s) (counter_crc_word s) (raw_reset s)
    (raw_available s) (ram_survived s) (counter_status s) (counter_pending s) (boot_loaded s)
    (reset_read_result s) (fault_status s) (saved_previous_uptime s) (saved_previous_profile s)
    (saved_previous_endpoint s).

(** After a reset: [boot_ram] as the RAM left it, the rest initialised. *)
Definition boot_init (magic inverse : Z) : boot :=
  MkBoot magic inverse 0 0 0 0 0 0 false false 0 0 0 (-1) (-1).

Section code.
Context `{!Crc32}.

Definition totem_boot_diagnostics_reset_result (result : Z) : proc boot effect () :=
  modify (fun s => s <| reset_read_result := result |>).
Definition totem_boot_diagnostics_fault_status (status : Z) : proc boot effect () :=
  modify (fun s => s <| fault_status := status |>).

(** [raw] is [nrfx_reset_reason_get()], on the SoC that has it. *)
Definition boot_capture_early (raw : option Z) : proc boot effect () :=
  match raw with
  | Some raw => modify (fun s => s <| raw_reset := raw |> <| raw_available := 1 |>)
  | None => ret ()
  end ;;
  modify (fun s => s <| ram_survived := b2z ((ram_magic s =? BOOT_RAM_MAGIC) &&
                                             (ram_inverse s =? complement32 BOOT_RAM_MAGIC)) |>) ;;
  modify (fun s => s <| ram_magic := BOOT_RAM_MAGIC |>
                     <| ram_inverse := complement32 BOOT_RAM_MAGIC |>).

Definition counter_crc (s : boot) : Z := crc32_ieee (le32 (counter_count s)).

Definition boot_record_word (kind value status : Z) : proc boot effect () :=
  totem_host_event_log_record_call kind (i8 value) (i8 (value ≫ 8)) status (u8 (value ≫ 16))
    (u8 (value ≫ 24)).

Definition totem_boot_diagnostics_loaded (previous_uptime previous_profile previous_endpoint : Z)
    : proc boot effect () :=
  s <- get ;;
  if boot_loaded s then ret () else
  modify (fun s => s <| boot_loaded := true |> <| saved_previous_uptime := previous_uptime |>
                     <| saved_previous_profile := previous_profile |>
                     <| saved_previous_endpoint := previous_endpoint |>) ;;
  modify (fun s => s <| counter_count := u32 (counter_count s + 1) |>) ;;
  modify (fun s => s <| counter_crc_word := counter_crc s |> <| counter_pending := true |>) ;;
  s <- get ;;
  boot_record_word TOTEM_HEVT_BOOT_RAW (raw_reset s) (raw_available s) ;;
  boot_record_word TOTEM_HEVT_BOOT_COUNTER (counter_count s) (counter_status s) ;;
  boot_record_word TOTEM_HEVT_BOOT_PREVIOUS_UPTIME previous_uptime 0 ;;
  totem_host_event_log_record_call TOTEM_HEVT_BOOT_PREVIOUS_STATE previous_profile
    previous_endpoint 0 0 0 ;;
  totem_host_event_log_record_call TOTEM_HEVT_BOOT_RAM_STATUS (-1) (-1) (ram_survived s) 0 0.

(** The stored value: [boot_counter], eight bytes. *)
Definition counter_bytes (s : boot) : list Z := le32 (counter_count s) ++ le32 (counter_crc_word s).
Definition counter_size : Z := 8.

(** [err] is what [settings_save_one] returns. *)
Definition totem_boot_diagnostics_persist (err : Z) : proc boot effect Z :=
  s <- get ;;
  if counter_pending s then
    emit (settings_write "tboot/count" (counter_bytes s)) ;;
    if negb (err =? 0) then ret err else
    modify (fun s => s <| counter_pending := false |>) ;;
    ret 0
  else ret 0.

(** [read] is what [read_cb] returns and the eight bytes it leaves in [boot_counter]. *)
Definition boot_settings_set (name : string) (len : Z) (read : Z * list Z) : proc boot effect Z :=
  if negb (bool_decide (name = "count"%string)) then ret (- ENOENT) else
  s <- get ;;
  if boot_loaded s then ret 0 else
  if negb (len =? counter_size) then
    modify (fun s => s <| counter_status := 2 |>) ;; ret 0
  else
  let '(rc, bs) := read in
  modify (fun s => s <| counter_count := of_le32 (aget bs 0) (aget bs 1) (aget bs 2) (aget bs 3) |>
                     <| counter_crc_word := of_le32 (aget bs 4) (aget bs 5) (aget bs 6) (aget bs 7) |>) ;;
  s <- get ;;
  (if negb (rc =? counter_size) || negb (counter_crc_word s =? counter_crc s) then
     modify (fun s => s <| counter_count := 0 |> <| counter_crc_word := 0 |>
                        <| counter_status := 2 |>)
   else modify (fun s => s <| counter_status := 1 |>)) ;;
  ret (if rc <? 0 then rc else 0).

(** The two lines of the dump. *)
Definition totem_boot_diagnostics_format (s : boot) (previous : bool) : string :=
  if previous then
    "totem_boot previous uptime=" +:+ fmt_u (saved_previous_uptime s) +:+
    " profile=" +:+ fmt_d (saved_previous_profile s) +:+
    " endpoint=" +:+ fmt_d (saved_previous_endpoint s)
  else
    "totem_boot current count=" +:+ fmt_u (counter_count s) +:+ " raw=" +:+ fmt_08x (raw_reset s) +:+
    " available=" +:+ fmt_u (raw_available s) +:+ " read=" +:+ fmt_d (reset_read_result s) +:+
    " ram=" +:+ fmt_u (ram_survived s) +:+ " fault=" +:+ fmt_u (fault_status s) +:+
    " counter=" +:+ fmt_u (counter_status s).
End code.
End Boot.

Module BootProps.
Import Boot.

Section facts.
Context `{!Crc32}.
Implicit Types (s : boot) (t : nat) (es : list effect).

(** ** Words in the journal *)
Definition word_of (kind : totem_host_evt) (e : effect) : option (Z * Z) :=
  match e with
  | log_record k i a status lo hi =>
      if k =? evt kind then Some (of_le32 (u8 i) (u8 a) lo hi, status) else None
  | _ => None
  end.
Definition boot_words (kind : totem_host_evt) es : list (Z * Z) := omap (word_of kind) es.

Lemma words_record_word kind k v status s t :
  boot_words kind (eff (boot_record_word (evt k) v status s t)) =
  if bool_decide (k = kind) then [(u32 v, u8 status)] else [].
Proof.
  unfold boot_record_word, boot_words. cbn -[evt]. unfold word_of.
  assert (u8 (evt k) = evt k) as -> by (pose proof (evt_range k); apply u8_small; lia).
  case_bool_decide as Hk.
  - subst. rewrite Z.eqb_refl. rewrite !u8_idemp, !i8_idemp, !u8_i8, of_le32_le32. done.
  - destruct (Z.eqb_spec (evt k) (evt kind)) as [He|]; [|done]. by apply (inj evt) in He.
Qed.

(** ** Power cycles *)
(** What a boot is given: the retained RAM, the reset register, what the journal
    restored, and the results of the saves the journal asks for. *)
Record power_cycle := PowerCycle {
  pc_magic : Z; pc_inverse : Z; pc_raw : option Z;
  pc_uptime : Z; pc_profile : Z; pc_endpoint : Z;
  pc_saves : list Z;
}.
Definition stored : Type := option (list Z).      (* the value under tboot/count *)

Definition boot_up (f : stored) (b : power_cycle) : proc boot effect () :=
  boot_capture_early (pc_raw b) ;;
  match f with
  | Some v => _ <- boot_settings_set "count" (alen v) (alen v, v) ;; ret ()
  | None => ret ()
  end ;;
  totem_boot_diagnostics_loaded (pc_uptime b) (pc_profile b) (pc_endpoint b).

(** One save: a successful one replaces the stored value. *)
Definition save_value (f : stored) (e : effect) : stored :=
  match e with settings_write "tboot/count" v => Some v | _ => f end.
Definition save (w : boot * stored) (err : Z) : boot * stored :=
  let r := totem_boot_diagnostics_persist err w.1 0%nat in
  (fin r, if err =? 0 then foldl save_value w.2 (eff r) else w.2).
Definition run_cycle (f : stored) (b : power_cycle) : stored :=
  (foldl save (fin (boot_up f b (boot_init (pc_magic b) (pc_inverse b)) 0%nat), f) (pc_saves b)).2.

Definition saved (b : power_cycle) : Z := b2z (existsb (Z.eqb 0) (pc_saves b)).
Definition saved_cycles (bs : list power_cycle) : Z := foldr (fun b n => saved b + n) 0 bs.

Definition counter_value (c : Z) : list Z := le32 c ++ le32 (crc32_ieee (le32 c)).
(** The stored value after [n] cycles that saved. *)
Definition stored_ok (n : Z) (f : stored) : Prop :=
  0 <= n /\ f = if n =? 0 then None else Some (counter_value (u32 n)).

Lemma of_le32_bytes c rest :
  let bs := le32 c ++ rest in
  of_le32 (aget bs 0) (aget bs 1) (aget bs 2) (aget bs 3) = u32 c.
Proof. intros bs. rewrite <- of_le32_le32. done. Qed.
Lemma of_le32_bytes_4 b c :
  let bs := le32 b ++ le32 c in
  of_le32 (aget bs 4) (aget bs 5) (aget bs 6) (aget bs 7) = u32 c.
Proof. intros bs. rewrite <- of_le32_le32. done. Qed.

(** Bringing the stored counter back. *)
Lemma settings_set_counter c s t :
  boot_loaded s = false -> 0 <= c < 2 ^ 32 ->
  wp (boot_settings_set "count" (alen (counter_value c)) (alen (counter_value c), counter_value c))
    (fun rc s' t' es => rc = 0 /\ es = [] /\
       s' = s <| counter_count := c |> <| counter_crc_word := crc32_ieee (le32 c) |>
              <| counter_status := 1 |>) s t.
Proof.
  intros Hl Hc. pose proof (crc32_ieee_range (le32 c)). unfold boot_settings_set.
  change (alen (counter_value c)) with counter_size. rewrite bool_decide_true by done. cbn [negb].
  apply wp_bind, wp_get. cbv beta. rewrite Hl, Z.eqb_refl. cbn [negb].
  unfold counter_value. rewrite of_le32_bytes, of_le32_bytes_4, !u32_small by lia.
  wp_steps. unfold counter_crc. cbn [counter_crc_word counter_count set_field negb orb].
  cbn. rewrite Z.eqb_refl. cbn. wp_steps. done.
Qed.

Definition counted (c : Z) s : Prop :=
  counter_count s = c /\ counter_crc_word s = crc32_ieee (le32 c) /\ boot_loaded s = true.

Lemma boot_words_app kind es es' : boot_words kind (es ++ es') = boot_words kind es ++ boot_words kind es'.
Proof. apply omap_app. Qed.
Lemma record_word_spec k v status s t :
  wp (boot_record_word (evt k) v status) (fun _ s' t' es => s' = s /\
    forall kind, boot_words kind es = if bool_decide (k = kind) then [(u32 v, u8 status)] else []) s t.
Proof. split; [done|]. intros kind. apply words_record_word. Qed.

Lemma loaded_spec s t u p e :
  boot_loaded s = false ->
  wp (totem_boot_diagnostics_loaded u p e) (fun _ s' t' es =>
    counted (u32 (counter_count s + 1)) s' /\ counter_pending s' = true /\
    boot_words TOTEM_HEVT_BOOT_COUNTER es = [(u32 (counter_count s + 1), u8 (counter_status s))] /\
    boot_words TOTEM_HEVT_BOOT_RAW es = [(u32 (raw_reset s), u8 (raw_available s))] /\
    boot_words TOTEM_HEVT_BOOT_PREVIOUS_UPTIME es = [(u32 u, 0)]) s t.
Proof.
  intros Hl. unfold totem_boot_diagnostics_loaded. apply wp_bind, wp_get. cbv beta. rewrite Hl.
  do 4 (apply wp_bind; first [apply wp_modify | apply wp_get]; cbv beta).
  set (s1 := _ <| counter_pending := true |>).
  do 3 (apply wp_bind; wp_use record_word_spec; intros [] ? ? ? [-> ?]).
  unfold totem_host_event_log_record_call. wp_steps. rewrite !boot_words_app.
  repeat match goal with H : forall kind, boot_words kind _ = _ |- _ => rewrite !H; clear H end.
  unfold s1, counted. cbn -[u8 u32]. rewrite !u32_idemp. split_and!; done.
Qed.

Lemma boot_up_spec n f b :
  stored_ok n f ->
  let r := boot_up f b (boot_init (pc_magic b) (pc_inverse b)) 0%nat in
  counted (u32 (n + 1)) (fin r) /\ counter_pending (fin r) = true /\
  boot_words TOTEM_HEVT_BOOT_COUNTER (eff r) = [(u32 (n + 1), b2z (negb (n =? 0)))] /\
  boot_words TOTEM_HEVT_BOOT_PREVIOUS_UPTIME (eff r) = [(u32 (pc_uptime b), 0)].
Proof.
  intros [Hn ->] r.
  enough (wp (boot_up (if n =? 0 then None else Some (counter_value (u32 n))) b) (fun _ s' t' es =>
    counted (u32 (n + 1)) s' /\ counter_pending s' = true /\
    boot_words TOTEM_HEVT_BOOT_COUNTER es = [(u32 (n + 1), b2z (negb (n =? 0)))] /\
    boot_words TOTEM_HEVT_BOOT_PREVIOUS_UPTIME es = [(u32 (pc_uptime b), 0)])
    (boot_init (pc_magic b) (pc_inverse b)) 0%nat) as Hwp by exact Hwp.
  clear r. unfold boot_up, boot_capture_early.
  apply wp_bind.
  eapply (wp_mono _ (fun _ s' _ es => es = [] /\ boot_loaded s' = false /\ counter_count s' = 0 /\
    counter_status s' = 0)); [destruct (pc_raw b); by wp_steps|].
  intros [] s1 t1 es1 (->&Hl&Hc&Hst). apply wp_bind.
  destruct (Z.eqb_spec n 0) as [->|Hne].
  - apply wp_ret. wp_use loaded_spec; [done|]. intros [] s2 t2 es2. rewrite Hc, Hst.
    intros (?&?&?&_&?). by split_and!.
  - apply wp_bind. wp_use settings_set_counter; [done|apply u32_range|].
    intros rc s2 t2 es2 (->&->&->). apply wp_ret. wp_use loaded_spec; [done|].
    intros [] s3 t3 es3. cbn -[u32 u8]. rewrite u32_add_l. intros (?&?&?&_&?). by split_and!.
Qed.

(** A save, by whether one succeeded before. *)
Lemma saves_spec c f errs s :
  counted c s ->
  let w := foldl save (s, f) errs in
  w.2 = (if counter_pending s && existsb (Z.eqb 0) errs then Some (counter_value c) else f).
Proof.
  revert s f. induction errs as [|err errs IH]; intros s f Hc; [by rewrite andb_false_r|].
  cbn [foldl existsb]. rewrite (Z.eqb_sym 0). unfold save at 2. unfold totem_boot_diagnostics_persist. cbn.
  destruct Hc as (Hc1&Hc2&Hc3).
  destruct (counter_pending s) eqn:Hp; cbn.
  - destruct (Z.eqb_spec err 0) as [->|]; cbn.
    + rewrite IH by done. cbn. unfold counter_bytes. by rewrite Hc1, Hc2.
    + rewrite IH by done. by rewrite Hp.
  - destruct (err =? 0); rewrite IH by done; by rewrite Hp.
Qed.

Lemma run_cycle_ok n f b : stored_ok n f -> stored_ok (n + saved b) (run_cycle f b).
Proof.
  intros Hf. destruct (boot_up_spec n f b Hf) as (Hc&Hp&_). unfold run_cycle.
  rewrite (saves_spec _ _ _ _ Hc), Hp. cbn [andb]. unfold saved.
  destruct Hf as [Hn ->]. destruct (existsb (Z.eqb 0) (pc_saves b)); cbn [b2z].
  - split; [lia|]. by destruct (Z.eqb_spec (n + 1) 0); [lia|].
  - by rewrite Z.add_0_r.
Qed.

(** C21 Over any history of power cycles from an empty store, each ended by a reset at any time and with any
    of its saves failing, the next boot journals exactly one boot-counter record: the
    32-bit number of earlier boots whose counter reached flash, plus one, marked as
    restored exactly when there was one; and it reports the previous uptime it was given. *)
Theorem boots_counted (bs : list power_cycle) (b : power_cycle) :
  let f := foldl run_cycle None bs in
  let es := eff (boot_up f b (boot_init (pc_magic b) (pc_inverse b)) 0%nat) in
  boot_words TOTEM_HEVT_BOOT_COUNTER es = [(u32 (saved_cycles bs + 1), b2z (negb (saved_cycles bs =? 0)))] /\
  boot_words TOTEM_HEVT_BOOT_PREVIOUS_UPTIME es = [(u32 (pc_uptime b), 0)].
Proof.
  assert (forall n f, stored_ok n f -> stored_ok (n + saved_cycles bs) (foldl run_cycle f bs)) as Hrun.
  { induction bs as [|b' bs IH]; intros n f Hf; cbn; [by rewrite Z.add_0_r|].
    rewrite Z.add_assoc. by apply IH, run_cycle_ok. }
  intros f es. pose proof (Hrun 0 None ltac:(by split)) as Hf.
  destruct (boot_up_spec _ _ b Hf) as (_&_&Hw&Hu). by split.
Qed.

(** A counter value that is short, long, unreadable or fails its CRC is never used: it is
    discarded, flagged, and the count starts again from one; a value presented after the
    boot was counted changes nothing. *)
Theorem corrupt_counter_discarded len rc bs s t u p e :
  (len = counter_size -> rc = counter_size ->
   of_le32 (aget bs 4) (aget bs 5) (aget bs 6) (aget bs 7) <>
   crc32_ieee (le32 (of_le32 (aget bs 0) (aget bs 1) (aget bs 2) (aget bs 3)))) ->
  let r := boot_settings_set "count" len (rc, bs) s t in
  if boot_loaded s then fin r = s /\ val r = 0 /\ eff r = []
  else counter_status (fin r) = 2 /\ eff r = [] /\ val r = (if (len =? counter_size) && (rc <? 0) then rc else 0) /\
       (counter_count s = 0 ->
        boot_words TOTEM_HEVT_BOOT_COUNTER (eff (totem_boot_diagnostics_loaded u p e (fin r) (clk r))) = [(1, 2)]).
Proof.
  intros Hbad r. unfold r, boot_settings_set. rewrite bool_decide_true by done. cbn [negb].
  destruct (boot_loaded s) eqn:Hl; cbn -[totem_boot_diagnostics_loaded]; rewrite Hl; [done|].
  assert (forall s1 t1, boot_loaded s1 = false -> counter_count s1 = 0 -> counter_status s1 = 2 ->
    boot_words TOTEM_HEVT_BOOT_COUNTER (eff (totem_boot_diagnostics_loaded u p e s1 t1)) = [(1, 2)]) as Hone.
  { intros s1 t1 H1 H2 H3. destruct (loaded_spec s1 t1 u p e H1) as (_&_&Hw&_). by rewrite Hw, H2, H3. }
  destruct (Z.eqb_spec len counter_size) as [->|Hlen]; cbn -[totem_boot_diagnostics_loaded].
  2:{ split_and!; try done. intros H0. by apply Hone. }
  unfold counter_crc. cbn -[totem_boot_diagnostics_loaded aget of_le32].
  destruct (negb (rc =? counter_size) || negb (_ =? _)) eqn:Hc;
    cbn -[totem_boot_diagnostics_loaded].
  - split_and!; try done. intros _. by apply Hone.
  - apply orb_false_iff in Hc as [Hc1 Hc2]. apply negb_false_iff, Z.eqb_eq in Hc1, Hc2.
    exfalso. by apply Hbad.
Qed.
End facts.

#[local] Existing Instance ieee_crc.

(** A torn write: the count without its CRC. *)
Definition torn : list Z := [7; 0; 0; 0; 0; 0; 0; 0].
Lemma corrupt_counter_discarded_witness :
  let r := boot_settings_set "count" 8 (8, torn) (boot_init 0 0) 0%nat in
  counter_status (fin r) = 2 /\
  boot_words TOTEM_HEVT_BOOT_COUNTER (eff (totem_boot_diagnostics_loaded 0 0 0 (fin r) (clk r))) = [(1, 2)].
Proof.
  assert (8 = counter_size -> 8 = counter_size ->
    of_le32 (aget torn 4) (aget torn 5) (aget torn 6) (aget torn 7) <>
    crc32_ieee (le32 (of_le32 (aget torn 0) (aget torn 1) (aget torn 2) (aget torn 3)))) as Hbad
    by (intros _ _; vm_compute; discriminate).
  destruct (corrupt_counter_discarded 8 8 torn (boot_init 0 0) 0%nat 0 0 0 Hbad) as (Hs&_&_&Hw).
  exact (conj Hs (Hw eq_refl)).
Defined.
End BootProps.
