(* ===== verification/Fault.v ===== *)
(** * Crash and hang records (src/totem_fault.c)

    A record in RAM that is not cleared by a reset, sealed with a CRC, and reported once
    by the next boot.  [Fault] is the code, [FaultProps] what it guarantees across resets. *)
From Stdlib Require Import Ascii String.
From S2P Require Import Prelude Events Platform Samples Text.
Local Open Scope Z_scope.

Module Fault.

Definition TOTEM_FAULT_MAGIC : Z := 0x544F4654.

Inductive totem_fault_kind := TOTEM_FAULT_NONE | TOTEM_FAULT_CRASH | TOTEM_FAULT_TASK_WDT.
Definition fault_kind (k : totem_fault_kind) : Z :=
  match k with TOTEM_FAULT_NONE => 0 | TOTEM_FAULT_CRASH => 1 | TOTEM_FAULT_TASK_WDT => 2 end.
Coercion fault_kind : totem_fault_kind >-> Z.

(** [struct totem_fault_record]; [label] is its 20 characters. *)
Record totem_fault_record := FaultRecord {
  magic : Z; crc : Z;        (* uint32_t: the envelope *)
  kind : Z;                  (* uint8_t *)
  channel : Z;               (* int8_t *)
  reason : Z;                (* uint16_t *)
  pc : Z; lr : Z; uptime_ms : Z; thread : Z;   (* uint32_t *)
  label : list Z;
}.
#[export] Instance fault_record_eta : Eta totem_fault_record := fun r =>
  FaultRecord (magic r) (crc r) (kind r) (channel r) (reason r) (pc r) (lr r) (uptime_ms r)
    (thread r) (label r).
Definition LABEL_SIZE : nat := 20.
Definition fault_zero : totem_fault_record :=
  FaultRecord 0 0 0 0 0 0 0 0 0 (replicate LABEL_SIZE 0).

(** The static variables: [fault_rec] is [__noinit], [last_fault] is not. *)
Record faults := MkFaults { fault_rec : totem_fault_record; last_fault : totem_fault_record }.
#[export] Instance faults_eta : Eta faults := fun s => MkFaults (fault_rec s) (last_fault s).
(** After a reset with the RAM holding [r]. *)
Definition fault_boot (r : totem_fault_record) : faults := MkFaults r fault_zero.

Inductive fault_effect :=
| host (e : effect)
| totem_boot_diagnostics_fault_status (status : Z)
| printk (line : string)
| sys_reboot.

(** [strncpy(dst, src, n)]: [src] up to its end or [n] characters, then zeros up to [n];
    the rest of [dst] stays. *)
Definition strncpy (dst src : list Z) (n : nat) : list Z :=
  take n (src ++ replicate n 0) ++ drop n dst.

(** The C string at the start of a character array, and its text. *)
Fixpoint cstring (bytes : list Z) : list Z :=
  match bytes with [] => [] | b :: bytes => if b =? 0 then [] else b :: cstring bytes end.
Definition text_of (bytes : list Z) : string :=
  string_of_list_ascii ((fun b => ascii_of_N (Z.to_N b)) <$> cstring bytes).

(** Zephyr's fatal error reasons. *)
Definition K_ERR_CPU_EXCEPTION : Z := 0.
Definition K_ERR_SPURIOUS_IRQ : Z := 1.
Definition K_ERR_STACK_CHK_FAIL : Z := 2.
Definition K_ERR_KERNEL_OOPS : Z := 3.
Definition K_ERR_KERNEL_PANIC : Z := 4.

Definition fault_reason_str (reason : Z) : string :=
  if reason =? K_ERR_CPU_EXCEPTION then "CPU_EXCEPTION"
  else if reason =? K_ERR_SPURIOUS_IRQ then "SPURIOUS_IRQ"
  else if reason =? K_ERR_STACK_CHK_FAIL then "STACK_OVERFLOW"
  else if reason =? K_ERR_KERNEL_OOPS then "KERNEL_OOPS"
  else if reason =? K_ERR_KERNEL_PANIC then "KERNEL_PANIC"
  else "UNKNOWN".

(** The console line of a reported record. *)
Definition fault_line (r : totem_fault_record) : string :=
  if kind r =? TOTEM_FAULT_CRASH then
    ("totem_fault CRASH reason=" +:+ fmt_u (reason r) +:+ "(" +:+ fault_reason_str (reason r) +:+
     ") pc=0x" +:+ fmt_08x (pc r) +:+ " lr=0x" +:+ fmt_08x (lr r) +:+ " thread=" +:+ text_of (label r) +:+
     "(0x" +:+ fmt_08x (thread r) +:+ ") at_uptime=" +:+ fmt_u (uptime_ms r) +:+ " ms")%string
  else if kind r =? TOTEM_FAULT_TASK_WDT then
    ("totem_fault HANG task_wdt channel=" +:+ fmt_d (channel r) +:+ " (" +:+ text_of (label r) +:+
     ") stopped feeding; at_uptime=" +:+ fmt_u (uptime_ms r) +:+ " ms")%string
  else ("totem_fault unknown kind=" +:+ fmt_u (kind r))%string.

(** What the handlers see of the interrupted thread: its id and its name, if it has one. *)
Record thread_view := ThreadView { tid : Z; thread_name : option (list Z) }.

(** [struct zmk_studio_log_fault], where that module owns the fatal error handler. *)
Record studio_fault := StudioFault {
  crash_reason : Z; crash_pc : Z; crash_lr : Z; crash_uptime_ms : Z; crash_thread : Z;
  crash_thread_name : list Z;
}.

Section code.
Context `{!Clock} `{!Crc32}.

(** The bytes from [kind] to the end of the structure; there is no padding. *)
Definition payload_bytes (r : totem_fault_record) : list Z :=
  [u8 (kind r); u8 (channel r)] ++ le16 (reason r) ++ le32 (pc r) ++ le32 (lr r) ++
  le32 (uptime_ms r) ++ le32 (thread r) ++ label r.
Definition fault_crc (r : totem_fault_record) : Z := crc32_ieee (payload_bytes r).
Definition fault_valid (r : totem_fault_record) : bool :=
  (magic r =? TOTEM_FAULT_MAGIC) && (crc r =? fault_crc r).
Definition fault_seal (r : totem_fault_record) : totem_fault_record :=
  let r := r <| magic := TOTEM_FAULT_MAGIC |> in r <| crc := fault_crc r |>.

Definition fault_fill_thread (v : thread_view) (r : totem_fault_record) : totem_fault_record :=
  let r := r <| thread := u32 (tid v) |> <| label := <[0%nat := 0]> (label r) |> in
  match thread_name v with
  | Some (c :: name) =>
      r <| label := <[(LABEL_SIZE - 1)%nat := 0]> (strncpy (label r) (c :: name) (LABEL_SIZE - 1)) |>
  | _ => r
  end.

Definition set_record (f : totem_fault_record -> totem_fault_record) : proc faults fault_effect () :=
  modify (fun s => s <| fault_rec := f (fault_rec s) |>).

(** [name] is the label argument, [None] for [NULL]. *)
Definition totem_fault_note_task_wdt (v : thread_view) (channel_id : Z) (name : option (list Z))
    : proc faults fault_effect () :=
  now <- k_uptime_get_32 ;;
  set_record (fun _ => fault_fill_thread v
    (fault_zero <| kind := TOTEM_FAULT_TASK_WDT |> <| channel := i8 channel_id |> <| reason := 0 |>
                <| uptime_ms := now |>)) ;;
  match name with
  | Some name => set_record (fun r =>
      r <| label := <[(LABEL_SIZE - 1)%nat := 0]> (strncpy (label r) name (LABEL_SIZE - 1)) |>)
  | None => ret ()
  end ;;
  set_record fault_seal.

(** [esf] is the program counter and the link register of the exception frame, if any. *)
Definition k_sys_fatal_error_handler (v : thread_view) (why : Z) (esf : option (Z * Z))
    : proc faults fault_effect () :=
  now <- k_uptime_get_32 ;;
  set_record (fun _ => fault_fill_thread v
    (fault_zero <| kind := TOTEM_FAULT_CRASH |> <| channel := -1 |> <| reason := u16 why |>
                <| uptime_ms := now |>)) ;;
  match esf with
  | Some (epc, elr) => set_record (fun r => r <| pc := u32 epc |> <| lr := u32 elr |>)
  | None => ret ()
  end ;;
  set_record fault_seal ;;
  emit sys_reboot.

(** [crash] is what [zmk_studio_log_boot_fault] stores, [None] when it returns false. *)
Definition fault_import_module_crash (crash : option studio_fault) : proc faults fault_effect () :=
  s <- get ;;
  if fault_valid (fault_rec s) then ret () else
  match crash with
  | None => ret ()
  | Some c =>
      set_record (fun _ =>
        fault_zero <| kind := TOTEM_FAULT_CRASH |> <| channel := -1 |>
          <| reason := u16 (crash_reason c) |> <| pc := u32 (crash_pc c) |> <| lr := u32 (crash_lr c) |>
          <| uptime_ms := u32 (crash_uptime_ms c) |> <| thread := u32 (crash_thread c) |>
          <| label := strncpy (label fault_zero) (crash_thread_name c) (LABEL_SIZE - 1) |>) ;;
      set_record fault_seal
  end.

Definition on_host {A} (m : proc faults effect A) : proc faults fault_effect A :=
  zoom id (fun s _ => s) host m.

(** [module] is [Some] of the crash of the module in the builds that define
    CONFIG_ZMK_STUDIO_LOG_FAULT_CAPTURE. *)
Definition totem_fault_report_and_clear (module : option (option studio_fault))
    : proc faults fault_effect () :=
  match module with Some crash => fault_import_module_crash crash | None => ret () end ;;
  s <- get ;;
  let r := fault_rec s in
  let status := if magic r =? 0 then 0
                else if negb (magic r =? TOTEM_FAULT_MAGIC) then 1
                else if fault_valid r then 3 else 2 in
  emit (totem_boot_diagnostics_fault_status status) ;;
  on_host (totem_host_event_log_record_call TOTEM_HEVT_BOOT_FAULT_STATUS (-1) (-1) status
             (if status =? 3 then kind r else 0) 0) ;;
  if negb (fault_valid r) then emit (printk "totem_fault none") else
  modify (fun s => s <| last_fault := fault_rec s |>) ;;
  emit (printk (fault_line r)) ;;
  on_host (totem_host_event_log_record_call TOTEM_HEVT_FAULT (i8 (channel r)) (-1)
             (u8 (reason r)) 0 (kind r)) ;;
  set_record (fun r => r <| magic := 0 |> <| crc := 0 |>).

Definition totem_fault_last_record (s : faults) : totem_fault_record := last_fault s.
End code.
End Fault.

Module FaultProps.
Import Fault.

Section facts.
Context `{!Clock} `{!Crc32}.
Implicit Types (s : faults) (r : totem_fault_record) (t : nat).

Definition fault_report (e : fault_effect) : option (Z * Z * Z) :=
  match e with
  | host (log_record k i _ w _ x) =>
      if k =? evt TOTEM_HEVT_FAULT then Some (x, i, w) else None
  | _ => None
  end.
Definition reports (es : list fault_effect) : list (Z * Z * Z) := omap fault_report es.
Definition status_of (e : fault_effect) : option Z :=
  match e with totem_boot_diagnostics_fault_status n => Some n | _ => None end.
Definition printed (e : fault_effect) : option string :=
  match e with printk line => Some line | _ => None end.
Definition console (es : list fault_effect) : list string := omap printed es.
Definition statuses (es : list fault_effect) : list Z := omap status_of es.

Lemma seal_valid r : fault_valid (fault_seal r) = true.
Proof. unfold fault_valid, fault_seal. cbn. by rewrite !Z.eqb_refl. Qed.

(** What a boot reports of the record the RAM holds. *)
Lemma report_valid r t :
  fault_valid r = true -> 0 <= kind r < 256 -> -128 <= channel r < 128 ->
  wp (totem_fault_report_and_clear None) (fun _ s' t' es =>
    reports es = [(kind r, channel r, u8 (reason r))] /\ statuses es = [3] /\
    last_fault s' = r /\ magic (fault_rec s') = 0 /\ console es = [fault_line r]) (fault_boot r) t.
Proof.
  intros Hv Hk Hc. unfold totem_fault_report_and_clear. apply wp_bind, wp_ret, wp_bind, wp_get.
  cbv beta zeta. cbn [fault_boot fault_rec]. rewrite Hv.
  assert (magic r = TOTEM_FAULT_MAGIC) as ->
    by (unfold fault_valid in Hv; by apply andb_true_iff in Hv as [?%Z.eqb_eq _]).
  unfold wp. cbn -[u8 i8 fault_line].
  rewrite !u8_idemp, !i8_idemp, (u8_small (kind r)), (i8_small (channel r)) by lia. done.
Qed.
Lemma report_invalid r t :
  fault_valid r = false ->
  wp (totem_fault_report_and_clear None) (fun _ s' t' es =>
    reports es = [] /\ last_fault s' = fault_zero /\ fault_rec s' = r /\
    console es = ["totem_fault none"%string] /\
    statuses es = [if magic r =? 0 then 0 else if magic r =? TOTEM_FAULT_MAGIC then 2 else 1])
    (fault_boot r) t.
Proof.
  intros Hv. unfold totem_fault_report_and_clear. apply wp_bind, wp_ret, wp_bind, wp_get.
  cbv beta zeta. cbn [fault_boot fault_rec]. rewrite Hv.
  unfold wp. cbn -[u8 i8 fault_valid]. split_and!; try done.
  destruct (magic r =? 0); [done|]. by destruct (magic r =? TOTEM_FAULT_MAGIC).
Qed.

(** The two ways a record is made. *)
Inductive fault_note :=
| note_hang (v : thread_view) (channel_id : Z) (name : option (list Z))
| note_crash (v : thread_view) (why : Z) (esf : option (Z * Z)).
Definition take_note (n : fault_note) : proc faults fault_effect () :=
  match n with
  | note_hang v c name => totem_fault_note_task_wdt v c name
  | note_crash v why esf => k_sys_fatal_error_handler v why esf
  end.
(** What identifies the note in the journal: kind, channel, low byte of the reason. *)
Definition note_id (n : fault_note) : Z * Z * Z :=
  match n with
  | note_hang _ c _ => (fault_kind TOTEM_FAULT_TASK_WDT, i8 c, 0)
  | note_crash _ why _ => (fault_kind TOTEM_FAULT_CRASH, -1, u8 (u16 why))
  end.

Lemma note_id_range n k c w : note_id n = (k, c, w) -> 0 <= k < 256 /\ -128 <= c < 128.
Proof.
  destruct n as [v ch name|v why esf]; cbn; intros [= <- <- _]; [pose proof (i8_range ch)|]; lia.
Qed.

Lemma fill_thread_fields v r :
  let r' := fault_fill_thread v r in
  kind r' = kind r /\ channel r' = channel r /\ reason r' = reason r /\ pc r' = pc r /\ lr r' = lr r /\
  uptime_ms r' = uptime_ms r.
Proof. unfold fault_fill_thread. by destruct (thread_name v) as [[|c name]|]. Qed.

(** A note leaves a sealed record that identifies it, whatever the RAM held. *)
Lemma take_note_spec n s t :
  wp (take_note n) (fun _ s' t' es => reports es = [] /\
    let r := fault_rec s' in
    fault_valid r = true /\ (kind r, channel r, u8 (reason r)) = note_id n /\
    uptime_ms r = u32 (uptime t) /\ last_fault s' = last_fault s) s t.
Proof.
  destruct n as [v c name|v why esf]; cbn [take_note];
    unfold totem_fault_note_task_wdt, k_sys_fatal_error_handler, set_record;
    [destruct name as [name|]|destruct esf as [[epc elr]|]];
    wp_steps;
    match goal with |- context [fault_fill_thread v ?r] =>
      destruct (fill_thread_fields v r) as (H1&H2&H3&H4&H5&H6);
      set (r0 := fault_fill_thread v r) in * end;
    (split; [done|]); cbn [fault_rec set_field faults_eta eta];
    (split; [apply seal_valid|]); cbn in *; rewrite H1, H2, H3, H6; done.
Qed.

(** C22 A crash or a hang noted before a reset the RAM survives is journalled by the next boot
    exactly once, with its kind, its watchdog channel and the low byte of its reason; the record stays
    readable for the whole of that boot, which prints it as one line, and the boot after it, RAM
    still intact, reports and prints a clean start.  This holds whatever the RAM held before the note. *)
Theorem fault_reported_once n s t t1 t2 :
  let noted := fin (take_note n s t) in
  let boot1 := totem_fault_report_and_clear None (fault_boot (fault_rec noted)) t1 in
  let boot2 := totem_fault_report_and_clear None (fault_boot (fault_rec (fin boot1))) t2 in
  reports (eff boot1) = [note_id n] /\ statuses (eff boot1) = [3] /\
  console (eff boot1) = [fault_line (fault_rec noted)] /\
  totem_fault_last_record (fin boot1) = fault_rec noted /\
  reports (eff boot2) = [] /\ statuses (eff boot2) = [0] /\
  console (eff boot2) = ["totem_fault none"%string] /\
  totem_fault_last_record (fin boot2) = fault_zero.
Proof.
  intros noted boot1 boot2. destruct (take_note_spec n s t) as (_&Hv&Hid&_&_).
  fold noted in Hv, Hid. set (r := fault_rec noted) in *.
  destruct (note_id_range n _ _ _ (eq_sym Hid)) as [Hk Hc].
  destruct (report_valid r t1 Hv Hk Hc) as (Hr1&Hst1&Hl1&Hm&Hc1).
  fold boot1 in Hr1, Hst1, Hl1, Hm, Hc1.
  assert (fault_valid (fault_rec (fin boot1)) = false) as Hv2 by (unfold fault_valid; by rewrite Hm).
  destruct (report_invalid _ t2 Hv2) as (Hr2&Hl2&_&Hc2&Hst2).
  fold boot2 in Hr2, Hl2, Hst2, Hc2.
  rewrite Hr1, Hid, Hst2, Hm. by split_and!.
Qed.

(** Whatever else the RAM holds after a reset - a cold start, a foreign value, a record torn
    while it was written - is never reported as a fault: the boot journals the status that
    distinguishes the three, keeps an empty last fault, and leaves the RAM alone. *)
Theorem unsealed_never_reported r t :
  fault_valid r = false ->
  let boot := totem_fault_report_and_clear None (fault_boot r) t in
  reports (eff boot) = [] /\ totem_fault_last_record (fin boot) = fault_zero /\
  fault_rec (fin boot) = r /\ console (eff boot) = ["totem_fault none"%string] /\
  statuses (eff boot) = [if magic r =? 0 then 0 else if magic r =? TOTEM_FAULT_MAGIC then 2 else 1].
Proof. intros Hv boot. apply (report_invalid r t Hv). Qed.

(** With the fatal error handler in another module, its crash is taken over only when this
    file has no record of its own: a hang noted here is never overwritten. *)
Lemma import_keeps_own crash s t :
  wp (fault_import_module_crash crash) (fun _ s' t' es => es = [] /\
    if fault_valid (fault_rec s) then s' = s
    else match crash with
         | None => s' = s
         | Some c => fault_valid (fault_rec s') = true /\ kind (fault_rec s') = TOTEM_FAULT_CRASH /\
                     channel (fault_rec s') = -1 /\ reason (fault_rec s') = u16 (crash_reason c)
         end) s t.
Proof.
  unfold fault_import_module_crash, set_record. wp_steps. destruct (fault_valid (fault_rec s)).
  { by wp_steps. }
  destruct crash as [c|]; wp_steps; [|done]. split; [done|]. cbn [fault_rec set_field faults_eta eta].
  by rewrite seal_valid.
Qed.
End facts.

(** A torn record: the magic without the CRC. *)
#[local] Existing Instance ieee_crc.
#[local] Instance fault_clock : Clock := ticking 0 1.
Lemma unsealed_never_reported_witness :
  let r := fault_zero <| magic := TOTEM_FAULT_MAGIC |> <| kind := 1 |> in
  fault_valid r = false /\
  statuses (eff (totem_fault_report_and_clear None (fault_boot r) 0%nat)) = [2].
Proof.
  cbv zeta.
  assert (fault_valid (fault_zero <| magic := TOTEM_FAULT_MAGIC |> <| kind := 1 |>) = false) as Hv
    by (vm_compute; reflexivity).
  split; [exact Hv|]. exact (proj2 (proj2 (proj2 (proj2 (unsealed_never_reported _ 0%nat Hv))))).
Defined.
End FaultProps.
