(* ===== verification/Watchdog.v ===== *)
(** * Watchdog and reset reason (src/totem_watchdog.c)

    What boot journals of the reset that preceded it, the three contexts that feed the task
    watchdog, and the note left when one of them stops.  [Watchdog] is the code, composed with
    the fault records and the boot diagnostics it reports to; [WatchdogProps] shows that the next
    boot names the context that stopped. *)
From Stdlib Require Import Ascii String.
From S2P Require Import Prelude Events Platform Samples Text BootDiagnostics Fault.
Local Open Scope Z_scope.

Module Watchdog.
Import Fault.

(** Reset causes of Zephyr's hwinfo driver. *)
Definition RESET_PIN : Z := 2 ^ 0.
Definition RESET_SOFTWARE : Z := 2 ^ 1.
Definition RESET_BROWNOUT : Z := 2 ^ 2.
Definition RESET_POR : Z := 2 ^ 3.
Definition RESET_WATCHDOG : Z := 2 ^ 4.
Definition RESET_DEBUG : Z := 2 ^ 5.
Definition RESET_LOW_POWER_WAKE : Z := 2 ^ 7.

(** The compressed byte. *)
Definition TOTEM_RR_PIN : Z := 0x01.
Definition TOTEM_RR_SOFTWARE : Z := 0x02.
Definition TOTEM_RR_WATCHDOG : Z := 0x04.
Definition TOTEM_RR_BROWNOUT : Z := 0x08.
Definition TOTEM_RR_POR : Z := 0x10.
Definition TOTEM_RR_DEBUG : Z := 0x20.
Definition TOTEM_RR_LOW_POWER : Z := 0x40.
Definition TOTEM_RR_OTHER : Z := 0x80.

Definition flag (cause mask bit out : Z) : Z :=
  if negb (Z.land cause mask =? 0) then Z.lor out bit else out.
Definition compress_reset_cause (cause : Z) : Z :=
  let out := 0 in
  let out := flag cause RESET_PIN TOTEM_RR_PIN out in
  let out := flag cause RESET_SOFTWARE TOTEM_RR_SOFTWARE out in
  let out := flag cause RESET_WATCHDOG TOTEM_RR_WATCHDOG out in
  let out := flag cause RESET_BROWNOUT TOTEM_RR_BROWNOUT out in
  let out := flag cause RESET_POR TOTEM_RR_POR out in
  let out := flag cause RESET_DEBUG TOTEM_RR_DEBUG out in
  let out := flag cause RESET_LOW_POWER_WAKE TOTEM_RR_LOW_POWER out in
  if negb (cause =? 0) && (out =? 0) then Z.lor out TOTEM_RR_OTHER else out.

(** The static variables of the file, and those of the two files it reports to. *)
Record watchdog := MkWatchdog {
  totem_reset_flags : Z;
  chan_sched : Z;
  chan_workq : Z;
  chan_timer : Z;
  fault : faults;
  boot : Boot.boot;
}.
#[export] Instance watchdog_eta : Eta watchdog := fun s =>
  MkWatchdog (totem_reset_flags s) (chan_sched s) (chan_workq s) (chan_timer s) (fault s) (boot s).
(** After a reset: [fault_rec] is what the RAM holds. *)
Definition watchdog_boot (r : totem_fault_record) (b : Boot.boot) : watchdog :=
  MkWatchdog 0 (-1) (-1) (-1) (fault_boot r) b.

Inductive watchdog_effect :=
| on_fault (e : fault_effect)
| host (e : effect)
| printk (line : string)
| hwinfo_clear_reset_cause
| schedule_profile_dump_work (ms : Z)           (* k_work_schedule *)
| task_wdt_init
| task_wdt_add (ms : Z)
| task_wdt_feed (channel : Z)
| start_wdt_feeder                              (* k_thread_create(wdt_feeder) *)
| k_msleep (ms : Z)
| reschedule_wdt_workq (ms : Z)
| start_wdt_timer (duration period : Z)
| sys_reboot.

(** The Kconfig options of the file; the first is false as well without CONFIG_HWINFO, and
    [WDT_TIMEOUT_MS] is CONFIG_TOTEM_WATCHDOG_TIMEOUT_MS. *)
Class WatchdogConfig := {
  CONFIG_TOTEM_RESET_REASON_CAPTURE : bool;
  CONFIG_ZMK_STUDIO_LOG_RESET_REASON : bool;
  CONFIG_TOTEM_BOOT_PROFILE_DUMP : bool;
  CONFIG_TOTEM_BOOT_PROFILE_DUMP_DELAY_MS : Z;
  CONFIG_TOTEM_WATCHDOG : bool;
  WDT_TIMEOUT_MS : Z;
  wdt_timeout_range : 2000 <= WDT_TIMEOUT_MS <= 60000;
}.

(** The watchdog device as boot finds it: absent, not ready, or ready with what
    [task_wdt_init] and the three calls of [task_wdt_add] return. *)
Inductive wdt_device :=
| no_alias
| not_ready
| ready (init_err add1 add2 add3 : Z).

Section code.
Context `{!Clock} `{!Crc32} `{!WatchdogConfig}.

Definition WDT_FEED_INTERVAL_MS : Z := WDT_TIMEOUT_MS `quot` 3.

Definition run_host {A} (m : proc watchdog effect A) : proc watchdog watchdog_effect A :=
  zoom id (fun s _ => s) host m.
(** Calls into totem_fault.c, which in turn tells boot_diagnostics.c the status. *)
Definition tell_boot (b : Boot.boot) (e : fault_effect) : Boot.boot :=
  match e with
  | totem_boot_diagnostics_fault_status status => 
      fin (Boot.totem_boot_diagnostics_fault_status status b 0%nat)
  | _ => b
  end.
Definition run_fault {A} (m : proc faults fault_effect A) : proc watchdog watchdog_effect A :=
  fun s t =>
    let r := m (fault s) t in
    Outcome (val r) (s <| fault := fin r |> <| boot := foldl tell_boot (boot s) (eff r) |>)
      (clk r) (on_fault <$> eff r).
Definition run_boot {A} (m : proc Boot.boot effect A) : proc watchdog watchdog_effect A :=
  zoom boot (fun b s => s <| boot := b |>) host m.

(** The two console lines about the reset; [printk] lines leave out the final newline. *)
Definition reset_line (cause flags : Z) : string :=
  ("totem_wdt boot reset_cause=0x" +:+ fmt_08x cause +:+ " flags=0x" +:+ hex 2 flags +:+
   (if negb (Z.land flags TOTEM_RR_WATCHDOG =? 0)%Z then " WATCHDOG-FIRED" else ""))%string.
Definition hung_line : string := "totem_wdt previous boot ended in a WATCHDOG RESET -- the firmware hung".

(** [read] is what the reset-cause API returns and stores. *)
Definition totem_capture_reset_reason (read : Z * Z) : proc watchdog watchdog_effect () :=
  if negb CONFIG_TOTEM_RESET_REASON_CAPTURE then ret () else
  let '(err, cause) := read in
  run_boot (Boot.totem_boot_diagnostics_reset_result err) ;;
  let result := u32 err in
  run_host (totem_host_event_log_record_call TOTEM_HEVT_BOOT_READ_RESULT (i8 result) (i8 (result ≫ 8)) 0
              (u8 (result ≫ 16)) (u8 (result ≫ 24))) ;;
  if negb (err =? 0) then
    emit (printk ("totem_wdt reset_reason unavailable err=" +:+ fmt_d err)%string)
  else
  modify (fun s => s <| totem_reset_flags := compress_reset_cause cause |>) ;;
  s <- get ;;
  emit (printk (reset_line cause (totem_reset_flags s))) ;;
  when (negb (Z.land (totem_reset_flags s) TOTEM_RR_WATCHDOG =? 0)) (emit (printk hung_line)) ;;
  run_host (totem_host_event_log_record_call TOTEM_HEVT_BOOT (-1) (-1) (totem_reset_flags s) 0 0) ;;
  when (negb CONFIG_ZMK_STUDIO_LOG_RESET_REASON) (emit hwinfo_clear_reset_cause).

(** Characters of a string literal. *)
Definition chars (text : string) : list Z :=
  (fun a => Z.of_N (N_of_ascii a)) <$> list_ascii_of_string text.
Definition chan_label (s : watchdog) (channel_id : Z) : list Z :=
  if channel_id =? chan_sched s then chars "sched"
  else if channel_id =? chan_workq s then chars "sysworkq"
  else if channel_id =? chan_timer s then chars "timer"
  else chars "unknown".

(** The line of the callback starts with a newline of its own. *)
Definition hang_line (channel_id : Z) (label : list Z) : string :=
  String "010" ("*** totem_wdt HANG: channel " +:+ fmt_d channel_id +:+ " (" +:+ text_of label +:+
                ") stopped feeding; resetting ***")%string.
Definition totem_task_wdt_cb (v : thread_view) (channel_id : Z) : proc watchdog watchdog_effect () :=
  s <- get ;;
  let label := chan_label s channel_id in
  run_fault (totem_fault_note_task_wdt v channel_id (Some label)) ;;
  emit (printk (hang_line channel_id label)) ;;
  emit sys_reboot.

(** One turn of the feeder thread's loop. *)
Definition wdt_feeder : proc watchdog watchdog_effect () :=
  s <- get ;;
  emit (task_wdt_feed (chan_sched s)) ;;
  emit (k_msleep WDT_FEED_INTERVAL_MS).
Definition wdt_workq_handler : proc watchdog watchdog_effect () :=
  s <- get ;;
  emit (task_wdt_feed (chan_workq s)) ;;
  emit (reschedule_wdt_workq (K_MSEC WDT_FEED_INTERVAL_MS)).
Definition wdt_timer_handler : proc watchdog watchdog_effect () :=
  s <- get ;;
  emit (task_wdt_feed (chan_timer s)).

Definition armed_line (s : watchdog) : string :=
  ("totem_wdt armed timeout=" +:+ fmt_d WDT_TIMEOUT_MS +:+ " ms feed=" +:+ fmt_d WDT_FEED_INTERVAL_MS +:+
   " ms channels sched=" +:+ fmt_d (chan_sched s) +:+ " sysworkq=" +:+ fmt_d (chan_workq s) +:+
   " timer=" +:+ fmt_d (chan_timer s))%string.

(** The end of [totem_watchdog_init]: the device, the channels, the feeders. *)
Definition arm_watchdog (wdt_dev : wdt_device) : proc watchdog watchdog_effect Z :=
  match wdt_dev with
  | no_alias => emit (printk "totem_wdt no watchdog0 alias; watchdog DISABLED") ;; ret 0
  | not_ready => emit (printk "totem_wdt watchdog device not ready; watchdog DISABLED") ;; ret 0
  | ready err add1 add2 add3 =>
      emit task_wdt_init ;;
      if negb (err =? 0) then
        emit (printk ("totem_wdt task_wdt_init failed err=" +:+ fmt_d err +:+ "; watchdog DISABLED")%string) ;;
        ret 0
      else
      emit (task_wdt_add WDT_TIMEOUT_MS) ;; modify (fun s => s <| chan_sched := add1 |>) ;;
      emit (task_wdt_add WDT_TIMEOUT_MS) ;; modify (fun s => s <| chan_workq := add2 |>) ;;
      emit (task_wdt_add WDT_TIMEOUT_MS) ;; modify (fun s => s <| chan_timer := add3 |>) ;;
      s <- get ;;
      if (chan_sched s <? 0) || (chan_workq s <? 0) || (chan_timer s <? 0) then
        emit (printk ("totem_wdt task_wdt_add failed (" +:+ fmt_d (chan_sched s) +:+ "/" +:+
                      fmt_d (chan_workq s) +:+ "/" +:+ fmt_d (chan_timer s) +:+ "); watchdog DISABLED")%string) ;;
        ret 0
      else
      emit start_wdt_feeder ;;
      emit (reschedule_wdt_workq (K_MSEC WDT_FEED_INTERVAL_MS)) ;;
      emit (start_wdt_timer (K_MSEC WDT_FEED_INTERVAL_MS) (K_MSEC WDT_FEED_INTERVAL_MS)) ;;
      emit (printk (armed_line s)) ;;
      ret 0
  end.

Definition totem_schedule_profile_dump : proc watchdog watchdog_effect () :=
  when CONFIG_TOTEM_BOOT_PROFILE_DUMP
    (emit (schedule_profile_dump_work (K_MSEC CONFIG_TOTEM_BOOT_PROFILE_DUMP_DELAY_MS))).

(** [module] is the crash report of the module that owns the fatal error handler, as in
    [totem_fault_report_and_clear]. *)
Definition totem_watchdog_init (read : Z * Z) (module : option (option studio_fault))
    (wdt_dev : wdt_device) : proc watchdog watchdog_effect Z :=
  totem_capture_reset_reason read ;;
  run_fault (totem_fault_report_and_clear module) ;;
  totem_schedule_profile_dump ;;
  if CONFIG_TOTEM_WATCHDOG then arm_watchdog wdt_dev else ret 0.

(** The console lines of the profile dump; [address] is [zmk_ble_profile_address], with the
    text of an address and whether it is BT_ADDR_LE_ANY. *)
Definition totem_dump_profiles `{!Config} (active : Z) (address : Z -> option (string * bool)) : list string :=
  ("totem_prof active=" +:+ fmt_d active +:+ " count=" +:+ fmt_d ZMK_BLE_PROFILE_COUNT)%string ::
  ((fun i =>
      let empty := match address i with None => true | Some (_, any) => any end in
      let addr_str := match address i with None => "(null)"%string | Some (text, _) => text end in
      ("totem_prof " +:+ fmt_d i +:+ (if Z.eqb i active then "*" else " ") +:+ " " +:+ addr_str +:+
       (if empty then "  EMPTY" else ""))%string) <$> seqZ 0 ZMK_BLE_PROFILE_COUNT).
Definition totem_profile_dump_work_handler `{!Config} (active : Z) (address : Z -> option (string * bool))
    : proc watchdog watchdog_effect () :=
  for_each (totem_dump_profiles active address) (fun line => emit (printk line)).
End code.
End Watchdog.

Module WatchdogProps.
Import Fault FaultProps Watchdog.

(** ** The reset cause *)
Lemma flag_bit cause k bit out :
  0 <= k -> flag cause (2 ^ k) bit out = if Z.testbit cause k then Z.lor out bit else out.
Proof.
  intros Hk. unfold flag. destruct (Z.testbit cause k) eqn:Hb.
  - destruct (Z.eqb_spec (Z.land cause (2 ^ k)) 0) as [He|]; [|done]. exfalso.
    assert (Z.testbit (Z.land cause (2 ^ k)) k = false) as Hf by (rewrite He; apply Z.testbit_0_l).
    rewrite Z.land_spec, Hb, Z.pow2_bits_true in Hf by done. done.
  - destruct (Z.eqb_spec (Z.land cause (2 ^ k)) 0) as [|Hne]; [done|]. destruct Hne.
    apply Z.bits_inj'. intros i Hi. rewrite Z.land_spec, Z.testbit_0_l, Z.pow2_bits_eqb by done.
    destruct (Z.eqb_spec k i) as [->|]; [by rewrite Hb|by rewrite andb_false_r].
Qed.

(** The hwinfo bit behind each of the seven named flags. *)
Definition cause_bit (i : Z) : Z := nth (Z.to_nat i) [0; 1; 4; 2; 3; 5; 7] 0.
Definition named_bits (cause : Z) : list bool := Z.testbit cause ∘ cause_bit <$> seqZ 0 7.

(** The reset cause survives its compression to a byte: each of the seven named causes is
    one bit of it, the eighth bit is set exactly when there is a cause and none of the named
    ones, and the byte is zero exactly when hwinfo reports nothing. *)
Theorem reset_cause_compressed cause :
  let flags := compress_reset_cause cause in
  0 <= flags < 256 /\ (flags = 0 <-> cause = 0) /\
  (Z.testbit flags <$> seqZ 0 7) = named_bits cause /\
  Z.testbit flags 7 = negb (cause =? 0) && forallb negb (named_bits cause).
Proof.
  intros flags. unfold flags, compress_reset_cause, RESET_PIN, RESET_SOFTWARE, RESET_WATCHDOG, RESET_BROWNOUT,
    RESET_POR, RESET_DEBUG, RESET_LOW_POWER_WAKE. cbv zeta. rewrite !flag_bit by lia.
  change (named_bits cause) with
    [Z.testbit cause 0; Z.testbit cause 1; Z.testbit cause 4; Z.testbit cause 2; Z.testbit cause 3;
     Z.testbit cause 5; Z.testbit cause 7].
  destruct (Z.eqb_spec cause 0) as [->|Hne]; [by vm_compute|].
  destruct (Z.testbit cause 0), (Z.testbit cause 1), (Z.testbit cause 4), (Z.testbit cause 2),
    (Z.testbit cause 3), (Z.testbit cause 5), (Z.testbit cause 7);
    (split; [by vm_compute|]); (split; [|by vm_compute]); (split; intros He; [discriminate He|by destruct Hne]).
Qed.

(** The journalled result decodes to the API's. *)
Lemma read_result_decodes err :
  - 2 ^ 31 <= err < 2 ^ 31 ->
  let r := u32 err in
  i32 (of_le32 (u8 (i8 r)) (u8 (i8 (r ≫ 8))) (u8 (r ≫ 16)) (u8 (r ≫ 24))) = err.
Proof. intros Herr r. rewrite !u8_i8, of_le32_le32. unfold r. solve_cint. Qed.

Section facts.
Context `{!Clock} `{!Crc32} `{!WatchdogConfig}.
Implicit Types (s : watchdog) (t : nat) (es : list watchdog_effect).

(** ** A hang is named by the next boot *)
Definition fault_effects es : list fault_effect :=
  omap (fun e => match e with on_fault f => Some f | _ => None end) es.

Lemma fault_effects_app es es' : fault_effects (es ++ es') = fault_effects es ++ fault_effects es'.
Proof. apply omap_app. Qed.
Lemma fault_effects_on l : fault_effects (on_fault <$> l) = l.
Proof. induction l as [|f l IH]; cbn; [done|]. by rewrite <- IH at 2. Qed.

Lemma chan_label_cases s ch :
  chan_label s ch = chars "sched" \/ chan_label s ch = chars "sysworkq" \/
  chan_label s ch = chars "timer" \/ chan_label s ch = chars "unknown".
Proof. unfold chan_label. destruct (ch =? chan_sched s), (ch =? chan_workq s), (ch =? chan_timer s); auto. Qed.

Lemma text_of_label s ch l : cstring l = chan_label s ch -> text_of l = text_of (chan_label s ch).
Proof. intros Hl. unfold text_of. rewrite Hl. by destruct (chan_label_cases s ch) as [->|[->|[->| ->]]]. Qed.

(** What the callback leaves in the RAM that survives the reset. *)
Lemma task_wdt_cb_spec v ch s t :
  wp (totem_task_wdt_cb v ch) (fun _ s' t' es =>
    let r := fault_rec (fault s') in
    fault_valid r = true /\ (kind r, channel r, u8 (reason r)) = (fault_kind TOTEM_FAULT_TASK_WDT, i8 ch, 0) /\
    uptime_ms r = u32 (uptime t) /\ cstring (label r) = chan_label s ch) s t.
Proof.
  unfold totem_task_wdt_cb. apply wp_bind, wp_get. cbv beta zeta. apply wp_bind.
  destruct (take_note_spec (note_hang v ch (Some (chan_label s ch))) (fault s) t) as (_&Hv&Hid&Hup&_).
  unfold wp, run_fault. cbn -[totem_fault_note_task_wdt fault_valid u8 i8 u32 cstring].
  cbn [take_note] in *. split_and!; [exact Hv|exact Hid|exact Hup|].
  unfold totem_fault_note_task_wdt, set_record. cbn -[fault_fill_thread cstring chan_label].
  generalize (label (fault_fill_thread v (fault_zero <| kind := TOTEM_FAULT_TASK_WDT |> <| channel := i8 ch |>
    <| reason := 0 |> <| uptime_ms := u32 (uptime t) |>))) as l. intros l.
  by destruct (chan_label_cases s ch) as [->|[->|[->| ->]]].
Qed.

Lemma run_get {St E A} (k : St -> proc St E A) (s : St) t : bind get k s t = k s s t.
Proof. unfold bind, get. cbn. by destruct (k s s t). Qed.
(** With a record of its own, the file takes no crash over from another module. *)
Lemma report_own_record module (f : faults) t :
  fault_valid (fault_rec f) = true ->
  totem_fault_report_and_clear module f t = totem_fault_report_and_clear None f t.
Proof.
  intros Hv. destruct module as [crash|]; [|done].
  assert (fault_import_module_crash crash f t = ret () f t) as Himp.
  { unfold fault_import_module_crash. rewrite run_get, Hv. reflexivity. }
  unfold totem_fault_report_and_clear. unfold bind at 1. rewrite Himp. reflexivity.
Qed.

(** What the console shows, the lines of the fault records included. *)
Definition said (e : watchdog_effect) : option string :=
  match e with printk line => Some line | on_fault f => printed f | _ => None end.
Definition wdt_console es : list string := omap said es.
Lemma wdt_console_app es es' : wdt_console (es ++ es') = wdt_console es ++ wdt_console es'.
Proof. apply omap_app. Qed.
Lemma wdt_console_on l : wdt_console (on_fault <$> l) = console l.
Proof. induction l as [|f l IH]; [done|]. unfold wdt_console, console in *. cbn. by rewrite IH. Qed.

(** The lines about the reset: hardware watchdog resets are pointed out. *)
Definition reset_lines (read : Z * Z) : list string :=
  if negb CONFIG_TOTEM_RESET_REASON_CAPTURE then []
  else if negb (fst read =? 0) then [("totem_wdt reset_reason unavailable err=" +:+ fmt_d (fst read))%string]
  else reset_line (snd read) (compress_reset_cause (snd read)) ::
       (if Z.testbit (snd read) 4 then [hung_line] else []).

Lemma watchdog_flag cause :
  negb (Z.land (compress_reset_cause cause) TOTEM_RR_WATCHDOG =? 0) = Z.testbit cause 4.
Proof.
  destruct (reset_cause_compressed cause) as (_&_&Hbits&_).
  change TOTEM_RR_WATCHDOG with (2 ^ 2).
  apply (f_equal (fun l => nth 2 l false)) in Hbits.
  change (Z.testbit (compress_reset_cause cause) 2 = Z.testbit cause 4) in Hbits. rewrite <- Hbits.
  pose proof (flag_bit (compress_reset_cause cause) 2 1 0 ltac:(lia)) as Hf. unfold flag in Hf.
  destruct (Z.testbit _ 2), (Z.land _ _ =? 0); done.
Qed.

Lemma capture_says read s t :
  wp (totem_capture_reset_reason read) (fun _ s' _ es =>
    fault s' = fault s /\ fault_effects es = [] /\ wdt_console es = reset_lines read) s t.
Proof.
  destruct read as [err cause]. unfold totem_capture_reset_reason, reset_lines. cbn [fst snd].
  rewrite <- watchdog_flag. destruct CONFIG_TOTEM_RESET_REASON_CAPTURE; [|done].
  destruct (err =? 0); [|done]. unfold wp.
  cbn -[compress_reset_cause reset_line Z.land u8 i8 Z.eqb]. 
  destruct (Z.land _ _ =? 0), CONFIG_ZMK_STUDIO_LOG_RESET_REASON; done.
Qed.

Lemma tell_boot_status b fs :
  Boot.fault_status (foldl tell_boot b fs) = List.last (statuses fs) (Boot.fault_status b).
Proof.
  revert b. induction fs as [|e fs IH]; intros b; [done|]. cbn [foldl]. rewrite IH. destruct e; try done.
  unfold statuses. cbn -[List.last]. fold (statuses fs). destruct (statuses fs) as [|x l]; [done|]. 
  cbn [List.last]. by induction l as [|y l IHl] in x |- *; [|apply IHl].
Qed.

(** The report of a sealed record, inside boot. *)
Lemma run_report module r s t :
  fault s = fault_boot r -> fault_valid r = true -> 0 <= kind r < 256 -> -128 <= channel r < 128 ->
  wp (run_fault (totem_fault_report_and_clear module)) (fun _ s' _ es =>
    reports (fault_effects es) = [(kind r, channel r, u8 (reason r))] /\
    totem_fault_last_record (fault s') = r /\ Boot.fault_status (boot s') = 3 /\
    wdt_console es = [fault_line r]) s t.
Proof.
  intros Hf Hv Hk Hc. destruct (report_valid r t Hv Hk Hc) as (Hr&Hst&Hl&_&Hcon).
  unfold wp, run_fault. cbv zeta. rewrite Hf, report_own_record by exact Hv. cbn [val fin clk eff].
  rewrite fault_effects_on, wdt_console_on. split_and!; [exact Hr|exact Hl| |exact Hcon].
  change (Boot.fault_status (foldl tell_boot (boot s)
    (eff (totem_fault_report_and_clear None (fault_boot r) t))) = 3).
  by rewrite tell_boot_status, Hst.
Qed.

(** The rest of boot prints one line about the watchdog, in the builds that have it. *)
Lemma arm_says dev s t :
  wp (totem_schedule_profile_dump ;; if CONFIG_TOTEM_WATCHDOG then arm_watchdog dev else ret 0)
    (fun _ s' _ es => fault s' = fault s /\ boot s' = boot s /\ fault_effects es = [] /\
      length (wdt_console es) = (if CONFIG_TOTEM_WATCHDOG then 1 else 0)%nat) s t.
Proof.
  unfold totem_schedule_profile_dump, arm_watchdog, wp.
  destruct CONFIG_TOTEM_BOOT_PROFILE_DUMP, CONFIG_TOTEM_WATCHDOG; try done;
    destruct dev as [| |err add1 add2 add3]; try done; cbn -[Z.eqb Z.ltb fmt_d armed_line];
    destruct (err =? 0); try done; cbn -[Z.eqb Z.ltb fmt_d armed_line];
    by destruct ((add1 <? 0) || (add2 <? 0) || (add3 <? 0)).
Qed.

(** What the next boot reports of a sealed record. *)
Lemma init_reports read module dev r b t :
  fault_valid r = true -> 0 <= kind r < 256 -> -128 <= channel r < 128 ->
  wp (totem_watchdog_init read module dev) (fun _ s' t' es =>
    reports (fault_effects es) = [(kind r, channel r, u8 (reason r))] /\
    totem_fault_last_record (fault s') = r /\ Boot.fault_status (boot s') = 3 /\
    exists outcome, wdt_console es = reset_lines read ++ fault_line r :: outcome /\
      length outcome = (if CONFIG_TOTEM_WATCHDOG then 1 else 0)%nat) (watchdog_boot r b) t.
Proof.
  intros Hv Hk Hc. unfold totem_watchdog_init. apply wp_bind.
  eapply wp_mono; [apply (capture_says read)|].
  intros [] s1 t1 es1 (Hf1&Hes1&Hsaid1). cbv beta. apply wp_bind.
  eapply wp_mono; [by apply (run_report module r)|].
  intros [] s2 t2 es2 (Hr&Hl&Hst&Hsaid2). cbv beta.
  eapply wp_mono; [apply (arm_says dev)|].
  intros x s3 t3 es3 (Hf3&Hb3&Hes3&Hsaid3).
  rewrite !fault_effects_app, Hes1, Hes3, Hf3, Hb3, app_nil_r. split_and!; [done..|].
  exists (wdt_console es3). by rewrite !wdt_console_app, Hsaid1, Hsaid2.
Qed.

(** The callback seals the record before it prints and resets. *)
Lemma task_wdt_cb_effects v ch s t :
  eff (totem_task_wdt_cb v ch s t) = [printk (hang_line ch (chan_label s ch)); sys_reboot].
Proof. done. Qed.

(** C12 A hang is diagnosed by the next boot: when the task watchdog expires a channel, the
    callback prints its line and resets the SoC, with nothing after the reset; and whatever the RAM
    held and whatever boot then reads, the next boot journals one fault of kind "task watchdog" with
    that channel, keeps a record whose label names the feeding context that stopped, tells the
    boot diagnostics that the record was intact, and prints, after the lines about the reset and
    before the line about the new watchdog, the one line that names the context and the time. *)
Theorem hang_diagnosed v ch s t read module dev b t' :
  let expired := totem_task_wdt_cb v ch s t in
  eff expired = [printk (hang_line ch (chan_label s ch)); sys_reboot] /\
  wp (totem_watchdog_init read module dev) (fun _ s' _ es =>
    reports (fault_effects es) = [(fault_kind TOTEM_FAULT_TASK_WDT, i8 ch, 0)] /\
    cstring (label (totem_fault_last_record (fault s'))) = chan_label s ch /\
    uptime_ms (totem_fault_last_record (fault s')) = u32 (uptime t) /\
    Boot.fault_status (boot s') = 3 /\
    exists outcome, wdt_console es = reset_lines read ++
      ("totem_fault HANG task_wdt channel=" +:+ fmt_d (i8 ch) +:+ " (" +:+ text_of (chan_label s ch) +:+
        ") stopped feeding; at_uptime=" +:+ fmt_u (u32 (uptime t)) +:+ " ms")%string :: outcome /\
      length outcome = (if CONFIG_TOTEM_WATCHDOG then 1 else 0)%nat)
    (watchdog_boot (fault_rec (fault (fin expired))) b) t'.
Proof.
  intros expired. split; [apply task_wdt_cb_effects|].
  destruct (task_wdt_cb_spec v ch s t) as (Hv&Hid&Hup&Hlab).
  fold expired in Hv, Hid, Hup, Hlab. revert Hv Hid Hup Hlab.
  generalize (fault_rec (fault (fin expired))) as r.
  clear expired. intros r Hv Hid Hup Hlab. injection Hid as Hk Hc Hw.
  eapply wp_mono; [apply (init_reports read module dev r b t' Hv); rewrite ?Hk, ?Hc; [cbn; lia|apply i8_range]|].
  intros _ s' _ es (Hr&Hl&Hst&outcome&->&Hlen). rewrite Hl, Hr, Hk, Hc, Hw. split_and!; try done.
  exists outcome. split; [|done]. unfold fault_line. rewrite Hk. cbn [fault_kind Z.eqb Pos.eqb].
  by rewrite Hc, Hup, (text_of_label s ch).
Qed.

(** The labels of the three channels are those of their feeders. *)
Lemma chan_labels s :
  chan_sched s <> chan_workq s -> chan_sched s <> chan_timer s -> chan_workq s <> chan_timer s ->
  chan_label s (chan_sched s) = chars "sched" /\ chan_label s (chan_workq s) = chars "sysworkq" /\
  chan_label s (chan_timer s) = chars "timer".
Proof.
  intros H12 H13 H23. unfold chan_label. rewrite !Z.eqb_refl.
  destruct (Z.eqb_spec (chan_workq s) (chan_sched s)), (Z.eqb_spec (chan_timer s) (chan_sched s)),
    (Z.eqb_spec (chan_timer s) (chan_workq s)); try congruence. done.
Qed.

(** Two feeds in a row can be missed: three intervals fit the timeout. *)
Lemma feed_interval_fits : 0 < WDT_FEED_INTERVAL_MS /\ 3 * WDT_FEED_INTERVAL_MS <= WDT_TIMEOUT_MS.
Proof.
  pose proof wdt_timeout_range. unfold WDT_FEED_INTERVAL_MS.
  pose proof (Z.quot_rem' WDT_TIMEOUT_MS 3). pose proof (Z.rem_bound_pos WDT_TIMEOUT_MS 3). lia.
Qed.

(** The calls into the task watchdog and the feeders that are started. *)
Definition wdt_call (e : watchdog_effect) : bool :=
  match e with
  | task_wdt_init | task_wdt_add _ | start_wdt_feeder | reschedule_wdt_workq _ | start_wdt_timer _ _ => true
  | _ => false
  end.
(** When only some of the channels could be installed, the ones that were are left without a
    feeder. *)
Lemma partial_channels_unfed add1 add2 add3 s t :
  0 <= add1 -> 0 <= add2 -> add3 < 0 ->
  wp (arm_watchdog (ready 0 add1 add2 add3)) (fun _ s' _ es =>
    filter wdt_call es = [task_wdt_init; task_wdt_add WDT_TIMEOUT_MS; task_wdt_add WDT_TIMEOUT_MS;
                          task_wdt_add WDT_TIMEOUT_MS] /\
    chan_sched s' = add1 /\ chan_workq s' = add2) s t.
Proof.
  intros H1' H2' H3'. unfold arm_watchdog. wp_steps. cbn [negb Z.eqb].
  wp_steps. cbn [chan_sched chan_workq chan_timer set_field watchdog_eta eta].
  destruct (Z.ltb_spec add1 0), (Z.ltb_spec add2 0), (Z.ltb_spec add3 0); try lia.
  cbn [orb]. wp_steps. done.
Qed.
End facts.
End WatchdogProps.
