(* ===== verification/RingBuffer.v ===== *)
(** * Circular buffers

    The event ring, the timing inbox and the thrash ring are all a C array read
    modulo its capacity.  [window buf cap start n] lists the [n] slots from
    [start], oldest first; the lemmas say what the three index updates of the
    source do to that list. *)
From S2P Require Import Prelude.

Section window.
Context {A : Type} `{!Inhabited A}.
Implicit Types (buf : list A) (cap start n i : Z) (x : A).

Definition window buf cap start n : list A :=
  (fun i => aget buf ((start + i) `mod` cap)) <$> seqZ 0 n.

Lemma length_window buf cap start n : length (window buf cap start n) = Z.to_nat n.
Proof. unfold window. by rewrite length_fmap, length_seqZ. Qed.

Lemma window_nil buf cap start : window buf cap start 0 = [].
Proof. done. Qed.

Lemma window_lookup buf cap start n (i : nat) :
  Z.of_nat i < n ->
  window buf cap start n !! i = Some (aget buf ((start + Z.of_nat i) `mod` cap)).
Proof.
  intros. unfold window. rewrite list_lookup_fmap, lookup_seqZ_lt by lia.
  done.
Qed.

Lemma aget_window buf cap start n i :
  0 <= i < n -> aget (window buf cap start n) i = aget buf ((start + i) `mod` cap).
Proof.
  intros. unfold aget at 1. apply list_lookup_total_correct.
  rewrite window_lookup by lia. do 4 f_equal. lia.
Qed.

Lemma window_ext buf buf' cap start start' n :
  (forall i, 0 <= i < n -> aget buf ((start + i) `mod` cap) = aget buf' ((start' + i) `mod` cap)) ->
  window buf cap start n = window buf' cap start' n.
Proof.
  intros H. unfold window. apply list_fmap_ext. intros k i Hk.
  apply lookup_seqZ in Hk as [-> ?]. apply H. lia.
Qed.

Lemma window_snoc_slot buf cap start n :
  0 <= n ->
  window buf cap start (n + 1) = window buf cap start n ++ [aget buf ((start + n) `mod` cap)].
Proof.
  intros. unfold window. rewrite seqZ_app, fmap_app by lia. f_equal.
Qed.

Lemma window_uncons buf cap start n :
  0 < cap -> 0 <= start < cap -> 0 < n ->
  window buf cap start n = aget buf start :: window buf cap ((start + 1) `mod` cap) (n - 1).
Proof.
  intros. unfold window at 1. rewrite seqZ_cons by lia. cbn [fmap list_fmap].
  rewrite Z.add_0_r, Z.mod_small by lia. f_equal.
  unfold window. change (Z.succ 0) with (1 + 0). rewrite <- fmap_add_seqZ, <- list_fmap_compose.
  replace (Z.pred n) with (n - 1) by lia. apply list_fmap_ext. intros k i Hk. cbn.
  rewrite Z.add_mod_idemp_l by lia. do 2 f_equal. lia.
Qed.

(** Distinct offsets below the capacity are distinct slots. *)
Lemma slot_inj cap start i j :
  0 < cap -> 0 <= i < cap -> 0 <= j < cap ->
  (start + i) `mod` cap = (start + j) `mod` cap -> i = j.
Proof.
  intros ? ? ? H. assert ((i - j) `mod` cap = 0) as Hd.
  { replace (i - j) with ((start + i) - (start + j)) by lia.
    rewrite Zminus_mod, H, Z.sub_diag. by apply Zmod_0_l. }
  apply Z.mod_divide in Hd; [destruct Hd as [q Hq]; clear H|lia].
  destruct (Z.lt_trichotomy q 0) as [|[->|]]; nia.
Qed.

Lemma slot_range cap i : 0 < cap -> 0 <= i `mod` cap < cap.
Proof. intros. by apply Z.mod_pos_bound. Qed.

Lemma window_aset_out buf cap start n i x :
  0 < cap -> 0 <= n <= i -> i < cap ->
  window (aset buf ((start + i) `mod` cap) x) cap start n = window buf cap start n.
Proof.
  intros. apply window_ext. intros j Hj.
  pose proof (slot_range cap (start + i)). pose proof (slot_range cap (start + j)).
  apply aget_aset_ne; [lia..|]. intros Heq. apply slot_inj in Heq; lia.
Qed.

(** Appending below the capacity. *)
Lemma window_push buf cap start n x :
  0 < cap -> alen buf = cap -> 0 <= n < cap ->
  window (aset buf ((start + n) `mod` cap) x) cap start (n + 1) = window buf cap start n ++ [x].
Proof.
  intros Hc Hl Hn. rewrite window_snoc_slot, window_aset_out by lia.
  rewrite aget_aset_eq; [done|]. rewrite Hl. by apply slot_range.
Qed.

(** Overwriting the oldest slot of a full buffer and starting one further. *)
Lemma window_push_full buf cap start x :
  0 < cap -> alen buf = cap -> 0 <= start < cap ->
  window (aset buf start x) cap ((start + 1) `mod` cap) cap =
  tail (window buf cap start cap) ++ [x].
Proof.
  intros Hc Hl Hs. rewrite (window_uncons buf cap start cap) by lia. cbn [tail].
  rewrite <- (Z.sub_add 1 cap) at 3. rewrite window_snoc_slot by lia.
  rewrite Z.add_mod_idemp_l by lia. replace (start + 1 + (cap - 1)) with (start + 1 * cap) by lia.
  rewrite Z_mod_plus_full, (Z.mod_small start) by lia. rewrite aget_aset_eq by lia. f_equal.
  apply window_ext. intros i Hi. rewrite Z.add_mod_idemp_l by lia.
  pose proof (slot_range cap (start + 1 + i)).
  apply aget_aset_ne; [lia..|]. intros Heq.
  assert ((start + 0) `mod` cap = (start + (1 + i)) `mod` cap) as Heq'.
  { rewrite Z.add_0_r, (Z.mod_small start) by lia. rewrite Heq at 1. f_equal. lia. }
  apply slot_inj in Heq'; lia.
Qed.
End window.
