(* ===== verification/DiagnosticTiming.v ===== *)
(** * The timing inbox (src/diagnostic_timing.c)

    A 24-slot FIFO that controller code fills with time-stamped records and a
    work item empties into the event log.  [Inbox] is the code, [InboxSpec] the
    bounded queue it promises to be, and the refinement theorem relates them under
    every interleaving of captures and drain iterations.  [SettingsWrap] is the
    observer around [settings_save_one]. *)
From S2P Require Import Prelude Events Platform Samples RingBuffer.

(** [struct timing_record] has the seven fields, of the same types, of
    [struct totem_host_event] ([pair] is its [thrash_win]). *)
Definition timing_record : Type := event.

Definition TIMING_CAP : Z := 24.

Module Inbox.

(** The static variables of the file. *)
Record timing := Timing {
  timing_inbox : list timing_record;
  timing_head : Z;       (* uint8_t *)
  timing_count : Z;      (* uint8_t *)
  timing_dropped : Z;    (* uint8_t *)
  write_sequence : Z;    (* atomic_t *)
}.

#[export] Instance timing_eta : Eta timing := fun s =>
  Timing (timing_inbox s) (timing_head s) (timing_count s) (timing_dropped s) (write_sequence s).

Definition timing_init : timing :=
  Timing (replicate (Z.to_nat TIMING_CAP) inhabitant) 0 0 0 0.

Section code.
Context `{!Clock}.

Definition totem_diagnostic_timing_capture (uptime_ms type idx active reason pair extra : Z)
    : proc timing effect () :=
  let record := mk_event uptime_ms type idx active reason pair extra in
  s <- get ;;
  (if timing_count s <? TIMING_CAP then
     modify (fun s =>
       s <| timing_inbox :=
              aset (timing_inbox s) ((timing_head s + timing_count s) `mod` TIMING_CAP) record |>
         <| timing_count := u8 (timing_count s + 1) |>)
   else when (timing_dropped s <? UINT8_MAX)
     (modify (fun s => s <| timing_dropped := u8 (timing_dropped s + 1) |>))) ;;
  emit (k_work_submit timing_work).

(** One turn of the [for (;;)] of [timing_drain]; [true] when it returned. *)
Definition timing_drain_once : proc timing effect bool :=
  s <- get ;;
  if timing_count s =? 0 then
    let dropped := timing_dropped s in
    modify (fun s => s <| timing_dropped := 0 |>) ;;
    (if dropped =? 0 then ret ()
     else (now <- k_uptime_get_32 ;;
           totem_host_event_log_record_timing_call now TOTEM_HEVT_TIMING_DROPPED
             (-1) (-1) dropped 0 0)) ;;
    ret true
  else
    let record := aget (timing_inbox s) (timing_head s) in
    modify (fun s =>
      s <| timing_head := u8 ((timing_head s + 1) `mod` TIMING_CAP) |>
        <| timing_count := u8 (timing_count s - 1) |>) ;;
    totem_host_event_log_record_timing_call (uptime_ms record) (type record) (idx record)
      (active record) (reason record) (thrash_win record) (extra record) ;;
    ret false.

(** A capture from another context, with the fields of [e] as arguments. *)
Definition arrives (e : timing_record) : proc timing effect () :=
  totem_diagnostic_timing_capture (uptime_ms e) (type e) (idx e) (active e) (reason e)
    (thrash_win e) (extra e).

(** The loop releases the lock every turn: [between] lists the captures that arrive before
    the first turn, before the second, and so on. *)
Fixpoint timing_drain_turns (fuel : nat) (between : list (list timing_record))
    : proc timing effect bool :=
  match fuel with
  | O => ret false
  | S fuel =>
      for_each (hd [] between) arrives ;;
      done <- timing_drain_once ;;
      if done then ret true else timing_drain_turns fuel (tail between)
  end.

(** The loop runs until it finds the inbox empty.  Every turn before that takes a record that
    was queued, at most [TIMING_CAP], or arrived meanwhile. *)
Definition timing_drain_busy (between : list (list timing_record)) : proc timing effect bool :=
  timing_drain_turns (S (length (concat between) + Z.to_nat TIMING_CAP)) between.
(** The drain that no capture interrupts. *)
Definition timing_drain : proc timing effect bool := timing_drain_busy [].
End code.

(** ** Well-formedness *)
Definition wf (s : timing) : Prop :=
  alen (timing_inbox s) = TIMING_CAP /\ 0 <= timing_head s < TIMING_CAP /\
  0 <= timing_count s <= TIMING_CAP /\ 0 <= timing_dropped s <= UINT8_MAX /\
  Forall event_ok (timing_inbox s).

(** The queued records, oldest first. *)
Definition queued (s : timing) : list timing_record :=
  window (timing_inbox s) TIMING_CAP (timing_head s) (timing_count s).

Lemma wf_init : wf timing_init.
Proof.
  split_and!; cbn; try (unfold TIMING_CAP, UINT8_MAX; lia). { done. }
  repeat constructor; cbn; lia.
Qed.

Lemma queued_ok s : wf s -> Forall event_ok (queued s).
Proof.
  intros (Hl&?&?&?&Hev). unfold queued, window. rewrite Forall_fmap, Forall_forall.
  intros i _. cbn. apply Forall_aget; [done|]. rewrite Hl. by apply slot_range.
Qed.

Lemma length_queued s : wf s -> Z.of_nat (length (queued s)) = timing_count s.
Proof. intros (?&?&?&?&?). unfold queued. rewrite length_window. lia. Qed.

Section facts.
Context `{!Clock}.
Implicit Types (s : timing) (t : nat).

(** The effect of one capture on the queue and on the drop counter. *)
Lemma capture_queued u k i a r p x s t :
  wf s ->
  wp (totem_diagnostic_timing_capture u k i a r p x) (fun _ s' t' es =>
    wf s' /\ t' = t /\ es = [k_work_submit timing_work] /\ write_sequence s' = write_sequence s /\
    if timing_count s <? TIMING_CAP
    then queued s' = queued s ++ [mk_event u k i a r p x] /\ timing_dropped s' = timing_dropped s
    else queued s' = queued s /\
         timing_dropped s' = Z.min UINT8_MAX (timing_dropped s + 1)) s t.
Proof.
  intros (Hl&Hh&Hc&Hd&Hev). unfold totem_diagnostic_timing_capture. apply wp_bind. unfold wp, get; cbn [val fin clk eff].
  destruct (Z.ltb_spec (timing_count s) TIMING_CAP) as [Hlt|Hge].
  - cbn. unfold queued; cbn. rewrite u8_small by (unfold TIMING_CAP in *; lia).
    split_and!; try done; unfold wf; cbn.
    + rewrite alen_aset. split_and!; try lia. apply Forall_aset; [done|]. apply mk_event_ok.
    + apply window_push; [done|done|lia].
  - unfold when. destruct (Z.ltb_spec (timing_dropped s) UINT8_MAX); cbn.
    + rewrite u8_small by (unfold UINT8_MAX in *; lia).
      split_and!; try done; unfold wf; cbn; [split_and!|]; try done; lia.
    + split_and!; try done. lia.
Qed.

(** A drain turn on a non-empty inbox pops the oldest record into the log. *)
Lemma drain_once_pop r q s t :
  wf s -> queued s = r :: q ->
  wp timing_drain_once (fun fin s' t' es =>
    wf s' /\ fin = false /\ t' = t /\ queued s' = q /\ timing_dropped s' = timing_dropped s /\
    es = [log_record_timing (uptime_ms r) (type r) (idx r) (active r) (reason r)
            (thrash_win r) (extra r)]) s t.
Proof.
  intros Hwf Hq. pose proof (length_queued s Hwf) as Hlen. rewrite Hq in Hlen. cbn in Hlen.
  pose proof (queued_ok s Hwf) as Hok. rewrite Hq in Hok. apply Forall_cons in Hok as [Hr _].
  destruct Hwf as (Hl&Hh&Hc&Hd&Hev). unfold queued in Hq. rewrite window_uncons in Hq by (unfold TIMING_CAP in *; lia).
  injection Hq as Hr' Hq'.
  unfold timing_drain_once. apply wp_bind. unfold wp, get; cbn [val fin clk eff].
  destruct (Z.eqb_spec (timing_count s) 0); [lia|]. cbn. rewrite Hr'.
  pose proof (slot_range TIMING_CAP (timing_head s + 1) eq_refl).
  rewrite !u8_small by (unfold TIMING_CAP in *; lia). split_and!; try done.
  - unfold wf; cbn. split_and!; try done; lia.
  - destruct (event_ok_fields r Hr) as (->&->&->&->&->&->&->). done.
Qed.

(** A drain turn on an empty inbox reports the drops, if any, and returns. *)
Lemma drain_once_done s t :
  wf s -> queued s = [] ->
  wp timing_drain_once (fun fin s' t' es =>
    wf s' /\ fin = true /\ queued s' = [] /\ timing_dropped s' = 0 /\
    t' = (if timing_dropped s =? 0 then t else S t) /\
    es = if timing_dropped s =? 0 then []
         else [log_record_timing (u32 (uptime t)) (evt TOTEM_HEVT_TIMING_DROPPED) (-1) (-1)
                 (timing_dropped s) 0 0]) s t.
Proof.
  intros Hwf Hq. pose proof (length_queued s Hwf) as Hlen. rewrite Hq in Hlen. cbn in Hlen.
  destruct Hwf as (Hl&Hh&Hc&Hd&Hev).
  unfold timing_drain_once. apply wp_bind. unfold wp, get; cbn [val fin clk eff].
  destruct (Z.eqb_spec (timing_count s) 0); [|lia]. cbn -[u8 u32 i8].
  assert (wf (s <| timing_dropped := 0 |>)) as Hwf'.
  { unfold wf; cbn. split_and!; try done; unfold UINT8_MAX; lia. }
  destruct (Z.eqb_spec (timing_dropped s) 0); cbn -[u8 u32 i8]; split_and!; try done.
  rewrite u32_idemp, (u8_small (timing_dropped s)) by (unfold UINT8_MAX in *; lia). done.
Qed.
End facts.
End Inbox.

(** * What the inbox promises: a bounded queue that counts what it refuses *)
Module InboxSpec.

Record spec := Spec { queue : list timing_record; refused : Z }.

Section code.
Context `{!Clock}.

Definition capture (e : timing_record) : proc spec effect () :=
  modify (fun a =>
    if Z.of_nat (length (queue a)) <? TIMING_CAP
    then Spec (queue a ++ [e]) (refused a)
    else Spec (queue a) (Z.min UINT8_MAX (refused a + 1))) ;;
  emit (k_work_submit timing_work).

Definition logged (e : event) : effect :=
  log_record_timing (uptime_ms e) (type e) (idx e) (active e) (reason e) (thrash_win e) (extra e).

Definition drops_event (now dropped : Z) : event :=
  Event now (evt TOTEM_HEVT_TIMING_DROPPED) (-1) (-1) dropped 0 0.

Definition turn : proc spec effect () :=
  a <- get ;;
  match queue a with
  | e :: q => modify (fun a => Spec q (refused a)) ;; emit (logged e)
  | [] =>
      modify (fun a => Spec [] 0) ;;
      (if refused a =? 0 then ret ()
       else now <- k_uptime_get_32 ;; emit (logged (drops_event now (refused a))))
  end.
End code.

(** The events a trace of log calls appends. *)
Definition logged_event (e : effect) : option event :=
  match e with
  | log_record_timing u t i a r p x => Some (Event u t i a r p x)
  | _ => None
  end.
Definition logged_events (es : list effect) : list event := omap logged_event es.

Lemma logged_events_app es es' : logged_events (es ++ es') = logged_events es ++ logged_events es'.
Proof. apply omap_app. Qed.
Lemma logged_events_logged es : logged_events (logged <$> es) = es.
Proof. induction es as [|[] es IH]; cbn; [done|]. by f_equal. Qed.
End InboxSpec.

(** * Interleavings of captures (any context) and drain turns (the work queue) *)
Module InboxRefinement.
Import Inbox InboxSpec.

Inductive op :=
| op_capture (uptime_ms type idx active reason pair extra : Z)
| op_turn.

Definition captured (o : op) : option event :=
  match o with
  | op_capture u k i a r p x => Some (mk_event u k i a r p x)
  | op_turn => None
  end.

Section refinement.
Context `{!Clock}.

Definition exec (o : op) : proc timing effect () :=
  match o with
  | op_capture u k i a r p x => totem_diagnostic_timing_capture u k i a r p x
  | op_turn => _ <- timing_drain_once ;; ret ()
  end.

Definition spec_exec (o : op) : proc spec effect () :=
  match o with
  | op_capture u k i a r p x => capture (mk_event u k i a r p x)
  | op_turn => turn
  end.

Definition abs (s : timing) : spec := Spec (queued s) (timing_dropped s).

Lemma exec_refines o s t :
  wf s ->
  let r := exec o s t in
  let r' := spec_exec o (abs s) t in
  wf (fin r) /\ abs (fin r) = fin r' /\ eff r = eff r' /\ clk r = clk r'.
Proof.
  intros Hwf. destruct o as [u k i a r p x|].
  - pose proof (capture_queued u k i a r p x s t Hwf) as Hcap. unfold wp in Hcap. revert Hcap.
    cbn [exec spec_exec]. cbv zeta. generalize (totem_diagnostic_timing_capture u k i a r p x s t).
    intros o (Hwf'&Hclk&Heff&_&Hq). split; [exact Hwf'|].
    rewrite Heff, Hclk. unfold abs, capture. cbn. rewrite length_queued by done.
    destruct (timing_count s <? TIMING_CAP); destruct Hq as [-> ->]; done.
  - cbn [exec spec_exec]. cbv zeta. destruct (queued s) as [|e q] eqn:Hq.
    + pose proof (drain_once_done s t Hwf Hq) as Hdone. unfold wp in Hdone. revert Hdone.
      unfold bind at 1 2 3 4. generalize (timing_drain_once s t).
      intros o (Hwf'&_&Hq'&Hd'&Hclk&Heff). unfold abs, turn. cbn. rewrite Hq. cbn.
      rewrite Heff, Hclk, Hq', Hd', app_nil_r. split; [done|].
      destruct (timing_dropped s =? 0); done.
    + pose proof (drain_once_pop e q s t Hwf Hq) as Hpop. unfold wp in Hpop. revert Hpop.
      unfold bind at 1 2 3 4. generalize (timing_drain_once s t).
      intros o (Hwf'&_&Hclk&Hq'&Hd'&Heff). unfold abs, turn. cbn. rewrite Hq. cbn.
      rewrite Heff, Hclk, Hq', Hd', app_nil_r. done.
Qed.

Lemma for_each_refines ops s t :
  wf s ->
  let r := for_each ops exec s t in
  let r' := for_each ops spec_exec (abs s) t in
  wf (fin r) /\ abs (fin r) = fin r' /\ eff r = eff r' /\ clk r = clk r'.
Proof.
  revert s t. induction ops as [|o ops IH]; intros s t Hwf; [done|].
  destruct (exec_refines o s t Hwf) as (Hwf'&Hs&He&Hc).
  destruct (IH (fin (exec o s t)) (clk (exec o s t)) Hwf') as (?&Hs'&He'&Hc').
  cbn. rewrite <- Hs, <- He, <- Hc, <- He'. done.
Qed.

(** The abstract queue delivers a sub-sequence of what it was given, in order;
    everything if the captures fit. *)
Lemma spec_fifo ops a t :
  Forall (fun o => match captured o with Some e => type e <> evt TOTEM_HEVT_TIMING_DROPPED
                   | None => True end) ops ->
  let r := for_each ops spec_exec a t in
  let data := filter (fun e => type e <> evt TOTEM_HEVT_TIMING_DROPPED) (logged_events (eff r)) in
  Forall (fun e => type e <> evt TOTEM_HEVT_TIMING_DROPPED) (queue a) ->
  data ++ queue (fin r) `sublist_of` queue a ++ omap captured ops /\
  (Z.of_nat (length (queue a) + length (omap captured ops)) <= TIMING_CAP -> refused a = 0 ->
   logged_events (eff r) ++ queue (fin r) = queue a ++ omap captured ops /\ refused (fin r) = 0).
Proof.
  revert a t. induction ops as [|o ops IH]; intros a t Hops; cbn.
  { intros Hq. rewrite !app_nil_r. split; [done|]. done. }
  apply Forall_cons in Hops as [Ho Hops]. intros Hq.
  rewrite logged_events_app, filter_app.
  destruct o as [u k i c r p x|]; cbn [captured spec_exec] in *.
  - set (e := mk_event u k i c r p x) in *. unfold capture. cbn.
    destruct (Z.ltb_spec (Z.of_nat (length (queue a))) TIMING_CAP) as [Hlt|Hge]; cbn.
    + destruct (IH (Spec (queue a ++ [e]) (refused a)) t Hops) as [H1 H2].
      { cbn. apply Forall_app. by repeat constructor. }
      cbn in H1, H2. rewrite <- app_assoc in H1, H2. split; [exact H1|].
      intros Hle ?. apply H2; [|done]. rewrite length_app. cbn. lia.
    + destruct (IH (Spec (queue a) (Z.min UINT8_MAX (refused a + 1))) t Hops) as [H1 H2]; [done|].
      cbn in H1, H2. split; [|lia].
      etrans; [exact H1|]. apply sublist_app; [done|]. by apply sublist_cons.
  - unfold turn. cbn. destruct (queue a) as [|e q] eqn:Hqa; cbn.
    + destruct (refused a =? 0) eqn:Hr; cbn.
      * destruct (IH (Spec [] 0) t Hops) as [H1 H2]; [done|]. cbn in H1, H2. split; [exact H1|].
        intros. by apply H2.
      * rewrite decide_False by tauto. cbn.
        destruct (IH (Spec [] 0) (S t) Hops) as [H1 H2]; [done|]. cbn in H1, H2.
        split; [exact H1|]. intros _ Hr0. by rewrite Hr0 in Hr.
    + apply Forall_cons in Hq as [He Hq]. destruct e as [e1 e2 e3 e4 e5 e6 e7].
      rewrite decide_True by done. cbn.
      destruct (IH (Spec q (refused a)) t Hops) as [H1 H2]; [done|]. cbn in H1, H2.
      split; [by apply sublist_skip|]. intros Hle Hr. destruct H2 as [-> ->]; [lia|done..].
Qed.
End refinement.
End InboxRefinement.

(** * The observer around [settings_save_one] *)
Module SettingsWrap.
Import Inbox InboxSpec.

Section code.
Context `{!Clock} `{!View}.

Definition timing_capture (type idx active reason pair extra : Z) : proc timing effect () :=
  now <- k_uptime_get_32 ;;
  totem_diagnostic_timing_capture now type idx active reason pair extra.

(** [strncmp(name, p, strlen p) == 0] is "[p] is a prefix of [name]". *)
Definition settings_category (name : string) : Z :=
  if String.prefix "th/dlog/" name then 1
  else if String.eqb name "ble/active_profile" then 2
  else if String.prefix "ble/profiles/" name then 3
  else if String.prefix "bt/" name then 4 else 5.

(** [real] is [__real_settings_save_one], the settings subsystem. *)
Definition __wrap_settings_save_one (real : string -> list Z -> Z) (name : string)
    (value : list Z) : proc timing effect Z :=
  let category := settings_category name in
  s <- get ;;
  let pair := u8 (write_sequence s) in
  modify (fun s => s <| write_sequence := i32 (write_sequence s + 1) |>) ;;
  let active := i8 zmk_ble_active_profile_index in
  timing_capture TOTEM_HEVT_FLASH_BEGIN (-1) active category pair 0 ;;
  emit (settings_write name value) ;;
  let err := real name value in
  timing_capture TOTEM_HEVT_FLASH_END (-1) active category pair (err_byte err) ;;
  ret err.
End code.

Definition is_settings_write (e : effect) : bool :=
  match e with settings_write _ _ => true | _ => false end.

Lemma settings_category_range name : 1 <= settings_category name <= 5.
Proof. unfold settings_category. repeat case_match; lia. Qed.

Section facts.
Context `{!Clock} `{!View}.

(** One time-stamped capture: it appends its record when there is room and never
    touches the write sequence. *)
Lemma timing_capture_spec k i a r p x s t :
  wf s ->
  wp (timing_capture k i a r p x) (fun _ s' t' es =>
    wf s' /\ t' = S t /\ es = [k_work_submit timing_work] /\ write_sequence s' = write_sequence s /\
    timing_dropped s <= timing_dropped s' /\
    (timing_count s < TIMING_CAP ->
     queued s' = queued s ++ [mk_event (uptime t) k i a r p x] /\
     timing_count s' = timing_count s + 1)) s t.
Proof.
  intros Hwf. pose proof (capture_queued (u32 (uptime t)) k i a r p x s t Hwf) as Hcap.
  unfold wp in *. unfold timing_capture, bind, k_uptime_get_32. cbn [val fin clk eff].
  assert (clk (totem_diagnostic_timing_capture (u32 (uptime t)) k i a r p x s (S t)) = S t /\
    fin (totem_diagnostic_timing_capture (u32 (uptime t)) k i a r p x s (S t)) =
    fin (totem_diagnostic_timing_capture (u32 (uptime t)) k i a r p x s t) /\
    eff (totem_diagnostic_timing_capture (u32 (uptime t)) k i a r p x s (S t)) =
    eff (totem_diagnostic_timing_capture (u32 (uptime t)) k i a r p x s t)) as (->&->&->).
  { unfold totem_diagnostic_timing_capture, bind, when, ret, get, modify, emit. cbn [val fin clk eff].
    destruct (timing_count s <? TIMING_CAP); [done|]. by destruct (timing_dropped s <? UINT8_MAX). }
  revert Hcap. generalize (totem_diagnostic_timing_capture (u32 (uptime t)) k i a r p x s t).
  intros o (Hwf'&_&->&Hws&Hq). pose proof (length_queued _ Hwf). pose proof (length_queued _ Hwf').
  assert (mk_event (u32 (uptime t)) k i a r p x = mk_event (uptime t) k i a r p x) as Hev.
  { unfold mk_event. by rewrite u32_idemp. }
  destruct Hwf as (_&_&_&?&_).
  destruct (Z.ltb_spec (timing_count s) TIMING_CAP); destruct Hq as [Hq Hd]; split_and!; try done; try lia.
  intros _. rewrite Hq, Hev in *. split; [done|]. rewrite length_app in *. cbn in *. lia.
Qed.
End facts.
End SettingsWrap.

(** * Properties *)
Module InboxProps.
Import Inbox InboxSpec InboxRefinement SettingsWrap.

Definition drops_notice `{!Clock} (t : nat) (dropped : Z) : list event :=
  if dropped =? 0 then [] else [drops_event (u32 (uptime t)) dropped].

Lemma drops_notice_ok `{!Clock} t d : 0 <= d <= UINT8_MAX -> Forall event_ok (drops_notice t d).
Proof.
  intros Hd. unfold drops_notice. case_match; [constructor|]. pose proof (u32_range (uptime t)).
  repeat constructor; cbn; unfold UINT8_MAX in *; lia.
Qed.

(** Emptying the inbox by [n] pops and a final turn. *)
Lemma drain_turns_spec `{!Clock} fuel s t :
  wf s -> (length (queued s) < fuel)%nat ->
  wp (timing_drain_turns fuel []) (fun fin s' t' es =>
    wf s' /\ fin = true /\ queued s' = [] /\ timing_dropped s' = 0 /\
    es = logged <$> queued s ++ drops_notice t (timing_dropped s) /\ (t <= t')%nat) s t.
Proof.
  revert s t. induction fuel as [|fuel IH]; intros s t Hwf Hlt; [lia|].
  cbn [timing_drain_turns hd tail for_each]. apply wp_bind, wp_ret.
  destruct (queued s) as [|e q] eqn:Hq.
  - pose proof (drain_once_done s t Hwf Hq) as Hd. unfold wp, bind in *. revert Hd.
    generalize (timing_drain_once s t). intros o (?&->&?&?&Ht&->). cbn. unfold drops_notice.
    rewrite app_nil_r, Ht. destruct (timing_dropped s =? 0); split_and!; done || lia.
  - pose proof (drain_once_pop e q s t Hwf Hq) as Hd. unfold wp, bind in *. revert Hd.
    generalize (timing_drain_once s t). intros o (Hwf'&->&->&Hq'&Hd'&->).
    cbn in Hlt. destruct (IH (fin o) t) as (?&?&?&?&He&?); [done|rewrite Hq'; lia|].
    cbn. rewrite He, Hq', Hd'. done.
Qed.

Lemma exec_from_init `{!Clock} ops t :
  let r := for_each ops exec timing_init t in
  let r' := for_each ops spec_exec (Spec [] 0) t in
  wf (fin r) /\ queued (fin r) = queue (fin r') /\ timing_dropped (fin r) = refused (fin r') /\
  eff r = eff r'.
Proof.
  destruct (for_each_refines ops timing_init t wf_init) as (Hwf&Habs&Heff&_).
  cbv zeta. change (abs timing_init) with (Spec [] 0) in *. rewrite <- Habs. done.
Qed.

(** C32 Whatever the interleaving of captures from any context and of drain turns on the
    work queue, the inbox behaves as the bounded queue of [InboxSpec]: same effects
    (log calls included, in order), same queued records, same drop counter, and the
    invariant holds. *)
Theorem inbox_refines_queue `{!Clock} (ops : list op) (t : nat) :
  let r := for_each ops exec timing_init t in
  let r' := for_each ops spec_exec (Spec [] 0) t in
  wf (fin r) /\ queued (fin r) = queue (fin r') /\ timing_dropped (fin r) = refused (fin r') /\
  eff r = eff r'.
Proof. apply exec_from_init. Qed.

(** FIFO delivery: the records written to the log followed by those still queued are a
    sub-sequence, in order, of the records captured; when no more than 24 are captured
    they are exactly the captured records and no drop is reported. *)
Theorem inbox_fifo `{!Clock} (ops : list op) (t : nat) :
  Forall (fun o => match captured o with Some e => type e <> evt TOTEM_HEVT_TIMING_DROPPED
                   | None => True end) ops ->
  let r := for_each ops exec timing_init t in
  let logs := logged_events (eff r) in
  filter (fun e => type e <> evt TOTEM_HEVT_TIMING_DROPPED) logs ++ queued (fin r)
    `sublist_of` omap captured ops /\
  (Z.of_nat (length (omap captured ops)) <= TIMING_CAP ->
   logs ++ queued (fin r) = omap captured ops /\ timing_dropped (fin r) = 0).
Proof.
  intros Hops. destruct (exec_from_init ops t) as (_&Hq&Hd&He).
  cbv zeta. rewrite Hq, Hd, He.
  destruct (spec_fifo ops (Spec [] 0) t Hops) as [H1 H2]; [constructor|].
  split; [exact H1|]. intros Hle. by apply H2.
Qed.

(** What captures leave in the inbox, in order, and what they add to the drops. *)
Lemma arrivals_spec `{!Clock} es s t :
  wf s -> Forall event_ok es ->
  wp (for_each es arrives) (fun _ s' t' out =>
    wf s' /\ t' = t /\ logged_events out = [] /\
    exists acc, acc `sublist_of` es /\ queued s' = queued s ++ acc /\
      timing_dropped s' =
        Z.min UINT8_MAX (timing_dropped s + Z.of_nat (length es - length acc))) s t.
Proof.
  intros Hwf Hes. revert s t Hwf. induction Hes as [|e es He Hes IH]; intros s t Hwf; cbn [for_each].
  { wp_steps. destruct Hwf as (?&?&?&?&?). split_and!; try done. exists [].
    rewrite app_nil_r. split_and!; [done..|]. cbn. lia. }
  apply wp_bind. eapply wp_mono; [exact (capture_queued _ _ _ _ _ _ _ s t Hwf)|].
  intros [] s1 t1 out1 (Hwf1&->&->&_&Hq). eapply wp_mono; [by apply IH|].
  intros [] s2 t2 out2 (Hwf2&->&Hout&acc&Hsub&Hq2&Hd2). split_and!; try done.
  pose proof (sublist_length _ _ Hsub). rewrite (mk_event_id e He) in Hq.
  destruct (timing_count s <? TIMING_CAP); destruct Hq as [Hq Hd]; rewrite Hq in Hq2; rewrite Hd in Hd2.
  - exists (e :: acc). rewrite <- app_assoc in Hq2. split_and!; [by apply sublist_skip|done|].
    rewrite Hd2. cbn. done.
  - exists acc. split_and!; [by apply sublist_cons|done|]. rewrite Hd2. cbn [length].
    unfold UINT8_MAX. lia.
Qed.

(** The loop with captures between its turns. *)
Lemma busy_turns_spec `{!Clock} fuel between s t :
  wf s -> Forall event_ok (concat between) ->
  (length (queued s) + length (concat between) < fuel)%nat ->
  wp (timing_drain_turns fuel between) (fun fin s' t' out =>
    wf s' /\ fin = true /\ queued s' = [] /\ timing_dropped s' = 0 /\
    exists arrived later acc, concat between = arrived ++ later /\ acc `sublist_of` arrived /\
      logged_events out = queued s ++ acc ++ drops_notice t
        (Z.min UINT8_MAX (timing_dropped s + Z.of_nat (length arrived - length acc)))) s t.
Proof.
  revert between s t. induction fuel as [|fuel IH]; intros between s t Hwf Hok Hlt; [lia|].
  cbn [timing_drain_turns]. apply wp_bind.
  assert (concat between = hd [] between ++ concat (tail between)) as Hsplit by by destruct between.
  rewrite Hsplit, length_app in *. apply Forall_app in Hok as [Hok1 Hok2].
  eapply wp_mono; [by apply arrivals_spec|].
  intros [] s1 t1 out1 (Hwf1&->&Hout1&acc1&Hsub1&Hq1&Hd1). cbv beta.
  pose proof (sublist_length _ _ Hsub1). unfold timing_record in *. apply wp_bind.
  destruct (queued s1) as [|e q] eqn:Hq.
  - eapply wp_mono; [by apply drain_once_done|]. intros b s2 t2 out2 (?&->&?&?&Ht&->). wp_steps.
    split_and!; try done. exists (hd [] between), (concat (tail between)), acc1.
    split_and!; [done..|]. rewrite !logged_events_app, Hout1, (app_assoc (A := event) (queued s)), <- Hq1.
    rewrite <- Hd1. unfold drops_notice.
    by destruct (timing_dropped s1 =? 0).
  - eapply wp_mono; [by eapply drain_once_pop|]. intros b s2 t2 out2 (Hwf2&->&->&Hq2&Hd2&->).
    cbv beta iota. apply (f_equal length) in Hq1 as Hn. rewrite length_app in Hn. cbn [length] in Hn.
    eapply wp_mono; [apply IH; [done|done|rewrite Hq2; lia]|].
    intros b s3 t3 out3 (?&->&?&?&arrived&later&acc&Hcat&Hsub&Hout). split_and!; try done.
    exists (hd [] between ++ arrived), later, (acc1 ++ acc). pose proof (sublist_length _ _ Hsub).
    split_and!; [by rewrite Hcat, app_assoc|by apply sublist_app|].
    rewrite !logged_events_app, Hout1, Hout, Hq2, Hd2, Hd1, <- app_assoc, (app_assoc (A := event) (queued s)), <- Hq1.
    cbn -[Z.min app]. rewrite !length_app. destruct e; cbn. do 4 f_equal. unfold UINT8_MAX. lia.
Qed.

(** C33 Draining terminates and loses nothing without telling: from any well-formed inbox
    [timing_drain] returns, leaves the inbox empty with the drop counter cleared, and
    writes to the event log, whatever its implementation, the queued records in order
    followed by one notice with the number of drops, if there were any.  The same with any
    finite number of captures arriving between the turns of the loop: it returns, and logs
    the queued records, then those of the captures that found room, in order, then one notice
    that counts those that did not. *)
Theorem timing_drain_delivers `{!Clock} `{EventSink J} (s : timing) (t : nat) (j : J) :
  wf s -> sink_ok j ->
  let r := timing_drain s t in
  val r = true /\ queued (fin r) = [] /\ timing_dropped (fin r) = 0 /\
  sink_recent (sink_put_all (logged_events (eff r)) j) =
    lastn sink_cap (sink_recent j ++ queued s ++ drops_notice t (timing_dropped s)) /\
  forall between, Forall event_ok (concat between) ->
    let r := timing_drain_busy between s t in
    val r = true /\ queued (fin r) = [] /\ timing_dropped (fin r) = 0 /\
    exists arrived later acc, concat between = arrived ++ later /\ acc `sublist_of` arrived /\
      logged_events (eff r) = queued s ++ acc ++ drops_notice t
        (Z.min UINT8_MAX (timing_dropped s + Z.of_nat (length arrived - length acc))).
Proof.
  intros Hwf Hj. destruct (drain_turns_spec (S (Z.to_nat TIMING_CAP)) s t Hwf) as (_&Hv&Hq&Hd&He&_).
  { pose proof (length_queued s Hwf). destruct Hwf as (_&_&?&_&_). unfold TIMING_CAP in *. lia. }
  cbv zeta. change (timing_drain s t) with (timing_drain_turns (S (Z.to_nat TIMING_CAP)) [] s t).
  rewrite Hv, Hq, Hd, He, logged_events_logged. split_and!; try done.
  - apply sink_put_all_spec; [done|].
    apply Forall_app; split; [by apply queued_ok|]. apply drops_notice_ok. by destruct Hwf as (_&_&_&?&_).
  - intros between Hok. pose proof (length_queued s Hwf). destruct Hwf as (?&?&?&?&?).
    destruct (busy_turns_spec (S (length (concat between) + Z.to_nat TIMING_CAP)) between s t)
      as (_&?); [done|done|unfold TIMING_CAP in *; lia|done].
Qed.

(** The settings observer is transparent: it performs exactly the requested write, once,
    and returns its result, full inbox or not; the write sequence advances by one; and when
    two slots are free it queues a begin and an end record that carry the same pair id and
    the same key category, in this order and with the times before and after the write. *)
Theorem settings_save_one_transparent `{!Clock} `{!View} (real : string -> list Z -> Z)
    (name : string) (value : list Z) (s : timing) (t : nat) :
  wf s ->
  let pair := u8 (write_sequence s) in
  let active := i8 zmk_ble_active_profile_index in
  wp (__wrap_settings_save_one real name value) (fun err s' t' es =>
    wf s' /\ err = real name value /\
    filter is_settings_write es = [settings_write name value] /\
    write_sequence s' = i32 (write_sequence s + 1) /\
    (timing_count s + 2 <= TIMING_CAP ->
     queued s' = queued s ++
       [mk_event (uptime t) TOTEM_HEVT_FLASH_BEGIN (-1) active (settings_category name) pair 0;
        mk_event (uptime (S t)) TOTEM_HEVT_FLASH_END (-1) active (settings_category name) pair
          (err_byte (real name value))])) s t.
Proof.
  intros Hwf pair act. unfold __wrap_settings_save_one. wp_steps.
  wp_use timing_capture_spec; [exact Hwf|]. intros [] s1 t1 es1 (Hwf1&->&->&Hws1&_&Hq1).
  wp_steps. wp_use timing_capture_spec; [exact Hwf1|].
  intros [] s2 t2 es2 (Hwf2&->&->&Hws2&_&Hq2). wp_steps.
  split_and!; try done; [by rewrite Hws2, Hws1|].
  intros Hroom. destruct Hq1 as [Hq1 Hn]; [cbn; lia|]. destruct Hq2 as [Hq2 _]; [cbn in *; lia|].
  rewrite Hq2, Hq1, <- app_assoc. done.
Qed.

(** The concrete world of the witnesses. *)
#[local] Instance example_clock : Clock := ticking 100 100.
#[local] Instance example_view : View :=
  host_view [] 1 false true false ZMK_TRANSPORT_BLE false.
#[local] Instance example_sink : EventSink (list event) := list_sink 31.

Definition example_ops : list op :=
  [op_capture 10 TOTEM_HEVT_CONN 1 1 0 0 0; op_turn; op_capture 20 TOTEM_HEVT_DISC 1 1 0x13 0 0;
   op_turn; op_turn; op_capture 30 TOTEM_HEVT_ADV 0 0 0 0 0].

Lemma inbox_fifo_witness :
  let r := for_each example_ops exec timing_init 0%nat in
  logged_events (eff r) ++ queued (fin r) = omap captured example_ops /\
  length (queued (fin r)) = 1%nat.
Proof.
  split; [|vm_compute; reflexivity].
  refine (proj1 (proj2 (inbox_fifo example_ops 0 _) _)); [|vm_compute; discriminate].
  repeat constructor; vm_compute; discriminate.
Defined.

Definition example_inbox : timing := fin (for_each example_ops exec timing_init 0%nat).

Lemma timing_drain_delivers_witness :
  val (timing_drain example_inbox 9%nat) = true /\
  sink_recent (sink_put_all (logged_events (eff (timing_drain example_inbox 9%nat))) []) =
    [mk_event 30 TOTEM_HEVT_ADV 0 0 0 0 0] /\
  val (timing_drain_busy [[]; [mk_event 40 TOTEM_HEVT_ADV 1 1 0 0 0]] example_inbox 9%nat) = true /\
  logged_events
    (eff (timing_drain_busy [[]; [mk_event 40 TOTEM_HEVT_ADV 1 1 0 0 0]] example_inbox 9%nat)) =
    [mk_event 30 TOTEM_HEVT_ADV 0 0 0 0 0; mk_event 40 TOTEM_HEVT_ADV 1 1 0 0 0].
Proof.
  destruct (timing_drain_delivers example_inbox 9 []) as (Hv&_&_&Hs&Hbusy).
  - exact (proj1 (exec_from_init example_ops 0)).
  - cbn. lia.
  - split; [exact Hv|]. split; [rewrite Hs; vm_compute; reflexivity|].
    split; [|vm_compute; reflexivity].
    apply (Hbusy [[]; [mk_event 40 TOTEM_HEVT_ADV 1 1 0 0 0]]). constructor; [apply mk_event_ok|constructor].
Defined.

Lemma settings_save_one_transparent_witness :
  wp (__wrap_settings_save_one (fun _ _ => -5) "bt/keys" [1; 2; 3]) (fun err s' t' es =>
    err = -5 /\ length (queued s') = 2%nat) timing_init 4%nat.
Proof.
  eapply wp_mono; [apply (settings_save_one_transparent (fun _ _ => -5)); apply wf_init|].
  cbv beta zeta. intros err s' t' es (_&Herr&_&_&Hq). split; [exact Herr|].
  rewrite Hq; [reflexivity|]. cbn. unfold TIMING_CAP. lia.
Defined.
End InboxProps.
