(* ===== verification/HostEventLog.v ===== *)
(** * The persistent event journal (src/host_event_log.c)

    [Journal] is the code: the RAM ring, the rate-limited block writer and the
    restore path.  The dump is in [HostEventDump.v], the specification and the
    refinement in [HostEventSpec.v]. *)
From stdpp Require Import pretty.
From S2P Require Import Prelude Events Platform RingBuffer.

Module Journal.

(** [struct totem_diag_block], packed. *)
Record block := Block {
  magic : Z;              (* uint32_t *)
  version : Z;            (* uint16_t *)
  slot : Z;               (* uint8_t *)
  count : Z;              (* uint8_t *)
  block_journal_seq : Z;  (* uint32_t *)
  first_event_seq : Z;    (* uint32_t *)
  ev : list event;        (* BLOCK_EVENTS of them *)
  crc : Z;                (* uint32_t *)
}.
#[export] Instance block_eta : Eta block := fun b =>
  Block (magic b) (version b) (slot b) (count b) (block_journal_seq b) (first_event_seq b)
    (ev b) (crc b).
#[export] Instance block_inhabited : Inhabited block := populate (Block 0 0 0 0 0 0 [] 0).
#[export] Instance block_eq_dec : EqDecision block.
Proof. solve_decision. Defined.

Definition BLOCK_MAGIC : Z := 0x54444C47.
Definition BLOCK_VERSION : Z := 1.
Definition SETTINGS_KEY_PREFIX : string := "th/dlog".

(** The static variables of the file ([persist_block] and the dump's snapshots are
    scratch buffers of one call and are local values here). *)
Record journal := MkJournal {
  ring : list event;
  ring_head : Z;               (* uint16_t: next write *)
  ring_count : Z;              (* uint16_t *)
  ring_seq : Z;                (* uint32_t *)
  persisted_event_seq : Z;     (* uint32_t *)
  journal_seq : Z;             (* uint32_t *)
  next_slot : Z;               (* uint8_t *)
  events_since_persist : Z;    (* uint16_t *)
  last_persist_uptime_ms : Z;  (* int64_t *)
  persist_requested : bool;
  journal_ready : bool;
  restored_blocks : list block;
  restored_valid : list bool;
}.
#[export] Instance journal_eta : Eta journal := fun s =>
  MkJournal (ring s) (ring_head s) (ring_count s) (ring_seq s) (persisted_event_seq s)
    (journal_seq s) (next_slot s) (events_since_persist s) (last_persist_uptime_ms s)
    (persist_requested s) (journal_ready s) (restored_blocks s) (restored_valid s).

Section code.
Context `{!Config} `{!Clock} `{!Crc32}.

Definition RING_CAP : Z := CONFIG_TOTEM_HOST_EVENT_LOG_SIZE.
Definition PERSIST_EVERY : Z := CONFIG_TOTEM_HOST_EVENT_LOG_PERSIST_EVERY.
Definition BLOCK_EVENTS : Z := CONFIG_TOTEM_HOST_EVENT_LOG_BLOCK_SIZE.
Definition JOURNAL_SLOTS : Z := CONFIG_TOTEM_HOST_EVENT_LOG_SLOTS.
Definition PERSIST_MIN_INTERVAL_MS : Z := CONFIG_TOTEM_HOST_EVENT_LOG_PERSIST_MIN_MS.

(** Static initialisation with CONFIG_SETTINGS: nothing restored, not ready. *)
Definition journal_init : journal :=
  MkJournal (replicate (Z.to_nat RING_CAP) inhabitant) 0 0 0 0 0 0 0 0 false false
    (replicate (Z.to_nat JOURNAL_SLOTS) inhabitant) (replicate (Z.to_nat JOURNAL_SLOTS) false).

(** ** Block layout: [offsetof(struct totem_diag_block, crc)] bytes, then the CRC *)
Definition block_head_bytes (b : block) : list Z :=
  le32 (magic b) ++ le16 (version b) ++ [u8 (slot b); u8 (count b)] ++
  le32 (block_journal_seq b) ++ le32 (first_event_seq b) ++ (ev b ≫= event_bytes).
Definition block_bytes (b : block) : list Z := block_head_bytes b ++ le32 (crc b).
Definition block_crc_offset : Z := 16 + 10 * BLOCK_EVENTS.
Definition block_size : Z := block_crc_offset + 4.

(** Reading the struct back from [block_size] bytes of memory. *)
Definition events_of_bytes (n : nat) (bs : list Z) : list event :=
  (fun i => event_of_bytes (take EVENT_SIZE (drop (i * EVENT_SIZE) bs))) <$> seq 0 n.
Definition block_of_bytes (bs : list Z) : block :=
  let c := drop (Z.to_nat block_crc_offset) bs in
  Block (of_le32 (aget bs 0) (aget bs 1) (aget bs 2) (aget bs 3))
    (of_le16 (aget bs 4) (aget bs 5)) (aget bs 6) (aget bs 7)
    (of_le32 (aget bs 8) (aget bs 9) (aget bs 10) (aget bs 11))
    (of_le32 (aget bs 12) (aget bs 13) (aget bs 14) (aget bs 15))
    (events_of_bytes (Z.to_nat BLOCK_EVENTS) (drop 16 bs))
    (of_le32 (aget c 0) (aget c 1) (aget c 2) (aget c 3)).

(** [ring_get_ordered]: the retained events, oldest first. *)
Definition ring_get_ordered (s : journal) : list event :=
  let n := ring_count s in
  let start := u16 ((ring_head s + RING_CAP - n) `mod` RING_CAP) in
  (fun i => aget (ring s) ((start + i) `mod` RING_CAP)) <$> seqZ 0 n.

Definition schedule_persist_coalesced (urgent : bool) : proc journal effect () :=
  modify (fun s => s <| persist_requested := true |>) ;;
  s <- get ;;
  if negb (journal_ready s) then ret () else
  now <- k_uptime_get ;;
  let elapsed := now - last_persist_uptime_ms s in
  let wait_ms := if urgent then 0 else PERSIST_MIN_INTERVAL_MS in
  let wait_ms :=
    if negb (last_persist_uptime_ms s =? 0) && (elapsed <? PERSIST_MIN_INTERVAL_MS)
    then i32 (PERSIST_MIN_INTERVAL_MS - elapsed) else wait_ms in
  if urgent then emit (k_work_reschedule persist_work (K_MSEC wait_ms))
  else emit (k_work_schedule persist_work (K_MSEC wait_ms)).

Definition record_event (uptime_ms type idx active reason thrash_win extra : Z)
    (persist : bool) : proc journal effect () :=
  let e := mk_event uptime_ms type idx active reason thrash_win extra in
  modify (fun s => s <| ring := aset (ring s) (ring_head s) e |>
                     <| ring_head := u16 ((ring_head s + 1) `mod` RING_CAP) |>) ;;
  modify (fun s => if ring_count s <? RING_CAP then s <| ring_count := u16 (ring_count s + 1) |>
                   else s) ;;
  modify (fun s => s <| ring_seq := u32 (ring_seq s + 1) |>) ;;
  when persist
    (modify (fun s => s <| events_since_persist := u16 (events_since_persist s + 1) |>)) ;;
  s <- get ;;
  let need_persist := persist && (PERSIST_EVERY <=? events_since_persist s) in
  when need_persist (modify (fun s => s <| events_since_persist := 0 |>)) ;;
  when persist (schedule_persist_coalesced need_persist).

Definition totem_host_event_log_record (type idx active reason thrash_win extra : Z)
    : proc journal effect () :=
  now <- k_uptime_get_32 ;;
  record_event now type idx active reason thrash_win extra true.

Definition totem_host_event_log_record_timing
    (uptime_ms type idx active reason pair extra : Z) : proc journal effect () :=
  record_event uptime_ms type idx active reason pair extra false.

(** The two ways another thread can append while [ring_mu] is free. *)
Inductive record_call :=
| call_record (type idx active reason thrash_win extra : Z)
| call_timing (uptime_ms type idx active reason pair extra : Z).

Definition run_call (c : record_call) : proc journal effect () :=
  match c with
  | call_record k i a r w x => totem_host_event_log_record k i a r w x
  | call_timing u k i a r w x => totem_host_event_log_record_timing u k i a r w x
  end.

Definition settings_key (slot : Z) : string :=
  SETTINGS_KEY_PREFIX +:+ "/" +:+ pretty (Z.to_N slot).

(** The block [totem_host_event_log_persist] builds under [ring_mu]. *)
Definition build_block (s : journal) (first_available first_new n : Z) : block :=
  let start := u16 ((ring_head s + RING_CAP - ring_count s) `mod` RING_CAP) in
  let events :=
    (fun i =>
       let event_seq := u32 (first_new + i) in
       let offset := u16 (u32 (event_seq - first_available)) in
       aget (ring s) ((start + offset) `mod` RING_CAP)) <$> seqZ 0 n in
  let b := Block BLOCK_MAGIC BLOCK_VERSION (next_slot s) (u8 n) (journal_seq s) first_new
             (events ++ replicate (Z.to_nat (BLOCK_EVENTS - n)) (Event 0 0 0 0 0 0 0)) 0 in
  b <| crc := crc32_ieee (block_head_bytes b) |>.

(** [save] is [settings_save_one]; [during] is what other threads record while the
    flash write runs, when [ring_mu] is released. *)
Definition totem_host_event_log_persist (save : string -> list Z -> Z)
    (during : list record_call) : proc journal effect () :=
  now <- k_uptime_get ;;
  s <- get ;;
  if negb (journal_ready s) then ret () else
  if negb (last_persist_uptime_ms s =? 0) &&
     (now - last_persist_uptime_ms s <? PERSIST_MIN_INTERVAL_MS) then
    schedule_persist_coalesced true
  else
  let first_available :=
    if ring_count s =? 0 then u32 (ring_seq s + 1) else u32 (ring_seq s - ring_count s + 1) in
  let first_new := u32 (persisted_event_seq s + 1) in
  let first_new := if first_new <? first_available then first_available else first_new in
  if ring_seq s <? first_new then modify (fun s => s <| persist_requested := false |>) else
  let pending := u32 (ring_seq s - first_new + 1) in
  let n := u16 (Z.min pending BLOCK_EVENTS) in
  modify (fun s => s <| journal_seq := u32 (journal_seq s + 1) |>) ;;
  s <- get ;;
  let block := build_block s first_available first_new n in
  let slot := next_slot s in
  let key := settings_key slot in
  let last_copied_seq := u32 (first_new + n - 1) in
  modify (fun s => s <| persist_requested := false |>) ;;
  for_each during run_call ;;
  emit boot_diagnostics_persist ;;
  emit (settings_write key (block_bytes block)) ;;
  let err := save key (block_bytes block) in
  finished <- k_uptime_get ;;
  modify (fun s => s <| last_persist_uptime_ms := finished |>) ;;
  (if err =? 0 then
     modify (fun s =>
       s <| persisted_event_seq := last_copied_seq |>
         <| restored_blocks := aset (restored_blocks s) slot block |>
         <| restored_valid := aset (restored_valid s) slot true |>
         <| next_slot := u8 ((slot + 1) `mod` JOURNAL_SLOTS) |>)
   else modify (fun s => s <| persist_requested := true |>)) ;;
  s <- get ;;
  let more_pending := persist_requested s || (persisted_event_seq s <? ring_seq s) in
  when more_pending (schedule_persist_coalesced true).

(** ** Restore *)

(** [name[5]] as a slot digit, when [name] is "dlog/<digit>" and ends there. *)
Definition slot_of_name (name : string) : option Z :=
  if negb (String.prefix "dlog/" name) then None else
  match String.get 5 name, String.get 6 name with
  | Some c, None =>
      let d := Z.of_N (Ascii.N_of_ascii c) in
      if (d <? 48) || (57 <? d) then None else Some (d - 48)
  | _, _ => None
  end.

(** [read_cb] is the settings backend: its return value and the bytes it put at the
    start of the buffer, which [memset] zeroed. *)
Definition hevt_settings_set (name : string) (len : Z) (read_cb : Z * list Z)
    : proc journal effect Z :=
  match slot_of_name name with
  | None => ret (- ENOENT)
  | Some d =>
      let slot := u8 d in
      if (JOURNAL_SLOTS <=? slot) || negb (len =? block_size) then ret 0 else
      let '(rc, bytes) := read_cb in
      let memory := take (Z.to_nat block_size) (bytes ++ replicate (Z.to_nat block_size) 0) in
      let b := block_of_bytes memory in
      modify (fun s => s <| restored_blocks := aset (restored_blocks s) slot b |>) ;;
      if rc <? 0 then ret rc else
      if negb (magic b =? BLOCK_MAGIC) || negb (version b =? BLOCK_VERSION) ||
         negb (Journal.slot b =? slot) || (count b =? 0) || (BLOCK_EVENTS <? count b) ||
         negb (rc =? block_size) ||
         negb (crc b =? crc32_ieee (take (Z.to_nat block_crc_offset) memory)) then ret 0 else
      modify (fun s => s <| restored_valid := aset (restored_valid s) slot true |>) ;;
      modify (fun s =>
        if journal_seq s <=? block_journal_seq b then
          s <| journal_seq := block_journal_seq b |>
            <| next_slot := u8 ((slot + 1) `mod` JOURNAL_SLOTS) |>
        else s) ;;
      let last_event_seq := u32 (first_event_seq b + count b - 1) in
      modify (fun s =>
        if persisted_event_seq s <? last_event_seq
        then s <| persisted_event_seq := last_event_seq |> else s) ;;
      ret 0
  end.

(** What [zmk_settings_loaded] keeps while it scans the restored blocks. *)
Record previous := Previous {
  previous_uptime : Z;     (* uint32_t *)
  previous_seq : Z;        (* uint32_t *)
  previous_profile : Z;    (* int8_t *)
  profile_seq : Z;         (* uint32_t *)
  previous_endpoint : Z;   (* int8_t *)
  endpoint_seq : Z;        (* uint32_t *)
}.
#[export] Instance previous_eta : Eta previous := fun p =>
  Previous (previous_uptime p) (previous_seq p) (previous_profile p) (profile_seq p)
    (previous_endpoint p) (endpoint_seq p).

Definition has_profile (e : event) : bool :=
  ((evt TOTEM_HEVT_DISC <=? type e) && (type e <=? evt TOTEM_HEVT_THRASH_WIN)) ||
  ((evt TOTEM_HEVT_HID_SUBSCRIBED <=? type e) && (type e <=? evt TOTEM_HEVT_FLASH_END)).

Definition scan_event (seq : Z) (e : event) (p : previous) : previous :=
  let p := if previous_seq p <? seq
           then p <| previous_uptime := uptime_ms e |> <| previous_seq := seq |> else p in
  let p := if has_profile e && (0 <=? active e) && (profile_seq p <? seq)
           then p <| previous_profile := active e |> <| profile_seq := seq |> else p in
  if (type e =? evt TOTEM_HEVT_USB) && (reason e =? 255) && (endpoint_seq p <? seq)
  then p <| previous_endpoint := i8 (extra e) |> <| endpoint_seq := seq |> else p.

Definition scan_block (p : previous) (b : block) : previous :=
  foldl (fun p n => scan_event (u32 (first_event_seq b + n)) (aget (ev b) n) p) p
    (seqZ 0 (count b)).

(** The slots are visited in order, the invalid ones skipped. *)
Definition valid_blocks (s : journal) : list block :=
  omap (fun i => if aget (restored_valid s) i then Some (aget (restored_blocks s) i) else None)
    (seqZ 0 JOURNAL_SLOTS).

Definition scan_restored (s : journal) : previous :=
  foldl scan_block (Previous 0 0 (-1) 0 (-1) 0) (valid_blocks s).

Definition zmk_settings_loaded : proc journal effect () :=
  s <- get ;;
  let p := if negb (journal_ready s) then scan_restored s else Previous 0 0 (-1) 0 (-1) 0 in
  when (negb (journal_ready s))
    (modify (fun s => s <| ring_seq := u32 (persisted_event_seq s + ring_count s) |>
                        <| journal_ready := true |>)) ;;
  s <- get ;;
  let pending := persisted_event_seq s <? ring_seq s in
  emit (boot_diagnostics_loaded (previous_uptime p) (previous_profile p) (previous_endpoint p)) ;;
  when pending (schedule_persist_coalesced true).
End code.
End Journal.
