(* ===== verification/HostEventSpec.v ===== *)
(** * The event journal against its specification

    Well-formedness of the journal of [HostEventLog.v], the abstract log it
    implements, and the lemmas about each operation that the properties in
    [HostEventProps.v] apply. *)
From S2P Require Import Prelude Events Platform RingBuffer HostEventLog.

Module JournalSpec.
Import Journal.

Section spec.
Context `{!Config} `{!Clock} `{!Crc32}.
Implicit Types (s : journal) (t : nat) (e : event) (b : block) (hist : list event).

Lemma ring_cap_range : 32 <= RING_CAP <= 1024.
Proof. apply log_size_range. Qed.
Lemma block_events_range : 8 <= BLOCK_EVENTS <= 32.
Proof. apply block_size_range. Qed.
Lemma journal_slots_range : 4 <= JOURNAL_SLOTS <= 8.
Proof. apply slots_range. Qed.
Lemma persist_interval_range : 5000 <= PERSIST_MIN_INTERVAL_MS <= 600000.
Proof. apply persist_min_ms_range. Qed.

(** ** Well-formedness *)

(** A block this program would accept on its next boot. *)
Definition block_ok (i : Z) b : Prop :=
  magic b = BLOCK_MAGIC /\ version b = BLOCK_VERSION /\ slot b = i /\
  1 <= count b <= BLOCK_EVENTS /\ 0 <= block_journal_seq b < 2 ^ 32 /\
  0 <= first_event_seq b < 2 ^ 32 /\
  alen (ev b) = BLOCK_EVENTS /\ Forall event_ok (ev b) /\
  crc b = crc32_ieee (block_head_bytes b).

Definition ring_ok s : Prop :=
  alen (ring s) = RING_CAP /\ 0 <= ring_head s < RING_CAP /\
  0 <= ring_count s <= RING_CAP /\ Forall event_ok (ring s).

Definition wf s : Prop :=
  ring_ok s /\
  ring_count s <= ring_seq s < 2 ^ 32 /\
  0 <= persisted_event_seq s < 2 ^ 32 /\
  (journal_ready s = true -> persisted_event_seq s <= ring_seq s) /\
  0 <= journal_seq s < 2 ^ 32 /\ 0 <= next_slot s < JOURNAL_SLOTS /\
  0 <= events_since_persist s < PERSIST_EVERY /\
  alen (restored_blocks s) = JOURNAL_SLOTS /\ alen (restored_valid s) = JOURNAL_SLOTS /\
  forall i, 0 <= i < JOURNAL_SLOTS -> aget (restored_valid s) i = true ->
    block_ok i (aget (restored_blocks s) i).

(** The last write happened in the past. *)
Definition clocked s t : Prop := 0 <= last_persist_uptime_ms s <= uptime t.

Lemma clocked_le s t t' : clocked s t -> (t <= t')%nat -> clocked s t'.
Proof. unfold clocked. intros ? ?%uptime_mono. lia. Qed.

(** The retained events, oldest first. *)
Definition retained s : list event :=
  window (ring s) RING_CAP ((ring_head s - ring_count s) `mod` RING_CAP) (ring_count s).

Lemma wf_ring_ok s : wf s -> ring_ok s.
Proof. by intros []. Qed.
#[local] Hint Resolve wf_ring_ok : core.

Lemma wf_seqs s :
  wf s -> 0 <= ring_count s <= RING_CAP /\ ring_count s <= ring_seq s < 4294967296 /\
  0 <= persisted_event_seq s < 4294967296 /\ 0 <= next_slot s < JOURNAL_SLOTS.
Proof. unfold wf, ring_ok. change (2 ^ 32) with 4294967296. intuition. Qed.

Lemma ring_start s :
  u16 ((ring_head s + RING_CAP - ring_count s) `mod` RING_CAP) =
  (ring_head s - ring_count s) `mod` RING_CAP.
Proof.
  pose proof ring_cap_range.
  replace (ring_head s + RING_CAP - ring_count s)
    with (ring_head s - ring_count s + 1 * RING_CAP) by lia.
  rewrite Z_mod_plus_full. apply u16_small.
  pose proof (slot_range RING_CAP (ring_head s - ring_count s)). lia.
Qed.

Lemma ring_get_ordered_retained s : ring_get_ordered s = retained s.
Proof. unfold ring_get_ordered. by rewrite ring_start. Qed.

Lemma length_retained s : ring_ok s -> Z.of_nat (length (retained s)) = ring_count s.
Proof. intros (?&?&?&?). unfold retained. rewrite length_window. lia. Qed.

Lemma retained_ok s : ring_ok s -> Forall event_ok (retained s).
Proof.
  intros (Hl&?&?&Hev). pose proof ring_cap_range.
  unfold retained, window. rewrite Forall_fmap, Forall_forall. intros i _. cbn.
  apply Forall_aget; [done|]. rewrite Hl. apply slot_range. lia.
Qed.

Lemma init_wf : wf journal_init.
Proof.
  pose proof ring_cap_range. pose proof journal_slots_range. pose proof persist_every_range.
  unfold wf, ring_ok, PERSIST_EVERY. cbn. rewrite !alen_replicate by lia. split_and!; try lia.
  - apply Forall_replicate. repeat split; cbn; lia.
  - intros i Hi. by rewrite aget_replicate.
Qed.

(** ** Appending *)
Definition keep : nat := Z.to_nat RING_CAP.

(** What one append does to the ring. *)
Definition push e s : journal :=
  s <| ring := aset (ring s) (ring_head s) e |>
    <| ring_head := u16 ((ring_head s + 1) `mod` RING_CAP) |>
    <| ring_count := if ring_count s <? RING_CAP then u16 (ring_count s + 1) else ring_count s |>
    <| ring_seq := u32 (ring_seq s + 1) |>.

Lemma push_ring_ok e s :
  ring_ok s -> event_ok e ->
  ring_ok (push e s) /\ ring_count s <= ring_count (push e s) <= ring_count s + 1.
Proof.
  intros (Hl&Hh&Hc&Hev) He. pose proof ring_cap_range.
  unfold push, ring_ok; cbn. rewrite alen_aset.
  pose proof (slot_range RING_CAP (ring_head s + 1)). rewrite (u16_small (_ `mod` _)) by lia.
  pose proof (Forall_aset _ _ (ring_head s) e Hev He).
  destruct (Z.ltb_spec (ring_count s) RING_CAP); [rewrite u16_small by lia|];
    split_and!; try done; lia.
Qed.

Lemma push_wf e s : wf s -> event_ok e -> ring_seq s + 1 < 2 ^ 32 -> wf (push e s).
Proof.
  intros (Hring&Hseq&Hp&Hready&Hjs&Hns&Hes&Hbl&Hv&Hb) He Hlt.
  destruct (push_ring_ok e s Hring He) as [Hring' Hc]. split; [exact Hring'|].
  destruct Hring as (_&_&?&_). cbn in *. rewrite u32_small by lia.
  split_and!; try done; try lia. intros Hr. specialize (Hready Hr). lia.
Qed.

Lemma push_retained e s :
  ring_ok s -> retained (push e s) = lastn keep (retained s ++ [e]).
Proof.
  intros Hwf. pose proof (length_retained s Hwf) as Hlen.
  destruct Hwf as (Hl&Hh&Hc&_). pose proof ring_cap_range. unfold keep.
  unfold push, retained; cbn. pose proof (slot_range RING_CAP (ring_head s + 1)).
  rewrite (u16_small (_ `mod` _)) by lia.
  destruct (Z.ltb_spec (ring_count s) RING_CAP) as [Hlt|Hge].
  - rewrite u16_small by lia. rewrite Zminus_mod_idemp_l.
    replace (ring_head s + 1 - (ring_count s + 1)) with (ring_head s - ring_count s) by lia.
    rewrite lastn_all by (rewrite length_app, length_window; cbn; lia).
    rewrite <- window_push by lia. do 2 f_equal.
    rewrite Z.add_mod_idemp_l, Z.sub_add by lia. by rewrite Z.mod_small.
  - assert (ring_count s = RING_CAP) as Hcc by lia. rewrite Hcc.
    rewrite lastn_full_snoc by (rewrite ?length_window; lia).
    replace ((ring_head s - RING_CAP) `mod` RING_CAP) with (ring_head s).
    2: { replace (ring_head s - RING_CAP) with (ring_head s + (-1) * RING_CAP) by lia.
         rewrite Z_mod_plus_full, Z.mod_small; lia. }
    rewrite <- window_push_full by lia. f_equal.
    replace ((ring_head s + 1) `mod` RING_CAP - RING_CAP)
      with ((ring_head s + 1) `mod` RING_CAP + (-1) * RING_CAP) by lia.
    rewrite Z_mod_plus_full. apply Z.mod_small. lia.
Qed.

(** The fields an append leaves alone. *)
Definition same_store s s' : Prop :=
  persisted_event_seq s' = persisted_event_seq s /\ journal_seq s' = journal_seq s /\
  next_slot s' = next_slot s /\ last_persist_uptime_ms s' = last_persist_uptime_ms s /\
  journal_ready s' = journal_ready s /\ restored_blocks s' = restored_blocks s /\
  restored_valid s' = restored_valid s.

Definition same_ring s s' : Prop :=
  ring s' = ring s /\ ring_head s' = ring_head s /\ ring_count s' = ring_count s /\
  ring_seq s' = ring_seq s.

#[export] Instance same_store_refl : Reflexive same_store.
Proof. repeat split. Qed.
#[export] Instance same_store_trans : Transitive same_store.
Proof. intros s1 s2 s3. unfold same_store. intuition congruence. Qed.

(** What the scheduler is asked for: one run of the writer within the interval, and
    not before the interval since the last write is over. *)
Definition arms_writer (s : journal) (t : nat) (x : effect) : Prop :=
  exists wait, 0 <= wait <= PERSIST_MIN_INTERVAL_MS /\
    (last_persist_uptime_ms s <> 0 ->
     last_persist_uptime_ms s + PERSIST_MIN_INTERVAL_MS <= uptime t + wait) /\
    (x = k_work_schedule persist_work wait \/ x = k_work_reschedule persist_work wait).

Lemma schedule_spec urgent s t :
  clocked s t ->
  wp (schedule_persist_coalesced urgent) (fun _ s' t' es =>
    s' = s <| persist_requested := true |> /\
    if journal_ready s
    then t' = S t /\ exists x, es = [x] /\ arms_writer s t x /\
      exists w, x = if urgent then k_work_reschedule persist_work w
                    else k_work_schedule persist_work w
    else t' = t /\ es = []) s t.
Proof.
  intros [Hlast Hle]. pose proof persist_interval_range as Hint.
  unfold schedule_persist_coalesced. wp_steps.
  change (journal_ready (s <| persist_requested := true |>)) with (journal_ready s).
  change (last_persist_uptime_ms (s <| persist_requested := true |>))
    with (last_persist_uptime_ms s).
  destruct (journal_ready s); cbn [negb]; wp_steps; [|done].
  set (w := if _ && _ then _ else _).
  assert (0 <= w <= PERSIST_MIN_INTERVAL_MS /\
    (last_persist_uptime_ms s <> 0 ->
     last_persist_uptime_ms s + PERSIST_MIN_INTERVAL_MS <= uptime t + w)) as [Hw1 Hw2].
  { unfold w. destruct (Z.eqb_spec (last_persist_uptime_ms s) 0); cbn.
    { destruct urgent; lia. }
    destruct (Z.ltb_spec (uptime t - last_persist_uptime_ms s) PERSIST_MIN_INTERVAL_MS).
    - rewrite i32_small by lia. lia.
    - destruct urgent; lia. }
  clearbody w. set (x := if urgent then k_work_reschedule persist_work w
                         else k_work_schedule persist_work w).
  assert (arms_writer s t x) as Hx.
  { exists w. split_and!; try done; try lia. destruct urgent; auto. }
  destruct urgent; wp_steps; (split; [done|]); (split; [done|]); exists x; eauto.
Qed.

(** ** Records *)
Definition persist_flag (c : record_call) : bool :=
  match c with call_record _ _ _ _ _ _ => true | call_timing _ _ _ _ _ _ _ => false end.

(** The event a call appends when it reads the clock at position [t]. *)
Definition call_event (c : record_call) (t : nat) : event :=
  match c with
  | call_record k i a r w x => mk_event (uptime t) k i a r w x
  | call_timing u k i a r p x => mk_event u k i a r p x
  end.

Lemma call_event_ok c t : event_ok (call_event c t).
Proof. destruct c; apply mk_event_ok. Qed.

(** Only the ring, the store and the flush counter matter. *)
Lemma wf_frame s s' :
  wf s -> same_ring s s' -> same_store s s' -> 0 <= events_since_persist s' < PERSIST_EVERY ->
  wf s'.
Proof.
  unfold wf, ring_ok, same_ring, same_store.
  intros Hwf (->&->&->&->) (->&->&->&_&->&->&->). tauto.
Qed.

(** Scheduling changes nothing but the request flag. *)
Lemma schedule_frame urgent s s1 t :
  wf s -> clocked s t -> same_ring s s1 -> same_store s s1 ->
  0 <= events_since_persist s1 < PERSIST_EVERY ->
  wp (schedule_persist_coalesced urgent) (fun _ s' t' es =>
    wf s' /\ same_store s s' /\ same_ring s s' /\ (t <= t')%nat /\ persist_requested s' = true /\
    (journal_ready s = true -> exists x, es = [x] /\ arms_writer s t x) /\
    (journal_ready s = false -> es = [])) s1 t.
Proof.
  intros Hwf Hck Hrg Hst Hev. assert (journal_ready s1 = journal_ready s) as Hr by apply Hst.
  assert (arms_writer s1 t = arms_writer s t) as Ha.
  { unfold arms_writer. by destruct Hst as (_&_&_&->&_). }
  wp_use schedule_spec. { unfold clocked. by destruct Hst as (_&_&_&->&_). }
  intros [] s2 t2 es (->&Hes). rewrite Hr in Hes.
  assert (same_store s (s1 <| persist_requested := true |>)) as Hst' by exact Hst.
  split_and!; try done.
  - by apply (wf_frame s).
  - destruct (journal_ready s); destruct Hes as [-> _]; lia.
  - intros Hj. rewrite Hj in Hes. destruct Hes as (_&y&->&Hy&_). exists y. by rewrite <- Ha.
  - intros Hj. rewrite Hj in Hes. by destruct Hes as [_ ->].
Qed.

(** The fields other than the ring after a record. *)
Lemma record_event_spec u k i a r w x (p : bool) s t :
  wf s -> clocked s t -> ring_seq s + 1 < 2 ^ 32 ->
  wp (record_event u k i a r w x p) (fun _ s' t' es =>
    wf s' /\ same_store s s' /\ same_ring (push (mk_event u k i a r w x) s) s' /\
    (t <= t')%nat /\
    if p then
      persist_requested s' = true /\
      (journal_ready s = true -> exists x, es = [x] /\ arms_writer s t x) /\
      (journal_ready s = false -> es = [])
    else persist_requested s' = persist_requested s /\ es = []) s t.
Proof.
  intros Hwf Hck Hseq. set (e := mk_event u k i a r w x).
  assert (wf (push e s)) as Hwf' by (apply push_wf; [exact Hwf|apply mk_event_ok|exact Hseq]).
  unfold record_event. wp_steps. fold e.
  set (s1 := set_field ring_seq _ _).
  assert (s1 = push e s) as ->.
  { unfold s1, push. destruct s as [?? c ??????????]; cbn. by destruct (c <? RING_CAP). }
  destruct p; cbn [when andb]; wp_steps; cycle 1.
  { split_and!; done. }
  set (s1 := set_field events_since_persist _ _).
  assert (0 <= events_since_persist s1 <= PERSIST_EVERY) as Hn.
  { assert (0 <= events_since_persist (push e s) < PERSIST_EVERY) by apply Hwf'.
    pose proof persist_every_range. unfold s1, PERSIST_EVERY in *. cbn in *.
    rewrite u16_small by lia. lia. }
  destruct (Z.leb_spec PERSIST_EVERY (events_since_persist s1)) as [Hge|Hlt]; cbn [when]; wp_steps;
    (eapply wp_mono; [apply (schedule_frame _ (push e s)); try done|done]).
  - pose proof persist_every_range. cbn. unfold PERSIST_EVERY. lia.
  - lia.
Qed.

(** A run of records: the ring keeps the most recent, nothing else moves. *)
Definition arms_only (es : list effect) : Prop :=
  Forall (fun x => exists w, 0 <= w <= PERSIST_MIN_INTERVAL_MS /\
    (x = k_work_schedule persist_work w \/ x = k_work_reschedule persist_work w)) es.

Lemma arms_writer_only s t x : arms_writer s t x -> arms_only [x].
Proof. intros (w&?&_&?). repeat constructor. by exists w. Qed.

Lemma run_call_spec c s t :
  wf s -> clocked s t -> ring_seq s + 1 < 2 ^ 32 ->
  wp (run_call c) (fun _ s' t' es =>
    wf s' /\ same_store s s' /\ (t <= t')%nat /\ arms_only es /\
    exists e, same_ring (push e s) s' /\ exists n, (t <= n)%nat /\ e = call_event c n) s t.
Proof.
  intros Hwf Hck Hseq. destruct c as [k i a r w x|u k i a r p x]; cbn [run_call].
  - unfold totem_host_event_log_record. wp_steps.
    wp_use record_event_spec; [done|by apply (clocked_le s t); [|lia]|done|].
    intros [] s' t' es (?&?&?&?&_&Hes&Hes').
    split_and!; try done; try lia.
    + cbn. destruct (journal_ready s).
      * destruct Hes as (y&->&Hy); [done|]. by eapply arms_writer_only.
      * rewrite Hes' by done. constructor.
    + eexists. split; [done|]. exists t. split; [lia|]. cbn. unfold mk_event. by rewrite u32_idemp.
  - unfold totem_host_event_log_record_timing.
    wp_use record_event_spec; [done..|].
    intros [] s' t' es (?&?&?&?&_&->). split_and!; try done.
    + constructor.
    + eexists. split; [done|]. by exists t.
Qed.

(** The clock readings of a record: the stamp of [totem_host_event_log_record] and the one
    that decides when the writer runs. *)
Definition readings (c : record_call) : nat :=
  match c with call_record _ _ _ _ _ _ => 2 | call_timing _ _ _ _ _ _ _ => 0 end.

Lemma schedule_reads_once urgent s t :
  journal_ready s = true ->
  wp (schedule_persist_coalesced urgent) (fun _ s' t' _ => journal_ready s' = true /\ t' = S t) s t.
Proof.
  intros Hr. unfold schedule_persist_coalesced. wp_steps. cbn [journal_ready set_field]. rewrite Hr.
  cbn [negb]. wp_steps. by destruct urgent; wp_steps.
Qed.

Lemma record_event_reads u k i a r w x p s t :
  journal_ready s = true ->
  wp (record_event u k i a r w x p)
    (fun _ s' t' _ => journal_ready s' = true /\ t' = (t + if p then 1 else 0)%nat) s t.
Proof.
  intros Hr. unfold record_event. do 4 wp_step.
  match goal with |- wp _ _ ?s1 _ => assert (journal_ready s1 = true) as Hr1 by
    (cbn; by destruct (ring_count s <? RING_CAP)); generalize dependent s1 end. intros s1 Hr1. destruct p; cbn [when andb]; wp_steps; [|by split; [|lia]].
  destruct (_ <=? _); cbn [when]; wp_steps;
    (eapply wp_mono; [by apply schedule_reads_once|]; intros [] s' t' es [? ->]; split; [done|lia]).
Qed.

Lemma run_calls_readings cs s t :
  journal_ready s = true ->
  wp (for_each cs run_call)
    (fun _ s' t' _ => journal_ready s' = true /\ t' = (t + sum_list (readings <$> cs))%nat) s t.
Proof.
  revert s t. induction cs as [|c cs IH]; intros s t Hr; cbn [for_each].
  { wp_steps. split; [done|cbn; lia]. }
  apply wp_bind. eapply (wp_mono _ (fun _ s' t' _ => journal_ready s' = true /\ t' = (t + readings c)%nat)).
  - destruct c as [k i a r w x|u k i a r p x]; cbn [run_call readings].
    + unfold totem_host_event_log_record. wp_steps. eapply wp_mono; [by apply record_event_reads|].
      intros [] s' t' es [? ->]. split; [done|lia].
    + by apply record_event_reads.
  - intros [] s1 t1 es1 [Hr1 ->]. eapply wp_mono; [by apply IH|].
    intros [] s2 t2 es2 [? ->]. split; [done|cbn; lia].
Qed.

(** The first clock reading after a write that began with reading [t], when [during] was
    recorded meanwhile. *)
Definition write_end (during : list record_call) (t : nat) : nat :=
  S t + sum_list (readings <$> during).

Lemma same_ring_retained s s' : same_ring s s' -> retained s' = retained s.
Proof. unfold retained. by intros (->&->&->&_). Qed.

Lemma run_calls_spec cs s t :
  wf s -> clocked s t -> ring_seq s + Z.of_nat (length cs) < 2 ^ 32 ->
  wp (for_each cs run_call) (fun _ s' t' es =>
    wf s' /\ same_store s s' /\ (t <= t')%nat /\ arms_only es /\
    (cs = [] -> persist_requested s' = persist_requested s /\ es = []) /\
    exists evs, Forall2 (fun c e => exists n, e = call_event c n) cs evs /\
      retained s' = lastn keep (retained s ++ evs) /\
      ring_seq s' = ring_seq s + Z.of_nat (length cs)) s t.
Proof.
  pose proof ring_cap_range as Hcap.
  assert (0 < keep)%nat as Hkeep by (unfold keep; lia).
  revert s t. induction cs as [|c cs IH]; intros s t Hwf Hck Hseq; cbn [for_each length] in *.
  - wp_steps. split_and!; try done; [constructor|]. exists []. split_and!; [constructor| |lia].
    rewrite app_nil_r, lastn_all; [done|]. pose proof (length_retained s (wf_ring_ok s Hwf)).
    destruct Hwf as ((_&_&?&_)&_). unfold keep. lia.
  - wp_steps. wp_use run_call_spec; [done..|lia|].
    intros [] s1 t1 es1 (Hwf1&Hst1&Ht1&Hes1&e&Hrg&n&Hn&He).
    assert (event_ok e) as Hok by (subst e; apply call_event_ok).
    assert (ring_seq s1 = ring_seq s + 1) as Hseq1.
    { destruct Hrg as (_&_&_&->). cbn. apply u32_small. pose proof (wf_seqs s Hwf). lia. }
    wp_use IH; [done| |lia|].
    { unfold clocked. destruct Hst1 as (_&_&_&->&_). by apply (clocked_le s t). }
    intros [] s2 t2 es2 (Hwf2&Hst2&Ht2&Hes2&_&evs&Hevs&Hret&Hseq2).
    split_and!; try done; [by etrans|lia|by apply Forall_app|].
    exists (e :: evs). split_and!; [constructor; eauto| |lia].
    rewrite Hret, (same_ring_retained _ _ Hrg), push_retained by auto.
    by rewrite lastn_app_lastn, <- app_assoc.
Qed.

(** ** Writing a block *)

(** The slice of the log the next block holds: the oldest pending records, at most
    [BLOCK_EVENTS] of them, skipping only what the ring has already overwritten. *)
Definition oldest s : Z := ring_seq s - ring_count s + 1.
Definition first_pending s : Z := Z.max (persisted_event_seq s + 1) (oldest s).
Definition batch_size s : Z := Z.min (ring_seq s - first_pending s + 1) BLOCK_EVENTS.
Definition batch s : list event :=
  take (Z.to_nat (batch_size s)) (drop (Z.to_nat (first_pending s - oldest s)) (retained s)).

Definition next_block s : block :=
  let b := Block BLOCK_MAGIC BLOCK_VERSION (next_slot s) (batch_size s)
             (u32 (journal_seq s + 1)) (first_pending s)
             (batch s ++ replicate (Z.to_nat (BLOCK_EVENTS - batch_size s)) (Event 0 0 0 0 0 0 0))
             0 in
  b <| crc := crc32_ieee (block_head_bytes b) |>.

Definition due s t : Prop :=
  last_persist_uptime_ms s = 0 \/ PERSIST_MIN_INTERVAL_MS <= uptime t - last_persist_uptime_ms s.

Definition pending s : Prop := first_pending s <= ring_seq s.

Lemma batch_size_range s :
  wf s -> pending s ->
  1 <= batch_size s <= BLOCK_EVENTS /\ first_pending s + batch_size s - 1 <= ring_seq s /\
  0 <= first_pending s - oldest s /\
  first_pending s - oldest s + batch_size s <= ring_count s /\ 1 <= first_pending s.
Proof.
  unfold pending. intros Hwf. pose proof (wf_seqs s Hwf). pose proof block_events_range.
  unfold batch_size, first_pending, oldest. lia.
Qed.

Lemma alen_batch s : wf s -> pending s -> alen (batch s) = batch_size s.
Proof.
  intros Hwf Hp. pose proof (batch_size_range s Hwf Hp). pose proof (length_retained s (proj1 Hwf)).
  unfold alen, batch. rewrite length_take, length_drop. lia.
Qed.

Lemma next_block_ok s : wf s -> pending s -> block_ok (next_slot s) (next_block s).
Proof.
  intros Hwf Hp. pose proof (batch_size_range s Hwf Hp) as Hn. pose proof (wf_seqs s Hwf).
  pose proof (alen_batch s Hwf Hp) as Hb. pose proof (u32_range (journal_seq s + 1)).
  unfold block_ok. change (2 ^ 32) with 4294967296. cbn. split_and!; try done; try lia.
  - unfold alen in *. rewrite length_app, length_replicate. lia.
  - apply Forall_app. split.
    + unfold batch. apply Forall_take, Forall_drop, retained_ok, Hwf.
    + apply Forall_replicate. repeat split; cbn; lia.
Qed.

(** The code's index arithmetic builds exactly that block. *)
Lemma build_block_next s s1 :
  wf s -> pending s -> same_ring s s1 -> next_slot s1 = next_slot s ->
  journal_seq s1 = u32 (journal_seq s + 1) ->
  build_block s1 (oldest s) (first_pending s) (batch_size s) = next_block s.
Proof.
  intros Hwf Hp (Hr&Hh&Hc&Hq) Hns Hjs. pose proof (batch_size_range s Hwf Hp) as Hn.
  pose proof (wf_seqs s Hwf). pose proof ring_cap_range. pose proof block_events_range.
  pose proof (length_retained s (proj1 Hwf)) as Hlen.
  unfold build_block, next_block. rewrite Hr, Hh, Hc, Hns, Hjs, ring_start, u8_small by lia.
  unfold batch. rewrite <- slice_seqZ by (unfold alen; lia).
  set (l := fmap _ _). set (l' := fmap _ _). assert (l = l') as ->; [|done].
  apply list_fmap_ext. intros k i Hk. apply lookup_seqZ in Hk as [-> ?].
  rewrite (u32_small (first_pending s + _)) by (unfold oldest in *; lia).
  rewrite (u32_small (_ - oldest s)) by (unfold oldest in *; lia).
  rewrite u16_small by lia. unfold retained. rewrite aget_window by lia. do 2 f_equal. lia.
Qed.

(** The writer's early returns. *)
Lemma persist_not_ready save during s t :
  journal_ready s = false ->
  wp (totem_host_event_log_persist save during) (fun _ s' t' es =>
    s' = s /\ t' = S t /\ es = []) s t.
Proof. intros Hr. unfold totem_host_event_log_persist. wp_steps. rewrite Hr. done. Qed.

Lemma persist_too_soon save during s t :
  journal_ready s = true -> clocked s t -> ~ due s t ->
  wp (totem_host_event_log_persist save during) (fun _ s' t' es =>
    s' = s <| persist_requested := true |> /\ (t <= t')%nat /\
    exists x, es = [x] /\ arms_writer s (S t) x) s t.
Proof.
  intros Hr Hck Hdue. unfold totem_host_event_log_persist. wp_steps. rewrite Hr. cbn [negb].
  unfold due in Hdue.
  destruct (Z.eqb_spec (last_persist_uptime_ms s) 0); [tauto|].
  destruct (Z.ltb_spec (uptime t - last_persist_uptime_ms s) PERSIST_MIN_INTERVAL_MS); [|lia].
  cbn [andb negb]. wp_use schedule_spec; [apply (clocked_le s t); [done|lia]|].
  intros [] s' t' es (->&Hes). rewrite Hr in Hes. destruct Hes as (->&x&->&Hx&_).
  split_and!; [done|lia|]. by exists x.
Qed.

Lemma due_test s t :
  due s t ->
  negb (last_persist_uptime_ms s =? 0) &&
    (uptime t - last_persist_uptime_ms s <? PERSIST_MIN_INTERVAL_MS) = false.
Proof. unfold due. destruct (Z.eqb_spec (last_persist_uptime_ms s) 0); cbn; lia. Qed.

Lemma first_tests s :
  wf s -> ring_seq s + 1 < 2 ^ 32 -> persisted_event_seq s <= ring_seq s ->
  (if ring_count s =? 0 then u32 (ring_seq s + 1) else u32 (ring_seq s - ring_count s + 1)) =
    oldest s /\
  (if u32 (persisted_event_seq s + 1) <? oldest s then oldest s
   else u32 (persisted_event_seq s + 1)) = first_pending s /\
  (pending s ->
   u16 (Z.min (u32 (ring_seq s - first_pending s + 1)) BLOCK_EVENTS) = batch_size s /\
   u32 (first_pending s + batch_size s - 1) = first_pending s + batch_size s - 1).
Proof.
  intros Hwf Hseq Hle. pose proof (wf_seqs s Hwf). pose proof block_events_range.
  rewrite (u32_small (persisted_event_seq s + 1)) by lia.
  split; [|split].
  - unfold oldest. destruct (Z.eqb_spec (ring_count s) 0); rewrite u32_small; lia.
  - unfold first_pending. destruct (Z.ltb_spec (persisted_event_seq s + 1) (oldest s)); lia.
  - intros Hp. pose proof (batch_size_range s Hwf Hp). unfold pending in *.
    rewrite (u32_small (ring_seq s - first_pending s + 1)) by lia.
    rewrite u16_small by lia. rewrite u32_small by lia. done.
Qed.

Lemma persist_idle save during s t :
  wf s -> journal_ready s = true -> due s t -> ~ pending s -> ring_seq s + 1 < 2 ^ 32 ->
  wp (totem_host_event_log_persist save during) (fun _ s' t' es =>
    s' = s <| persist_requested := false |> /\ t' = S t /\ es = []) s t.
Proof.
  intros Hwf Hr Hdue Hp Hseq. assert (persisted_event_seq s <= ring_seq s) as Hle.
  { destruct Hwf as (_&_&_&?&_). auto. }
  destruct (first_tests s Hwf Hseq Hle) as (Hf1&Hf2&_).
  unfold totem_host_event_log_persist. wp_steps. rewrite Hr, due_test, Hf1, Hf2 by done.
  cbn [negb]. unfold pending in Hp.
  destruct (Z.ltb_spec (ring_seq s) (first_pending s)); [|lia]. wp_steps. done.
Qed.

(** A due write with records pending: what the journal becomes. *)
Definition stored (err : Z) s s' : Prop :=
  journal_ready s' = true /\ journal_seq s' = u32 (journal_seq s + 1) /\
  if err =? 0 then
    persisted_event_seq s' = first_pending s + batch_size s - 1 /\
    next_slot s' = (next_slot s + 1) `mod` JOURNAL_SLOTS /\
    restored_blocks s' = aset (restored_blocks s) (next_slot s) (next_block s) /\
    restored_valid s' = aset (restored_valid s) (next_slot s) true
  else
    persisted_event_seq s' = persisted_event_seq s /\ next_slot s' = next_slot s /\
    restored_blocks s' = restored_blocks s /\ restored_valid s' = restored_valid s.

Lemma stored_wf err s s' :
  wf s -> pending s -> ring_ok s' -> ring_count s' <= ring_seq s' < 2 ^ 32 ->
  ring_seq s <= ring_seq s' -> 0 <= events_since_persist s' < PERSIST_EVERY ->
  persisted_event_seq s <= ring_seq s -> stored err s s' -> wf s'.
Proof.
  intros Hwf Hp Hring Hc Hle Hev Hps (Hr&Hj&Hst). pose proof (batch_size_range s Hwf Hp).
  pose proof (next_block_ok s Hwf Hp) as Hb. pose proof (u32_range (journal_seq s + 1)).
  pose proof (wf_seqs s Hwf). pose proof journal_slots_range.
  pose proof (slot_range JOURNAL_SLOTS (next_slot s + 1)).
  destruct Hwf as (_&_&_&_&_&_&_&Hlb&Hlv&Hbl). unfold wf. rewrite Hj.
  destruct (err =? 0).
  - destruct Hst as (->&->&->&->). rewrite !alen_aset. split_and!; try done; try lia.
    intros i Hi. rewrite !aget_aset by lia. case_decide; [by subst|by apply Hbl].
  - destruct Hst as (->&->&->&->). split_and!; try done; lia.
Qed.

(** The tail of the writer, after the storage backend returned [err]. *)
Definition finish_write (err slot last_copied_seq : Z) (b : block) : proc journal effect () :=
  finished <- k_uptime_get ;;
  modify (fun s => s <| last_persist_uptime_ms := finished |>) ;;
  (if err =? 0 then
     modify (fun s =>
       s <| persisted_event_seq := last_copied_seq |>
         <| restored_blocks := aset (restored_blocks s) slot b |>
         <| restored_valid := aset (restored_valid s) slot true |>
         <| next_slot := u8 ((slot + 1) `mod` JOURNAL_SLOTS) |>)
   else modify (fun s => s <| persist_requested := true |>)) ;;
  s <- get ;;
  let more_pending := persist_requested s || (persisted_event_seq s <? ring_seq s) in
  when more_pending (schedule_persist_coalesced true).

Definition rearmed s (t : nat) (es : list effect) : Prop :=
  if persist_requested s || (persisted_event_seq s <? ring_seq s)
  then exists w n, es = [k_work_reschedule persist_work w] /\
         arms_writer s n (k_work_reschedule persist_work w) /\ (n < t)%nat
  else es = [].

Lemma finish_write_spec err s s2 t b :
  wf s -> pending s -> b = next_block s ->
  same_store (s <| journal_seq := u32 (journal_seq s + 1) |>) s2 -> journal_ready s = true ->
  wp (finish_write err (next_slot s) (first_pending s + batch_size s - 1) b) (fun _ s' t' es =>
    stored err s s' /\ same_ring s2 s' /\ (t < t')%nat /\
    last_persist_uptime_ms s' = uptime t /\
    events_since_persist s' = events_since_persist s2 /\ rearmed s' t' es /\
    (persist_requested s2 = false -> err = 0 ->
     persist_requested s' = (persisted_event_seq s' <? ring_seq s'))) s2 t.
Proof.
  intros Hwf Hp -> (Hst1&Hst2&Hst3&_&Hst5&Hst6&Hst7) Hr. cbn in Hst1, Hst2, Hst3, Hst5, Hst6, Hst7.
  pose proof journal_slots_range. pose proof (slot_range JOURNAL_SLOTS (next_slot s + 1)).
  unfold finish_write. wp_steps.
  set (m := if err =? 0 then modify _ else modify _).
  assert (wp m (fun _ s' t' es => stored err s s' /\ same_ring s2 s' /\ t' = S t /\ es = [] /\
    last_persist_uptime_ms s' = uptime t /\ events_since_persist s' = events_since_persist s2 /\
    (if err =? 0 then persist_requested s' = persist_requested s2
     else persist_requested s' = true))
    (s2 <| last_persist_uptime_ms := uptime t |>) (S t)) as Hm.
  { unfold m, stored. destruct (err =? 0); wp_steps; (split; [|done]); cbn;
      rewrite ?Hst1, ?Hst2, ?Hst3, ?Hst5, ?Hst6, ?Hst7, ?u8_small by lia; done. }
  clearbody m. eapply wp_mono; [exact Hm|]. cbv beta.
  intros [] s3 t3 es3 (Hs3&Hrg3&->&->&Hl3&He3&Hreq). wp_steps.
  destruct (persist_requested s3 || (persisted_event_seq s3 <? ring_seq s3)) eqn:Hmore;
    cbn [when]; wp_steps.
  - wp_use schedule_spec. { unfold clocked. rewrite Hl3. split; [apply uptime_nonneg|apply uptime_mono; lia]. }
    intros [] s' t' es (->&Hes). destruct Hs3 as (Hr3&Hs3). rewrite Hr3 in Hes.
    destruct Hes as (->&x&->&Hx&w&->). split_and!; try done; try lia.
    + unfold rearmed. cbn. exists w, (S t). split_and!; try done. lia.
    + intros Hreq2 ->. cbn in Hreq. rewrite Hreq, Hreq2 in Hmore. by cbn in *.
  - split_and!; try done; try lia.
    + unfold rearmed. by rewrite Hmore.
    + intros _ _. by apply orb_false_iff in Hmore as [-> ->].
Qed.

Definition write_effect s : effect :=
  settings_write (settings_key (next_slot s)) (block_bytes (next_block s)).
Definition write_result (save : string -> list Z -> Z) s : Z :=
  save (settings_key (next_slot s)) (block_bytes (next_block s)).

Lemma persist_writes save during s t :
  wf s -> clocked s t -> journal_ready s = true -> due s t -> pending s ->
  ring_seq s + Z.of_nat (length during) + 1 < 2 ^ 32 ->
  wp (totem_host_event_log_persist save during) (fun _ s' t' es =>
    let err := write_result save s in
    wf s' /\ stored err s s' /\ (t < t')%nat /\
    (exists n, ((t < n < t')%nat /\ n = write_end during t) /\ last_persist_uptime_ms s' = uptime n) /\
    (exists evs, Forall2 (fun c e => exists n, e = call_event c n) during evs /\
      retained s' = lastn keep (retained s ++ evs) /\
      ring_seq s' = ring_seq s + Z.of_nat (length during)) /\
    (exists es1 es2, es = es1 ++ [boot_diagnostics_persist; write_effect s] ++ es2 /\
      arms_only es1 /\ rearmed s' t' es2) /\
    (during = [] -> err = 0 ->
     persist_requested s' = (persisted_event_seq s' <? ring_seq s') /\
     exists es2, es = [boot_diagnostics_persist; write_effect s] ++ es2 /\ rearmed s' t' es2)) s t.
Proof.
  intros Hwf Hck Hr Hdue Hp Hseq. assert (persisted_event_seq s <= ring_seq s) as Hle.
  { destruct Hwf as (_&_&_&?&_). auto. }
  destruct (first_tests s Hwf ltac:(lia) Hle) as (Hf1&Hf2&Hf3).
  destruct (Hf3 Hp) as [Hf4 Hf5]. unfold totem_host_event_log_persist. wp_steps.
  rewrite Hr, due_test, Hf1, Hf2, Hf4, Hf5 by done. cbn [negb].
  destruct (Z.ltb_spec (ring_seq s) (first_pending s)); [unfold pending in Hp; lia|]. wp_steps.
  set (s0 := s <| journal_seq := u32 (journal_seq s + 1) |>).
  rewrite (build_block_next s s0) by done.
  set (s1 := s0 <| persist_requested := false |>).
  assert (wf s1) as Hwf1.
  { pose proof (u32_range (journal_seq s + 1)). revert Hwf. unfold wf, ring_ok. cbn.
    change (2 ^ 32) with 4294967296. tauto. }
  wp_use (wp_and _ _ _ _ _ (run_calls_readings during s1 (S t) Hr)).
  { apply run_calls_spec; [done|by apply (clocked_le s t); [|lia]|cbn; lia]. }
  intros [] s2 t2 es2 ((_&Hend)&Hwf2&Hst2&Ht2&Hes2&Hreq2&evs&Hevs&Hret&Hseq2).
  do 4 wp_step. cbv zeta.
  wp_use (finish_write_spec (write_result save s) s s2 t2 _ Hwf Hp eq_refl); [done..|].
  intros [] s3 t3 es3 (Hs3&Hrg3&Ht3&Hl3&He3&Hre3&Hreq3).
  assert (ring_seq s3 = ring_seq s + Z.of_nat (length during)) as Hseq3.
  { by destruct Hrg3 as (_&_&_&->). }
  split_and!; try done; try lia.
  - eapply (stored_wf (write_result save s) s); try done.
    + destruct Hwf2 as [Hring2 _]. unfold ring_ok in *. by destruct Hrg3 as (->&->&->&_).
    + destruct Hrg3 as (_&_&->&_). rewrite Hseq3. change (ring_seq s) with (ring_seq s1).
      rewrite <- Hseq2. apply Hwf2.
    + lia.
    + rewrite He3. apply Hwf2.
  - exists t2. split; [split; [lia|exact Hend]|done].
  - exists evs. split_and!; try done. by rewrite (same_ring_retained _ _ Hrg3).
  - exists es2, es3. split_and!; try done.
  - intros Hd Herr. destruct (Hreq2 Hd) as [Hreq ->]. split; [by apply Hreq3|]. by exists es3.
Qed.
End spec.
End JournalSpec.
