(* ===== verification/HostEventRestore.v ===== *)
(** * Restoring the journal

    The bytes of a block and the block itself are the same thing, so what the
    writer stored is what [hevt_settings_set] accepts on the next boot; everything
    else it ignores.  [zmk_settings_loaded] then numbers the early events after the
    restored ones. *)
From stdpp Require Import pretty gmap.
From S2P Require Import Prelude Events Platform RingBuffer HostEventLog HostEventSpec.

Module JournalRestore.
Import Journal JournalSpec.

Lemma aget_app_l {A} `{!Inhabited A} (l k : list A) i :
  0 <= i < alen l -> aget (l ++ k) i = aget l i.
Proof. unfold aget, alen. intros. apply lookup_total_app_l. lia. Qed.

Lemma drop_exact {A} n (l k : list A) : length l = n -> drop n (l ++ k) = k.
Proof. intros <-. by rewrite drop_app_length. Qed.

Section bytes.
Context `{!Config}.
Implicit Types (b : block) (es : list event).

Lemma length_events_bytes es : length (es ≫= event_bytes) = (EVENT_SIZE * length es)%nat.
Proof.
  induction es as [|e es IH]; [done|].
  change ((e :: es) ≫= event_bytes) with (event_bytes e ++ (es ≫= event_bytes)).
  rewrite length_app, length_event_bytes, IH. cbn [length]. lia.
Qed.

Lemma events_of_bytes_events es rest :
  Forall event_ok es -> events_of_bytes (length es) ((es ≫= event_bytes) ++ rest) = es.
Proof.
  unfold events_of_bytes. intros Hes. apply list_eq. intros i. rewrite list_lookup_fmap.
  destruct (decide (i < length es)%nat) as [Hi|Hi].
  2: { rewrite lookup_seq_ge, lookup_ge_None_2 by lia. done. }
  rewrite lookup_seq_lt by lia. cbn [fmap option_fmap option_map Nat.add].
  destruct (lookup_lt_is_Some_2 es i Hi) as [e He]. rewrite He. f_equal.
  rewrite <- (take_drop_middle es i e He) at 1. rewrite bind_app, <- app_assoc.
  change ((e :: drop (S i) es) ≫= event_bytes)
    with (event_bytes e ++ (drop (S i) es ≫= event_bytes)).
  rewrite drop_exact by (rewrite length_events_bytes, length_take; lia).
  rewrite <- app_assoc, take_app_length' by done.
  apply event_of_bytes_event_bytes. by eapply Forall_lookup_1.
Qed.

Lemma events_bytes_of_bytes n (bs : list Z) :
  length bs = (EVENT_SIZE * n)%nat -> Forall is_byte bs ->
  (events_of_bytes n bs ≫= event_bytes) = bs /\ Forall event_ok (events_of_bytes n bs) /\
  length (events_of_bytes n bs) = n.
Proof.
  revert bs. induction n as [|n IH]; intros bs Hl Hb.
  { destruct bs; [|done]. by repeat constructor. }
  assert (length (drop EVENT_SIZE bs) = (EVENT_SIZE * n)%nat) as Hl'.
  { rewrite length_drop. unfold EVENT_SIZE in *. lia. }
  destruct (IH (drop EVENT_SIZE bs) Hl' (Forall_drop _ _ _ Hb)) as (He&Hok&Hn).
  assert (events_of_bytes (S n) bs =
          event_of_bytes (take EVENT_SIZE bs) :: events_of_bytes n (drop EVENT_SIZE bs)) as ->.
  { unfold events_of_bytes. cbn [seq fmap list_fmap]. rewrite drop_0. f_equal.
    rewrite <- fmap_S_seq, <- list_fmap_compose. apply list_fmap_ext. intros i k _.
    unfold compose. by rewrite drop_drop. }
  assert (length (take EVENT_SIZE bs) = EVENT_SIZE) as Ht.
  { rewrite length_take. unfold EVENT_SIZE in *. lia. }
  assert (Forall is_byte (take EVENT_SIZE bs)) as Htb by by apply Forall_take.
  split_and!.
  - change (event_bytes (event_of_bytes (take EVENT_SIZE bs)) ++
            (events_of_bytes n (drop EVENT_SIZE bs) ≫= event_bytes) = bs).
    by rewrite event_bytes_of_bytes, He, take_drop by done.
  - constructor; [by apply event_of_bytes_ok|done].
  - cbn [length]. by rewrite Hn.
Qed.
End bytes.

Section blocks.
Context `{!Config} `{!Clock} `{!Crc32}.
Implicit Types (s : journal) (t : nat) (b : block).

Lemma block_sizes : 96 <= block_crc_offset <= 336 /\ block_size = block_crc_offset + 4.
Proof. pose proof block_events_range. unfold block_size, block_crc_offset. lia. Qed.

Lemma length_block_head i b : block_ok i b -> alen (block_head_bytes b) = block_crc_offset.
Proof.
  intros (_&_&_&_&_&_&Hl&_). unfold alen, block_head_bytes, block_crc_offset, alen in *.
  rewrite !length_app, length_events_bytes, !length_le32, length_le16.
  unfold EVENT_SIZE. cbn [length]. lia.
Qed.

Lemma length_block_bytes i b : block_ok i b -> alen (block_bytes b) = block_size.
Proof.
  intros Hb. pose proof (length_block_head i b Hb). unfold block_bytes, block_size, alen in *.
  rewrite length_app, length_le32. lia.
Qed.

Lemma block_of_bytes_bytes i b :
  block_ok i b -> 0 <= i < JOURNAL_SLOTS -> block_of_bytes (block_bytes b) = b.
Proof.
  intros Hb Hi. pose proof block_sizes. pose proof journal_slots_range. pose proof block_events_range.
  pose proof (length_block_head i b Hb) as Hlen.
  assert (drop (Z.to_nat block_crc_offset) (block_bytes b) = le32 (crc b)) as Hd.
  { unfold block_bytes. apply drop_exact. unfold alen in Hlen. lia. }
  unfold block_of_bytes. rewrite Hd. destruct Hb as (Hm&Hv&Hs&Hc&Hj&Hf&Hl&Hev&Hcrc).
  assert (0 <= crc b < 2 ^ 32) as Hcr by (rewrite Hcrc; apply crc32_ieee_range).
  assert (events_of_bytes (Z.to_nat BLOCK_EVENTS) (drop 16 (block_bytes b)) = ev b) as ->.
  { replace (Z.to_nat BLOCK_EVENTS) with (length (ev b)) by (unfold alen in Hl; lia).
    unfold block_bytes, block_head_bytes. rewrite <- !app_assoc.
    change (drop 16 _) with ((ev b ≫= event_bytes) ++ le32 (crc b)).
    by apply events_of_bytes_events. }
  change (2 ^ 32) with 4294967296 in *.
  destruct b as [m v sl c js fs es cr].
  cbn [magic version slot count block_journal_seq first_event_seq ev crc] in *. subst m v sl.
  change (Block (of_le32 (u8 BLOCK_MAGIC) (u8 (BLOCK_MAGIC ≫ 8)) (u8 (BLOCK_MAGIC ≫ 16))
                   (u8 (BLOCK_MAGIC ≫ 24)))
            (of_le16 (u8 BLOCK_VERSION) (u8 (BLOCK_VERSION ≫ 8))) (u8 i) (u8 c)
            (of_le32 (u8 js) (u8 (js ≫ 8)) (u8 (js ≫ 16)) (u8 (js ≫ 24)))
            (of_le32 (u8 fs) (u8 (fs ≫ 8)) (u8 (fs ≫ 16)) (u8 (fs ≫ 24))) es
            (of_le32 (u8 cr) (u8 (cr ≫ 8)) (u8 (cr ≫ 16)) (u8 (cr ≫ 24))) =
          Block BLOCK_MAGIC BLOCK_VERSION i c js fs es cr).
  rewrite !of_le32_le32, of_le16_le16, !u32_small, !u8_small by (unfold BLOCK_MAGIC; lia). done.
Qed.

(** The block read from a buffer prints back to the same bytes. *)
Lemma block_bytes_of_bytes (mem : list Z) :
  alen mem = block_size -> Forall is_byte mem ->
  block_head_bytes (block_of_bytes mem) = take (Z.to_nat block_crc_offset) mem /\
  Forall event_ok (ev (block_of_bytes mem)) /\ alen (ev (block_of_bytes mem)) = BLOCK_EVENTS.
Proof.
  intros Hl Hb. pose proof block_sizes as [Hs1 Hs2]. pose proof block_events_range.
  assert (exists x0 x1 x2 x3 x4 x5 x6 x7 x8 x9 xa xb xc xd xe xf y c0 c1 c2 c3,
    mem = [x0; x1; x2; x3; x4; x5; x6; x7; x8; x9; xa; xb; xc; xd; xe; xf] ++ y ++
          [c0; c1; c2; c3] /\ length y = (EVENT_SIZE * Z.to_nat BLOCK_EVENTS)%nat)
    as (x0&x1&x2&x3&x4&x5&x6&x7&x8&x9&xa&xb&xc&xd&xe&xf&y&c0&c1&c2&c3&->&Hes).
  { unfold alen, block_size, block_crc_offset in *.
    do 16 (destruct mem as [|? mem]; [cbn in Hl; lia|]).
    assert (length mem = 10 * Z.to_nat BLOCK_EVENTS + 4)%nat as Hm by (cbn in Hl; lia).
    rewrite <- (take_drop (10 * Z.to_nat BLOCK_EVENTS) mem).
    assert (length (drop (10 * Z.to_nat BLOCK_EVENTS) mem) = 4)%nat as Hd
      by (rewrite length_drop; lia).
    destruct (drop _ mem) as [|c0 [|c1 [|c2 [|c3 [|]]]]] eqn:Hdm; try discriminate Hd.
    repeat eexists. rewrite length_take. unfold EVENT_SIZE. lia. }
  clear Hl. rewrite !Forall_app in Hb. destruct Hb as (Hb&Hbe&_).
  repeat match goal with H : Forall _ (_ :: _) |- _ => apply Forall_cons in H as [? H] end.
  destruct (events_bytes_of_bytes _ y Hes Hbe) as (He&Hok&Hn).
  assert (forall rest, events_of_bytes (Z.to_nat BLOCK_EVENTS) (y ++ rest) =
                       events_of_bytes (Z.to_nat BLOCK_EVENTS) y) as Hrest.
  { intros rest. unfold events_of_bytes. apply list_fmap_ext. intros i k Hk.
    apply lookup_seq in Hk as [-> Hk]. f_equal. unfold EVENT_SIZE in *.
    rewrite drop_app_le, take_app_le by (rewrite ?length_drop; lia). done. }
  set (mem := _ ++ y ++ _).
  assert (ev (block_of_bytes mem) = events_of_bytes (Z.to_nat BLOCK_EVENTS) y) as Hev
    by apply (Hrest [c0; c1; c2; c3]).
  rewrite Hev. split_and!; [|done|unfold alen; lia].
  unfold block_head_bytes. rewrite Hev, He.
  change (le32 (of_le32 x0 x1 x2 x3) ++ le16 (of_le16 x4 x5) ++ [u8 x6; u8 x7] ++
          le32 (of_le32 x8 x9 xa xb) ++ le32 (of_le32 xc xd xe xf) ++ y =
          take (Z.to_nat block_crc_offset) mem).
  rewrite !le32_of_le32, le16_of_le16, !u8_small by done.
  subst mem. rewrite (app_assoc [x0; x1; x2; x3; x4; x5; x6; x7; x8; x9; xa; xb; xc; xd; xe; xf]).
  rewrite take_app_length'; [done|].
  rewrite length_app, Hes. unfold block_crc_offset, EVENT_SIZE. cbn [length]. lia.
Qed.

(** ** The settings handler *)

(** What follows "th/" in the key of slot [i]: the name the handler is given. *)
Definition slot_name (i : Z) : string := "dlog/" +:+ pretty (Z.to_N i).

Lemma settings_key_name i : settings_key i = "th/" +:+ slot_name i.
Proof. done. Qed.

Lemma slot_digits i : 0 <= i <= 9 -> slot_of_name (slot_name i) = Some i /\ u8 i = i.
Proof.
  intros Hi.
  assert (i = 0 \/ i = 1 \/ i = 2 \/ i = 3 \/ i = 4 \/ i = 5 \/ i = 6 \/ i = 7 \/ i = 8 \/ i = 9)
    as Hcase by lia.
  repeat destruct Hcase as [->|Hcase]; [..|rewrite Hcase]; split; vm_compute; reflexivity.
Qed.

Lemma settings_key_inj i j :
  0 <= i <= 9 -> 0 <= j <= 9 -> settings_key i = settings_key j -> i = j.
Proof.
  intros Hi Hj Heq. destruct (slot_digits i Hi) as [H1i _]. destruct (slot_digits j Hj) as [H1j _].
  rewrite !settings_key_name in Heq. apply (inj (String.app "th/")) in Heq. congruence.
Qed.

Definition buffer (bytes : list Z) : list Z :=
  take (Z.to_nat block_size) (bytes ++ replicate (Z.to_nat block_size) 0).

Definition checks (i rc : Z) (mem : list Z) : bool :=
  let b := block_of_bytes mem in
  (magic b =? BLOCK_MAGIC) && (version b =? BLOCK_VERSION) && (slot b =? i) &&
  negb (count b =? 0) && negb (BLOCK_EVENTS <? count b) && (rc =? block_size) &&
  (crc b =? crc32_ieee (take (Z.to_nat block_crc_offset) mem)).

Definition block_last b : Z := u32 (first_event_seq b + count b - 1).

Definition accept (i : Z) b s : journal :=
  s <| restored_blocks := aset (restored_blocks s) i b |>
    <| restored_valid := aset (restored_valid s) i true |>
    <| next_slot := if journal_seq s <=? block_journal_seq b
                    then u8 ((i + 1) `mod` JOURNAL_SLOTS) else next_slot s |>
    <| journal_seq := Z.max (journal_seq s) (block_journal_seq b) |>
    <| persisted_event_seq := Z.max (persisted_event_seq s) (block_last b) |>.

Lemma settings_set_spec name i rc bytes s t :
  slot_of_name name = Some i -> 0 <= i < JOURNAL_SLOTS ->
  wp (hevt_settings_set name block_size (rc, bytes)) (fun r s' t' es =>
    t' = t /\ es = [] /\
    let mem := buffer bytes in
    if rc <? 0 then
      r = rc /\ s' = s <| restored_blocks := aset (restored_blocks s) i (block_of_bytes mem) |>
    else r = 0 /\
      s' = if checks i rc mem then accept i (block_of_bytes mem) s
           else s <| restored_blocks := aset (restored_blocks s) i (block_of_bytes mem) |>) s t.
Proof.
  intros Hname Hi. pose proof journal_slots_range. unfold hevt_settings_set. rewrite Hname.
  rewrite (u8_small i) by lia. destruct (Z.leb_spec JOURNAL_SLOTS i); [lia|].
  rewrite Z.eqb_refl. cbn [orb negb]. fold (buffer bytes). set (mem := buffer bytes).
  wp_steps. destruct (rc <? 0); wp_steps; [done|].
  match goal with |- wp (if ?c then _ else _) _ _ _ => assert (c = negb (checks i rc mem)) as -> end.
  { unfold checks. rewrite !negb_andb, !negb_involutive. done. }
  destruct (checks i rc mem); cbn [negb]; wp_steps; [|done].
  split_and!; [done..|]. unfold accept. fold (block_last (block_of_bytes mem)).
  generalize (block_of_bytes mem). intros b.
    destruct s as [???? persisted_event_seq0 journal_seq0 ???????]; cbn.
  destruct (Z.leb_spec journal_seq0 (block_journal_seq b)); cbn;
    destruct (Z.ltb_spec persisted_event_seq0 (block_last b)); cbn;
    unfold set_field; cbn; f_equal; lia.
Qed.

(** What the writer stored is accepted. *)
Lemma settings_set_stored i b s t :
  block_ok i b -> 0 <= i < JOURNAL_SLOTS ->
  wp (hevt_settings_set (slot_name i) block_size (block_size, block_bytes b)) (fun r s' t' es =>
    r = 0 /\ s' = accept i b s /\ t' = t /\ es = []) s t.
Proof.
  intros Hb Hi. pose proof journal_slots_range. pose proof block_sizes as [Hs1 Hs2].
  wp_use settings_set_spec; [apply slot_digits; lia|done|].
  assert (buffer (block_bytes b) = block_bytes b) as ->.
  { unfold buffer. apply take_app_length'. pose proof (length_block_bytes i b Hb).
    unfold alen in *. lia. }
  cbv zeta. rewrite (block_of_bytes_bytes i) by done.
  destruct (Z.ltb_spec block_size 0); [lia|].
  assert (checks i block_size (block_bytes b) = true) as ->; [|tauto].
  unfold checks. rewrite (block_of_bytes_bytes i) by done.
  assert (take (Z.to_nat block_crc_offset) (block_bytes b) = block_head_bytes b) as ->.
  { unfold block_bytes. apply take_app_length'. pose proof (length_block_head i b Hb).
    unfold alen in *. lia. }
  destruct Hb as (->&->&->&Hc&_&_&_&_&->). rewrite !Z.eqb_refl.
  destruct (Z.eqb_spec (count b) 0); [lia|]. destruct (Z.ltb_spec BLOCK_EVENTS (count b)); [lia|].
  done.
Qed.

(** ** The flash contents and the next boot *)

Definition valid_at s (i : Z) : Prop := 0 <= i < JOURNAL_SLOTS /\ aget (restored_valid s) i = true.
Definition block_at s (i : Z) : block := aget (restored_blocks s) i.

(** Slot [i] holds the most recent block. *)
Definition latest s (i : Z) : Prop :=
  valid_at s i /\ next_slot s = (i + 1) `mod` JOURNAL_SLOTS /\
  block_last (block_at s i) = persisted_event_seq s /\
  block_journal_seq (block_at s i) <= journal_seq s /\
  forall j, valid_at s j -> j <> i ->
    block_journal_seq (block_at s j) < block_journal_seq (block_at s i) /\
    block_last (block_at s j) <= persisted_event_seq s.

Definition store_ok s : Prop :=
  ((forall i, ~ valid_at s i) /\ persisted_event_seq s = 0 /\ next_slot s = 0) \/
  exists i, latest s i.

(** The settings backend: one value per key, replaced by each successful write. *)
Notation flash := (gmap string (list Z)).
Definition flash_of (f : flash) s : Prop :=
  forall i, 0 <= i < JOURNAL_SLOTS ->
    f !! settings_key i =
      if aget (restored_valid s) i then Some (block_bytes (block_at s i)) else None.

(** [settings_load]: the backend presents each stored value once, in an order of
    its own; the callback reads all of it. *)
Definition offer (f : flash) (i : Z) : proc journal effect () :=
  match f !! settings_key i with
  | Some v => _ <- hevt_settings_set (slot_name i) (alen v) (alen v, v) ;; ret ()
  | None => ret ()
  end.
Definition settings_load (f : flash) (order : list Z) : proc journal effect () :=
  for_each order (offer f).

(** The state after the slots of [seen] were presented. *)
Definition loading s (seen : list Z) s' : Prop :=
  same_ring journal_init s' /\ events_since_persist s' = 0 /\ last_persist_uptime_ms s' = 0 /\
  journal_ready s' = false /\ alen (restored_blocks s') = JOURNAL_SLOTS /\
  alen (restored_valid s') = JOURNAL_SLOTS /\
  (forall j, valid_at s' j <-> j ∈ seen /\ valid_at s j) /\
  (forall j, valid_at s' j -> block_at s' j = block_at s j) /\
  ((forall j, ~ valid_at s j) -> persisted_event_seq s' = 0 /\ next_slot s' = 0 /\ journal_seq s' = 0) /\
  forall i, latest s i ->
    if decide (i ∈ seen)
    then journal_seq s' = block_journal_seq (block_at s i) /\ next_slot s' = next_slot s /\
         persisted_event_seq s' = persisted_event_seq s
    else 0 <= journal_seq s' <= block_journal_seq (block_at s i) /\
         0 <= persisted_event_seq s' <= persisted_event_seq s /\ 0 <= next_slot s' < JOURNAL_SLOTS.

Lemma valid_at_ok s i : wf s -> valid_at s i -> block_ok i (block_at s i).
Proof. intros (_&_&_&_&_&_&_&_&_&Hb) [Hi Hv]. by apply Hb. Qed.

Lemma loading_init s : wf s -> loading s [] journal_init.
Proof.
  intros Hwf. pose proof journal_slots_range.
  assert (forall i, ~ valid_at journal_init i) as Hno.
  { intros i [Hi Hv]. cbn in Hv. by rewrite aget_replicate in Hv. }
  unfold loading. cbn. rewrite !alen_replicate by lia. split_and!; try done.
  - intros j. split; [intros Hj; by apply Hno in Hj|intros [Hj _]; by apply elem_of_nil in Hj].
  - intros j Hj. by apply Hno in Hj.
  - intros i Hi. rewrite decide_False by (apply not_elem_of_nil).
    pose proof (wf_seqs s Hwf). destruct (valid_at_ok s i Hwf) as (_&_&_&_&?&_); [apply Hi|]. lia.
Qed.

Lemma accept_valid i b s j :
  0 <= i < JOURNAL_SLOTS -> alen (restored_valid s) = JOURNAL_SLOTS ->
  valid_at (accept i b s) j <-> j = i \/ valid_at s j.
Proof.
  intros Hi Hl. unfold valid_at. cbn. split.
  - intros [Hj Hv]. destruct (decide (i = j)); [auto|]. right. split; [done|].
    by rewrite aget_aset_ne in Hv by lia.
  - intros [->|[Hj Hv]]; [by rewrite aget_aset_eq by lia|].
    split; [done|]. rewrite aget_aset by lia. by case_decide.
Qed.

Lemma accept_block i b s j :
  0 <= i < JOURNAL_SLOTS -> 0 <= j -> alen (restored_blocks s) = JOURNAL_SLOTS ->
  block_at (accept i b s) j = if decide (i = j) then b else block_at s j.
Proof. intros Hi Hj Hl. unfold block_at. cbn. by rewrite aget_aset by lia. Qed.

Lemma loading_accept s seen s' i :
  wf s -> loading s seen s' -> i ∉ seen -> valid_at s i ->
  loading s (i :: seen) (accept i (block_at s i) s').
Proof.
  intros Hwf (Hrg&He&Hl&Hr&Hlb&Hlv&Hval&Hblk&Hno&Hlat) Hni Hv. pose proof (proj1 Hv) as Hi.
  pose proof journal_slots_range. pose proof (slot_range JOURNAL_SLOTS (i + 1)).
  unfold loading. cbn [accept]. split_and!; try done.
  - unfold accept. cbn. by rewrite alen_aset.
  - unfold accept. cbn. by rewrite alen_aset.
  - intros j. rewrite accept_valid by done. rewrite Hval, elem_of_cons.
    split; [intros [->|[]]; auto|intros [[->|] ?]; auto].
  - intros j Hj. rewrite accept_block by (done || apply Hj). case_decide; [by subst|].
    apply Hblk. apply accept_valid in Hj as [->|]; done.
  - intros Hnone. by destruct (Hnone i).
  - intros k Hk. specialize (Hlat k Hk). pose proof (wf_seqs s Hwf).
    destruct Hk as (Hvk&Hnk&Hlk&Hjk&Hothers).
    destruct (valid_at_ok s i Hwf Hv) as (_&_&_&_&Hji&_). cbn [accept].
    assert (0 <= block_last (block_at s i)) by apply u32_range.
    unfold accept. cbn. rewrite u8_small by lia.
    destruct (decide (k = i)) as [->|Hne].
    + rewrite decide_False in Hlat by done. rewrite decide_True by (rewrite elem_of_cons; auto).
      destruct (Z.leb_spec (journal_seq s') (block_journal_seq (block_at s i))); lia.
    + destruct (Hothers i Hv ltac:(done)) as [Hlt Hle]. destruct (decide (k ∈ seen)).
      * rewrite decide_True by (rewrite elem_of_cons; auto).
        destruct (Z.leb_spec (journal_seq s') (block_journal_seq (block_at s i))); lia.
      * rewrite decide_False by (rewrite elem_of_cons; tauto).
        destruct (Z.leb_spec (journal_seq s') (block_journal_seq (block_at s i))); lia.
Qed.

Lemma loading_ext s d d' s' :
  (forall j, j ∈ d <-> j ∈ d') -> loading s d s' -> loading s d' s'.
Proof.
  intros Hd (?&?&?&?&?&?&Hval&Hblk&Hno&Hlat). unfold loading. split_and!; try done.
  - intros j. by rewrite Hval, Hd.
  - intros i Hi. specialize (Hlat i Hi). destruct (decide (i ∈ d)) as [?%Hd|Hn].
    + by rewrite decide_True.
    + by rewrite decide_False by (by rewrite <- Hd).
Qed.

(** A slot that holds nothing valid is not in the flash. *)
Lemma loading_skip s seen s' i :
  wf s -> loading s seen s' -> ~ valid_at s i -> loading s (i :: seen) s'.
Proof.
  intros Hwf (Hrg&He&Hl&Hr&Hlb&Hlv&Hval&Hblk&Hno&Hlat) Hni. unfold loading. split_and!; try done.
  - intros j. rewrite Hval, elem_of_cons. split; [tauto|intros [[->|] ?]; tauto].
  - intros k Hk. specialize (Hlat k Hk). assert (k <> i) by (intros ->; by destruct Hk).
    destruct (decide (k ∈ seen)).
    + by rewrite decide_True by (rewrite elem_of_cons; auto).
    + by rewrite decide_False by (rewrite elem_of_cons; tauto).
Qed.

Lemma settings_load_loading f s order seen s' t :
  wf s -> flash_of f s -> NoDup order -> (forall i, i ∈ order -> i ∉ seen /\ 0 <= i < JOURNAL_SLOTS) ->
  loading s seen s' ->
  wp (settings_load f order) (fun _ s'' t' es =>
    loading s (order ++ seen) s'' /\ t' = t /\ es = []) s' t.
Proof.
  intros Hwf Hf Hnd. revert seen s' t. unfold settings_load.
  induction Hnd as [|i order Hi Hnd IH]; intros seen s' t Hord Hload; [done|].
  cbn [for_each]. destruct (Hord i) as [Hid Hir]; [set_solver|]. wp_steps.
  assert (forall s1, loading s (i :: seen) s1 ->
    wp (for_each order (offer f)) (fun _ s'' t' es =>
      loading s ((i :: order) ++ seen) s'' /\ t' = t /\ [] ++ es = []) s1 t) as Hgo.
  { intros s1 Hs1. wp_use IH; [|exact Hs1|].
    - intros j Hj. destruct (Hord j) as [? ?]; [by right|]. split; [|done].
      rewrite elem_of_cons. intros [->|]; done.
    - intros [] s2 t2 es2 (Hs2&->&->). split_and!; [|done..].
      eapply loading_ext; [|exact Hs2]. intros j. rewrite !elem_of_app, !elem_of_cons. tauto. }
  unfold offer at 1. rewrite (Hf i Hir).
  destruct (aget (restored_valid s) i) eqn:Hv; wp_steps.
  - assert (valid_at s i) as Hvi by done. pose proof (valid_at_ok s i Hwf Hvi) as Hb.
    rewrite (length_block_bytes i) by done.
    wp_use settings_set_stored; [done..|]. intros r s1 t1 es1 (_&->&->&->). wp_steps.
    apply Hgo. by apply loading_accept.
  - apply Hgo. apply loading_skip; [done..|]. intros [_ ?]. congruence.
Qed.

Definition all_slots : list Z := seqZ 0 JOURNAL_SLOTS.

Lemma loading_done s s' :
  wf s -> store_ok s -> loading s all_slots s' ->
  wf s' /\ store_ok s' /\ journal_ready s' = false /\ retained s' = [] /\
  persisted_event_seq s' = persisted_event_seq s /\ next_slot s' = next_slot s /\
  (forall i, valid_at s' i <-> valid_at s i) /\
  (forall i, valid_at s i -> block_at s' i = block_at s i) /\ journal_seq s' <= journal_seq s.
Proof.
  intros Hwf Hst (Hrg&He&Hl&Hr&Hlb&Hlv&Hval&Hblk&Hno&Hlat).
  assert (forall i, valid_at s' i <-> valid_at s i) as Hv.
  { intros i. rewrite Hval. unfold all_slots. rewrite elem_of_seqZ. unfold valid_at. split; [tauto|]. intros []; split_and!; try done; lia. }
  assert (forall i, valid_at s i -> block_at s' i = block_at s i) as Hb.
  { intros i Hi. by apply Hblk, Hv. }
  pose proof (wf_seqs s Hwf) as Hq. pose proof journal_slots_range. pose proof persist_every_range.
  assert (0 <= journal_seq s' < 2 ^ 32 /\ journal_seq s' <= journal_seq s /\
          persisted_event_seq s' = persisted_event_seq s /\
          next_slot s' = next_slot s /\ store_ok s') as (Hj&Hjle&Hp&Hn&Hst').
  { destruct Hst as [(Hnone&Hp0&Hn0)|[i Hi]].
    - assert (0 <= journal_seq s) by apply Hwf.
      destruct (Hno Hnone) as (->&->&->). split_and!; try done; try lia.
      left. split_and!; [|apply (Hno Hnone)..]. intros i. by rewrite Hv.
    - specialize (Hlat i Hi). rewrite decide_True in Hlat.
      2: { apply elem_of_seqZ. destruct Hi as [[? _] _]. lia. }
      destruct Hlat as (Hj&Hn&Hp). pose proof Hi as (Hvi&Hni&Hli&Hji&Hoth).
      destruct (valid_at_ok s i Hwf Hvi) as (_&_&_&_&?&_). rewrite Hj. split_and!; try done; try lia.
      right. exists i. unfold latest. rewrite Hv, Hb, Hn, Hp, Hj by done. split_and!; try done; try lia.
      intros j Hvj Hne. rewrite Hb by (by apply Hv). apply Hoth; [by apply Hv|done]. }
  split_and!; try done.
  - unfold wf. split. { destruct (proj1 init_wf) as (?&?&?&?). unfold ring_ok. by destruct Hrg as (->&->&->&_). }
    destruct Hrg as (_&_&Hc&Hs). cbn in Hc, Hs. rewrite Hc, Hs, He, Hp, Hn, Hr. split_and!; try done; try lia.
    + unfold PERSIST_EVERY. lia.
    + intros i Hi Hvi. change (block_ok i (block_at s' i)). rewrite Hb by (apply Hv; by split).
      apply valid_at_ok; [done|]. apply Hv. by split.
  - unfold retained. destruct Hrg as (_&_&->&_). done.
Qed.

(** ** After all settings callbacks *)

Lemma settings_loaded_spec s t :
  wf s -> journal_ready s = false -> clocked s t ->
  persisted_event_seq s + ring_count s < 2 ^ 32 ->
  wp zmk_settings_loaded (fun _ s' t' es =>
    wf s' /\ journal_ready s' = true /\ retained s' = retained s /\
    ring_seq s' = persisted_event_seq s + ring_count s /\
    persisted_event_seq s' = persisted_event_seq s /\ next_slot s' = next_slot s /\
    journal_seq s' = journal_seq s /\ (t <= t')%nat /\
    last_persist_uptime_ms s' = last_persist_uptime_ms s /\
    restored_blocks s' = restored_blocks s /\ restored_valid s' = restored_valid s /\
    let p := scan_restored s in
    let told := boot_diagnostics_loaded (previous_uptime p) (previous_profile p)
                  (previous_endpoint p) in
    if ring_count s =? 0 then es = [told]
    else exists x, es = [told; x] /\ arms_writer s t x) s t.
Proof.
  intros Hwf Hr Hck Hlt. pose proof (wf_seqs s Hwf) as Hq.
  unfold zmk_settings_loaded. wp_steps. rewrite Hr. cbn [negb when]. wp_steps.
  set (s1 := set_field journal_ready _ _).
  assert (ring_seq s1 = persisted_event_seq s + ring_count s) as Hs1.
  { unfold s1. cbn. apply u32_small. lia. }
  assert (wf s1) as Hwf1.
  { revert Hwf. unfold wf, ring_ok. rewrite Hs1. change (2 ^ 32) with 4294967296 in *. cbn.
    intuition lia. }
  rewrite Hs1. change (persisted_event_seq s1) with (persisted_event_seq s).
  assert ((persisted_event_seq s <? persisted_event_seq s + ring_count s) =
          negb (ring_count s =? 0)) as ->.
  { destruct (Z.eqb_spec (ring_count s) 0); cbn; lia. }
  destruct (ring_count s =? 0) eqn:Hc; cbn [negb when]; wp_steps; [split_and!; done|].
  wp_use schedule_spec; [done|]. intros [] s' t' es (->&Hes).
  destruct Hes as (->&x&->&Hx&_). split_and!; try done; try lia.
  by exists x.
Qed.

(** The numbered events of the restored blocks, in the order they are scanned. *)
Definition numbered b : list (Z * event) :=
  (fun n => (u32 (first_event_seq b + n), aget (ev b) n)) <$> seqZ 0 (count b).
Definition restored_events s : list (Z * event) := valid_blocks s ≫= numbered.

Lemma scan_restored_fold s :
  scan_restored s =
  foldl (fun p se => scan_event se.1 se.2 p) (Previous 0 0 (-1) 0 (-1) 0) (restored_events s).
Proof.
  unfold scan_restored, restored_events. generalize (Previous 0 0 (-1) 0 (-1) 0).
  induction (valid_blocks s) as [|b bs IH]; intros p; [done|].
  change ((b :: bs) ≫= numbered) with (numbered b ++ (bs ≫= numbered)). rewrite foldl_app.
  cbn [foldl]. rewrite IH. f_equal. unfold scan_block, numbered.
  generalize p. induction (seqZ 0 (count b)) as [|n l IHl]; intros p'; [done|]. cbn. apply IHl.
Qed.

(** [v] is what [f] reads in the selected event with the highest number, or [d]. *)
Definition newest (keep : event -> bool) (f : event -> Z) (d : Z) (l : list (Z * event))
    (v seq : Z) : Prop :=
  (forall se, se ∈ l -> keep se.2 = true -> se.1 <= seq) /\
  ((v = d /\ seq = 0) \/ exists se, se ∈ l /\ keep se.2 = true /\ v = f se.2 /\ seq = se.1).

Lemma newest_snoc keep f d l v seq se v' seq' :
  newest keep f d l v seq ->
  (v', seq') = (if keep se.2 && (seq <? se.1) then (f se.2, se.1) else (v, seq)) ->
  newest keep f d (l ++ [se]) v' seq'.
Proof.
  intros [Hmax Hv] Heq. destruct (keep se.2) eqn:Hk; cbn in Heq.
  - destruct (Z.ltb_spec seq se.1); injection Heq as -> ->; split.
    + intros se' [Hin| ->%list_elem_of_singleton]%elem_of_app Hk'; [|lia]. specialize (Hmax _ Hin Hk'). lia.
    + right. exists se. by split_and!; [apply elem_of_app; right; apply list_elem_of_singleton|..].
    + intros se' [Hin| ->%list_elem_of_singleton]%elem_of_app Hk'; [by apply Hmax|lia].
    + destruct Hv as [|(se'&?&?)]; [by left|right]. exists se'. by rewrite elem_of_app; auto.
  - injection Heq as -> ->. split.
    + intros se' [Hin| ->%list_elem_of_singleton]%elem_of_app Hk'; [by apply Hmax|congruence].
    + destruct Hv as [|(se'&?&?)]; [by left|right]. exists se'. by rewrite elem_of_app; auto.
Qed.

Definition is_endpoint_event (e : event) : bool :=
  (type e =? evt TOTEM_HEVT_USB) && (reason e =? 255).

Lemma scan_newest l :
  let p := foldl (fun p se => scan_event se.1 se.2 p) (Previous 0 0 (-1) 0 (-1) 0) l in
  newest (fun _ => true) uptime_ms 0 l (previous_uptime p) (previous_seq p) /\
  newest (fun e => has_profile e && (0 <=? active e)) active (-1) l (previous_profile p)
    (profile_seq p) /\
  newest is_endpoint_event (fun e => i8 (extra e)) (-1) l (previous_endpoint p) (endpoint_seq p).
Proof.
  induction l as [|se l IH] using rev_ind.
  { cbv zeta. cbn. split_and!; (split; [by intros ? ?%elem_of_nil|by left]). }
  cbv zeta in *. rewrite foldl_app. cbn [foldl]. set (p := foldl _ _ l) in *.
  destruct IH as (IH1&IH2&IH3).
  assert (scan_event se.1 se.2 p = Previous
    (if previous_seq p <? se.1 then uptime_ms se.2 else previous_uptime p)
    (if previous_seq p <? se.1 then se.1 else previous_seq p)
    (if has_profile se.2 && (0 <=? active se.2) && (profile_seq p <? se.1) then active se.2 else previous_profile p)
    (if has_profile se.2 && (0 <=? active se.2) && (profile_seq p <? se.1) then se.1 else profile_seq p)
    (if is_endpoint_event se.2 && (endpoint_seq p <? se.1) then i8 (extra se.2) else previous_endpoint p)
    (if is_endpoint_event se.2 && (endpoint_seq p <? se.1) then se.1 else endpoint_seq p)) as ->.
  { clearbody p. unfold scan_event. fold (is_endpoint_event se.2).
    destruct p as [pu ps pp pps pe pes].
    cbv beta iota delta [set_field previous_uptime previous_seq previous_profile profile_seq
                         previous_endpoint endpoint_seq].
    destruct (ps <? se.1), (has_profile se.2 && (0 <=? active se.2) && (pps <? se.1));
      cbv beta iota; by destruct (is_endpoint_event se.2 && (pes <? se.1)). }
  cbn [previous_uptime previous_seq previous_profile profile_seq previous_endpoint endpoint_seq].
  split_and!; (eapply newest_snoc; [eassumption|]; cbv beta; cbn [andb]; by case_match).
Qed.
End blocks.
End JournalRestore.
