(* ===== verification/HostEventProps.v ===== *)
(** * What the journal guarantees

    Traces of the journal: any sequence of records from any thread and of runs of
    the writer, with records interleaved into the flash write, failing writes
    included.  The invariant below ties the RAM state to the history of recorded
    events and to the contents of the flash. *)
From stdpp Require Import pretty gmap.
From S2P Require Import Prelude Events Platform Samples RingBuffer HostEventLog.
From S2P Require Import HostEventSpec HostEventRestore.

Module JournalTrace.
Import Journal JournalSpec JournalRestore.

Inductive op :=
| op_record (c : record_call)
| op_persist (during : list record_call).

Definition calls (o : op) : list record_call :=
  match o with op_record c => [c] | op_persist during => during end.

#[local] Notation flash := (gmap string (list Z)).

Section trace.
Context `{!Config} `{!Clock} `{!Crc32}.
Implicit Types (s : journal) (t : nat) (hist evs : list event) (f : flash).

(** [save] is the storage backend's answer to each write. *)
Variable save : string -> list Z -> Z.

Definition exec (o : op) : proc journal effect () :=
  match o with
  | op_record c => run_call c
  | op_persist during => totem_host_event_log_persist save during
  end.

(** The flash after a trace, and the events of the blocks it stored. *)
Definition commit f (x : effect) : flash :=
  match x with
  | settings_write k v => if save k v =? 0 then <[k := v]> f else f
  | _ => f
  end.
Definition commit_all f (es : list effect) : flash := foldl commit f es.

Definition block_events (b : block) : list event := take (Z.to_nat (count b)) (ev b).
Definition saved_by (x : effect) : list event :=
  match x with
  | settings_write k v => if save k v =? 0 then block_events (block_of_bytes v) else []
  | _ => []
  end.
Definition saved (es : list effect) : list event := es ≫= saved_by.

Lemma saved_app es es' : saved (es ++ es') = saved es ++ saved es'.
Proof. apply bind_app. Qed.
Lemma commit_all_app f es es' : commit_all f (es ++ es') = commit_all (commit_all f es) es'.
Proof. apply foldl_app. Qed.

Lemma arms_only_quiet es f : arms_only es -> saved es = [] /\ commit_all f es = f.
Proof.
  unfold arms_only. intros Hes. induction Hes as [|x es (w&_&[->| ->]) Hes IH]; [done|..]; exact IH.
Qed.

Lemma rearmed_quiet s t es f : rearmed s t es -> saved es = [] /\ commit_all f es = f.
Proof.
  unfold rearmed. case_match; [|by intros ->].
  by intros (w&n&->&_).
Qed.

(** ** The invariant *)
Record Inv (base : Z) hist s t f : Prop := {
  inv_wf : wf s;
  inv_clocked : clocked s t;
  inv_ready : journal_ready s = true;
  inv_base : 0 <= base <= persisted_event_seq s;
  inv_seq : ring_seq s = base + Z.of_nat (length hist);
  inv_retained : retained s = lastn keep hist;
  inv_store : store_ok s;
  inv_flash : flash_of f s;
}.

Lemma inv_count base hist s t f :
  Inv base hist s t f -> ring_count s = Z.min RING_CAP (Z.of_nat (length hist)).
Proof.
  intros [Hwf _ _ _ _ Hret _ _]. pose proof ring_cap_range.
  rewrite <- (length_retained s) by apply Hwf. rewrite Hret, length_lastn. unfold keep. lia.
Qed.

(** The batch of the next block, seen in the history. *)
Lemma inv_batch base hist s t f :
  Inv base hist s t f -> pending s ->
  let first := Z.to_nat (first_pending s - base - 1) in
  let last := Z.to_nat (first_pending s + batch_size s - 1 - base) in
  batch s = seg first last hist /\
  (Z.to_nat (persisted_event_seq s - base) <= first < last)%nat /\ (last <= length hist)%nat /\
  ((length hist <= keep)%nat -> first = Z.to_nat (persisted_event_seq s - base)).
Proof.
  intros Hinv Hp. pose proof (inv_count _ _ _ _ _ Hinv) as Hc.
  destruct Hinv as [Hwf _ _ Hb Hq Hret _ _].
  pose proof (batch_size_range s Hwf Hp) as Hn. pose proof ring_cap_range. cbv zeta.
  unfold first_pending, oldest, keep in *. split_and!; try lia.
  unfold batch, seg. rewrite Hret. unfold lastn. rewrite drop_drop. unfold first_pending, oldest, keep.
  f_equal; [lia|f_equal; lia].
Qed.

Lemma same_store_ok s s' f : same_store s s' -> store_ok s -> flash_of f s ->
  store_ok s' /\ flash_of f s'.
Proof.
  unfold store_ok, latest, flash_of, valid_at, block_at.
  intros (->&->&->&_&_&->&->). done.
Qed.

Lemma inv_records base hist evs s s' t t' f :
  Inv base hist s t f -> wf s' -> same_store s s' -> (t <= t')%nat ->
  retained s' = lastn keep (retained s ++ evs) ->
  ring_seq s' = ring_seq s + Z.of_nat (length evs) ->
  Inv base (hist ++ evs) s' t' f.
Proof.
  intros [Hwf Hck Hr Hb Hq Hret Hst Hf] Hwf' Hss Ht Hret' Hq'. pose proof ring_cap_range.
  destruct (same_store_ok s s' f Hss Hst Hf) as [Hst' Hf'].
  destruct Hss as (Hp&_&_&Hl&Hjr&_). split; try done.
  - apply (clocked_le _ t); [|done]. unfold clocked. by rewrite Hl.
  - by rewrite Hjr.
  - by rewrite Hp.
  - rewrite Hq', Hq, length_app. lia.
  - rewrite Hret', Hret. apply lastn_app_lastn. unfold keep. lia.
Qed.

Lemma inv_request b base hist s t t' f :
  Inv base hist s t f -> (t <= t')%nat -> Inv base hist (s <| persist_requested := b |>) t' f.
Proof.
  intros Hinv Ht. pose proof Hinv as [Hwf Hck Hr Hb Hq Hret Hst Hf]. pose proof ring_cap_range.
  split; try done. by apply (clocked_le s t).
Qed.

Lemma inv_later base hist j t t' f : Inv base hist j t f -> (t <= t')%nat -> Inv base hist j t' f.
Proof. intros [] Ht. split; try done. by eapply clocked_le. Qed.

(** What a successful write leaves in the slots. *)
Lemma stored_slots s s' :
  wf s -> stored 0 s s' ->
  (forall i, valid_at s' i <-> i = next_slot s \/ valid_at s i) /\
  (forall i, 0 <= i -> block_at s' i = if decide (next_slot s = i) then next_block s else block_at s i).
Proof.
  intros Hwf (_&_&Hs). cbn in Hs. destruct Hs as (_&_&Hb'&Hv'). pose proof (wf_seqs s Hwf). split.
  - intros i. unfold valid_at. rewrite Hv'. assert (alen (restored_valid s) = JOURNAL_SLOTS) by apply Hwf.
    destruct (decide (next_slot s = i)) as [<-|].
    + rewrite aget_aset_eq by lia. intuition.
    + split; [intros [Hi Hv]; rewrite aget_aset_ne in Hv by lia; auto|].
      intros [->|[Hi Hv]]; [done|]. by rewrite aget_aset_ne by lia.
  - intros i Hi. unfold block_at. rewrite Hb'. apply aget_aset; [|done].
    assert (alen (restored_blocks s) = JOURNAL_SLOTS) by apply Hwf. lia.
Qed.

(** No valid block is newer than the journal's numbers. *)
Lemma store_ok_bounds s j :
  store_ok s -> valid_at s j ->
  block_journal_seq (block_at s j) <= journal_seq s /\ block_last (block_at s j) <= persisted_event_seq s.
Proof.
  intros [(Hno&_)|(i&Hvi&_&Hli&Hji&Hoth)] Hvj; [by destruct (Hno j)|].
  destruct (decide (j = i)) as [->|Hne]; [lia|]. destruct (Hoth j Hvj Hne). lia.
Qed.

(** A successful write becomes the most recent block, on flash as in RAM. *)
Lemma stored_store s s' f err :
  wf s -> pending s -> stored err s s' -> store_ok s -> flash_of f s ->
  persisted_event_seq s <= ring_seq s -> journal_seq s + 1 < 2 ^ 32 ->
  store_ok s' /\
  flash_of (if err =? 0 then <[settings_key (next_slot s) := block_bytes (next_block s)]> f else f) s'.
Proof.
  intros Hwf Hp Hs Hst Hf Hle Hjlt. pose proof Hs as (_&Hj&Hs').
  pose proof (batch_size_range s Hwf Hp) as Hn. pose proof (wf_seqs s Hwf) as Hq.
  change (2 ^ 32) with 4294967296 in *. assert (0 <= journal_seq s) as Hj0 by apply Hwf.
  rewrite u32_small in Hj by lia. destruct (Z.eqb_spec err 0) as [->|_].
  - destruct (stored_slots s s' Hwf Hs) as [Hval Hblk]. destruct Hs' as (Hp'&Hn'&_&Hv').
    assert (block_last (next_block s) = persisted_event_seq s') as Hlast.
    { rewrite Hp'. unfold block_last. cbn. apply u32_small. unfold pending in Hp. lia. }
    split.
    + right. exists (next_slot s). unfold latest. rewrite Hn', Hj, Hp', Hblk, decide_True by lia.
      split_and!; try done; [by apply Hval; auto|by rewrite <- Hp'|cbn; rewrite u32_small by lia; lia|].
      intros j [->|Hvj]%Hval Hne; [done|]. rewrite Hblk by apply Hvj. rewrite decide_False by done.
      cbn. rewrite u32_small by lia. destruct (store_ok_bounds s j Hst Hvj). unfold first_pending in *. lia.
    + intros i Hi. rewrite Hv', Hblk by lia. assert (alen (restored_valid s) = JOURNAL_SLOTS) by apply Hwf.
      rewrite aget_aset by lia. case_decide; [subst i; by rewrite lookup_insert_eq|].
      rewrite lookup_insert_ne; [by apply Hf|]. intros Heq. pose proof journal_slots_range. apply settings_key_inj in Heq; lia.
  - destruct Hs' as (Hp'&Hn'&Hb'&Hv'). split.
    + destruct Hst as [(Hno&?&?)|(i&Hvi&Hni&Hli&Hji&Hoth)].
      * left. unfold valid_at. by rewrite Hv', Hp', Hn'.
      * right. exists i. unfold latest, valid_at, block_at. rewrite Hv', Hb', Hp', Hn', Hj.
        split_and!; try done; [apply Hvi..|]. unfold block_at in Hji. lia.
    + intros i Hi. unfold block_at. rewrite Hv', Hb'. by apply Hf.
Qed.

(** ** One step *)
Definition is_write (x : effect) : bool := match x with settings_write _ _ => true | _ => false end.

(** The records that ran: those interleaved with a write only if there was one. *)
Definition ran (o : op) (es : list effect) : list record_call :=
  match o with
  | op_record c => [c]
  | op_persist during => if existsb is_write es then during else []
  end.

Definition recorded (cs : list record_call) evs : Prop :=
  Forall2 (fun c e => exists n, e = call_event c n) cs evs.

(** How far the flash has come in the history. *)
Definition mark (base : Z) s : nat := Z.to_nat (persisted_event_seq s - base).

Definition step_ok (o : op) (base : Z) hist s t f (s' : journal) (t' : nat) (es : list effect) : Prop :=
  exists evs, recorded (ran o es) evs /\ Inv base (hist ++ evs) s' t' (commit_all f es) /\
    (mark base s <= mark base s')%nat /\ journal_seq s' <= journal_seq s + 1 /\
    saved es `sublist_of` seg (mark base s) (mark base s') (hist ++ evs) /\
    ((length hist <= keep)%nat -> saved es = seg (mark base s) (mark base s') (hist ++ evs)).

Lemma step_quiet o base hist evs s t f s' t' es :
  recorded (ran o es) evs -> Inv base (hist ++ evs) s' t' f -> saved es = [] ->
  commit_all f es = f -> persisted_event_seq s' = persisted_event_seq s ->
  journal_seq s' = journal_seq s -> step_ok o base hist s t f s' t' es.
Proof.
  intros Hrec Hinv Hs Hc Hp Hj. exists evs. unfold mark. rewrite Hs, Hc, Hp, Hj, seg_same.
  split_and!; done || lia.
Qed.

Lemma arms_only_no_write es : arms_only es -> existsb is_write es = false.
Proof.
  unfold arms_only. intros Hes. induction Hes as [|x es (w&_&[->| ->]) Hes IH]; [done|..]; exact IH.
Qed.

(** What a successful write stores is the batch. *)
Lemma saved_write s :
  wf s -> pending s ->
  saved_by (write_effect s) = if write_result save s =? 0 then batch s else [].
Proof.
  intros Hwf Hp. pose proof (next_block_ok s Hwf Hp) as Hb. pose proof (wf_seqs s Hwf).
  cbn [saved_by write_effect]. unfold write_result. destruct (_ =? 0); [|done].
  rewrite (block_of_bytes_bytes _ _ Hb) by lia. unfold block_events. cbn.
  apply take_app_length'. pose proof (alen_batch s Hwf Hp). unfold alen in *. lia.
Qed.

Lemma step_record c base hist s t f :
  Inv base hist s t f -> ring_seq s + 1 < 2 ^ 32 ->
  wp (run_call c) (fun _ s' t' es => step_ok (op_record c) base hist s t f s' t' es) s t.
Proof.
  intros Hinv Hlt. pose proof Hinv as [Hwf Hck Hr Hb Hq Hret Hst Hf].
  wp_use run_call_spec; [done..|]. intros [] s' t' es (Hwf'&Hss&Ht&Hes&e&Hrg&n&Hn&->).
  destruct (arms_only_quiet es f Hes) as [Hs Hc].
  apply (step_quiet _ _ _ [call_event c n]); try done; [by repeat econstructor| |apply Hss..].
  eapply inv_records; try done.
  - rewrite (same_ring_retained _ _ Hrg). apply push_retained, Hwf.
  - destruct Hrg as (_&_&_&->). cbn. pose proof (wf_seqs s Hwf). apply u32_small. lia.
Qed.

(** A run of the writer that does not write. *)
Lemma step_persist_idle during base hist s t f :
  Inv base hist s t f -> ring_seq s + 1 < 2 ^ 32 -> ~ due s t \/ due s t /\ ~ pending s ->
  wp (totem_host_event_log_persist save during) (fun _ s' t' es =>
    step_ok (op_persist during) base hist s t f s' t' es) s t.
Proof.
  intros Hinv Hlt. pose proof Hinv as [Hwf Hck Hr Hb Hq Hret Hst Hf]. intros [Hdue|[Hdue Hp]].
  - wp_use persist_too_soon; [done..|]. intros [] s' t' es (->&Ht&x&->&Hx).
    pose proof (arms_writer_only _ _ _ Hx) as Hes. destruct (arms_only_quiet [x] f Hes) as [Hs Hc].
    apply (step_quiet _ _ _ []); try done.
    + cbn [ran]. rewrite arms_only_no_write by done. constructor.
    + rewrite app_nil_r. by apply (inv_request _ _ _ s t).
  - wp_use persist_idle; [done..|lia|]. intros [] s' t' es (->&->&->).
    apply (step_quiet _ _ _ []); try done; [constructor|].
    rewrite app_nil_r. apply (inv_request _ _ _ s t); [done|lia].
Qed.

(** How far a run of the writer moves the mark. *)
Lemma mark_stored base s s' err :
  wf s -> pending s -> stored err s s' ->
  persisted_event_seq s <= persisted_event_seq s' /\
  mark base s' = if err =? 0 then Z.to_nat (first_pending s + batch_size s - 1 - base) else mark base s.
Proof.
  intros Hwf Hp (_&_&Hs'). pose proof (batch_size_range s Hwf Hp). unfold mark.
  destruct (_ =? 0); destruct Hs' as (->&_); [unfold first_pending in *|]; lia.
Qed.

Lemma step_persist during base hist s t f :
  Inv base hist s t f -> ring_seq s + Z.of_nat (length during) + 1 < 2 ^ 32 ->
  journal_seq s + 1 < 2 ^ 32 ->
  wp (totem_host_event_log_persist save during) (fun _ s' t' es =>
    step_ok (op_persist during) base hist s t f s' t' es) s t.
Proof.
  intros Hinv Hlt Hjlt. pose proof Hinv as [Hwf Hck Hr Hb Hq Hret Hst Hf].
  assert (due s t /\ pending s \/ ~ due s t \/ due s t /\ ~ pending s) as [[Hdue Hp]|Hno]
    by (unfold due, pending; lia).
  2: by apply step_persist_idle; [done|lia|].
  assert (persisted_event_seq s <= ring_seq s) as Hle by (apply Hwf; done).
  wp_use persist_writes; [done..|]. cbv zeta.
  intros [] s' t' es (Hwf'&Hs'&Ht&(n&Hn&Hl)&(evs&Hevs&Hret'&Hq')&(es1&es2&->&Hes1&Hes2)&_).
  destruct (arms_only_quiet es1 f Hes1) as [Hsv1 Hc1].
  pose proof (stored_store s s' f (write_result save s) Hwf Hp Hs' Hst Hf Hle Hjlt) as [Hst' Hf'].
  set (f' := if write_result save s =? 0 then _ else f) in Hf'.
  destruct (rearmed_quiet s' t' es2 f' Hes2) as [Hsv2 Hc2].
  pose proof (inv_batch base hist s t f Hinv Hp) as (Hbatch&Hord&Hlast&Hfirst). cbv zeta in *.
  pose proof (batch_size_range s Hwf Hp) as Hsz. pose proof (next_block_ok s Hwf Hp) as Hbok.
  assert (length evs = length during) as Hlen by (symmetry; by eapply Forall2_length).
  destruct (mark_stored base s s' _ Hwf Hp Hs') as [Hpp Hmark].
  assert (saved (es1 ++ [boot_diagnostics_persist; write_effect s] ++ es2) =
          if write_result save s =? 0 then batch s else []) as Hsaved.
  { rewrite !saved_app, Hsv1, Hsv2, app_nil_r, <- (saved_write s) by done. unfold saved. cbn.
    by rewrite app_nil_r. }
  exists evs. split_and!.
  - cbn [ran]. rewrite existsb_app. cbn. by rewrite orb_true_r.
  - replace (commit_all f (es1 ++ [boot_diagnostics_persist; write_effect s] ++ es2)) with f'.
    2: { rewrite commit_all_app, Hc1, commit_all_app. symmetry. exact Hc2. }
    pose proof ring_cap_range. split; try done.
    + unfold clocked. rewrite Hl. split; [apply uptime_nonneg|apply uptime_mono; lia].
    + apply Hs'.
    + lia.
    + rewrite Hq', Hq, length_app. lia.
    + rewrite Hret', Hret. apply lastn_app_lastn. unfold keep. lia.
  - unfold mark. lia.
  - destruct Hs' as (_&->&_). assert (0 <= journal_seq s) by apply Hwf.
    change (2 ^ 32) with 4294967296 in *. rewrite u32_small; lia.
  - rewrite Hsaved, Hmark. destruct (_ =? 0); [|by apply sublist_nil_l].
    rewrite Hbatch, seg_app_l by lia. unfold mark. apply seg_nested. lia.
  - intros Hfit. specialize (Hfirst Hfit). rewrite Hsaved, Hmark.
    destruct (_ =? 0); [|by rewrite seg_same].
    rewrite Hbatch, seg_app_l, Hfirst by lia. done.
Qed.

Lemma step_exec o base hist s t f :
  Inv base hist s t f -> ring_seq s + Z.of_nat (length (calls o)) + 1 < 2 ^ 32 ->
  journal_seq s + 1 < 2 ^ 32 ->
  wp (exec o) (fun _ s' t' es => step_ok o base hist s t f s' t' es) s t.
Proof.
  destruct o as [c|during]; cbn [exec calls length]; intros.
  - apply step_record; [done|lia].
  - by apply step_persist.
Qed.

(** ** Traces *)
Fixpoint trace_calls (ops : list op) s t : list record_call :=
  match ops with
  | [] => []
  | o :: ops =>
      let r := exec o s t in ran o (eff r) ++ trace_calls ops (fin r) (clk r)
  end.

Definition total_calls (ops : list op) : Z := Z.of_nat (length (ops ≫= calls)).

Lemma length_ran o es : (length (ran o es) <= length (calls o))%nat.
Proof. destruct o; cbn; [done|]. case_match; cbn; lia. Qed.

Lemma trace_inv ops base hist s t f :
  Inv base hist s t f -> ring_seq s + total_calls ops + 1 < 2 ^ 32 ->
  journal_seq s + Z.of_nat (length ops) < 2 ^ 32 ->
  let r := for_each ops exec s t in
  exists evs, recorded (trace_calls ops s t) evs /\
    Inv base (hist ++ evs) (fin r) (clk r) (commit_all f (eff r)) /\
    (mark base s <= mark base (fin r))%nat /\
    saved (eff r) `sublist_of` seg (mark base s) (mark base (fin r)) (hist ++ evs) /\
    ((length (hist ++ evs) <= keep)%nat ->
     saved (eff r) = seg (mark base s) (mark base (fin r)) (hist ++ evs)).
Proof.
  revert hist s t f. induction ops as [|o ops IH]; intros hist s t f Hinv Hlt Hjlt.
  { exists []. cbn. rewrite app_nil_r, seg_same. split_and!; done || constructor. }
  assert (total_calls (o :: ops) = Z.of_nat (length (calls o)) + total_calls ops) as Htc.
  { unfold total_calls. change ((o :: ops) ≫= calls) with (calls o ++ (ops ≫= calls)).
    rewrite length_app. lia. }
  pose proof (step_exec o base hist s t f Hinv ltac:(unfold total_calls in *; lia)
    ltac:(cbn [length] in *; lia)) as (evs&Hrec&Hinv1&Hm1&Hj1&Hsub1&Heq1).
  cbn [for_each trace_calls]. change (clk ?m) with (clk m).
  set (r1 := exec o s t) in *.
  assert (Z.of_nat (length evs) <= Z.of_nat (length (calls o))) as Hle.
  { pose proof (length_ran o (eff r1)). apply Forall2_length in Hrec. lia. }
  assert (ring_seq (fin r1) = ring_seq s + Z.of_nat (length evs)) as Hq1.
  { destruct Hinv, Hinv1. rewrite length_app in *. lia. }
  destruct (IH (hist ++ evs) (fin r1) (clk r1) (commit_all f (eff r1)) Hinv1) as
    (evs2&Hrec2&Hinv2&Hm2&Hsub2&Heq2); [lia|cbn [length] in *; lia|].
  exists (evs ++ evs2). unfold bind. cbn [val fin clk eff]. fold r1.
  set (r2 := for_each ops exec (fin r1) (clk r1)) in *.
  rewrite saved_app, commit_all_app, app_assoc.
  assert (mark base (fin r1) <= length (hist ++ evs))%nat as Hml.
  { destruct Hinv1 as [Hwf1 _ Hr1 Hb1 Hs1 _ _ _]. unfold mark.
    assert (persisted_event_seq (fin r1) <= ring_seq (fin r1)) by (by apply Hwf1). lia. }
  assert (forall i, seg i (mark base (fin r1)) ((hist ++ evs) ++ evs2) =
                    seg i (mark base (fin r1)) (hist ++ evs)) as Hseg.
  { intros i. by apply seg_app_l. }
  split_and!; [by apply Forall2_app|done|lia| |].
  - rewrite <- (seg_trans _ (mark base (fin r1))) by lia. rewrite Hseg.
    by apply sublist_app.
  - intros Hfit. rewrite <- (seg_trans _ (mark base (fin r1))) by lia. rewrite Hseg.
    rewrite Heq2 by done. rewrite Heq1; [done|]. rewrite !length_app in Hfit. lia.
Qed.

(** ** When the flash is written *)

(** The begin and end times of the writes of a trace: the reading with which the writer
    starts and the first reading after the write, by the clock and not by the variable the
    code keeps. *)
Fixpoint write_times (ops : list op) s t : list (Z * Z) :=
  match ops with
  | [] => []
  | o :: ops =>
      let r := exec o s t in
      (if existsb is_write (eff r) then [(uptime t, uptime (write_end (calls o) t))] else []) ++
      write_times ops (fin r) (clk r)
  end.

(** Each write begins at least the interval after the previous one ended; the code takes an
    end at uptime 0 for no write yet. *)
Fixpoint spaced (last : Z) (ws : list (Z * Z)) : Prop :=
  match ws with
  | [] => True
  | (b, e) :: ws => (last <> 0 -> last + PERSIST_MIN_INTERVAL_MS <= b) /\ b <= e /\ spaced e ws
  end.

Lemma step_times o base hist s t f :
  Inv base hist s t f -> ring_seq s + Z.of_nat (length (calls o)) + 1 < 2 ^ 32 ->
  wp (exec o) (fun _ s' t' es =>
    if existsb is_write es
    then due s t /\ uptime t <= last_persist_uptime_ms s' /\
         last_persist_uptime_ms s' = uptime (write_end (calls o) t)
    else last_persist_uptime_ms s' = last_persist_uptime_ms s) s t.
Proof.
  intros [Hwf Hck Hr Hb Hq Hret Hst Hf] Hlt. destruct o as [c|during]; cbn [exec calls length] in *.
  - wp_use run_call_spec; [done..|lia|]. intros [] s' t' es (_&Hss&_&Hes&_).
    rewrite arms_only_no_write by done. apply Hss.
  - assert (due s t \/ ~ due s t) as [Hdue|Hdue] by (unfold due; lia).
    2: { wp_use persist_too_soon; [done..|]. intros [] s' t' es (->&Ht&x&->&Hx).
         by rewrite (arms_only_no_write _ (arms_writer_only _ _ _ Hx)). }
    assert (pending s \/ ~ pending s) as [Hp|Hp] by (unfold pending; lia).
    2: { wp_use persist_idle; [done..|lia|]. by intros [] s' t' es (->&->&->). }
    wp_use persist_writes; [done..|]. cbv zeta.
    intros [] s' t' es (_&_&_&(n&Hn&->)&_&(es1&es2&->&_&_)&_).
    rewrite existsb_app. cbn. rewrite orb_true_r. destruct Hn as [Hn ->].
    split_and!; [done|apply uptime_mono; lia|done].
Qed.

Lemma trace_spaced ops base hist s t f :
  Inv base hist s t f -> ring_seq s + total_calls ops + 1 < 2 ^ 32 ->
  journal_seq s + Z.of_nat (length ops) < 2 ^ 32 ->
  spaced (last_persist_uptime_ms s) (write_times ops s t).
Proof.
  revert hist s t f. induction ops as [|o ops IH]; intros hist s t f Hinv Hlt Hjlt; [done|].
  assert (total_calls (o :: ops) = Z.of_nat (length (calls o)) + total_calls ops) as Htc.
  { unfold total_calls. change ((o :: ops) ≫= calls) with (calls o ++ (ops ≫= calls)).
    rewrite length_app. lia. }
  assert (0 <= total_calls ops) by (unfold total_calls; lia).
  pose proof (step_exec o base hist s t f Hinv ltac:(lia) ltac:(cbn [length] in *; lia))
    as (evs&Hrec&Hinv1&_&Hj1&_).
  pose proof (step_times o base hist s t f Hinv ltac:(lia)) as Htime. unfold wp in Htime.
  cbn [write_times]. cbv zeta. set (r1 := exec o s t) in *.
  assert (ring_seq (fin r1) <= ring_seq s + Z.of_nat (length (calls o))) as Hq1.
  { pose proof (length_ran o (eff r1)). apply Forall2_length in Hrec.
    destruct Hinv, Hinv1. rewrite length_app in *. lia. }
  specialize (IH _ _ _ _ Hinv1 ltac:(lia) ltac:(cbn [length] in *; lia)).
  destruct (existsb is_write (eff r1)); cbn [app].
  - destruct Htime as (Hdue&Hle&Hend). cbn [spaced]. rewrite <- Hend. split_and!; [|done|done].
    intros Hne. destruct Hdue as [?|?]; [done|lia].
  - by rewrite <- Htime.
Qed.

(** ** Draining *)
Lemma inv_pending base hist s t f :
  Inv base hist s t f -> pending s <-> persisted_event_seq s < ring_seq s.
Proof.
  intros Hinv. pose proof (inv_count _ _ _ _ _ Hinv) as Hc. pose proof ring_cap_range.
  destruct Hinv as [Hwf _ Hr Hb Hq _ _ _]. unfold pending, first_pending, oldest. lia.
Qed.

(** One due run, with nothing recorded meanwhile, when every write succeeds. *)
Lemma due_run base hist s t f :
  (forall key v, save key v = 0) ->
  (forall n, uptime n + PERSIST_MIN_INTERVAL_MS <= uptime (S n)) ->
  Inv base hist s t f -> due s t -> ring_seq s + 1 < 2 ^ 32 -> journal_seq s + 1 < 2 ^ 32 ->
  wp (exec (op_persist [])) (fun _ s' t' es =>
    Inv base hist s' t' (commit_all f es) /\ due s' t' /\ ring_seq s' = ring_seq s /\
    journal_seq s' <= journal_seq s + 1 /\
    persisted_event_seq s' = Z.min (ring_seq s) (Z.max (first_pending s - 1 + BLOCK_EVENTS) (persisted_event_seq s)) /\
    persist_requested s' = (persisted_event_seq s' <? ring_seq s')) s t.
Proof.
  intros Hok Hslow Hinv Hdue Hlt Hjlt. pose proof block_events_range.
  pose proof (inv_pending _ _ _ _ _ Hinv) as Hpend. pose proof Hinv as [Hwf Hck Hr Hb Hq Hret Hst Hf].
  assert (persisted_event_seq s <= ring_seq s) as Hle by (by apply Hwf).
  pose proof (step_exec (op_persist []) base hist s t f Hinv ltac:(cbn; lia) Hjlt) as Hse.
  destruct (decide (pending s)) as [Hp|Hp] eqn:Hd; [|]; clear Hd.
  - pose proof (persist_writes save [] s t Hwf Hck Hr Hdue Hp ltac:(cbn; lia)) as Hw.
    unfold wp in *. cbn [exec] in *. set (r := totem_host_event_log_persist save [] s t) in *.
    destruct Hse as (evs&Hrec&Hinv'&_&Hj&_).
    assert (evs = []) as ->.
    { apply Forall2_length in Hrec. pose proof (length_ran (op_persist []) (eff r)).
      destruct evs; [done|]. cbn in *. lia. }
    rewrite app_nil_r in Hinv'. destruct Hw as (_&Hs'&Ht&(n&Hn&Hl)&(evs&_&_&Hq')&_&Hreq).
    unfold write_result in *. rewrite Hok in *. destruct Hs' as (_&_&Hp'&_).
    split_and!; try done.
    + right. rewrite Hl. pose proof (Hslow n). pose proof (uptime_mono (S n) (clk r) ltac:(lia)). lia.
    + rewrite Hq'. cbn [length]. lia.
    + rewrite Hp'. unfold batch_size. unfold pending, first_pending in *. lia.
    + by apply Hreq.
  - wp_use persist_idle; [done..|]. intros [] s' t' es (->&->&->).
    split_and!; try done; [apply (inv_request _ _ _ s t); [done|lia]|..]; cbn;
      try rewrite Hpend in Hp; unfold first_pending; try lia.
    unfold due in *. cbn. pose proof (uptime_mono t (S t) ltac:(lia)). lia.
Qed.

Lemma drain_runs k base hist s t f :
  (forall key v, save key v = 0) ->
  (forall n, uptime n + PERSIST_MIN_INTERVAL_MS <= uptime (S n)) ->
  Inv base hist s t f -> due s t ->
  ring_seq s + 1 < 2 ^ 32 -> journal_seq s + Z.of_nat k < 2 ^ 32 ->
  ring_seq s - persisted_event_seq s <= Z.of_nat k * BLOCK_EVENTS ->
  wp (for_each (replicate k (op_persist [])) exec) (fun _ s' t' es =>
    ring_seq s' = ring_seq s /\ persisted_event_seq s' = ring_seq s /\
    ((0 < k)%nat -> persist_requested s' = false) /\ (k = 0%nat -> s' = s)) s t.
Proof.
  intros Hok Hslow. pose proof block_events_range as Hbe.
  revert s t f. induction k as [|k IH]; intros s t f Hinv Hdue Hlt Hjlt Hk.
  { assert (persisted_event_seq s <= ring_seq s) by (destruct Hinv as [Hwf ? ? ? ? ? ? ?]; by apply Hwf).
    cbn [replicate for_each]. wp_steps. split_and!; done || lia. }
  assert (persisted_event_seq s <= ring_seq s) as Hle by (destruct Hinv as [Hwf ? ? ? ? ? ? ?]; by apply Hwf).
  cbn [replicate for_each]. wp_steps. eapply wp_mono; [apply (due_run base hist s t f); done || lia|]. cbv beta.
  intros [] s1 t1 es1 (Hinv1&Hdue1&Hq1&Hj1&Hp1&Hreq1).
  wp_use IH; [done|done|lia|lia| |].
  - rewrite Hq1, Hp1. unfold first_pending. lia.
  - intros [] s2 t2 es2 (Hq2&Hp2&Hreq2&Hk0). split_and!; [lia|lia| |done]. intros _.
    destruct k; [|apply Hreq2; lia]. rewrite Hk0 in Hp2 |- * by done. rewrite Hreq1, Hq1. lia.
Qed.

(** ** Power cycle *)

(** A boot: the backend presents what the flash holds, other components record
    events, and [main] runs the post-load hook. *)
Definition boot f (order : list Z) (early : list record_call) : proc journal effect () :=
  settings_load f order ;; for_each early run_call ;; zmk_settings_loaded.

Lemma boot_spec f order early s t :
  wf s -> store_ok s -> flash_of f s -> order ≡ₚ all_slots ->
  persisted_event_seq s + Z.of_nat (length early) < 2 ^ 32 ->
  wp (boot f order early) (fun _ s' t' es => exists evs,
    recorded early evs /\ Inv (persisted_event_seq s) (lastn keep evs) s' t' f /\
    persisted_event_seq s' = persisted_event_seq s /\ next_slot s' = next_slot s /\
    (forall i, valid_at s' i <-> valid_at s i) /\
    (forall i, valid_at s i -> block_at s' i = block_at s i) /\
    journal_seq s' <= journal_seq s) journal_init t.
Proof.
  intros Hwf Hst Hf Hord Hlt. pose proof (wf_seqs s Hwf) as Hq. pose proof ring_cap_range.
  unfold boot. wp_steps. wp_use (settings_load_loading f s order [] journal_init t Hwf Hf).
  { rewrite Hord. apply NoDup_seqZ. }
  { intros i Hi. split; [apply not_elem_of_nil|]. rewrite Hord in Hi. apply elem_of_seqZ in Hi. lia. }
  { by apply loading_init. }
  intros [] s1 t1 es1 (Hload&->&->). pose proof Hload as (Hrg1&_&Hl1&_).
  assert (loading s all_slots s1) as Hload'.
  { eapply loading_ext; [|exact Hload]. intros i. by rewrite app_nil_r, Hord. }
  destruct (loading_done s s1 Hwf Hst Hload') as (Hwf1&Hst1&Hr1&Hret1&Hp1&Hn1&Hv1&Hb1&Hjs1).
  assert (ring_seq s1 = 0) as Hs1 by apply Hrg1.
  assert (forall t', clocked s1 t') as Hck1.
  { intros t'. unfold clocked. rewrite Hl1. pose proof (uptime_nonneg t'). lia. }
  wp_steps. wp_use run_calls_spec; [done|done|lia|].
  intros [] s2 t2 es2 (Hwf2&Hss&Ht2&_&_&evs&Hevs&Hret2&Hq2).
  assert (length evs = length early) as Hlen by (symmetry; by eapply Forall2_length).
  destruct Hss as (Hp2&Hj2&Hn2&Hl2&Hr2&Hb2&Hv2).
  assert (ring_count s2 = Z.of_nat (length (lastn keep evs))) as Hc2.
  { rewrite <- (length_retained s2) by apply Hwf2. by rewrite Hret2, Hret1. }
  rewrite length_lastn in Hc2.
  wp_use settings_loaded_spec; [done|congruence| |lia|].
  { unfold clocked. rewrite Hl2. apply Hck1. }
  cbv zeta. intros [] s3 t3 es3 (Hwf3&Hr3&Hret3&Hq3&Hp3&Hn3&Hj3&Ht3&Hl3&Hb3&Hv3&_).
  assert (forall i, valid_at s3 i <-> valid_at s i) as Hval.
  { intros i. rewrite <- Hv1. unfold valid_at. by rewrite Hv3, Hv2. }
  assert (forall i, valid_at s i -> block_at s3 i = block_at s i) as Hblk.
  { intros i Hi. rewrite <- Hb1 by done. unfold block_at. by rewrite Hb3, Hb2. }
  exists evs. split_and!; try done; try congruence.
  split; try done.
  - unfold clocked. rewrite Hl3, Hl2. apply Hck1.
  - lia.
  - rewrite Hq3, Hc2, length_lastn. lia.
  - rewrite Hret3, Hret2, Hret1. cbn [app]. symmetry. apply lastn_all. rewrite length_lastn. lia.
  - revert Hst1. unfold store_ok, latest, valid_at, block_at.
    by rewrite Hp3, Hn3, Hj3, Hb3, Hv3, Hp2, Hn2, Hj2, Hb2, Hv2.
  - intros i Hi. rewrite (Hf i Hi).
    assert (aget (restored_valid s3) i = aget (restored_valid s) i) as ->.
    { specialize (Hval i). unfold valid_at in Hval.
      destruct (aget (restored_valid s3) i), (aget (restored_valid s) i); naive_solver. }
    destruct (aget (restored_valid s) i) eqn:Hvi; [|done]. by rewrite Hblk by done.
Qed.
End trace.
End JournalTrace.

(** The journal is an event log in the sense of [EventSink]: the timing inbox, which
    is proved against that interface, can drain into it. *)
Module JournalSink.
Import Journal JournalSpec.

Section sink.
Context `{!Config} `{!Clock} `{!Crc32}.

Definition put (e : event) (s : journal) : journal :=
  fin (totem_host_event_log_record_timing (uptime_ms e) (type e) (idx e) (active e) (reason e)
         (thrash_win e) (extra e) s 0%nat).

Lemma put_push e s : event_ok e -> same_ring (push e s) (put e s).
Proof.
  intros He. unfold put. set (m := totem_host_event_log_record_timing _ _ _ _ _ _ _).
  assert (wp m (fun _ s' _ _ => same_ring (push e s) s') s 0%nat) as Hm; [|exact Hm].
  unfold m, totem_host_event_log_record_timing, record_event. wp_steps. cbn [when andb]. wp_steps.
  rewrite mk_event_id by done. unfold same_ring, push. cbn.
  destruct s as [?? c ??????????]; cbn. by destruct (c <? RING_CAP).
Qed.

Lemma same_ring_ok s s' : same_ring s s' -> ring_ok s -> ring_ok s'.
Proof. unfold same_ring, ring_ok. by intros (->&->&->&_). Qed.

#[export, refine] Instance journal_sink : EventSink journal := {|
  sink_ok := ring_ok;
  sink_put := put;
  sink_recent := ring_get_ordered;
  sink_cap := keep;
|}.
Proof.
  - pose proof ring_cap_range. unfold keep. lia.
  - intros e s Hs He. eapply same_ring_ok; [by apply put_push|by apply push_ring_ok].
  - intros e s Hs He. rewrite !ring_get_ordered_retained.
    rewrite (same_ring_retained _ _ (put_push e s He)). by apply push_retained.
  - intros s Hs. rewrite ring_get_ordered_retained. pose proof (length_retained s Hs).
    destruct Hs as (_&_&?&_). unfold keep. lia.
Defined.
End sink.
End JournalSink.

(** * Properties *)
Module JournalProps.
Import Journal JournalSpec JournalRestore JournalTrace.

Section facts.
Context `{!Config} `{!Clock} `{!Crc32}.

Lemma init_store_ok : store_ok journal_init.
Proof.
  left. split_and!; try done. intros i [Hi Hv]. cbn in Hv. pose proof journal_slots_range.
  by rewrite aget_replicate in Hv.
Qed.
Lemma init_flash_of : flash_of ∅ journal_init.
Proof.
  intros i Hi. cbn. pose proof journal_slots_range. by rewrite aget_replicate.
Qed.

(** The state after a first boot with an empty flash. *)
Definition booted : outcome journal effect () := boot ∅ all_slots [] journal_init 0%nat.

Lemma booted_inv : Inv 0 [] (fin booted) (clk booted) ∅.
Proof.
  destruct (boot_spec ∅ all_slots [] journal_init 0%nat init_wf init_store_ok init_flash_of
    ltac:(done) ltac:(cbn; lia)) as (evs&Hevs&Hinv&_).
  apply Forall2_nil_inv_l in Hevs as ->. exact Hinv.
Qed.

Lemma wf_scratch b i s :
  wf s -> aget (restored_valid s) i = false -> 0 <= i < JOURNAL_SLOTS ->
  wf (s <| restored_blocks := aset (restored_blocks s) i b |>).
Proof.
  intros (Hr&?&?&?&?&?&?&Hl&?&Hb) Hv Hi. unfold wf. cbn. rewrite alen_aset. split_and!; try done; try lia.
  intros j Hj Hvj. rewrite aget_aset by lia. case_decide; [congruence|by apply Hb].
Qed.

Lemma accept_wf b i s :
  wf s -> journal_ready s = false -> block_ok i b -> aget (restored_valid s) i = false ->
  0 <= i < JOURNAL_SLOTS -> wf (accept i b s).
Proof.
  intros Hwf Hr Hb Hv Hi. pose proof (wf_scratch b i s Hwf Hv Hi) as Hsc.
  pose proof journal_slots_range. pose proof (slot_range JOURNAL_SLOTS (i + 1)).
  assert (0 <= block_journal_seq b < 2 ^ 32) by apply Hb.
  pose proof (u32_range (first_event_seq b + count b - 1)).
  destruct Hsc as (Hring&?&?&?&?&?&?&?&?&Hbl). unfold wf, accept, block_last.
  change (2 ^ 32) with 4294967296 in *. cbn in *. rewrite !alen_aset in *.
  assert (0 <= (if journal_seq s <=? block_journal_seq b then u8 ((i + 1) `mod` JOURNAL_SLOTS)
                else next_slot s) < JOURNAL_SLOTS) as Hns.
  { destruct (_ <=? _); [rewrite u8_small|]; lia. }
  split_and!; try exact Hring; try done; try lia.
  - congruence.
  - intros j Hj Hvj. destruct (decide (i = j)) as [<-|Hne].
    + by rewrite aget_aset_eq by lia.
    + rewrite aget_aset_ne in Hvj by lia. by apply Hbl.
Qed.

Lemma checks_block_ok i mem rc :
  alen mem = block_size -> Forall is_byte mem -> checks i rc mem = true ->
  block_ok i (block_of_bytes mem) /\ rc = block_size.
Proof.
  intros Hl Hb Hc. destruct (block_bytes_of_bytes mem Hl Hb) as (Hh&Hev&Hle).
  unfold checks in Hc. rewrite !andb_true_iff, !negb_true_iff in Hc.
  destruct Hc as ((((((Hm&Hv)&Hs)&Hc0)&Hc1)&Hrc)&Hcrc). split; [|lia].
  assert (forall k, 0 <= k -> k < block_size -> is_byte (aget mem k)) as Hk.
  { intros k ??. apply Forall_aget; [done|lia]. }
  pose proof block_sizes. unfold block_ok. rewrite Hh. change (2 ^ 32) with 4294967296.
  assert (is_byte (count (block_of_bytes mem))) as Hcb by (apply Hk; lia).
  assert (forall a b c d, is_byte a -> is_byte b -> is_byte c -> is_byte d ->
    0 <= of_le32 a b c d < 4294967296) as H32 by (unfold is_byte, of_le32; lia).
  unfold is_byte in Hcb. split_and!; try lia; try done.
  all: apply H32; apply Hk; lia.
Qed.

Lemma buffer_bytes (bytes : list Z) :
  Forall is_byte bytes -> alen (buffer bytes) = block_size /\ Forall is_byte (buffer bytes).
Proof.
  intros Hb. pose proof block_sizes. unfold buffer, alen. split.
  - rewrite length_take, length_app, length_replicate. lia.
  - apply Forall_take, Forall_app. split; [done|]. apply Forall_replicate. done.
Qed.
End facts.

(** C30 Recording refines appending to a bounded log: after any records, from any threads and
    in any well-formed state, the ordered contents of the ring are the most recent
    [RING_CAP] of the events it held followed by the new ones, the sequence number counts
    them all, and neither the persisted prefix nor the flash bookkeeping moves. *)
Theorem record_refines_bounded_log `{!Config} `{!Clock} `{!Crc32} (cs : list record_call)
    (s : journal) (t : nat) :
  wf s -> clocked s t -> ring_seq s + Z.of_nat (length cs) < 2 ^ 32 ->
  wp (for_each cs run_call) (fun _ s' t' es =>
    wf s' /\ same_store s s' /\
    exists evs, recorded cs evs /\
      ring_get_ordered s' = lastn (Z.to_nat RING_CAP) (ring_get_ordered s ++ evs) /\
      ring_seq s' = ring_seq s + Z.of_nat (length evs)) s t.
Proof.
  intros Hwf Hck Hq. wp_use run_calls_spec; [done..|].
  intros [] s' t' es (?&?&_&_&_&evs&Hevs&Hret&Hq'). split_and!; try done.
  exists evs. rewrite !ring_get_ordered_retained. split_and!; try done.
  by rewrite <- (Forall2_length _ _ _ Hevs).
Qed.

(** The concrete world of the witnesses. *)
#[local] Instance example_clock : Clock := ticking 100 100.
#[local] Instance example_crc : Crc32 := ieee_crc.

Definition example_calls : list record_call :=
  [call_record TOTEM_HEVT_CONN 1 1 0 0 0; call_timing 70 TOTEM_HEVT_FLASH_BEGIN (-1) 0 1 0 0;
   call_record TOTEM_HEVT_DISC 1 1 0x13 2 0].

Lemma record_refines_bounded_log_witness :
  wp (for_each example_calls run_call) (fun _ s' t' es =>
    wf s' /\ same_store journal_init s' /\
    exists evs, recorded example_calls evs /\
      ring_get_ordered s' = lastn (Z.to_nat RING_CAP) (ring_get_ordered journal_init ++ evs) /\
      ring_seq s' = 0 + Z.of_nat (length evs)) journal_init 0%nat.
Proof.
  apply (record_refines_bounded_log example_calls journal_init 0%nat);
    [apply init_wf|split; vm_compute; discriminate|vm_compute; reflexivity].
Defined.

(** C17 A due run of the writer stores exactly the next slice of the log: one settings write,
    of the oldest records that are neither persisted nor overwritten, at most a block of
    them, under the key of the next slot, with the header, sequence numbers and CRC that the
    restore path checks.  Success advances the persisted prefix past the slice and the slot
    by one; failure changes neither and re-arms the writer.  This holds whatever other
    threads record while the flash is being written. *)
Theorem persist_writes_next_block `{!Config} `{!Clock} `{!Crc32} (save : string -> list Z -> Z)
    (during : list record_call) (s : journal) (t : nat) :
  wf s -> clocked s t -> journal_ready s = true -> due s t -> pending s ->
  ring_seq s + Z.of_nat (length during) + 1 < 2 ^ 32 ->
  let n := Z.min (ring_seq s - first_pending s + 1) BLOCK_EVENTS in
  exists b, block_ok (next_slot s) b /\ first_event_seq b = first_pending s /\ count b = n /\
    block_events b = take (Z.to_nat n)
      (drop (Z.to_nat (first_pending s - oldest s)) (ring_get_ordered s)) /\
    wp (totem_host_event_log_persist save during) (fun _ s' t' es =>
      let err := save (settings_key (next_slot s)) (block_bytes b) in
      wf s' /\ filter is_write es = [settings_write (settings_key (next_slot s)) (block_bytes b)] /\
      (if err =? 0
       then persisted_event_seq s' = first_pending s + n - 1 /\
            next_slot s' = (next_slot s + 1) `mod` JOURNAL_SLOTS /\
            aget (restored_blocks s') (next_slot s) = b
       else persisted_event_seq s' = persisted_event_seq s /\ next_slot s' = next_slot s /\
            exists w, k_work_reschedule persist_work w ∈ es)) s t.
Proof.
  intros Hwf Hck Hr Hdue Hp Hq. cbv zeta. fold (batch_size s).
  pose proof (batch_size_range s Hwf Hp) as Hn. pose proof (alen_batch s Hwf Hp) as Hb.
  exists (next_block s). split_and!; [by apply next_block_ok|done|done| |].
  { rewrite ring_get_ordered_retained. unfold block_events. cbn. apply take_app_length'.
    fold (batch s). unfold alen in *. lia. }
  wp_use persist_writes; [done..|]. cbv zeta.
  intros [] s' t' es (Hwf'&Hs'&_&_&(evs&_&_&Hq')&(es1&es2&->&Hes1&Hes2)&_).
  split_and!; [done| |].
  - rewrite !filter_app. assert (filter is_write es1 = []) as ->.
    { unfold arms_only in Hes1. clear -Hes1. induction Hes1 as [|x l (w&_&[->| ->]) _ IH]; done. }
    assert (filter is_write es2 = []) as ->; [|done].
    unfold rearmed in Hes2. case_match; [|by subst]. by destruct Hes2 as (w&k&->&_).
  - change (save _ _) with (write_result save s). destruct Hs' as (_&_&Hs').
    destruct (write_result save s =? 0).
    + destruct Hs' as (Hp'&Hn'&Hbl&_). split_and!; try done. rewrite Hbl.
      pose proof (wf_seqs s Hwf). apply aget_aset_eq.
      assert (alen (restored_blocks s) = JOURNAL_SLOTS) as -> by apply Hwf. lia.
    + destruct Hs' as (Hp'&Hn'&_). split_and!; [done..|].
      assert (persisted_event_seq s' <? ring_seq s' = true) as Hmore.
      { rewrite Hp', Hq'. unfold pending, first_pending in Hp. lia. }
      unfold rearmed in Hes2. rewrite Hmore, orb_true_r in Hes2. destruct Hes2 as (w&k&->&_). exists w.
      rewrite !elem_of_app. right. right. apply list_elem_of_singleton. done.
Qed.

(** A journal that holds the example records, ready to write. *)
Definition example_start : outcome journal effect () :=
  for_each example_calls run_call (fin booted) (clk booted).

Lemma persist_writes_next_block_witness :
  exists b, first_event_seq b = 1 /\ count b = 3 /\
    wp (totem_host_event_log_persist (fun _ _ => -5) []) (fun _ s' t' es =>
      filter is_write es = [settings_write "th/dlog/0" (block_bytes b)] /\
      persisted_event_seq s' = 0) (fin example_start) (clk example_start).
Proof.
  assert (wf (fin example_start)) as Hwf.
  { assert (ring_seq (fin booted) + Z.of_nat (length example_calls) < 2 ^ 32) as Hq
      by (vm_compute; reflexivity).
    exact (proj1 (run_calls_spec example_calls (fin booted) (clk booted)
             (inv_wf _ _ _ _ _ booted_inv) (inv_clocked _ _ _ _ _ booted_inv) Hq)). }
  destruct (persist_writes_next_block (fun _ _ => -5) [] (fin example_start) (clk example_start))
    as (b&_&Hf&Hc&_&Hw); [exact Hwf|split; vm_compute; discriminate|vm_compute; reflexivity
    |left; vm_compute; reflexivity|vm_compute; discriminate|vm_compute; reflexivity|].
  exists b. split; [rewrite Hf; vm_compute; reflexivity|].
  split; [rewrite Hc; vm_compute; reflexivity|].
  eapply wp_mono; [exact Hw|]. cbv beta zeta. intros [] s' t' es (_&Hes&Hp&_).
  split; [exact Hes|]. rewrite Hp. vm_compute. reflexivity.
Defined.

(** C2 Nothing is lost or reordered on the way to the flash: over any sequence of records and
    writer runs, with failed writes and records made during a write, the events of the
    successfully written blocks are, in order, a sub-sequence of the recorded history
    between the old and the new persisted mark, and exactly that segment, each event
    once, when the history fits the ring. *)
Theorem journal_delivers_in_order `{!Config} `{!Clock} `{!Crc32} (save : string -> list Z -> Z)
    (ops : list op) (base : Z) (hist : list event) (s : journal) (t : nat)
    (f : gmap string (list Z)) :
  Inv base hist s t f -> ring_seq s + total_calls ops + 1 < 2 ^ 32 ->
  journal_seq s + Z.of_nat (length ops) < 2 ^ 32 ->
  let r := for_each ops (exec save) s t in
  exists evs, recorded (trace_calls save ops s t) evs /\
    let segment := seg (mark base s) (mark base (fin r)) (hist ++ evs) in
    saved save (eff r) `sublist_of` segment /\
    ((length (hist ++ evs) <= Z.to_nat RING_CAP)%nat -> saved save (eff r) = segment).
Proof.
  intros Hinv Hq Hj. destruct (trace_inv save ops base hist s t f Hinv Hq Hj)
    as (evs&Hevs&_&_&Hsub&Heq). exists evs. done.
Qed.

Definition example_ops : list op :=
  [op_record (call_record TOTEM_HEVT_CONN 1 1 0 0 0); op_persist example_calls; op_persist [];
   op_record (call_record TOTEM_HEVT_ADV 0 0 0 0 0)].

Lemma journal_delivers_in_order_witness :
  let save := fun (_ : string) (_ : list Z) => 0 in
  let r := for_each example_ops (exec save) (fin booted) (clk booted) in
  length (saved save (eff r)) = 1%nat /\
  exists evs, saved save (eff r) `sublist_of` seg 0 (mark 0 (fin r)) evs.
Proof.
  split; [vm_compute; reflexivity|].
  destruct (journal_delivers_in_order (fun _ _ => 0) example_ops 0 [] _ _ _ booted_inv)
    as (evs&_&Hsub&_); [vm_compute; reflexivity..|].
  exists evs. exact Hsub.
Defined.

(** C18 The flash is never written more often than configured: in every sequence of records
    and writer runs each write begins at least the minimum interval after the previous one
    ended - the first clock reading after the write, however many records other threads made
    while it ran - whatever the writes returned and whoever asked for them.  The one
    exemption is the code's: a write that ended at uptime 0, which its variable cannot tell
    from no write at all, puts no bound on the next one. *)
Theorem writes_rate_limited `{!Config} `{!Clock} `{!Crc32} (save : string -> list Z -> Z)
    (ops : list op) (base : Z) (hist : list event) (s : journal) (t : nat)
    (f : gmap string (list Z)) :
  Inv base hist s t f -> ring_seq s + total_calls ops + 1 < 2 ^ 32 ->
  journal_seq s + Z.of_nat (length ops) < 2 ^ 32 ->
  spaced (last_persist_uptime_ms s) (write_times save ops s t).
Proof. apply trace_spaced. Qed.

(** Draining: when the flash accepts writes and the writer runs no more often than its
    interval, [k] runs write the whole log as soon as [k] blocks can hold what is pending;
    the persisted mark then equals the sequence number of the last event and no further
    write is requested. *)
Theorem journal_drains `{!Config} `{!Clock} `{!Crc32} (save : string -> list Z -> Z) (k : nat)
    (base : Z) (hist : list event) (s : journal) (t : nat) (f : gmap string (list Z)) :
  (forall key v, save key v = 0) ->
  (forall n, uptime n + PERSIST_MIN_INTERVAL_MS <= uptime (S n)) ->
  Inv base hist s t f -> due s t ->
  ring_seq s + 1 < 2 ^ 32 -> journal_seq s + Z.of_nat k < 2 ^ 32 ->
  ring_seq s - persisted_event_seq s <= Z.of_nat k * BLOCK_EVENTS ->
  wp (for_each (replicate k (op_persist [])) (exec save)) (fun _ s' t' es =>
    persisted_event_seq s' = ring_seq s /\ ring_seq s' = ring_seq s /\
    ((0 < k)%nat -> persist_requested s' = false)) s t.
Proof.
  intros. wp_use drain_runs; [done..|]. intros [] s' t' es (?&?&?&_). done.
Qed.

(** A clock that only ticks between runs of the writer. *)
Definition slow_clock : Clock := ticking 1 300000.

Lemma slow_clock_slow (n : nat) :
  @uptime slow_clock n + @PERSIST_MIN_INTERVAL_MS totem_left_conf <= @uptime slow_clock (S n).
Proof. unfold PERSIST_MIN_INTERVAL_MS. cbn [uptime slow_clock ticking CONFIG_TOTEM_HOST_EVENT_LOG_PERSIST_MIN_MS totem_left_conf]. lia. Qed.

Lemma slow_start_inv :
  exists evs, let r := @boot _ slow_clock _ ∅ all_slots example_calls journal_init 0%nat in
    @Inv _ slow_clock _ 0 evs (fin r) (clk r) ∅.
Proof.
  destruct (@boot_spec _ slow_clock _ ∅ all_slots example_calls journal_init 0%nat init_wf init_store_ok
    init_flash_of ltac:(done) ltac:(cbn; lia)) as (evs&_&Hinv&_).
  eexists. exact Hinv.
Qed.

Lemma journal_drains_witness :
  let r := @boot _ slow_clock _ ∅ all_slots example_calls journal_init 0%nat in
  ring_seq (fin r) = 3 /\
  wp (for_each (replicate 2 (op_persist [])) (@exec _ slow_clock _ (fun _ _ => 0)))
    (fun _ s' t' es => persisted_event_seq s' = ring_seq (fin r)) (fin r) (clk r).
Proof.
  destruct slow_start_inv as [evs Hinv]. split; [vm_compute; reflexivity|].
  pose proof (@journal_drains _ slow_clock _ (fun _ _ => 0) 2 0 evs _ _ _ (fun _ _ => eq_refl)
    slow_clock_slow Hinv ltac:(left; vm_compute; reflexivity) ltac:(vm_compute; reflexivity)
    ltac:(vm_compute; reflexivity) ltac:(vm_compute; discriminate)) as Hw.
  eapply wp_mono; [exact Hw|]. cbv beta. intros [] s' t' es (Hp&_). exact Hp.
Defined.

(** Two writes, the first with a record made while it runs: it ends two readings later. *)
Definition two_runs : list op := [op_persist [call_record 2 0 1 0 0 0]; op_persist []].
Lemma writes_rate_limited_witness :
  let r := @boot _ slow_clock _ ∅ all_slots example_calls journal_init 0%nat in
  @write_times _ slow_clock _ (fun _ _ => 0) two_runs (fin r) (clk r) =
    [(900001, 1800001); (2400001, 2700001)] /\
  @spaced totem_left_conf (last_persist_uptime_ms (fin r))
    (@write_times _ slow_clock _ (fun _ _ => 0) two_runs (fin r) (clk r)).
Proof.
  destruct slow_start_inv as [evs Hinv]. split; [vm_compute; reflexivity|].
  apply (@writes_rate_limited _ slow_clock _ (fun _ _ => 0) two_runs 0 evs _ _ _ Hinv);
    vm_compute; reflexivity.
Defined.

(** C3 A power cycle loses nothing that was persisted: from any journal reached by any trace,
    whatever order the settings backend presents the keys in and whatever is recorded
    before the post-load hook runs, the next boot ends with the same valid blocks, the same
    persisted mark and the same next slot, and numbers the early events directly after the
    persisted mark, which no event of a restored block exceeds: no number of a stored event
    is used again.  (Records above the mark at the cut are lost, and their numbers are
    given out again.) *)
Theorem power_cycle_restores `{!Config} `{!Clock} `{!Crc32} (save : string -> list Z -> Z)
    (ops : list op) (base : Z) (hist : list event) (s : journal) (t t' : nat)
    (f : gmap string (list Z)) (order : list Z) (early : list record_call) :
  Inv base hist s t f -> ring_seq s + total_calls ops + 1 < 2 ^ 32 ->
  journal_seq s + Z.of_nat (length ops) < 2 ^ 32 ->
  order ≡ₚ all_slots ->
  let r := for_each ops (exec save) s t in
  ring_seq (fin r) + Z.of_nat (length early) < 2 ^ 32 ->
  wp (boot (commit_all save f (eff r)) order early) (fun _ s' _ _ =>
    persisted_event_seq s' = persisted_event_seq (fin r) /\ next_slot s' = next_slot (fin r) /\
    (forall i, valid_at s' i <-> valid_at (fin r) i) /\
    (forall i, valid_at (fin r) i -> block_at s' i = block_at (fin r) i) /\
    (forall i, valid_at s' i -> block_last (block_at s' i) <= persisted_event_seq s') /\
    exists evs, recorded early evs /\ ring_get_ordered s' = lastn (Z.to_nat RING_CAP) evs /\
      ring_seq s' = persisted_event_seq (fin r) + Z.of_nat (length (lastn (Z.to_nat RING_CAP) evs)))
    journal_init t'.
Proof.
  intros Hinv Hq Hj Hord r Hearly.
  destruct (trace_inv save ops base hist s t f Hinv Hq Hj) as (evs&_&Hinv'&_).
  fold r in Hinv'. destruct Hinv' as [Hwf _ Hr _ _ _ Hst Hf].
  assert (persisted_event_seq (fin r) <= ring_seq (fin r)) by (by apply Hwf).
  wp_use boot_spec; [done..|lia|].
  intros [] s' t2 es (evs'&Hevs&Hinv2&Hp&Hn&Hv&Hb&_). split_and!; try done.
  { intros i Hi. exact (proj2 (store_ok_bounds s' i (inv_store _ _ _ _ _ Hinv2) Hi)). }
  exists evs'. rewrite ring_get_ordered_retained. destruct Hinv2 as [_ _ _ _ Hs2 Hret2 _ _].
  split_and!; [done| |done]. rewrite Hret2. apply lastn_all. unfold keep. rewrite length_lastn. lia.
Qed.

Lemma power_cycle_restores_witness :
  let r := for_each example_ops (exec (fun _ _ => 0)) (fin booted) (clk booted) in
  persisted_event_seq (fin r) = 1 /\
  wp (boot (commit_all (fun _ _ => 0) ∅ (eff r)) (reverse all_slots) example_calls)
    (fun _ s' _ _ => persisted_event_seq s' = persisted_event_seq (fin r)) journal_init 7%nat.
Proof.
  split; [vm_compute; reflexivity|].
  assert (ring_seq (fin booted) + total_calls example_ops + 1 < 2 ^ 32) as Hq
    by (vm_compute; reflexivity).
  assert (journal_seq (fin booted) + Z.of_nat (length example_ops) < 2 ^ 32) as Hj
    by (vm_compute; reflexivity).
  assert (ring_seq (fin (for_each example_ops (exec (fun _ _ => 0)) (fin booted) (clk booted))) +
          Z.of_nat (length example_calls) < 2 ^ 32) as He by (vm_compute; reflexivity).
  pose proof (power_cycle_restores (fun _ _ => 0) example_ops 0 [] (fin booted) (clk booted) 7 ∅
    (reverse all_slots) example_calls booted_inv Hq Hj (reverse_Permutation all_slots) He) as Hw.
  exact (wp_mono _ _ _ _ _ Hw (fun _ _ _ _ H => proj1 H)).
Defined.

(** C28 Restoring is safe against any stored value: whatever the key, length, read result and
    bytes, offering a value for a slot not restored yet keeps the journal well formed and
    records nothing; unless the name is a slot key, the length and the number of bytes read
    are those of a block, and header and CRC check out, the sequence numbers, the next slot
    and the set of valid slots are untouched. *)
Theorem settings_set_safe `{!Config} `{!Clock} `{!Crc32} (name : string) (len rc : Z)
    (bytes : list Z) (s : journal) (t : nat) :
  wf s -> journal_ready s = false -> Forall is_byte bytes ->
  (forall i, slot_of_name name = Some i -> ~ valid_at s i) ->
  wp (hevt_settings_set name len (rc, bytes)) (fun res s' t' es =>
    wf s' /\ es = [] /\ same_ring s s' /\
    (restored_valid s' = restored_valid s /\ journal_seq s' = journal_seq s /\
     next_slot s' = next_slot s /\ persisted_event_seq s' = persisted_event_seq s
     \/ exists i b, slot_of_name name = Some i /\ len = block_size /\ rc = block_size /\ res = 0 /\
         valid_at s' i /\ block_at s' i = b /\ block_ok i b)) s t.
Proof.
  intros Hwf Hr Hb Hnew. pose proof journal_slots_range.
  destruct (slot_of_name name) as [i|] eqn:Hname.
  2: { unfold hevt_settings_set. rewrite Hname. wp_steps. split_and!; auto. done. }
  assert (0 <= i <= 9) as Hi9.
  { unfold slot_of_name in Hname. repeat case_match; try done. simplify_eq.
    rewrite orb_false_iff in *. lia. }
  destruct (slot_digits i Hi9) as [_ Hu8].
  destruct (decide (i < JOURNAL_SLOTS /\ len = block_size)) as [[Hi ->]|Hno].
  2: { unfold hevt_settings_set. rewrite Hname, Hu8.
       destruct (Z.leb_spec JOURNAL_SLOTS i); cbn [orb].
       { wp_steps. split_and!; auto. done. }
       destruct (Z.eqb_spec len block_size); [lia|]. wp_steps. split_and!; auto. done. }
  assert (aget (restored_valid s) i = false) as Hvi.
  { specialize (Hnew i eq_refl). unfold valid_at in Hnew.
    destruct (aget (restored_valid s) i); [|done]. destruct Hnew. split; [lia|done]. }
  wp_use settings_set_spec; [done|lia|]. cbv zeta. intros res s' t' es (->&->&Hres).
  destruct (buffer_bytes bytes Hb) as [Hml Hmb].
  pose proof (wf_scratch (block_of_bytes (buffer bytes)) i s Hwf Hvi ltac:(lia)) as Hsc.
  destruct (rc <? 0).
  { destruct Hres as [-> ->]. split_and!; auto. done. }
  destruct Hres as [-> Hs']. destruct (checks i rc (buffer bytes)) eqn:Hc.
  2: { subst s'. split_and!; auto. done. }
  destruct (checks_block_ok i _ rc Hml Hmb Hc) as [Hbok ->].
  set (b := block_of_bytes (buffer bytes)) in *. subst s'.
  assert (wf (accept i b s)) as Hwf' by (apply accept_wf; [done..|lia]).
  split_and!; try done. right. exists i, b.
  assert (alen (restored_valid s) = JOURNAL_SLOTS) by apply Hwf.
  assert (alen (restored_blocks s) = JOURNAL_SLOTS) by apply Hwf.
  split_and!; try done.
  - apply accept_valid; [lia|done|auto].
  - rewrite accept_block by (done || lia). by rewrite decide_True.
Qed.

Lemma settings_set_safe_witness :
  wp (hevt_settings_set "dlog/4" 180 (180, replicate 180 0xFF)) (fun res s' t' es =>
    wf s' /\ es = []) (journal_init) 0%nat.
Proof.
  refine (wp_mono _ _ _ _ _ (settings_set_safe "dlog/4" 180 180 (replicate 180 0xFF) journal_init 0
    init_wf eq_refl _ _) (fun _ _ _ _ H => conj (proj1 H) (proj1 (proj2 H)))).
  - apply Forall_replicate. by split.
  - intros i [= <-] [_ Hv]. vm_compute in Hv. discriminate Hv.
Defined.

(** C29 What the post-load hook reports about the previous boot is the newest restored
    evidence: the uptime of the restored event with the highest sequence number, the profile
    of the newest restored event that names one, and the endpoint of the newest endpoint
    event, or the defaults where there is none, in whatever slots the blocks lie. *)
Theorem settings_loaded_reports_newest `{!Config} `{!Clock} `{!Crc32} (s : journal) (t : nat) :
  wf s -> journal_ready s = false -> clocked s t ->
  persisted_event_seq s + ring_count s < 2 ^ 32 ->
  wp zmk_settings_loaded (fun _ s' t' es => exists uptime0 profile endpoint seq1 seq2 seq3,
    head es = Some (boot_diagnostics_loaded uptime0 profile endpoint) /\
    newest (fun _ => true) uptime_ms 0 (restored_events s) uptime0 seq1 /\
    newest (fun e => has_profile e && (0 <=? active e)) active (-1) (restored_events s) profile seq2 /\
    newest is_endpoint_event (fun e => i8 (extra e)) (-1) (restored_events s) endpoint seq3 /\
    journal_ready s' = true /\ ring_seq s' = persisted_event_seq s + ring_count s /\
    (ring_count s <> 0 -> exists x, es !! 1%nat = Some x /\ arms_writer s t x)) s t.
Proof.
  intros Hwf Hr Hck Hlt. wp_use settings_loaded_spec; [done..|]. cbv zeta.
  intros [] s' t' es (_&Hr'&_&Hq'&_&_&_&_&_&_&_&Hes).
  pose proof (scan_newest (restored_events s)) as Hscan. cbv zeta in Hscan.
  rewrite <- scan_restored_fold in Hscan. destruct Hscan as (Hs1&Hs2&Hs3).
  do 6 eexists. split_and!; [|exact Hs1|exact Hs2|exact Hs3|done|done|].
  - destruct (ring_count s =? 0); [by rewrite Hes|]. by destruct Hes as (x&->&_).
  - intros Hc. destruct (Z.eqb_spec (ring_count s) 0); [done|]. destruct Hes as (x&->&?). by exists x.
Qed.

Lemma settings_loaded_reports_newest_witness :
  wp zmk_settings_loaded (fun _ s' t' es => exists uptime0 profile endpoint,
    head es = Some (boot_diagnostics_loaded uptime0 profile endpoint)) journal_init 0%nat.
Proof.
  refine (wp_mono _ _ _ _ _ (settings_loaded_reports_newest journal_init 0 init_wf eq_refl
    (conj _ _) _) _).
  - vm_compute. discriminate.
  - vm_compute. discriminate.
  - vm_compute. reflexivity.
  - intros _ s' t' es (u&p&e&_&_&_&Hh&_). by exists u, p, e.
Defined.
End JournalProps.
