(* ===== verification/HostEventTypes.v ===== *)
(** * The journal's data invariant

    Whatever is called and whatever the flash answers, every variable of the journal keeps a value of
    its C type within its array bounds, and every value handed to the settings backend is a block
    of exactly the size the restore path accepts. *)
From S2P Require Import Prelude Events Platform Samples HostEventLog HostEventSpec HostEventRestore HostEventProps.

Module JournalTypes.
Import Journal JournalSpec JournalRestore JournalTrace.

Section types.
Context `{!Config} `{!Clock} `{!Crc32}.
Implicit Types (s : journal) (t : nat) (es : list effect).

Definition typed s t : Prop := wf s /\ clocked s t.
(** A written value: a block of bytes under one of the slot keys. *)
Definition write_ok (x : effect) : Prop :=
  match x with
  | settings_write key v =>
      exists slot, 0 <= slot < JOURNAL_SLOTS /\ key = settings_key slot /\
        alen v = block_size /\ Forall is_byte v
  | _ => True
  end.

Lemma block_bytes_are_bytes b : Forall is_byte (block_bytes b).
Proof.
  unfold block_bytes, block_head_bytes. repeat (apply Forall_app; split); auto with cint.
  - repeat constructor; solve_cint.
  - apply Forall_bind, Forall_forall. intros e _. apply event_bytes_ok.
Qed.
Lemma write_effect_ok s : wf s -> pending s -> write_ok (write_effect s).
Proof.
  intros Hwf Hp. pose proof (wf_seqs s Hwf) as (_&_&_&Hslot). pose proof (next_block_ok s Hwf Hp) as Hb.
  exists (next_slot s). split_and!; try done; [lia|lia|by apply (length_block_bytes _ _ Hb)|apply block_bytes_are_bytes].
Qed.
Lemma arms_only_writes_ok es : arms_only es -> Forall write_ok es.
Proof. intros Hes. eapply Forall_impl; [exact Hes|]. intros x (w&_&[->| ->]); exact I. Qed.
Lemma rearmed_writes_ok s t es : rearmed s t es -> Forall write_ok es.
Proof.
  unfold rearmed. destruct (_ || _); [intros (w&n&->&_); by repeat constructor|by intros ->].
Qed.

Lemma typed_record c s t :
  typed s t -> ring_seq s + 1 < 2 ^ 32 ->
  wp (run_call c) (fun _ s' t' es =>
    typed s' t' /\ Forall write_ok es /\ ring_seq s' <= ring_seq s + 1 /\
    journal_ready s' = journal_ready s) s t.
Proof.
  intros [Hwf Hck] Hseq. wp_use run_call_spec; [done..|].
  intros [] s' t' es (Hwf'&(_&_&_&Hl&Hr&_&_)&Ht&Hes&e&(_&_&_&Hq)&_).
  assert (clocked s' t') as Hck'.
  { unfold clocked in *. rewrite Hl. split; [lia|]. etrans; [apply Hck|]. by apply uptime_mono. }
  split_and!; [by split|by apply arms_only_writes_ok| |done].
  rewrite Hq. cbn. pose proof (wf_seqs s Hwf). rewrite u32_small; lia.
Qed.

Lemma typed_persist save during s t :
  typed s t -> ring_seq s + Z.of_nat (length during) + 1 < 2 ^ 32 ->
  wp (totem_host_event_log_persist save during) (fun _ s' t' es =>
    typed s' t' /\ Forall write_ok es /\ ring_seq s' <= ring_seq s + Z.of_nat (length during)) s t.
Proof.
  intros [Hwf Hck] Hseq. assert (forall n, (t <= n)%nat -> clocked s n) as Hck'
    by (intros n Hn; by apply (clocked_le s t)).
  destruct (journal_ready s) eqn:Hr.
  2: { wp_use persist_not_ready; [done|]. intros [] s' t' es (->&->&->). split_and!; [|done|lia].
       split; [done|]. apply Hck'. lia. }
  assert (due s t \/ ~ due s t) as [Hdue|Hdue] by (unfold due; lia).
  2: { wp_use persist_too_soon; [done..|]. intros [] s' t' es (->&Ht&x&->&w&_&_&Hx).
       split_and!; [split; [exact Hwf|by apply Hck']| |cbn; lia].
       constructor; [by destruct Hx as [->| ->]|done]. }
  assert (pending s \/ ~ pending s) as [Hp|Hp] by (unfold pending; lia).
  2: { wp_use persist_idle; [done..|lia|]. intros [] s' t' es (->&->&->).
       split_and!; [split; [exact Hwf|apply Hck'; lia]|done|cbn; lia]. }
  wp_use persist_writes; [done..|]. cbv zeta.
  intros [] s' t' es (Hwf'&_&Ht&(n&Hn&Hl)&(evs&_&_&Hq)&(es1&es2&->&Hes1&Hes2)&_). split_and!.
  - split; [done|]. unfold clocked. rewrite Hl. split; [apply uptime_nonneg|apply uptime_mono; lia].
  - apply Forall_app. split; [by apply arms_only_writes_ok|]. apply Forall_app.
    split; [|by apply (rearmed_writes_ok s' t')]. repeat constructor. by apply write_effect_ok.
  - lia.
Qed.

(** C31 Type soundness of the journal: from a well-typed state - after boot, with or without the
    restored blocks - any sequence of records and writer runs, whatever the flash answers and
    whatever is recorded while it writes, leaves every variable within its C type and array
    bounds, every event and every restored block well formed, and hands the settings backend only
    values of exactly the size the restore path accepts, under the keys of the slots. *)
Theorem journal_well_typed save ops s t :
  typed s t -> ring_seq s + Z.of_nat (length (ops ≫= calls)) + 1 < 2 ^ 32 ->
  wp (for_each ops (exec save)) (fun _ s' t' es => typed s' t' /\ Forall write_ok es) s t.
Proof.
  revert s t. induction ops as [|o ops IH]; intros s t Hty Hseq; cbn [for_each]; [by wp_steps|].
  cbn [mbind list_bind] in Hseq. rewrite length_app in Hseq.
  apply wp_bind. eapply (wp_mono _ (fun _ s' t' es => typed s' t' /\ Forall write_ok es /\
    ring_seq s' <= ring_seq s + Z.of_nat (length (calls o)))).
  { destruct o as [c|during]; cbn [exec calls length] in *; [|apply typed_persist; [done|lia]].
    wp_use typed_record; [done|lia|]. intros _ s' t' es (?&?&?&_). by split_and!. }
  intros [] s1 t1 es1 (Hty1&Hes1&Hq1). cbv beta. wp_use IH; [done|lia|].
  intros [] s' t' es (?&?). split; [done|]. by apply Forall_app.
Qed.
End types.

(** A boot without restored blocks, records, and a flash that refuses slot 0. *)
#[local] Instance types_clock : Clock := ticking 400000 400000.
#[local] Instance types_crc : Crc32 := ieee_crc.
Definition refusing (key : string) (_ : list Z) : Z := if String.eqb key (settings_key 0) then -5 else 0.
Definition typed_start : journal := journal_init <| journal_ready := true |>.
Definition typed_ops : list op :=
  [op_record (call_record TOTEM_HEVT_CONN 1 1 0 0 0); op_persist [call_record TOTEM_HEVT_DISC 1 1 0x13 2 0];
   op_persist []].
Lemma journal_well_typed_witness :
  length (filter (fun x => match x with settings_write _ _ => true | _ => false end = true)
    (eff (for_each typed_ops (exec refusing) typed_start 0%nat))) = 2%nat /\
  wp (for_each typed_ops (exec refusing)) (fun _ s' t' es => typed s' t' /\ Forall write_ok es) typed_start 0%nat.
Proof.
  split; [vm_compute; reflexivity|].
  assert (typed typed_start 0%nat) as Hty.
  { split; [|split; vm_compute; discriminate].
    destruct init_wf as (H1'&H2'&H3'&H4'&H5'&H6'&H7'&H8'&H9'&H10'). unfold wf. split_and!; done. }
  assert (ring_seq typed_start + Z.of_nat (length (typed_ops ≫= calls)) + 1 < 2 ^ 32) as Hq by (vm_compute; reflexivity).
  exact (journal_well_typed refusing typed_ops typed_start 0%nat Hty Hq).
Defined.
End JournalTypes.
