(* ===== verification/HostEventDump.v ===== *)
(** * The dump of the journal (src/host_event_log.c, src/totem_studio_extras.c)

    The text the dump thread sends over the console: the boot lines, the flash blocks in
    rotation order and the RAM ring, each data line with a consecutive ordinal, closed by
    an end marker.  [Dump] is the code; its specification is in [HostEventDumpProps.v]. *)
From S2P Require Import Prelude Events Platform Text BootDiagnostics Fault RingBuffer HostEventLog.
Local Open Scope string_scope.
Local Open Scope Z_scope.

Module Dump.
Import Journal.

(** The console transport at the [n]-th attempt to send: the transport of the selected endpoint,
    whether the USB HID interface is ready (never, without CONFIG_ZMK_USB), and what the
    studio-log module answers. *)
Class StudioTransport := {
  selected_transport : nat -> zmk_transport;
  zmk_usb_is_hid_ready : nat -> bool;
  zmk_studio_log_send_line : string -> nat -> Z;
}.

Inductive dump_effect :=
| sent (line : string) (err : Z)      (* what totem_studio_send_diag_line returned *)
| k_sleep (ms : Z).

(** [snprintk(buf, size, ...)]: what the buffer holds of the text. *)
Definition buf (size : nat) (text : string) : string := String.substring 0 (size - 1) text.

Section code.
Context `{!Config} `{!Clock} `{!Crc32} `{!StudioTransport}.

Definition usb_hid_ready (n : nat) : bool :=
  if bool_decide (selected_transport n <> ZMK_TRANSPORT_USB) then false else zmk_usb_is_hid_ready n.

Definition totem_studio_send_diag_line (line : string) : proc nat dump_effect Z :=
  n <- get ;;
  let err := if len line =? 0 then - EMSGSIZE
             else if negb (usb_hid_ready n) then - EAGAIN
             else zmk_studio_log_send_line line n in
  modify S ;;
  emit (sent line err) ;;
  ret err.

Fixpoint send_attempts (attempts : nat) (line : string) : proc nat dump_effect Z :=
  match attempts with
  | O => ret (- EAGAIN)
  | S attempts =>
      err <- totem_studio_send_diag_line line ;;
      if negb (err =? - EAGAIN) then ret err else
      emit (k_sleep (K_MSEC 5)) ;;
      send_attempts attempts line
  end.
Definition dump_send (line : string) : proc nat dump_effect Z := send_attempts 40 line.

(** The texts of the lines. *)
Definition data_text (id ordinal : Z) (detail : string) : string :=
  "totem_diag d=" +:+ fmt_u id +:+ " n=" +:+ fmt_u ordinal +:+ " " +:+ detail.
Definition event_text (e : event) (source : string) (slot seq : Z) : string :=
  "e s=" +:+ source +:+ fmt_u slot +:+ " q=" +:+ fmt_u seq +:+ " t=" +:+ fmt_u (uptime_ms e) +:+
  " k=" +:+ fmt_u (type e) +:+ " i=" +:+ fmt_d (idx e) +:+ " a=" +:+ fmt_d (active e) +:+
  " r=" +:+ fmt_u (reason e) +:+ " w=" +:+ fmt_u (thrash_win e) +:+ " x=" +:+ fmt_u (extra e).
Definition block_text (slot : Z) (b : block) : string :=
  "b s=" +:+ fmt_u slot +:+ " j=" +:+ fmt_u (block_journal_seq b) +:+
  " first=" +:+ fmt_u (first_event_seq b) +:+ " count=" +:+ fmt_u (count b).
Definition begin_text (id lines blocks persisted ram seq : Z) : string :=
  "totem_diag begin id=" +:+ fmt_u id +:+ " lines=" +:+ fmt_u lines +:+ " blocks=" +:+ fmt_u blocks +:+
  " persisted=" +:+ fmt_u persisted +:+ " ram=" +:+ fmt_u ram +:+ " seq=" +:+ fmt_u seq.
Definition end_text (id ordinal : Z) : string :=
  "totem_diag end id=" +:+ fmt_u id +:+ " lines=" +:+ fmt_u ordinal +:+ " status=ok".
Definition fault_text (r : Fault.totem_fault_record) : string :=
  "totem_fault saved kind=" +:+ fmt_u (Fault.kind r) +:+ " reason=" +:+ fmt_u (Fault.reason r) +:+
  " pc=" +:+ fmt_08x (Fault.pc r) +:+ " lr=" +:+ fmt_08x (Fault.lr r) +:+
  " thread=" +:+ fmt_08x (Fault.thread r) +:+ " at=" +:+ fmt_u (Fault.uptime_ms r).

(** The error and the ordinal after the call. *)
Definition dump_data (id ordinal : Z) (detail : string) : proc nat dump_effect (Z * Z) :=
  let line := data_text id ordinal detail in
  if 120 <=? len line then ret (- EMSGSIZE, ordinal) else
  err <- dump_send (buf 120 line) ;;
  ret (err, if err =? 0 then u32 (ordinal + 1) else ordinal).

Definition dump_event (id ordinal : Z) (e : event) (source : string) (slot seq : Z)
    : proc nat dump_effect (Z * Z) :=
  let detail := event_text e source slot seq in
  if 90 <=? len detail then ret (- EMSGSIZE, ordinal) else
  dump_data id ordinal (buf 90 detail).

(** The loops: [None] stands for [goto out]. *)
Fixpoint dump_events (id : Z) (source : string) (slot : Z) (es : list (event * Z)) (ordinal : Z)
    : proc nat dump_effect (option Z) :=
  match es with
  | [] => ret (Some ordinal)
  | (e, seq) :: es =>
      r <- dump_event id ordinal e source slot seq ;;
      if negb (r.1 =? 0) then ret None else dump_events id source slot es r.2
  end.

(** The events of a block with their sequence numbers. *)
Definition block_events (b : block) : list (event * Z) :=
  (fun i => (aget (ev b) i, u32 (first_event_seq b + i))) <$> seqZ 0 (count b).
Definition ring_events (j : journal) : list (event * Z) :=
  let n := ring_count j in
  zip (ring_get_ordered j) ((fun i => u32 (ring_seq j - n + i + 1)) <$> seqZ 0 n).

Definition dump_block (id slot : Z) (b : block) (ordinal : Z) : proc nat dump_effect (option Z) :=
  let detail := block_text slot b in
  if 90 <=? len detail then ret None else
  r <- dump_data id ordinal (buf 90 detail) ;;
  if negb (r.1 =? 0) then ret None else
  dump_events id "p" slot (block_events b) r.2.

Fixpoint dump_slots (id : Z) (j : journal) (offs : list Z) (ordinal : Z)
    : proc nat dump_effect (option Z) :=
  match offs with
  | [] => ret (Some ordinal)
  | off :: offs =>
      let slot := u8 ((next_slot j + off) `mod` JOURNAL_SLOTS) in
      if negb (aget (restored_valid j) slot) then dump_slots id j offs ordinal else
      r <- dump_block id slot (aget (restored_blocks j) slot) ordinal ;;
      match r with
      | Some ordinal => dump_slots id j offs ordinal
      | None => ret None
      end
  end.

(** The counters of the begin line: [blocks] and [persistent_events]. *)
Definition valid_slots (j : journal) : list Z :=
  filter (fun slot => aget (restored_valid j) slot = true) (seqZ 0 JOURNAL_SLOTS).
Definition dump_blocks (j : journal) : Z := u8 (Z.of_nat (length (valid_slots j))).
Definition dump_persistent (j : journal) : Z :=
  u32 (foldl (fun n slot => n + count (aget (restored_blocks j) slot)) 0 (valid_slots j)).

(** [b], [f] and [j] are the boot diagnostics, the last fault and the journal under its lock. *)
Definition totem_host_event_log_dump (b : Boot.boot) (f : Fault.totem_fault_record) (j : journal)
    : proc nat dump_effect () :=
  id <- k_uptime_get_32 ;;
  err <- dump_send (buf 120 (Boot.totem_boot_diagnostics_format b false)) ;;
  if negb (err =? 0) then ret () else
  err <- dump_send (buf 120 (Boot.totem_boot_diagnostics_format b true)) ;;
  if negb (err =? 0) then ret () else
  err <- (if negb (Fault.kind f =? Fault.fault_kind Fault.TOTEM_FAULT_NONE)
          then dump_send (buf 120 (fault_text f)) else ret 0) ;;
  if negb (err =? 0) then ret () else
  let n := ring_count j in
  let expected := u32 (dump_blocks j + dump_persistent j + n) in
  let line := begin_text id expected (dump_blocks j) (dump_persistent j) n (ring_seq j) in
  if 120 <=? len line then ret () else
  err <- dump_send (buf 120 line) ;;
  if negb (err =? 0) then ret () else
  r <- dump_slots id j (seqZ 0 JOURNAL_SLOTS) 0 ;;
  match r with
  | None => ret ()
  | Some ordinal =>
      r <- dump_events id "r" 0 (ring_events j) ordinal ;;
      match r with
      | None => ret ()
      | Some ordinal =>
          when (ordinal =? expected)
            (let line := end_text id ordinal in
             if 120 <=? len line then ret () else
             _ <- dump_send (buf 120 line) ;; ret ())
      end
  end.
Definition dump_work_handler (b : Boot.boot) (f : Fault.totem_fault_record) (j : journal)
    : proc nat dump_effect () := totem_host_event_log_dump b f j.
End code.

(** ** Asking for a dump

    The dump has a work queue of its own, so that waiting for the console blocks nobody else. *)
Inductive request_effect := k_work_queue_start_dump_queue | k_work_submit_to_dump_queue.
Definition ZMK_BEHAVIOR_OPAQUE : Z := 0.

Definition host_diag_dump_init {St} : proc St request_effect Z :=
  emit k_work_queue_start_dump_queue ;; ret 0.
Definition totem_host_event_log_request_dump {St} : proc St request_effect () :=
  emit k_work_submit_to_dump_queue.
(** The key behaviour. *)
Definition on_dump_pressed {St} : proc St request_effect Z :=
  totem_host_event_log_request_dump ;; ret ZMK_BEHAVIOR_OPAQUE.
Definition on_dump_released {St} : proc St request_effect Z := ret ZMK_BEHAVIOR_OPAQUE.
End Dump.
