(* ===== verification/HostEventDumpProps.v ===== *)
(** * What a dump guarantees

    A receiver gets a prefix of one complete text and the end marker only after all of it;
    a transport that accepts every line in time yields the complete text.  Data lines can be
    read back. *)
From Stdlib Require Import Ascii String.
From S2P Require Import Prelude Events Platform Samples Text BootDiagnostics Fault RingBuffer.
From S2P Require Import HostEventLog HostEventSpec HostEventDump.
Local Open Scope string_scope.
Local Open Scope list_scope.
Local Open Scope Z_scope.

Module DumpProps.
Import Journal JournalSpec Dump.

Section facts.
Context `{!Config} `{!Clock} `{!Crc32} `{!StudioTransport}.
Implicit Types (j : journal) (n t : nat) (es : list dump_effect) (line : string) (id o : Z).

(** ** What the transport accepted *)
Definition accepted_line (e : dump_effect) : option string :=
  match e with sent line err => if err =? 0 then Some line else None | k_sleep _ => None end.
Definition accepted es : list string := omap accepted_line es.
Definition is_attempt (e : dump_effect) : bool := match e with sent _ _ => true | _ => false end.
Definition attempts es : nat := length (filter is_attempt es).

Lemma accepted_app es es' : accepted (es ++ es') = accepted es ++ accepted es'.
Proof. apply omap_app. Qed.
Lemma attempts_app es es' : attempts (es ++ es') = (attempts es + attempts es')%nat.
Proof. unfold attempts. by rewrite filter_app, length_app. Qed.

Lemma attempts_turn line err es : attempts (sent line err :: es) = S (attempts es).
Proof. done. Qed.
Lemma attempts_pause ms es : attempts (k_sleep ms :: es) = attempts es.
Proof. done. Qed.

(** The answer to attempt [n] at a line. *)
Definition answer line n : Z :=
  if len line =? 0 then - EMSGSIZE
  else if negb (usb_hid_ready n) then - EAGAIN else zmk_studio_log_send_line line n.
(** Every line is accepted before its fortieth attempt. *)
Definition reliable : Prop :=
  forall line n, 0 < len line ->
    exists m, (m < 40)%nat /\ (forall k, (k < m)%nat -> answer line (n + k) = - EAGAIN) /\
              answer line (n + m) = 0.

(** [delivers l good bad m]: what [m] gets accepted is a prefix of [l], in at most forty
    attempts per line; it is all of [l] if [m] ends well, and it does over a reliable
    transport. *)
Definition delivers {A} (l : list string) (good : A) (bad : A -> Prop)
    (m : proc nat dump_effect A) : Prop :=
  forall n t, wp m (fun a n' t' es =>
    accepted es `prefix_of` l /\ (attempts es <= 40 * length l)%nat /\
    (a = good /\ accepted es = l \/ bad a) /\ (reliable -> a = good /\ accepted es = l)) n t.

Lemma delivers_ret {A} (a : A) bad : delivers [] a bad (ret a).
Proof. intros n t. apply wp_ret. split_and!; try done. by left. Qed.

(** Sequencing; after a failure the rest sends nothing. *)
Lemma delivers_bind {A B} l l' (ga : A) (gb : B) (bad : A -> Prop) (bad' : B -> Prop) m k :
  delivers l ga bad m -> delivers l' gb bad' (k ga) ->
  (forall a, bad a -> exists b, bad' b /\ k a = ret b) ->
  delivers (l ++ l') gb bad' (bind m k).
Proof.
  intros Hm Hk Hbad n t. apply wp_bind. eapply wp_mono; [apply Hm|].
  intros a n1 t1 es (Hp&Hn&Hor&Hr).
  assert (forall b n2 t2 es2, a = ga -> accepted es = l ->
    (accepted es2 `prefix_of` l' /\ (attempts es2 <= 40 * length l')%nat /\
     (b = gb /\ accepted es2 = l' \/ bad' b) /\ (reliable -> b = gb /\ accepted es2 = l')) ->
    (fun (b : B) (_ _ : nat) es2 =>
    accepted (es ++ es2) `prefix_of` l ++ l' /\ (attempts (es ++ es2) <= 40 * length (l ++ l'))%nat /\
     (b = gb /\ accepted (es ++ es2) = l ++ l' \/ bad' b) /\
     (reliable -> b = gb /\ accepted (es ++ es2) = l ++ l')) b n2 t2 es2) as Hgood.
  { intros b n2 t2 es2 -> Hl (Hp2&Hn2&Hor2&Hr2). rewrite accepted_app, attempts_app, length_app, Hl.
    split_and!; [by apply prefix_app|lia|..].
    - destruct Hor2 as [[-> ->]|?]; [by left|by right].
    - intros Hrel. by destruct (Hr2 Hrel) as [-> ->]. }
  destruct Hor as [[-> Hl]|Hb].
  - eapply wp_mono; [apply Hk|]. intros b n2 t2 es2 Hb2. by apply (Hgood b n2 t2 es2).
  - destruct (Hbad a Hb) as (b&Hb'&Heq). rewrite Heq.
    assert (reliable -> wp (k a) (fun b _ _ es2 => b = gb /\ accepted (es ++ es2) = l ++ l') n1 t1) as Hrel.
    { intros Hrel. destruct (Hr Hrel) as [-> Hl]. eapply wp_mono; [apply Hk|].
      intros b2 n2 t2 es2 (_&_&_&Hb2). rewrite accepted_app, Hl. by destruct (Hb2 Hrel) as [-> ->]. }
    rewrite Heq in Hrel. apply wp_ret. rewrite app_nil_r, length_app.
    split_and!; [by apply prefix_app_r|lia|by right|].
    intros Hr'. specialize (Hrel Hr'). unfold wp in Hrel. cbn in Hrel. by rewrite app_nil_r in Hrel.
Qed.

Lemma delivers_mono {A} l (ga : A) (bad bad' : A -> Prop) m :
  delivers l ga bad m -> (forall a, bad a -> bad' a) -> delivers l ga bad' m.
Proof.
  intros Hm Hb n t. eapply wp_mono; [apply Hm|]. intros a n1 t1 es (?&?&Hor&?). split_and!; try done.
  destruct Hor; auto.
Qed.

(** ** One line *)
Lemma send_attempts_spec a line n t :
  wp (send_attempts a line) (fun err n' t' es =>
    (err = 0 /\ accepted es = [line] \/ err <> 0 /\ accepted es = []) /\ (attempts es <= a)%nat /\
    forall m, (m < a)%nat -> (forall k, (k < m)%nat -> answer line (n + k) = - EAGAIN) ->
      answer line (n + m) = 0 -> err = 0) n t.
Proof.
  revert n t. induction a as [|a IH]; intros n t; cbn [send_attempts].
  { wp_steps. split_and!; [right; by split|done|lia]. }
  unfold totem_studio_send_diag_line. wp_steps. fold (answer line n).
  destruct (Z.eqb_spec (answer line n) (- EAGAIN)) as [He|Hne]; cbn [negb].
  - wp_steps. eapply wp_mono; [apply IH|]. intros err n1 t1 es (Hor&Hat&Hrel).
    change (sent line (answer line n) :: k_sleep (K_MSEC 5) :: es) with
      ([sent line (answer line n); k_sleep (K_MSEC 5)] ++ es).
    rewrite accepted_app, attempts_app, !attempts_turn, attempts_pause, He.
    split_and!; [exact Hor|change (attempts []) with 0%nat; lia|].
    intros [|m] Hm Hk H0'; [rewrite Nat.add_0_r in H0'; rewrite He in H0'; discriminate H0'|].
    apply (Hrel m); [lia|..].
    + intros k Hkm. rewrite <- (Hk (S k)) by lia. f_equal. lia.
    + rewrite <- H0'. f_equal. lia.
  - wp_steps. split_and!.
    + destruct (Z.eqb_spec (answer line n) 0) as [->|?]; [by left|right]. split; [done|].
      cbn. by destruct (Z.eqb_spec (answer line n) 0).
    + rewrite attempts_turn. change (attempts []) with 0%nat. lia.
    + intros [|m] Hm Hk H0'; [by rewrite Nat.add_0_r in H0'|]. exfalso. apply Hne.
      rewrite <- (Hk 0%nat ltac:(lia)). f_equal. lia.
Qed.

Lemma dump_send_delivers line :
  0 < len line -> delivers [line] 0 (fun err => err <> 0) (dump_send line).
Proof.
  intros Hlen n t. unfold dump_send. eapply wp_mono; [apply send_attempts_spec|].
  intros err n1 t1 es (Hor&Hat&Hrel). split_and!.
  - destruct Hor as [[_ ->]|[_ ->]]; [done|apply prefix_nil].
  - cbn. lia.
  - destruct Hor as [[? ?]|[? ?]]; auto.
  - intros Hr. destruct (Hr line n Hlen) as (m&Hm&Hk&H0'). pose proof (Hrel m Hm Hk H0') as ->.
    by destruct Hor as [[_ ?]|[? _]].
Qed.

Lemma buf_id size text : len text < Z.of_nat size -> buf size text = text.
Proof.
  unfold buf, len. intros Hl. assert (String.length text <= size - 1)%nat as Hle by lia. clear Hl.
  revert Hle. generalize (size - 1)%nat as k.
  induction text as [|a text IH]; intros [|k] Hk; cbn in *; try done; [lia|].
  f_equal. apply IH. lia.
Qed.

(** ** The complete text *)
(** Data lines with consecutive ordinals from [o]. *)
Fixpoint numbered id o (ds : list string) : list string :=
  match ds with [] => [] | d :: ds => data_text id o d :: numbered id (o + 1) ds end.
Definition event_details (source : string) (slot : Z) (evs : list (event * Z)) : list string :=
  (fun '(e, seq) => event_text e source slot seq) <$> evs.
Definition block_details (slot : Z) (b : block) : list string :=
  block_text slot b :: event_details "p" slot (block_events b).
Definition slot_details j (slot : Z) : list string :=
  if aget (restored_valid j) slot then block_details slot (aget (restored_blocks j) slot) else [].
(** The slots from the oldest block on. *)
Definition rotation j : list Z := (fun off => (next_slot j + off) `mod` JOURNAL_SLOTS) <$> seqZ 0 JOURNAL_SLOTS.
Definition details j : list string :=
  (rotation j ≫= slot_details j) ++ event_details "r" 0 (ring_events j).

Definition count_lines j : Z := Z.of_nat (length (details j)).
Definition header (b : Boot.boot) (f : Fault.totem_fault_record) : list string :=
  [Boot.totem_boot_diagnostics_format b false; Boot.totem_boot_diagnostics_format b true] ++
  (if Fault.kind f =? 0 then [] else [fault_text f]).
Definition full_dump id (b : Boot.boot) (f : Fault.totem_fault_record) j : list string :=
  header b f ++
  [begin_text id (count_lines j) (dump_blocks j) (dump_persistent j) (ring_count j) (ring_seq j)] ++
  numbered id 0 (details j) ++ [end_text id (count_lines j)].

(** ** Lengths *)
Definition u8_ok (z : Z) : Prop := 0 <= z < 256.
Definition u32_ok (z : Z) : Prop := 0 <= z < 2 ^ 32.

Ltac len_bounds :=
  repeat match goal with
  | |- context [len (?a +:+ ?b)] => rewrite (len_app a b)
  end;
  repeat match goal with
  | |- context [len (fmt_08x ?z)] => rewrite (len_hex 8 z : len (fmt_08x z) = 8)
  end;
  repeat match goal with
  | |- context [len (fmt_u ?z)] =>
      let H := fresh "Hlen" in
      first [ pose proof (len_u8 z ltac:(lia)) as H | pose proof (len_u16 z ltac:(lia)) as H
            | pose proof (len_u32 z ltac:(lia)) as H ];
      generalize dependent (len (fmt_u z)); intros
  | |- context [len (fmt_d ?z)] =>
      let H := fresh "Hlen" in
      first [ pose proof (len_i8 z ltac:(lia)) as H | pose proof (len_i32 z ltac:(lia)) as H ];
      generalize dependent (len (fmt_d z)); intros
  end;
  repeat match goal with
  | |- context [len (String ?a ?s)] =>
      let v := eval vm_compute in (len (String a s)) in change (len (String a s)) with v
  end; lia.

Lemma len_event_text e source slot seq :
  event_ok e -> len source = 1 -> u8_ok slot -> u32_ok seq ->
  len (event_text e source slot seq) <= 80.
Proof.
  unfold event_ok, is_byte, u8_ok, u32_ok. intros (?&?&?&?&?&?&?) Hs ??. unfold event_text.
  len_bounds.
Qed.
Lemma len_block_text slot b :
  u8_ok slot -> u32_ok (block_journal_seq b) -> u32_ok (first_event_seq b) -> u8_ok (count b) ->
  len (block_text slot b) <= 80.
Proof. unfold u8_ok, u32_ok. intros. unfold block_text. len_bounds. Qed.
Lemma len_data_text id o d :
  u32_ok id -> u32_ok o -> len d <= 80 -> 0 < len (data_text id o d) < 120.
Proof.
  unfold u32_ok. intros. unfold data_text. split.
  - rewrite len_app. change (len "totem_diag d=") with 13.
    match goal with |- 0 < 13 + len ?x => pose proof (len_nonneg x) end. lia.
  - rewrite !len_app. pose proof (len_u32 id ltac:(lia)). pose proof (len_u32 o ltac:(lia)).
    change (len "totem_diag d=") with 13. change (len " n=") with 3. change (len " ") with 1. lia.
Qed.

(** ** The loops *)
Lemma numbered_app id o ds ds' :
  numbered id o (ds ++ ds') = numbered id o ds ++ numbered id (o + Z.of_nat (length ds)) ds'.
Proof.
  revert o. induction ds as [|d ds IH]; intros o; [by rewrite Z.add_0_r|].
  cbn [app numbered length]. rewrite IH. cbn [app]. do 3 f_equal. lia.
Qed.
Lemma length_numbered id o ds : length (numbered id o ds) = length ds.
Proof. revert o. induction ds as [|d ds IH]; intros o; cbn; [done|]. by rewrite IH. Qed.

Notation fails := (fun r : Z * Z => r.1 <> 0).
Notation out := (fun r : option Z => r = None).

Lemma dump_data_delivers id o d :
  u32_ok id -> 0 <= o -> o + 1 < 2 ^ 32 -> len d <= 80 ->
  delivers [data_text id o d] (0, o + 1) fails (dump_data id o d).
Proof.
  intros Hid Ho Ho1 Hd. pose proof (len_data_text id o d Hid ltac:(unfold u32_ok; lia) Hd) as Hl.
  unfold dump_data. destruct (Z.leb_spec 120 (len (data_text id o d))); [lia|].
  rewrite buf_id by lia. rewrite <- (app_nil_r [_]).
  eapply delivers_bind; [by apply dump_send_delivers|..].
  - cbn. rewrite u32_small by lia. apply delivers_ret.
  - intros err Herr. exists (err, o). split; [done|]. by destruct (Z.eqb_spec err 0).
Qed.

Lemma dump_event_delivers id o e source slot seq :
  u32_ok id -> 0 <= o -> o + 1 < 2 ^ 32 ->
  event_ok e -> len source = 1 -> u8_ok slot -> u32_ok seq ->
  delivers [data_text id o (event_text e source slot seq)] (0, o + 1) fails
    (dump_event id o e source slot seq).
Proof.
  intros Hid Ho Ho1 He Hs Hslot Hseq. pose proof (len_event_text e source slot seq He Hs Hslot Hseq).
  unfold dump_event. destruct (Z.leb_spec 90 (len (event_text e source slot seq))); [lia|].
  rewrite buf_id by lia. by apply dump_data_delivers.
Qed.

Lemma dump_events_delivers id source slot evs o :
  u32_ok id -> 0 <= o -> o + Z.of_nat (length evs) < 2 ^ 32 -> len source = 1 -> u8_ok slot ->
  Forall (fun x => event_ok x.1 /\ u32_ok x.2) evs ->
  delivers (numbered id o (event_details source slot evs)) (Some (o + Z.of_nat (length evs))) out
    (dump_events id source slot evs o).
Proof.
  intros Hid Ho Hlen Hs Hslot Hev. revert o Ho Hlen. induction Hev as [|[e seq] evs [He Hq] _ IH]; intros o Ho Hlen.
  { cbn. rewrite Z.add_0_r. apply delivers_ret. }
  cbn [length dump_events event_details fmap list_fmap numbered] in *.
  change (data_text id o (event_text e source slot seq) :: ?x) with
    ([data_text id o (event_text e source slot seq)] ++ x).
  eapply delivers_bind; [apply dump_event_delivers; done || lia|..].
  - cbn [fst snd Z.eqb negb]. replace (o + Z.of_nat (S (length evs))) with (o + 1 + Z.of_nat (length evs)) by lia.
    apply IH; lia.
  - intros r Hr. exists None. split; [done|]. by destruct (Z.eqb_spec r.1 0).
Qed.

(** ** The journal's data lines *)
Lemma length_event_details source slot evs : length (event_details source slot evs) = length evs.
Proof. apply length_fmap. Qed.
Lemma length_block_events b : 0 <= count b -> Z.of_nat (length (block_events b)) = count b.
Proof. intros. unfold block_events. rewrite length_fmap, length_seqZ. lia. Qed.
Lemma block_events_ok i b : block_ok i b -> Forall (fun x => event_ok x.1 /\ u32_ok x.2) (block_events b).
Proof.
  intros (_&_&_&Hc&_&_&Hl&Hev&_). unfold block_events. apply Forall_fmap, Forall_forall.
  intros n Hn%elem_of_seqZ. cbn. split; [apply Forall_aget; [done|lia]|apply u32_range].
Qed.
Lemma ring_events_ok j : wf j -> Forall (fun x => event_ok x.1 /\ u32_ok x.2) (ring_events j).
Proof.
  intros Hwf. unfold ring_events. apply Forall_forall. intros [e q] Hin.
  pose proof (elem_of_zip_l _ _ _ _ Hin) as He. pose proof (elem_of_zip_r _ _ _ _ Hin) as Hq. cbn. split.
  - rewrite ring_get_ordered_retained in He. unfold retained, window in He.
    apply list_elem_of_fmap in He as (i&->&_). destruct (wf_ring_ok j Hwf) as (Hl&?&?&Hev).
    apply Forall_aget; [done|]. rewrite Hl. apply slot_range. pose proof ring_cap_range. lia.
  - apply list_elem_of_fmap in Hq as (i&->&_). apply u32_range.
Qed.
Lemma length_ring_events j : wf j -> Z.of_nat (length (ring_events j)) = ring_count j.
Proof.
  intros Hwf. destruct (wf_ring_ok j Hwf) as (_&_&Hc&_). unfold ring_events.
  rewrite length_zip, ring_get_ordered_retained. unfold retained.
  rewrite length_window, length_fmap, length_seqZ. lia.
Qed.

Lemma dump_block_delivers id slot b o :
  u32_ok id -> 0 <= o -> o + 1 + count b < 2 ^ 32 -> u8_ok slot -> block_ok slot b ->
  delivers (numbered id o (block_details slot b)) (Some (o + 1 + count b)) out (dump_block id slot b o).
Proof.
  intros Hid Ho Hlen Hslot Hb. pose proof (block_events_ok slot b Hb) as Hev.
  destruct Hb as (_&_&_&Hc&Hj&Hf&_). pose proof block_events_range.
  pose proof (len_block_text slot b Hslot Hj Hf ltac:(unfold u8_ok; lia)).
  unfold dump_block. destruct (Z.leb_spec 90 (len (block_text slot b))); [lia|].
  rewrite buf_id by lia. cbn [block_details numbered].
  change (data_text id o (block_text slot b) :: ?x) with ([data_text id o (block_text slot b)] ++ x).
  eapply delivers_bind; [apply dump_data_delivers; done || lia|..].
  - cbn [fst snd Z.eqb negb]. rewrite <- (length_block_events b) by lia.
    apply dump_events_delivers; try done; try lia. rewrite length_block_events; lia.
  - intros r Hr. exists None. split; [done|]. by destruct (Z.eqb_spec r.1 0).
Qed.

Definition slot_of j (off : Z) : Z := (next_slot j + off) `mod` JOURNAL_SLOTS.
Lemma slot_of_range j off : 0 <= slot_of j off < JOURNAL_SLOTS.
Proof. unfold slot_of. apply Z.mod_pos_bound. pose proof journal_slots_range. lia. Qed.

(** What a slot contributes. *)
Definition slot_lines j (slot : Z) : Z :=
  if aget (restored_valid j) slot then 1 + count (aget (restored_blocks j) slot) else 0.
Definition lines_of j (slots : list Z) : Z := foldr (fun slot k => slot_lines j slot + k) 0 slots.

Lemma wf_block j slot :
  wf j -> 0 <= slot < JOURNAL_SLOTS -> aget (restored_valid j) slot = true ->
  block_ok slot (aget (restored_blocks j) slot).
Proof. intros (_&_&_&_&_&_&_&_&_&Hb). apply Hb. Qed.
Lemma slot_lines_range j slot : wf j -> 0 <= slot < JOURNAL_SLOTS -> 0 <= slot_lines j slot <= 33.
Proof.
  intros Hwf Hs. unfold slot_lines. destruct (aget (restored_valid j) slot) eqn:Hv; [|lia].
  destruct (wf_block j slot Hwf Hs Hv) as (_&_&_&Hc&_). pose proof block_events_range. lia.
Qed.
Lemma length_slot_details j slot :
  wf j -> 0 <= slot < JOURNAL_SLOTS -> Z.of_nat (length (slot_details j slot)) = slot_lines j slot.
Proof.
  intros Hwf Hs. unfold slot_details, slot_lines. destruct (aget (restored_valid j) slot) eqn:Hv; [|done].
  destruct (wf_block j slot Hwf Hs Hv) as (_&_&_&Hc&_). unfold block_details. cbn [length].
  rewrite length_event_details. pose proof (length_block_events (aget (restored_blocks j) slot)). lia.
Qed.
Lemma length_slots_details j slots :
  wf j -> Forall (fun slot => 0 <= slot < JOURNAL_SLOTS) slots ->
  Z.of_nat (length (slots ≫= slot_details j)) = lines_of j slots /\
  0 <= lines_of j slots <= 33 * Z.of_nat (length slots).
Proof.
  intros Hwf Hs. induction Hs as [|slot slots Hslot _ [IH1 IH2]]; [by cbn|].
  cbn [mbind list_bind lines_of foldr length]. rewrite length_app.
  pose proof (length_slot_details j slot Hwf Hslot). pose proof (slot_lines_range j slot Hwf Hslot).
  fold (lines_of j slots). rewrite Nat2Z.inj_add, IH1. lia.
Qed.

Lemma slots_details_cons j slot slots :
  (slot :: slots) ≫= slot_details j = slot_details j slot ++ (slots ≫= slot_details j).
Proof. done. Qed.
Lemma lines_of_cons j slot slots : lines_of j (slot :: slots) = slot_lines j slot + lines_of j slots.
Proof. done. Qed.

Lemma dump_slots_delivers id j offs o :
  u32_ok id -> wf j -> 0 <= o -> o + lines_of j (slot_of j <$> offs) < 2 ^ 32 ->
  delivers (numbered id o ((slot_of j <$> offs) ≫= slot_details j))
    (Some (o + lines_of j (slot_of j <$> offs))) out (dump_slots id j offs o).
Proof.
  intros Hid Hwf. revert o. pose proof journal_slots_range.
  induction offs as [|off offs IH]; intros o Ho Hlen.
  { cbn. rewrite Z.add_0_r. apply delivers_ret. }
  pose proof (slot_of_range j off) as Hslot. cbn [dump_slots fmap list_fmap].
  fold (slot_of j off). rewrite u8_small by lia.
  cbn [fmap list_fmap] in Hlen. rewrite lines_of_cons in Hlen.
  rewrite slots_details_cons, lines_of_cons.
  assert (0 <= lines_of j (slot_of j <$> offs)) as Hrest.
  { apply length_slots_details; [done|]. apply Forall_fmap, Forall_true. apply slot_of_range. }
  pose proof (length_slot_details j _ Hwf Hslot) as Hld.
  rewrite numbered_app, Hld. unfold slot_details at 1. unfold slot_lines in *.
  destruct (aget (restored_valid j) (slot_of j off)) eqn:Hv; cbn [negb].
  - pose proof (wf_block j _ Hwf Hslot Hv) as Hb. assert (Hb' := Hb). destruct Hb' as (_&_&_&Hc&_).
    pose proof block_events_range.
    eapply delivers_bind; [apply dump_block_delivers; unfold u8_ok; done || lia|..].
    + cbn beta iota. rewrite !Z.add_assoc. apply IH; lia.
    + intros r ->. by exists None.
  - rewrite Z.add_0_l in *. rewrite !Z.add_0_r. by apply IH.
Qed.

(** The rotation visits every slot once. *)
Lemma rotation_perm j : wf j -> rotation j ≡ₚ seqZ 0 JOURNAL_SLOTS.
Proof.
  intros (_&_&_&_&_&Hn&_). pose proof journal_slots_range as Hs. apply NoDup_Permutation.
  - apply NoDup_fmap_2_strong; [|apply NoDup_seqZ].
    assert (forall z, 0 <= z < JOURNAL_SLOTS -> (next_slot j + z) `mod` JOURNAL_SLOTS =
      if next_slot j + z <? JOURNAL_SLOTS then next_slot j + z else next_slot j + z - JOURNAL_SLOTS) as Hmod.
    { intros z Hz. destruct (Z.ltb_spec (next_slot j + z) JOURNAL_SLOTS); [apply Z.mod_small; lia|].
      symmetry. apply (Z.mod_unique _ _ 1); lia. }
    intros x y Hx%elem_of_seqZ Hy%elem_of_seqZ. rewrite !Hmod by lia.
    destruct (Z.ltb_spec (next_slot j + x) JOURNAL_SLOTS), (Z.ltb_spec (next_slot j + y) JOURNAL_SLOTS); lia.
  - apply NoDup_seqZ.
  - intros x. unfold rotation. rewrite list_elem_of_fmap, elem_of_seqZ. split.
    + intros (off&->&_). pose proof (slot_of_range j off) as Hr. unfold slot_of in Hr. lia.
    + intros Hx. exists ((x - next_slot j) `mod` JOURNAL_SLOTS). split.
      * rewrite Z.add_mod_idemp_r by lia. rewrite Z.mod_small; lia.
      * apply elem_of_seqZ. pose proof (Z.mod_pos_bound (x - next_slot j) JOURNAL_SLOTS). lia.
Qed.

(** ** The announced number of lines *)
Lemma lines_of_perm j l l' : l ≡ₚ l' -> lines_of j l = lines_of j l'.
Proof. induction 1; rewrite ?lines_of_cons; lia. Qed.

Lemma lines_of_counted j slots :
  let valid := filter (fun slot => aget (restored_valid j) slot = true) slots in
  lines_of j slots =
    Z.of_nat (length valid) + foldl (fun k slot => k + count (aget (restored_blocks j) slot)) 0 valid.
Proof.
  intros valid. assert (forall l a, foldl (fun k slot => k + count (aget (restored_blocks j) slot)) a l =
    a + foldl (fun k slot => k + count (aget (restored_blocks j) slot)) 0 l) as Hacc.
  { induction l as [|x l IH]; intros a; cbn; [lia|]. rewrite IH, (IH (0 + _)). lia. }
  unfold valid. clear valid. induction slots as [|slot slots IH]; [done|].
  rewrite lines_of_cons, IH, filter_cons. unfold slot_lines.
  destruct (aget (restored_valid j) slot) eqn:Hv.
  - rewrite decide_True by done. cbn [length foldl]. rewrite (Hacc _ (0 + _)). lia.
  - rewrite decide_False by done. lia.
Qed.

Lemma counts_agree j :
  wf j ->
  lines_of j (rotation j) = dump_blocks j + dump_persistent j /\
  count_lines j = dump_blocks j + dump_persistent j + ring_count j /\
  0 <= dump_blocks j <= 8 /\ 0 <= dump_persistent j <= 264 /\ 0 <= ring_count j <= 1024.
Proof.
  intros Hwf. pose proof journal_slots_range as Hs. pose proof ring_cap_range.
  destruct (wf_ring_ok j Hwf) as (_&_&Hrc&_).
  assert (Forall (fun slot => 0 <= slot < JOURNAL_SLOTS) (seqZ 0 JOURNAL_SLOTS)) as Hall.
  { apply Forall_forall. intros x Hx%elem_of_seqZ. lia. }
  destruct (length_slots_details j _ Hwf Hall) as [_ Hmax]. rewrite length_seqZ in Hmax.
  pose proof (lines_of_counted j (seqZ 0 JOURNAL_SLOTS)) as Hc. cbv zeta in Hc.
  fold (valid_slots j) in Hc.
  assert (length (valid_slots j) <= 8)%nat as Hv.
  { unfold valid_slots. etrans; [apply length_filter|]. rewrite length_seqZ. lia. }
  assert (forall a l, Forall (fun slot => 0 <= slot < JOURNAL_SLOTS /\ aget (restored_valid j) slot = true) l ->
    a <= foldl (fun k slot => k + count (aget (restored_blocks j) slot)) a l) as Hmono.
  { intros a l Hl. revert a. induction Hl as [|x l [Hx1 Hx2] _ IH]; intros a; cbn; [lia|].
    etrans; [|apply IH]. destruct (wf_block j x Hwf Hx1 Hx2) as (_&_&_&?&_). lia. }
  assert (Forall (fun slot => 0 <= slot < JOURNAL_SLOTS /\ aget (restored_valid j) slot = true) (valid_slots j)) as Hvs.
  { apply Forall_forall. intros x [Hx1 Hx2]%list_elem_of_filter. apply elem_of_seqZ in Hx2. split; [lia|done]. }
  specialize (Hmono 0 _ Hvs).
  unfold dump_blocks, dump_persistent. rewrite u8_small, u32_small by lia.
  split; [rewrite (lines_of_perm j _ _ (rotation_perm j Hwf)); lia|]. split; [|lia].
  unfold count_lines, details. rewrite length_app, length_event_details, Nat2Z.inj_add.
  rewrite length_ring_events by done.
  destruct (length_slots_details j (rotation j) Hwf) as [-> _].
  - apply Forall_fmap, Forall_true. apply slot_of_range.
  - rewrite (lines_of_perm j _ _ (rotation_perm j Hwf)). lia.
Qed.

(** ** The fixed lines *)
Definition boot_ok (b : Boot.boot) : Prop :=
  u32_ok (Boot.counter_count b) /\ u32_ok (Boot.raw_reset b) /\ u8_ok (Boot.raw_available b) /\
  (- 2 ^ 31 <= Boot.reset_read_result b < 2 ^ 31) /\ u8_ok (Boot.ram_survived b) /\
  u8_ok (Boot.fault_status b) /\ u8_ok (Boot.counter_status b) /\
  u32_ok (Boot.saved_previous_uptime b) /\ -128 <= Boot.saved_previous_profile b < 128 /\
  -128 <= Boot.saved_previous_endpoint b < 128.
Definition fault_ok (f : Fault.totem_fault_record) : Prop :=
  u8_ok (Fault.kind f) /\ 0 <= Fault.reason f < 2 ^ 16 /\ u32_ok (Fault.uptime_ms f).

Lemma len_pos a text rest : 0 < len (String a text +:+ rest).
Proof. rewrite len_app. pose proof (len_nonneg rest). unfold len at 1. cbn. lia. Qed.

Lemma len_boot_text b previous : boot_ok b -> 0 < len (Boot.totem_boot_diagnostics_format b previous) < 120.
Proof.
  unfold boot_ok, u8_ok, u32_ok. intros (?&?&?&?&?&?&?&?&?&?).
  split; [destruct previous; apply len_pos|]. destruct previous; unfold Boot.totem_boot_diagnostics_format.
  - len_bounds.
  - len_bounds.
Qed.
Lemma len_fault_text f : fault_ok f -> 0 < len (fault_text f) < 120.
Proof.
  unfold fault_ok, u8_ok, u32_ok. intros (?&?&?). split; [apply len_pos|]. unfold fault_text. len_bounds.
Qed.
Lemma len_begin_text id lines blocks persisted ram seq :
  u32_ok id -> 0 <= lines < 2 ^ 16 -> u8_ok blocks -> 0 <= persisted < 2 ^ 16 -> 0 <= ram < 2 ^ 16 -> u32_ok seq ->
  0 < len (begin_text id lines blocks persisted ram seq) < 120.
Proof.
  unfold u8_ok, u32_ok. intros. split; [apply len_pos|]. unfold begin_text. len_bounds.
Qed.
Lemma len_end_text id lines : u32_ok id -> 0 <= lines < 2 ^ 16 -> 0 < len (end_text id lines) < 120.
Proof. unfold u32_ok. intros. split; [apply len_pos|]. unfold end_text. len_bounds. Qed.

(** The end marker differs from every other line. *)
Lemma end_text_fresh id (b : Boot.boot) (f : Fault.totem_fault_record) j k :
  end_text id k ∉ header b f ++
    [begin_text id (count_lines j) (dump_blocks j) (dump_persistent j) (ring_count j) (ring_seq j)] ++
    numbered id 0 (details j).
Proof.
  assert (forall x y, String.get 11 x <> String.get 11 y -> x <> y) as H11 by (intros x y Hne ->; done).
  assert (forall x y, String.get 6 x <> String.get 6 y -> x <> y) as H6 by (intros x y Hne ->; done).
  rewrite !elem_of_app, list_elem_of_singleton. intros [Hh|[Hb|Hn]].
  - revert Hh. unfold header. rewrite elem_of_app, !elem_of_cons. intros [[Hh|[Hh|Hh]]|Hh].
    + revert Hh. by apply H6.
    + revert Hh. by apply H6.
    + by apply elem_of_nil in Hh.
    + destruct (Fault.kind f =? 0); [by apply elem_of_nil in Hh|].
      apply list_elem_of_singleton in Hh. revert Hh. by apply H6.
  - revert Hb. by apply H11.
  - revert Hn. generalize 0 as o. generalize (details j) as ds.
    induction ds as [|d ds IH]; intros o; cbn [numbered]; [apply not_elem_of_nil|].
    apply not_elem_of_cons. split; [by apply H11|intros Hin; by apply (IH (o + 1))].
Qed.

Lemma prefix_with_last {A} (q p : list A) x : x ∉ p -> q `prefix_of` p ++ [x] -> x ∈ q -> q = p ++ [x].
Proof.
  intros Hp [r Hr] Hq. destruct r as [|y r] using rev_ind; [by rewrite app_nil_r in Hr|].
  rewrite app_assoc in Hr. apply app_inj_tail in Hr as [-> _]. destruct Hp. apply elem_of_app. by left.
Qed.

(** ** The whole dump *)
Notation any := (fun _ : () => True).

Lemma delivers_stop {A B} l (ga : A) (gb : B) (bad : A -> Prop) (m : proc nat dump_effect A) k l' :
  delivers l ga bad m -> delivers l' gb (fun _ => True) (k ga) ->
  (forall a, bad a -> exists b, k a = ret b) ->
  delivers (l ++ l') gb (fun _ => True) (bind m k).
Proof.
  intros Hm Hk Hb. eapply delivers_bind; [done|done|]. intros a Ha. destruct (Hb a Ha) as [x Hx]. by exists x.
Qed.

(** A fixed line, then the rest or nothing. *)
Lemma delivers_line line l' (rest : proc nat dump_effect ()) :
  0 < len line < 120 -> delivers l' () any rest ->
  delivers (line :: l') () any (err <- dump_send (buf 120 line) ;; if negb (err =? 0) then ret () else rest).
Proof.
  intros Hl Hr. rewrite buf_id by lia. change (line :: l') with ([line] ++ l').
  eapply delivers_stop; [apply dump_send_delivers; lia|exact Hr|].
  intros err Herr. exists (). by destruct (Z.eqb_spec err 0).
Qed.

Lemma tail_delivers id j :
  u32_ok id -> wf j ->
  delivers ([begin_text id (count_lines j) (dump_blocks j) (dump_persistent j) (ring_count j) (ring_seq j)] ++
            numbered id 0 (details j) ++ [end_text id (count_lines j)]) () any
    (let n := ring_count j in
     let expected := u32 (dump_blocks j + dump_persistent j + n) in
     let line := begin_text id expected (dump_blocks j) (dump_persistent j) n (ring_seq j) in
     if 120 <=? len line then ret () else
     err <- dump_send (buf 120 line) ;;
     if negb (err =? 0) then ret () else
     r <- dump_slots id j (seqZ 0 JOURNAL_SLOTS) 0 ;;
     match r with
     | None => ret ()
     | Some ordinal =>
         r <- dump_events id "r" 0 (ring_events j) ordinal ;;
         match r with
         | None => ret ()
         | Some ordinal =>
             when (ordinal =? expected)
               (let line := end_text id ordinal in
                if 120 <=? len line then ret () else
                _ <- dump_send (buf 120 line) ;; ret ())
         end
     end).
Proof.
  intros Hid Hwf. destruct (counts_agree j Hwf) as (Hlines&Hcount&Hb&Hp&Hr).
  assert (u32_ok (ring_seq j)) as Hseq.
  { destruct (wf_ring_ok j Hwf) as (_&_&?&_). destruct Hwf as (_&Hs&_). unfold u32_ok. lia. }
  cbv zeta. rewrite u32_small by lia. rewrite <- Hcount.
  assert (0 < len (begin_text id (count_lines j) (dump_blocks j) (dump_persistent j)
    (ring_count j) (ring_seq j)) < 120) as Hl.
  { apply len_begin_text; try done; unfold u8_ok; lia. }
  destruct (Z.leb_spec 120 (len (begin_text id (count_lines j) (dump_blocks j) (dump_persistent j)
    (ring_count j) (ring_seq j)))); [lia|].
  apply delivers_line; [lia|]. unfold details at 1. rewrite numbered_app, <- app_assoc.
  assert (Forall (fun slot => 0 <= slot < JOURNAL_SLOTS) (rotation j)) as Hrot.
  { apply Forall_fmap, Forall_true. apply slot_of_range. }
  destruct (length_slots_details j (rotation j) Hwf Hrot) as [-> _].
  pose proof (length_ring_events j Hwf) as Hring. rewrite <- Hlines in Hcount.
  eapply delivers_stop.
  { apply dump_slots_delivers; [done|done|lia|].
    change (slot_of j <$> seqZ 0 JOURNAL_SLOTS) with (rotation j). lia. }
  2:{ intros r ->. by exists (). }
  change (slot_of j <$> seqZ 0 JOURNAL_SLOTS) with (rotation j).
  rewrite Z.add_0_l. cbn beta iota. eapply delivers_stop.
  { apply dump_events_delivers; [done|lia|lia|done|unfold u8_ok; lia|by apply ring_events_ok]. }
  2:{ intros r ->. by exists (). }
  cbn beta iota. rewrite Hring, <- Hcount, Z.eqb_refl.
  assert (0 < len (end_text id (count_lines j)) < 120) as Hle by (apply len_end_text; [done|lia]).
  cbn [when].
  destruct (Z.leb_spec 120 (len (end_text id (count_lines j)))); [lia|].
  rewrite buf_id by lia. rewrite <- (app_nil_r [_]).
  eapply delivers_stop; [apply dump_send_delivers; lia|apply delivers_ret|].
  intros err _. by exists ().
Qed.

Lemma dump_delivers b f j id n t :
  wf j -> boot_ok b -> fault_ok f -> id = u32 (uptime t) ->
  wp (totem_host_event_log_dump b f j) (fun _ _ _ es =>
    accepted es `prefix_of` full_dump id b f j /\
    (attempts es <= 40 * length (full_dump id b f j))%nat /\
    (reliable -> accepted es = full_dump id b f j)) n t.
Proof.
  intros Hwf Hb Hf Hid. unfold totem_host_event_log_dump. apply wp_bind. unfold k_uptime_get_32.
  unfold wp at 1. cbn [val fin clk eff]. rewrite <- Hid. assert (u32_ok id) as Hid' by (rewrite Hid; apply u32_range).
  pose proof (tail_delivers id j Hid' Hwf) as Htail. cbv zeta in Htail |- *.
  eapply wp_mono; [|intros a n1 t1 es Hes; exact Hes].
  match goal with |- wp ?m _ _ _ =>
    assert (delivers (full_dump id b f j) () any m) as Hd end.
  { unfold full_dump, header. rewrite <- !app_assoc. cbn [app].
    apply delivers_line; [by apply len_boot_text|]. apply delivers_line; [by apply len_boot_text|].
    change (Fault.fault_kind Fault.TOTEM_FAULT_NONE) with 0.
    destruct (Z.eqb_spec (Fault.kind f) 0); cbn [negb app].
    - intros n' t'. specialize (Htail n' t'). unfold wp in *. cbn. exact Htail.
    - apply delivers_line; [by apply len_fault_text|]. exact Htail. }
  eapply wp_mono; [apply Hd|]. intros a n1 t1 es (Hp&Hn&_&Hr). split_and!; [exact Hp|exact Hn|]. intros Hrel. by apply Hr.
Qed.

(** ** Reading a data line back *)
(** The dump id, the ordinal, the source, the slot, the sequence number and the event. *)
Definition read_event_line (s : string) : option (Z * Z * Ascii.ascii * Z * Z * event) :=
  match words s with
  | [head; d; n; kind; src; q; tm; k; i; a; r; w; x] =>
      if String.eqb head "totem_diag" && String.eqb kind "e" then
        d ← field "d"%char d ≫= read_u; n ← field "n"%char n ≫= read_u;
        src ← field "s"%char src;
        q ← field "q"%char q ≫= read_u; tm ← field "t"%char tm ≫= read_u; k ← field "k"%char k ≫= read_u;
        i ← field "i"%char i ≫= read_d; a ← field "a"%char a ≫= read_d; r ← field "r"%char r ≫= read_u;
        w ← field "w"%char w ≫= read_u; x ← field "x"%char x ≫= read_u;
        match src with
        | String c slot =>
            slot ← read_u slot;
            Some (d, n, c, slot, q, Event tm k i a r w x)
        | "" => None
        end
      else None
  | _ => None
  end.

Ltac split_words :=
  repeat first
  [ rewrite words_fmt_u by lia | rewrite words_fmt_d
  | rewrite cons_app | rewrite nil_app | rewrite words_cons; cbn -[words fmt_u fmt_d] ].
Lemma read_event_line_text id o e c slot seq :
  u32_ok id -> u32_ok o -> event_ok e -> u8_ok slot -> u32_ok seq -> no_space c = true ->
  read_event_line (data_text id o (event_text e (String c "") slot seq)) = Some (id, o, c, slot, seq, e).
Proof.
  unfold u32_ok, u8_ok, event_ok, is_byte. intros ?? (?&?&?&?&?&?&?) ?? Hc.
  unfold read_event_line, data_text, event_text.
  split_words. rewrite words_u by lia. unfold no_space in Hc. destruct (Ascii.eqb c _); [done|].
  cbn -[words fmt_u fmt_d read_u read_d String.append]. rewrite !cons_app, !nil_app, !str_app_nil.
  cbn -[fmt_u fmt_d read_u read_d]. rewrite !read_fmt_u, !read_fmt_d by lia.
  cbn -[fmt_u fmt_d read_u read_d]. by destruct e.
Qed.

(** What a reader of a whole dump recovers: source, slot, sequence number and event. *)
Definition slot_events j (slot : Z) : list (ascii * Z * Z * event) :=
  if aget (restored_valid j) slot
  then (fun '(e, seq) => ("p"%char, slot, seq, e)) <$> block_events (aget (restored_blocks j) slot)
  else [].
Definition journal_events j : list (ascii * Z * Z * event) :=
  (rotation j ≫= slot_events j) ++ ((fun '(e, seq) => ("r"%char, 0, seq, e)) <$> ring_events j).
Definition read_events (lines : list string) : list (ascii * Z * Z * event) :=
  (fun '(_, _, c, slot, seq, e) => (c, slot, seq, e)) <$> omap read_event_line lines.

Lemma read_events_app l l' : read_events (l ++ l') = read_events l ++ read_events l'.
Proof. unfold read_events. by rewrite omap_app, fmap_app. Qed.
Lemma read_events_cons_none x l : read_event_line x = None -> read_events (x :: l) = read_events l.
Proof. intros Hx. unfold read_events. cbn [omap list_omap]. by rewrite Hx. Qed.

(** Lines of another kind are not read as events. *)
Lemma read_event_line_head x h ws : words x = h :: ws -> h <> "totem_diag" -> read_event_line x = None.
Proof.
  intros Hw Hh. unfold read_event_line. rewrite Hw. do 11 (destruct ws as [|? ws]; [done|]).
  destruct ws as [|? ws]; [done|]. destruct ws; [|done]. by apply String.eqb_neq in Hh as ->.
Qed.
Lemma read_block_line id o slot b :
  u32_ok id -> u32_ok o -> u8_ok slot -> u32_ok (block_journal_seq b) -> u32_ok (first_event_seq b) ->
  u8_ok (count b) -> read_event_line (data_text id o (block_text slot b)) = None.
Proof.
  unfold u32_ok, u8_ok. intros. unfold read_event_line, data_text, block_text.
  split_words. by rewrite words_u by lia.
Qed.
Lemma read_begin_line id lines blocks persisted ram seq :
  u32_ok id -> 0 <= lines -> 0 <= blocks -> 0 <= persisted -> 0 <= ram -> 0 <= seq ->
  read_event_line (begin_text id lines blocks persisted ram seq) = None.
Proof.
  unfold u32_ok. intros. unfold read_event_line, begin_text. split_words. by rewrite words_u by lia.
Qed.
Lemma read_end_line id lines : u32_ok id -> 0 <= lines -> read_event_line (end_text id lines) = None.
Proof. unfold u32_ok. intros. unfold read_event_line, end_text. split_words. done. Qed.

Ltac not_an_event h := eapply (read_event_line_head _ h); [|discriminate]; 
  repeat first [rewrite cons_app | rewrite words_cons; cbn -[words fmt_u fmt_d fmt_08x String.append]]; reflexivity.
Lemma read_header b f : read_events (header b f) = [].
Proof.
  unfold header. rewrite read_events_app, !read_events_cons_none.
  - destruct (Fault.kind f =? 0); [done|]. rewrite read_events_cons_none; [done|].
    unfold fault_text. not_an_event "totem_fault".
  - unfold Boot.totem_boot_diagnostics_format. not_an_event "totem_boot".
  - unfold Boot.totem_boot_diagnostics_format. not_an_event "totem_boot".
Qed.

Lemma read_numbered_events id o source slot evs c :
  u32_ok id -> 0 <= o -> o + Z.of_nat (length evs) <= 2 ^ 32 -> u8_ok slot ->
  source = String c "" -> no_space c = true -> Forall (fun x => event_ok x.1 /\ u32_ok x.2) evs ->
  read_events (numbered id o (event_details source slot evs)) =
  (fun '(e, seq) => (c, slot, seq, e)) <$> evs.
Proof.
  intros Hid Ho Hlen Hslot -> Hc Hev. revert o Ho Hlen.
  induction Hev as [|[e seq] evs [He Hq] _ IH]; intros o Ho Hlen; [done|].
  cbn [length event_details fmap list_fmap numbered] in *. unfold read_events in *. cbn [omap list_omap].
  rewrite read_event_line_text; try done; [|unfold u32_ok; lia].
  cbn [fmap list_fmap]. f_equal. apply IH; lia.
Qed.
Lemma read_numbered_slots id o j slots :
  u32_ok id -> wf j -> 0 <= o -> o + lines_of j slots <= 2 ^ 32 ->
  Forall (fun slot => 0 <= slot < JOURNAL_SLOTS) slots ->
  read_events (numbered id o (slots ≫= slot_details j)) = slots ≫= slot_events j.
Proof.
  intros Hid Hwf Ho Hlen Hs. revert o Ho Hlen. pose proof journal_slots_range.
  induction Hs as [|slot slots Hslot Hs IH]; intros o Ho Hlen; [done|].
  rewrite slots_details_cons, numbered_app, read_events_app, (length_slot_details j slot) by done.
  rewrite lines_of_cons in Hlen. destruct (length_slots_details j slots Hwf Hs) as [_ Hrest].
  pose proof (slot_lines_range j slot Hwf Hslot).
  cbn [mbind list_bind]. f_equal; [|apply IH; lia].
  unfold slot_details, slot_events, slot_lines in *. destruct (aget (restored_valid j) slot) eqn:Hv; [|done].
  pose proof (wf_block j slot Hwf Hslot Hv) as Hb. pose proof (block_events_ok slot _ Hb) as Hev.
  destruct Hb as (_&_&_&Hc&Hj&Hf&_). pose proof block_events_range.
  cbn [block_details numbered].
  rewrite read_events_cons_none by (apply read_block_line; unfold u8_ok, u32_ok; done || lia).
  apply read_numbered_events; try done; unfold u8_ok; rewrite ?length_block_events; lia.
Qed.

(** ** The properties *)
(** C20 What the console accepts of a dump is always an initial part of one fixed text (the boot
    lines, the fault, the announced counts, every retained event in order with consecutive
    ordinals, the end marker), after no more attempts in total than forty for each line of that
    text; the end marker is accepted only when the whole text was. *)
Theorem dump_is_prefix_of_journal b f j id n t :
  wf j -> boot_ok b -> fault_ok f -> id = u32 (uptime t) ->
  wp (totem_host_event_log_dump b f j) (fun _ _ _ es =>
    accepted es `prefix_of` full_dump id b f j /\
    (attempts es <= 40 * length (full_dump id b f j))%nat /\
    (end_text id (count_lines j) ∈ accepted es -> accepted es = full_dump id b f j)) n t.
Proof.
  intros Hwf Hb Hf Hid. eapply wp_mono; [by apply dump_delivers|].
  intros _ n1 t1 es (Hp&Hn&_). split_and!; [done..|]. unfold full_dump. rewrite !app_assoc.
  apply prefix_with_last; [|by rewrite <- !app_assoc]. rewrite <- !app_assoc. apply end_text_fresh.
Qed.

(** If the console accepts every line before its fortieth attempt, the dump is complete
    whatever else the transport does: every line up to the end marker is accepted, once and in
    order. *)
Theorem dump_completes b f j id n t :
  wf j -> boot_ok b -> fault_ok f -> id = u32 (uptime t) -> reliable ->
  wp (totem_host_event_log_dump b f j) (fun _ _ _ es => accepted es = full_dump id b f j) n t.
Proof.
  intros Hwf Hb Hf Hid Hrel. eapply wp_mono; [by apply dump_delivers|].
  intros _ n1 t1 es (_&_&Hr). by apply Hr.
Qed.

(** The events of a complete dump. *)
Lemma read_full_dump b f j id :
  wf j -> u32_ok id -> read_events (full_dump id b f j) = journal_events j.
Proof.
  intros Hwf Hid'.
  destruct (counts_agree j Hwf) as (Hlines&Hcount&Hbl&Hpe&Hr).
  assert (Forall (fun slot => 0 <= slot < JOURNAL_SLOTS) (rotation j)) as Hrot.
  { apply Forall_fmap, Forall_true. apply slot_of_range. }
  pose proof (length_ring_events j Hwf) as Hring. pose proof (wf_seqs j Hwf) as Hseqs.
  unfold full_dump. rewrite read_events_app, read_header, read_events_app.
  rewrite (read_events_cons_none (begin_text _ _ _ _ _ _)) by (apply read_begin_line; done || lia).
  rewrite read_events_app, (read_events_cons_none (end_text _ _)) by (apply read_end_line; done || lia).
  unfold details, journal_events. rewrite numbered_app, read_events_app.
  destruct (length_slots_details j (rotation j) Hwf Hrot) as [-> _].
  rewrite read_numbered_slots, (read_numbered_events _ _ _ _ _ "r"%char) by
    (done || (unfold u8_ok; lia) || (by apply ring_events_ok)).
  by rewrite !app_nil_r.
Qed.

(** C5 Round trip: a reader that splits the lines of a dump that ended with the end marker into
    words and parses the decimal fields recovers exactly the retained events of the journal, each with
    its source (flash block or RAM), slot and sequence number, flash blocks oldest first. *)
Theorem dump_reads_back b f j id n t :
  wf j -> boot_ok b -> fault_ok f -> id = u32 (uptime t) ->
  wp (totem_host_event_log_dump b f j) (fun _ _ _ es =>
    end_text id (count_lines j) ∈ accepted es -> read_events (accepted es) = journal_events j) n t.
Proof.
  intros Hwf Hb Hf Hid. eapply wp_mono; [by apply dump_delivers|].
  intros _ n1 t1 es (Hp&_) Hend. assert (u32_ok id) as Hid' by (rewrite Hid; apply u32_range).
  assert (accepted es = full_dump id b f j) as ->.
  { revert Hp Hend. unfold full_dump. rewrite !app_assoc.
    apply prefix_with_last. rewrite <- !app_assoc. apply end_text_fresh. }
  by apply read_full_dump.
Qed.
End facts.

(** A console whose USB interface is busy at every other attempt, and a journal with three events. *)
#[local] Instance busy_console : StudioTransport :=
  {| selected_transport _ := ZMK_TRANSPORT_USB; zmk_usb_is_hid_ready := Nat.odd;
     zmk_studio_log_send_line _ _ := 0 |}.
#[local] Instance dump_clock : Clock := ticking 100 100.
#[local] Instance dump_crc : Crc32 := ieee_crc.

Lemma busy_console_reliable : reliable.
Proof.
  intros line n Hl. unfold answer, usb_hid_ready. cbn [selected_transport zmk_usb_is_hid_ready zmk_studio_log_send_line busy_console].
  rewrite ?bool_decide_false by tauto.
  destruct (Z.eqb_spec (len line) 0); [lia|]. destruct (Nat.odd n) eqn:Hn.
  - exists 0%nat. rewrite Nat.add_0_r, Hn. split_and!; [lia|lia|done].
  - exists 1%nat. split_and!; [lia| |].
    + intros k Hk. replace (n + k)%nat with n by lia. by rewrite Hn.
    + rewrite Nat.add_1_r, Nat.odd_succ, <- Nat.negb_odd, Hn. done.
Qed.

Definition dumped_journal : journal :=
  fin (for_each [call_record TOTEM_HEVT_CONN 1 1 0 0 0; call_timing 70 TOTEM_HEVT_FLASH_BEGIN (-1) 0 1 0 0;
                 call_record TOTEM_HEVT_DISC 1 1 0x13 2 0] run_call journal_init 0%nat).
Lemma dumped_journal_wf : wf dumped_journal.
Proof.
  refine (proj1 (run_calls_spec _ journal_init 0 init_wf _ _)); [split; vm_compute; discriminate|vm_compute; reflexivity].
Qed.
Definition dumped_boot : Boot.boot := Boot.boot_init 0 0.
Definition dumped_fault : Fault.totem_fault_record :=
  Fault.FaultRecord 0 0 1 0 4 0x2000 0x3000 5000 0x20001000 [].
Lemma dumped_boot_ok : boot_ok dumped_boot.
Proof. unfold boot_ok, u8_ok, u32_ok. cbn. lia. Qed.
Lemma dumped_fault_ok : fault_ok dumped_fault.
Proof. unfold fault_ok, u8_ok, u32_ok. cbn. lia. Qed.

Definition dump_run : list dump_effect :=
  eff (totem_host_event_log_dump dumped_boot dumped_fault dumped_journal 0%nat 0%nat).

Lemma dump_is_prefix_of_journal_witness :
  length (accepted dump_run) = 8%nat /\ attempts dump_run = 16%nat /\
  wp (totem_host_event_log_dump dumped_boot dumped_fault dumped_journal) (fun _ _ _ es =>
    accepted es `prefix_of` full_dump 100 dumped_boot dumped_fault dumped_journal /\
    (attempts es <= 40 * length (full_dump 100 dumped_boot dumped_fault dumped_journal))%nat /\
    (end_text 100 (count_lines dumped_journal) ∈ accepted es ->
     accepted es = full_dump 100 dumped_boot dumped_fault dumped_journal)) 0%nat 0%nat.
Proof.
  split; [vm_compute; reflexivity|]. split; [vm_compute; reflexivity|].
  exact (dump_is_prefix_of_journal dumped_boot dumped_fault dumped_journal 100 0 0
    dumped_journal_wf dumped_boot_ok dumped_fault_ok eq_refl).
Defined.

Lemma dump_completes_witness :
  wp (totem_host_event_log_dump dumped_boot dumped_fault dumped_journal) (fun _ _ _ es =>
    accepted es = full_dump 100 dumped_boot dumped_fault dumped_journal) 0%nat 0%nat.
Proof.
  exact (dump_completes dumped_boot dumped_fault dumped_journal 100 0 0
    dumped_journal_wf dumped_boot_ok dumped_fault_ok eq_refl busy_console_reliable).
Defined.

Lemma dump_reads_back_witness :
  (journal_events dumped_journal).*2 = ring_get_ordered dumped_journal /\
  length (journal_events dumped_journal) = 3%nat /\
  wp (totem_host_event_log_dump dumped_boot dumped_fault dumped_journal) (fun _ _ _ es =>
    end_text 100 (count_lines dumped_journal) ∈ accepted es ->
    read_events (accepted es) = journal_events dumped_journal) 0%nat 0%nat.
Proof.
  split; [vm_compute; reflexivity|]. split; [vm_compute; reflexivity|].
  exact (dump_reads_back dumped_boot dumped_fault dumped_journal 100 0 0
    dumped_journal_wf dumped_boot_ok dumped_fault_ok eq_refl).
Defined.
End DumpProps.
