(* ===== verification/Chronicle.v ===== *)
(** * The journal over many boots

    Events are numbered across power cycles: what was persisted keeps its number, what was
    not is forgotten, and the next boot numbers its events after the persisted ones.
    [Chronicle] defines that numbered history of any sequence of flights - a boot, a trace of
    records and writer runs, and a power cut at any point of it - and shows that the blocks
    in flash always hold segments of it in order, so that every line of every dump is true. *)
From stdpp Require Import gmap.
From Stdlib Require Import Ascii.
From S2P Require Import Prelude Events Platform Samples RingBuffer Text BootDiagnostics Fault.
From S2P Require Import HostEventLog HostEventSpec HostEventRestore HostEventProps HostEventDump HostEventDumpProps.
Local Open Scope Z_scope.

Module Chronicle.
Import Journal JournalSpec JournalRestore JournalTrace.

#[local] Notation flash := (gmap string (list Z)).

Lemma bind_nil_elem {A B} (g : A -> list B) (l : list A) : (forall x, x ∈ l -> g x = []) -> l ≫= g = [].
Proof.
  intros Hg. induction l as [|x l IH]; [done|]. cbn. rewrite Hg by set_solver. apply IH. set_solver.
Qed.

(** ** The blocks of the store, oldest first *)
Section blocks.
Context `{!Config}.
Implicit Types (s : journal) (L : list event).

Definition slot_blocks s (i : Z) : list block :=
  if aget (restored_valid s) i then [aget (restored_blocks s) i] else [].
Definition blocks_of s : list block := DumpProps.rotation s ≫= slot_blocks s.

(** The events of a block sit in the history where their sequence numbers say. *)
Definition holds L (b : block) : Prop :=
  1 <= first_event_seq b /\ 1 <= count b /\ block_events b = seg (Z.to_nat (first_event_seq b - 1))
    (Z.to_nat (first_event_seq b + count b - 1)) L.
Definition before (b b' : block) : Prop := first_event_seq b + count b <= first_event_seq b'.

(** The store tells history [L]: its blocks do, they are ordered, and they end at the
    persisted mark at the latest. *)
Record told L s : Prop := {
  told_holds : Forall (holds L) (blocks_of s);
  told_sorted : StronglySorted before (blocks_of s);
  told_last : Forall (fun b => first_event_seq b + count b - 1 <= persisted_event_seq s) (blocks_of s);
}.

(** The next slot comes first in the rotation, and last after a write. *)
Lemma rotation_next s s' :
  0 <= next_slot s < JOURNAL_SLOTS -> next_slot s' = (next_slot s + 1) `mod` JOURNAL_SLOTS ->
  exists rest, DumpProps.rotation s = next_slot s :: rest /\ DumpProps.rotation s' = rest ++ [next_slot s] /\
    Forall (fun i => 0 <= i < JOURNAL_SLOTS /\ i <> next_slot s) rest.
Proof.
  intros Hn Hn'. pose proof journal_slots_range.
  exists ((fun off => (next_slot s + off) `mod` JOURNAL_SLOTS) <$> seqZ 1 (JOURNAL_SLOTS - 1)).
  unfold DumpProps.rotation. rewrite Hn'. split_and!.
  - rewrite seqZ_cons by lia. cbn. rewrite Z.add_0_r, Z.mod_small by lia.
    by replace (Z.pred JOURNAL_SLOTS) with (JOURNAL_SLOTS - 1) by lia.
  - transitivity ((fun off => ((next_slot s + 1) `mod` JOURNAL_SLOTS + off) `mod` JOURNAL_SLOTS) <$>
      (seqZ 0 (JOURNAL_SLOTS - 1) ++ [JOURNAL_SLOTS - 1])).
    { f_equal. replace JOURNAL_SLOTS with (JOURNAL_SLOTS - 1 + 1) at 1 by lia. by rewrite seqZ_app by lia. }
    rewrite fmap_app. cbn [fmap list_fmap]. f_equal.
    + rewrite <- (fmap_add_seqZ 1 0), <- list_fmap_compose. apply list_fmap_ext. intros _ off _. cbn.
      rewrite Zplus_mod_idemp_l. f_equal. lia.
    + do 2 f_equal. rewrite Zplus_mod_idemp_l.
      replace (next_slot s + 1 + (JOURNAL_SLOTS - 1)) with (next_slot s + 1 * JOURNAL_SLOTS) by lia.
      rewrite Z_mod_plus_full. by apply Z.mod_small.
  - apply Forall_fmap, Forall_forall. intros off Hoff%elem_of_seqZ. cbn. split.
    { apply Z.mod_pos_bound. lia. }
    intros Hm. pose proof (Z.div_mod (next_slot s + off) JOURNAL_SLOTS) as Hd.
    rewrite Hm in Hd. specialize (Hd ltac:(lia)). clear Hm Hn'.
    set (q := _ `div` _) in Hd. assert (q <= 0 \/ 1 <= q) as [?|?] by lia; nia.
Qed.

Lemma blocks_of_ext s s' :
  next_slot s' = next_slot s -> (forall i, valid_at s' i <-> valid_at s i) ->
  (forall i, valid_at s i -> block_at s' i = block_at s i) -> blocks_of s' = blocks_of s.
Proof.
  intros Hn Hv Hb. unfold blocks_of, DumpProps.rotation. rewrite Hn. apply list_bind_ext_elem.
  intros slot (off&->&_)%list_elem_of_fmap. pose proof (DumpProps.slot_of_range s off) as Hslot.
  unfold DumpProps.slot_of in Hslot. set (i := _ `mod` _) in *. unfold slot_blocks.
  specialize (Hv i). specialize (Hb i). unfold valid_at, block_at in *.
  destruct (aget (restored_valid s) i), (aget (restored_valid s') i); naive_solver congruence.
Qed.

(** More history does not change what is told. *)
Lemma told_ext L k s s' :
  blocks_of s' = blocks_of s -> persisted_event_seq s <= persisted_event_seq s' ->
  persisted_event_seq s <= Z.of_nat (length L) ->
  told L s -> told (L ++ k) s'.
Proof.
  intros Hb Hp Hl [Hh Hs Hla]. split; rewrite Hb; [|done|].
  - rewrite Forall_forall in Hla, Hh |- *. intros b Hin. destruct (Hh b Hin) as (H1&H2&H3).
    split_and!; [done..|]. rewrite H3, seg_app_l; [done|]. specialize (Hla b Hin). cbn in Hla. lia.
  - eapply Forall_impl; [exact Hla|]. cbn. lia.
Qed.

(** Forgetting what comes after the persisted mark changes nothing either. *)
Lemma told_take L s : 0 <= persisted_event_seq s -> told L s -> told (take (Z.to_nat (persisted_event_seq s)) L) s.
Proof.
  intros Hp [Hh Hs Hla]. split; try done. rewrite Forall_forall in Hla, Hh |- *.
  intros b Hin. destruct (Hh b Hin) as (H1&H2&H3). split_and!; [done..|]. rewrite H3.
  specialize (Hla b Hin). cbn in Hla. unfold seg. rewrite !take_drop_commute, take_take.
  do 2 f_equal. lia.
Qed.
End blocks.

(** ** One step *)
Section steps.
Context `{!Config} `{!Clock} `{!Crc32}.
Implicit Types (s : journal) (t : nat) (L hist evs : list event) (f : flash).

(** What a step does to the store: nothing, or it appends the next block. *)
Definition store_kept s s' : Prop :=
  persisted_event_seq s' = persisted_event_seq s /\ next_slot s' = next_slot s /\
  restored_blocks s' = restored_blocks s /\ restored_valid s' = restored_valid s.
Definition store_step s s' : Prop := store_kept s s' \/ (pending s /\ stored 0 s s').

(** The blocks a list of effects stores. *)
Definition block_of_write (save : string -> list Z -> Z) (x : effect) : option block :=
  match x with
  | settings_write k v => if save k v =? 0 then Some (block_of_bytes v) else None
  | _ => None
  end.
Definition blocks_written (save : string -> list Z -> Z) (es : list effect) : list block := omap (block_of_write save) es.

Lemma arms_only_no_block save es : arms_only es -> blocks_written save es = [].
Proof. unfold arms_only. intros Hes. induction Hes as [|x es (w&_&[->| ->]) Hes IH]; [done|exact IH..]. Qed.
Lemma rearmed_no_block save s t es : rearmed s t es -> blocks_written save es = [].
Proof. unfold rearmed. case_match; [|by intros ->]. by intros (w&n&->&_). Qed.

(** A step leaves the store alone and writes no block, or writes the next block and stores it. *)
Lemma exec_outcome save o base hist s t f :
  Inv base hist s t f -> ring_seq s + Z.of_nat (length (calls o)) + 1 < 2 ^ 32 ->
  wp (exec save o) (fun _ s' _ es =>
    store_kept s s' /\ blocks_written save es = [] \/
    existsb is_write es = true /\ pending s /\ stored 0 s s' /\ blocks_written save es = [next_block s]) s t.
Proof.
  intros [Hwf Hck Hr Hb Hq Hret Hst Hf] Hlt. destruct o as [c|during]; cbn [exec calls length] in *.
  { wp_use run_call_spec; [done..|lia|]. intros [] s' t' es (_&Hss&_&Hes&_). left.
    split; [by split_and!; apply Hss|by apply arms_only_no_block]. }
  assert (due s t \/ ~ due s t) as [Hdue|Hdue] by (unfold due; lia).
  2: { wp_use persist_too_soon; [done..|]. intros [] s' t' es (->&_&x&->&Hx). left.
       split; [done|]. by eapply arms_only_no_block, arms_writer_only. }
  assert (pending s \/ ~ pending s) as [Hp|Hp] by (unfold pending; lia).
  2: { wp_use persist_idle; [done..|lia|]. intros [] s' t' es (->&_&->). by left. }
  wp_use persist_writes; [done..|]. cbv zeta. intros [] s' t' es (_&Hs&_&_&_&(es1&es2&->&Hes1&Hes2)&_).
  pose proof (next_block_ok s Hwf Hp) as Hok. pose proof (wf_seqs s Hwf). rewrite existsb_app.
  unfold blocks_written. rewrite !omap_app. fold (blocks_written save es1) (blocks_written save es2).
  rewrite (arms_only_no_block save es1 Hes1), (rearmed_no_block save _ _ _ Hes2). cbn. rewrite orb_true_r.
  fold (write_result save s). unfold stored in *. destruct (write_result save s =? 0).
  - right. rewrite (block_of_bytes_bytes _ _ Hok) by lia. done.
  - left. split; [|done]. by split_and!; apply Hs.
Qed.
(** Only a step that writes changes the store. *)
Lemma exec_writes save o base hist s t f :
  Inv base hist s t f -> ring_seq s + Z.of_nat (length (calls o)) + 1 < 2 ^ 32 ->
  wp (exec save o) (fun _ s' _ es => if existsb is_write es then store_step s s' else store_kept s s') s t.
Proof.
  intros Hinv Hlt. eapply wp_mono; [by eapply exec_outcome|]. intros [] s' t' es. cbv beta. unfold store_step.
  intros [[Hk _]|(->&Hp&Hs&_)]; [|by right]. by destruct (existsb _ _); [left|].
Qed.
Lemma exec_store save o base hist s t f :
  Inv base hist s t f -> ring_seq s + Z.of_nat (length (calls o)) + 1 < 2 ^ 32 ->
  wp (exec save o) (fun _ s' _ _ => store_step s s') s t.
Proof.
  intros. eapply wp_mono; [by eapply exec_writes|]. intros [] s' t' es. cbv beta.
  destruct (existsb _ _); [done|]. by left.
Qed.

(** A write appends the next block to the store and takes the oldest one's place. *)
Lemma blocks_of_stored s s' :
  wf s -> stored 0 s s' ->
  exists old, blocks_of s' = old ++ [next_block s] /\ old `suffix_of` blocks_of s.
Proof.
  intros Hwf (_&_&Hs). cbn in Hs. destruct Hs as (Hp'&Hn'&Hb'&Hv'). pose proof (wf_seqs s Hwf).
  destruct (rotation_next s s') as (rest&Hr&Hr'&Hrest); [lia|done|].
  exists (rest ≫= slot_blocks s). unfold blocks_of. rewrite Hr, Hr', bind_app. split.
  - f_equal.
    + apply list_bind_ext_elem. intros i Hi. rewrite Forall_forall in Hrest.
      destruct (Hrest i Hi) as [??]. unfold slot_blocks. by rewrite Hb', Hv', !aget_aset_ne by lia.
    + cbn. rewrite app_nil_r. unfold slot_blocks.
      rewrite Hb', Hv', !aget_aset_eq; [done|..].
      * assert (alen (restored_blocks s) = JOURNAL_SLOTS) as -> by apply Hwf. lia.
      * assert (alen (restored_valid s) = JOURNAL_SLOTS) as -> by apply Hwf. lia.
  - cbn. by exists (slot_blocks s (next_slot s)).
Qed.

(** [old] is the history before this boot. *)
Lemma told_step old hist evs s s' t f :
  Inv (Z.of_nat (length old)) hist s t f -> told (old ++ hist) s -> store_step s s' ->
  told (old ++ hist ++ evs) s'.
Proof.
  intros Hinv Htold Hs. pose proof Hinv as [Hwf _ Hr Hb Hq _ _ _].
  assert (persisted_event_seq s <= ring_seq s) as Hle by (by apply Hwf).
  assert (persisted_event_seq s <= Z.of_nat (length (old ++ hist))) as Hl by (rewrite length_app; lia).
  rewrite app_assoc. destruct Hs as [(Hp&Hn&Hbl&Hv)|[Hpend Hs]].
  { apply (told_ext _ _ s); [|lia|done|done]. unfold blocks_of, DumpProps.rotation, slot_blocks.
    by rewrite Hn, Hbl, Hv. }
  destruct (blocks_of_stored s s' Hwf Hs) as (kept&Heq&front&Hkept).
  pose proof (batch_size_range s Hwf Hpend) as Hsz. pose proof (alen_batch s Hwf Hpend) as Hlb.
  destruct (inv_batch _ _ _ _ _ Hinv Hpend) as (Hbatch&Hfl&Hlast&_). cbv zeta in *.
  destruct Hs as (_&_&Hp'&_). destruct (told_ext (old ++ hist) evs s s eq_refl) as [Hh Hso Hla]; [lia|done..|].
  rewrite Hkept in Hh, Hso, Hla. apply Forall_app in Hh as [_ Hh]. apply Forall_app in Hla as [_ Hla].
  apply StronglySorted_app_1_r in Hso.
  assert (persisted_event_seq s < first_pending s) by (unfold first_pending; lia).
  split; rewrite Heq.
  - apply Forall_app. split; [done|]. apply Forall_singleton. unfold holds. cbn.
    split_and!; [lia..|]. unfold block_events. cbn. rewrite take_app_length' by (unfold alen in *; lia).
    rewrite seg_app_l by (rewrite length_app; lia). rewrite Hbatch. unfold seg. rewrite drop_app_ge by lia.
    f_equal; [lia|]. f_equal. lia.
  - apply StronglySorted_app. split_and!; [|done|by repeat constructor].
    intros b b' Hin ->%list_elem_of_singleton. rewrite Forall_forall in Hla. specialize (Hla b Hin).
    unfold before. cbn in *. lia.
  - apply Forall_app. split.
    + eapply Forall_impl; [exact Hla|]. cbn. intros. lia.
    + apply Forall_singleton. cbn. lia.
Qed.

Lemma length_trace_calls save ops s t : Z.of_nat (length (trace_calls save ops s t)) <= total_calls ops.
Proof.
  unfold total_calls. revert s t. induction ops as [|o ops IH]; intros s t; [done|]. cbn.
  rewrite !length_app. pose proof (length_ran o (eff (exec save o s t))).
  specialize (IH (fin (exec save o s t)) (clk (exec save o s t))). cbn in *. lia.
Qed.

Lemma trace_told save ops old hist s t f :
  Inv (Z.of_nat (length old)) hist s t f -> told (old ++ hist) s ->
  ring_seq s + total_calls ops + 1 < 2 ^ 32 -> journal_seq s + Z.of_nat (length ops) < 2 ^ 32 ->
  let r := for_each ops (exec save) s t in
  exists evs, recorded (trace_calls save ops s t) evs /\
    Inv (Z.of_nat (length old)) (hist ++ evs) (fin r) (clk r) (commit_all save f (eff r)) /\
    told (old ++ hist ++ evs) (fin r) /\ journal_seq (fin r) <= journal_seq s + Z.of_nat (length ops).
Proof.
  revert hist s t f. induction ops as [|o ops IH]; intros hist s t f Hinv Htold Hlt Hjlt.
  { exists []. cbn. rewrite !app_nil_r. split_and!; try done; [constructor|lia]. }
  assert (total_calls (o :: ops) = Z.of_nat (length (calls o)) + total_calls ops) as Htc.
  { unfold total_calls. change ((o :: ops) ≫= calls) with (calls o ++ (ops ≫= calls)).
    rewrite length_app. lia. }
  assert (0 <= total_calls ops) by (unfold total_calls; lia). cbn [length] in Hjlt.
  pose proof (step_exec save o _ hist s t f Hinv ltac:(lia) ltac:(lia)) as (evs&Hrec&Hinv1&_&Hj1&_).
  pose proof (exec_store save o _ hist s t f Hinv ltac:(lia)) as Hstore.
  cbn [for_each trace_calls]. unfold bind. cbv zeta. cbn [val fin clk eff].
  unfold wp in Hstore. set (r1 := exec save o s t) in *.
  pose proof (told_step old hist evs s (fin r1) t f Hinv Htold Hstore) as Htold1.
  assert (ring_seq (fin r1) <= ring_seq s + Z.of_nat (length (calls o))) as Hq1.
  { pose proof (length_ran o (eff r1)). apply Forall2_length in Hrec.
    destruct Hinv, Hinv1. rewrite length_app in *. lia. }
  destruct (IH (hist ++ evs) _ _ _ Hinv1 Htold1) as (evs2&Hrec2&Hinv2&Htold2&Hj2); [lia|lia|].
  exists (evs ++ evs2). rewrite commit_all_app, !app_assoc in *. split_and!; try done; [by apply Forall2_app|].
  cbn [length]. lia.
Qed.
End steps.

(** ** Flights *)
Section flights.
Context `{!Config} `{!Crc32}.
Implicit Types (s : journal) (L : list event) (f : flash).

(** One boot of the keyboard up to a power cut: its clock, the order in which the backend
    presents the stored blocks, the records made before the post-load hook, the records and
    writer runs after it, and the answers of the backend to the writes. *)
Record flight := Flight {
  fl_clock : Clock;
  fl_order : list Z;
  fl_early : list record_call;
  fl_ops : list op;
  fl_save : string -> list Z -> Z;
}.

Definition powered_up f (x : flight) : outcome journal effect () :=
  @boot _ (fl_clock x) _ f (fl_order x) (fl_early x) journal_init 0%nat.
Definition flown f (x : flight) : outcome journal effect () :=
  for_each (fl_ops x) (@exec _ (fl_clock x) _ (fl_save x)) (fin (powered_up f x)) (clk (powered_up f x)).
Definition flash_after f (x : flight) : flash :=
  commit_all (fl_save x) f (eff (powered_up f x) ++ eff (flown f x)).
(** From an erased flash, one flight after the other: what each leaves in flash, and the journal
    the power cut destroys. *)
Definition fly (w : flash * journal) (x : flight) : flash * journal := (flash_after w.1 x, fin (flown w.1 x)).
Definition flights (fls : list flight) : flash * journal := foldl fly (∅, journal_init) fls.
Definition flash_of_flights (fls : list flight) : flash := (flights fls).1.
Definition lost_journal (fls : list flight) : journal := (flights fls).2.

(** The numbered history: the part of the history that was persisted before the power cut, what
    the ring kept of the early records, and the records of the flight. *)
Inductive chronicle : list flight -> list event -> Prop :=
| chronicle_new : chronicle [] []
| chronicle_flight fls x L early evs :
    chronicle fls L ->
    @recorded (fl_clock x) (fl_early x) early ->
    let up := powered_up (flash_of_flights fls) x in
    @recorded (fl_clock x) (@trace_calls _ (fl_clock x) _ (fl_save x) (fl_ops x) (fin up) (clk up)) evs ->
    chronicle (fls ++ [x])
      (take (Z.to_nat (persisted_event_seq (lost_journal fls))) L ++ lastn keep early ++ evs).

(** What a flight adds at most to a sequence number. *)
Definition flight_size (x : flight) : Z :=
  Z.of_nat (length (fl_early x)) + total_calls (fl_ops x) + Z.of_nat (length (fl_ops x)) + 1.
Definition total_size (fls : list flight) : Z := foldr (fun x n => flight_size x + n) 0 fls.

Lemma total_size_snoc fls x : total_size (fls ++ [x]) = total_size fls + flight_size x.
Proof. unfold total_size. induction fls as [|y fls IH]; cbn; [lia|]. rewrite IH. lia. Qed.

(** What the next boot can rely on. *)
Record landed (bound : Z) L f s : Prop := {
  landed_wf : wf s;
  landed_store : store_ok s;
  landed_flash : flash_of f s;
  landed_told : told L s;
  landed_mark : persisted_event_seq s <= Z.of_nat (length L);
  landed_bounds : Z.of_nat (length L) <= bound /\ journal_seq s <= bound;
}.

(** A boot reads the flash, it does not write it. *)
Lemma boot_writes_nothing `{!Clock} f order early :
  keeps (fun _ _ => True) (fun e => is_write e = false) (boot f order early).
Proof.
  assert (forall urgent, keeps (fun (_ : journal) (_ : nat) => True) (fun e => is_write e = false)
    (schedule_persist_coalesced urgent)) as Hsched.
  { intros urgent. unfold schedule_persist_coalesced. by keeps_steps. }
  unfold boot, settings_load, zmk_settings_loaded. keeps_steps; try done; try apply Hsched.
  - unfold offer. destruct (f !! _); [|by keeps_steps]. unfold hevt_settings_set.
    keeps_steps. destruct (slot_of_name _); by keeps_steps.
  - match goal with c : record_call |- _ => destruct c end; cbn [run_call];
      unfold totem_host_event_log_record, totem_host_event_log_record_timing, record_event;
      keeps_steps; try done; apply Hsched.
Qed.

Lemma boot_keeps_flash f x : commit_all (fl_save x) f (eff (powered_up f x)) = f.
Proof.
  unfold powered_up. destruct (@boot_writes_nothing (fl_clock x) f (fl_order x) (fl_early x) journal_init 0%nat I)
    as [_ Hes].
  induction Hes as [|e es He _ IH]; cbn; [done|]. by destruct e.
Qed.

Lemma landed_init : landed 0 [] ∅ journal_init.
Proof.
  split; try done; [apply init_wf|by apply JournalProps.init_store_ok|by apply JournalProps.init_flash_of|].
  assert (blocks_of journal_init = []) as Hb.
  { unfold blocks_of. apply bind_nil_elem. intros i (off&->&_)%list_elem_of_fmap.
    pose proof (DumpProps.slot_of_range journal_init off) as Hs. unfold DumpProps.slot_of in Hs.
    unfold slot_blocks. cbn [restored_valid journal_init] in *. by rewrite aget_replicate by done. }
  split; rewrite Hb; constructor.
Qed.

(** A flight from where the last one ended. *)
Lemma flight_lands bound L f s x :
  landed bound L f s -> fl_order x ≡ₚ all_slots -> bound + flight_size x < 2 ^ 32 ->
  let up := powered_up f x in
  exists early evs,
    @recorded (fl_clock x) (fl_early x) early /\
    @recorded (fl_clock x) (@trace_calls _ (fl_clock x) _ (fl_save x) (fl_ops x) (fin up) (clk up)) evs /\
    let old := take (Z.to_nat (persisted_event_seq s)) L in
    let L' := old ++ lastn keep early ++ evs in
    @Inv _ (fl_clock x) _ (Z.of_nat (length old)) (lastn keep early ++ evs) (fin (flown f x))
      (clk (flown f x)) (flash_after f x) /\
    landed (bound + flight_size x) L' (flash_after f x) (fin (flown f x)).
Proof.
  intros [Hwf Hst Hf Htold Hmark [HL Hj]] Hord Hsz up. unfold flight_size in Hsz.
  assert (0 <= total_calls (fl_ops x)) by (unfold total_calls; lia).
  pose proof (wf_seqs s Hwf) as Hq.
  pose proof (@boot_spec _ (fl_clock x) _ f (fl_order x) (fl_early x) s 0%nat Hwf Hst Hf Hord ltac:(lia))
    as (early&Hearly&Hinv&Hp&Hn&Hv&Hb&Hj').
  fold (powered_up f x) in Hinv, Hp, Hn, Hv, Hb, Hj'. fold up in Hinv, Hp, Hn, Hv, Hb, Hj'.
  set (old := take _ L).
  assert (Z.of_nat (length old) = persisted_event_seq s) as Hold by (unfold old; rewrite length_take; lia).
  rewrite <- Hold in Hinv.
  assert (told (old ++ lastn keep early) (fin up)) as Hup.
  { apply (told_ext old _ s); [by apply blocks_of_ext|lia|lia|]. apply told_take; [lia|done]. }
  assert (length early = length (fl_early x)) as Hle by (symmetry; by eapply Forall2_length).
  pose proof Hinv as [_ _ _ _ Hs _ _ _]. rewrite length_lastn in Hs.
  destruct (@trace_told _ (fl_clock x) _ (fl_save x) (fl_ops x) old _ _ _ f Hinv Hup)
    as (evs&Hevs&Hinv2&Htold2&Hj2); [lia|lia|].
  cbv zeta in Hinv2, Htold2, Hj2.
  change (for_each (fl_ops x) _ (fin up) (clk up)) with (flown f x) in Hinv2, Htold2, Hj2.
  assert (flash_after f x = commit_all (fl_save x) f (eff (flown f x))) as Hfl.
  { unfold flash_after. by rewrite commit_all_app, boot_keeps_flash. }
  rewrite <- Hfl in Hinv2. exists early, evs. split; [exact Hearly|]. split; [exact Hevs|].
  cbv zeta. split; [exact Hinv2|]. destruct Hinv2 as [Hwf2 _ Hr2 Hb2 Hs2 _ Hst2 Hf2].
  assert (persisted_event_seq (fin (flown f x)) <= ring_seq (fin (flown f x))) by (by apply Hwf2).
  pose proof (@length_trace_calls _ (fl_clock x) _ (fl_save x) (fl_ops x) (fin up) (clk up)).
  apply Forall2_length in Hevs. rewrite !length_app, length_lastn in *.
  split; try done; rewrite ?length_app, ?length_lastn; unfold flight_size; lia.
Qed.

Lemma flights_land fls :
  Forall (fun x => fl_order x ≡ₚ all_slots) fls -> total_size fls < 2 ^ 32 ->
  exists L, chronicle fls L /\ landed (total_size fls) L (flash_of_flights fls) (lost_journal fls).
Proof.
  induction fls as [|x fls IH] using rev_ind; intros Hord Hsz.
  { exists []. split; [constructor|apply landed_init]. }
  apply Forall_app in Hord as [Hord Hx]. rewrite Forall_singleton in Hx. rewrite total_size_snoc in Hsz |- *.
  assert (0 <= flight_size x) by (unfold flight_size, total_calls; lia).
  destruct IH as (L&HL&Hs); [done|lia|].
  destruct (flight_lands _ L _ _ x Hs Hx Hsz) as (early&evs&Hearly&Hevs&_&Hl).
  eexists. split; [by apply chronicle_flight|]. unfold flash_of_flights, lost_journal, flights.
  rewrite foldl_snoc. exact Hl.
Qed.
End flights.
End Chronicle.

(** * What a dump says about the history *)
Module DumpTruth.
Import Journal JournalSpec JournalRestore JournalTrace Chronicle Dump DumpProps.

(** An event line as it is read back: source, slot, sequence number, event. *)
Notation line := (ascii * Z * Z * event)%type.
Definition line_source (l : line) : ascii := l.1.1.1.
Definition line_seq (l : line) : Z := l.1.2.
Definition line_event (l : line) : event := l.2.

(** It is true of a history if the history has that event under that number. *)
Definition true_of (L : list event) (l : line) : Prop :=
  1 <= line_seq l /\ L !! Z.to_nat (line_seq l - 1) = Some (line_event l).
(** Two lines of one source, in the order of the dump. *)
Definition ascending (l l' : line) : Prop := line_source l = line_source l' -> line_seq l < line_seq l'.

(** Consecutively numbered lines. *)
Fixpoint lines_from (c : ascii) (slot q : Z) (es : list event) : list line :=
  match es with [] => [] | e :: es => (c, slot, q, e) :: lines_from c slot (q + 1) es end.

Lemma lookup_lines_from c slot q es i :
  lines_from c slot q es !! i = (fun e => (c, slot, q + Z.of_nat i, e)) <$> es !! i.
Proof.
  revert q i. induction es as [|e es IH]; intros q [|i]; cbn; [done..| |].
  - by rewrite Z.add_0_r.
  - rewrite IH. destruct (es !! i); cbn; [|done]. do 3 f_equal. lia.
Qed.
Lemma elem_of_lines_from c slot q es l :
  l ∈ lines_from c slot q es ->
  line_source l = c /\ q <= line_seq l < q + Z.of_nat (length es) /\
  es !! Z.to_nat (line_seq l - q) = Some (line_event l).
Proof.
  intros [i Hi]%list_elem_of_lookup. rewrite lookup_lines_from in Hi.
  destruct (es !! i) as [e|] eqn:He; [|done]. injection Hi as <-. cbn.
  pose proof (lookup_lt_Some _ _ _ He). split_and!; [done|unfold line_seq; cbn; lia..|].
  unfold line_seq, line_event. cbn. rewrite <- He. f_equal. lia.
Qed.
Lemma sorted_lines_from c slot q es : StronglySorted ascending (lines_from c slot q es).
Proof.
  revert q. induction es as [|e es IH]; intros q; cbn; constructor; [apply IH|].
  apply Forall_forall. intros l (_&Hl&_)%elem_of_lines_from _. unfold line_seq in *. cbn in *. lia.
Qed.

(** Sorting a concatenation. *)
Lemma sorted_bind {A B} (R : B -> B -> Prop) (g : A -> list B) (l : list A) :
  (forall x, x ∈ l -> StronglySorted R (g x)) ->
  StronglySorted (fun x x' => forall y y', y ∈ g x -> y' ∈ g x' -> R y y') l ->
  StronglySorted R (l ≫= g).
Proof.
  intros Hg Hl. induction Hl as [|x l Hl IH Hx]; cbn; [constructor|].
  apply StronglySorted_app. split_and!; [|by apply Hg, list_elem_of_here|].
  - intros y y' Hy (x'&Hy'&Hx')%list_elem_of_bind. rewrite Forall_forall in Hx. by apply (Hx x').
  - apply IH. intros x' Hx'. by apply Hg, list_elem_of_further.
Qed.
Lemma sorted_bind_inv {A B} (R : B -> B -> Prop) (g : A -> list B) (l : list A) :
  StronglySorted R (l ≫= g) ->
  StronglySorted (fun x x' => forall y y', y ∈ g x -> y' ∈ g x' -> R y y') l.
Proof.
  induction l as [|x l IH]; cbn; [constructor|]. intros (Hx&_&Hl)%StronglySorted_app.
  constructor; [by apply IH|]. apply Forall_forall. intros x' Hx' y y' Hy Hy'.
  apply Hx; [done|]. apply list_elem_of_bind. by exists x'.
Qed.
Lemma sorted_impl_elem {A} (R R' : A -> A -> Prop) (l : list A) :
  (forall x y, x ∈ l -> y ∈ l -> R x y -> R' x y) -> StronglySorted R l -> StronglySorted R' l.
Proof.
  intros Hi Hs. induction Hs as [|x l Hs IH Hx]; constructor.
  - apply IH. intros y z ??. apply Hi; by constructor.
  - rewrite Forall_forall in Hx |- *. intros y Hy. apply Hi; [by constructor..|by apply Hx].
Qed.

Section lines.
Context `{!Config} `{!Clock} `{!Crc32}.
Implicit Types (s : journal) (L : list event).

Lemma slot_lines s i :
  wf s -> valid_at s i -> 1 <= first_event_seq (block_at s i) ->
  first_event_seq (block_at s i) + count (block_at s i) - 1 < 2 ^ 32 ->
  slot_events s i = lines_from "p"%char i (first_event_seq (block_at s i)) (JournalTrace.block_events (block_at s i)).
Proof.
  intros Hwf Hv Hf1 Hlt. pose proof (valid_at_ok s i Hwf Hv) as (_&_&_&Hc&_&Hf&Hl&_&_).
  destruct Hv as [_ Hv]. unfold slot_events. rewrite Hv. fold (block_at s i).
  set (b := block_at s i) in *. unfold Dump.block_events, JournalTrace.block_events.
  apply list_eq. intros k. rewrite lookup_lines_from, !list_lookup_fmap.
  destruct (decide (Z.of_nat k < count b)) as [Hk|Hk].
  - rewrite lookup_seqZ_lt by done. cbn. rewrite lookup_take_lt by lia.
    rewrite <- (Nat2Z.id k) at 3. rewrite (lookup_aget (ev b)) by lia. cbn.
    by rewrite u32_small by (change (2 ^ 32) with 4294967296 in *; lia).
  - rewrite lookup_seqZ_ge, lookup_take_ge by lia. done.
Qed.

Lemma ring_lines_from s :
  wf s -> journal_ready s = true ->
  ((fun '(e, seq) => ("r"%char, 0, seq, e)) <$> ring_events s) =
  lines_from "r"%char 0 (ring_seq s - ring_count s + 1) (retained s).
Proof.
  intros Hwf Hr. pose proof (wf_seqs s Hwf) as Hq. pose proof (length_retained s (proj1 Hwf)) as Hl.
  unfold ring_events. rewrite ring_get_ordered_retained. apply list_eq. intros k.
  rewrite lookup_lines_from, list_lookup_fmap, lookup_zip_with, list_lookup_fmap.
  destruct (retained s !! k) as [e|] eqn:He; cbn; [|done]. pose proof (lookup_lt_Some _ _ _ He).
  rewrite lookup_seqZ_lt by lia. cbn. rewrite u32_small by lia. do 3 f_equal. lia.
Qed.

(** The blocks of a store that tells [L]: their lines are true of it, and in order. *)
Lemma flash_lines_told L s :
  wf s -> told L s -> persisted_event_seq s <= Z.of_nat (length L) < 2 ^ 32 ->
  Forall (true_of L) (rotation s ≫= slot_events s) /\
  StronglySorted ascending (rotation s ≫= slot_events s) /\
  Forall (fun l => line_source l = "p"%char) (rotation s ≫= slot_events s).
Proof.
  intros Hwf [Hh Hs Hla] Hp.
  assert (forall i b, i ∈ rotation s -> b ∈ slot_blocks s i -> holds L b /\
    slot_events s i = lines_from "p"%char i (first_event_seq b) (JournalTrace.block_events b)) as Hslot.
  { intros i b Hi Hb. assert (b ∈ blocks_of s) as Hin by (apply list_elem_of_bind; by exists i).
    rewrite Forall_forall in Hh, Hla. specialize (Hh b Hin). specialize (Hla b Hin). cbn in Hla. split; [done|].
    unfold slot_blocks in Hb. destruct (aget (restored_valid s) i) eqn:Hv; [|by apply elem_of_nil in Hb].
    apply list_elem_of_singleton in Hb as ->. apply list_elem_of_fmap in Hi as (off&->&_).
    pose proof (slot_of_range s off) as Hr. destruct Hh as (?&?&_). apply slot_lines; [done|by split|done|].
    unfold block_at. lia. }
  assert (forall i l, i ∈ rotation s -> l ∈ slot_events s i -> exists b, b ∈ slot_blocks s i /\ holds L b /\
    l ∈ lines_from "p"%char i (first_event_seq b) (JournalTrace.block_events b)) as Hline.
  { intros i l Hi Hl. destruct (aget (restored_valid s) i) eqn:Hv.
    - assert (block_at s i ∈ slot_blocks s i) as Hb by (unfold slot_blocks; rewrite Hv; by constructor).
      destruct (Hslot i _ Hi Hb) as [Hhb Heq]. rewrite Heq in Hl. by exists (block_at s i).
    - unfold slot_events in Hl. rewrite Hv in Hl. by apply elem_of_nil in Hl. }
  split_and!.
  - apply Forall_forall. intros l (i&Hl&Hi)%list_elem_of_bind.
    destruct (Hline i l Hi Hl) as (b&_&(Hf1&_&Hb)&(_&Hq&He)%elem_of_lines_from). split; [lia|].
    rewrite Hb in He. unfold seg in He. apply lookup_take_Some in He as [He _]. rewrite lookup_drop in He.
    rewrite <- He. f_equal. lia.
  - apply sorted_bind.
    + intros i Hi. unfold slot_events. destruct (aget (restored_valid s) i) eqn:Hv; [|constructor].
      destruct (Hslot i (block_at s i) Hi) as [_ Heq]; [unfold slot_blocks; rewrite Hv; by constructor|].
      unfold slot_events in Heq. rewrite Hv in Heq. rewrite Heq. apply sorted_lines_from.
    + eapply sorted_impl_elem; [|by apply (sorted_bind_inv before (slot_blocks s))]. cbn. intros i i' Hi Hi' Hbb l l' Hl Hl' _.
      destruct (Hline i l Hi Hl) as (b&Hb&(_&_&Hbe)&(_&Hq&_)%elem_of_lines_from).
      destruct (Hline i' l' Hi' Hl') as (b'&Hb'&_&(_&Hq'&_)%elem_of_lines_from).
      specialize (Hbb b b' Hb Hb'). unfold before in Hbb.
      assert (Z.of_nat (length (JournalTrace.block_events b)) <= count b) as Hlen; [|lia].
      unfold JournalTrace.block_events. rewrite length_take. pose proof (Hslot i b Hi Hb) as [(_&?&_) _]. lia.
  - apply Forall_forall. intros l (i&Hl&Hi)%list_elem_of_bind.
    by destruct (Hline i l Hi Hl) as (b&_&_&(?&_)%elem_of_lines_from).
Qed.
(** The ring holds the last events of the history. *)
Lemma ram_lines_told old hist s t f :
  Inv (Z.of_nat (length old)) hist s t f ->
  Forall (true_of (old ++ hist)) ((fun '(e, seq) => ("r"%char, 0, seq, e)) <$> ring_events s) /\
  StronglySorted ascending ((fun '(e, seq) => ("r"%char, 0, seq, e)) <$> ring_events s).
Proof.
  intros Hinv. pose proof (inv_count _ _ _ _ _ Hinv) as Hc. destruct Hinv as [Hwf _ Hr _ Hq Hret _ _].
  rewrite ring_lines_from, Hret by done. split; [|apply sorted_lines_from].
  pose proof ring_cap_range. pose proof (wf_seqs s Hwf).
  apply Forall_forall. intros l (_&Hl&He)%elem_of_lines_from. rewrite length_lastn in Hl. unfold keep in *.
  split; [lia|]. rewrite lookup_app_r by lia. unfold lastn in He. rewrite lookup_drop in He.
  rewrite <- He. f_equal. lia.
Qed.

(** All lines of a dump of a journal in a running flight. *)
Lemma journal_lines_told old hist s t f :
  Inv (Z.of_nat (length old)) hist s t f -> told (old ++ hist) s ->
  Forall (true_of (old ++ hist)) (journal_events s) /\ StronglySorted ascending (journal_events s).
Proof.
  intros Hinv Htold. destruct (ram_lines_told _ _ _ _ _ Hinv) as [Ht Hs].
  pose proof Hinv as [Hwf _ _ _ Hq _ _ _]. pose proof (wf_seqs s Hwf).
  assert (persisted_event_seq s <= ring_seq s) by (apply Hwf; apply Hinv).
  destruct (flash_lines_told (old ++ hist) s Hwf Htold) as (Hft&Hfs&Hfp).
  { rewrite length_app. change (2 ^ 32) with 4294967296. lia. }
  unfold journal_events. split; [by apply Forall_app|].
  apply StronglySorted_app. split_and!; [|done..]. intros l l' Hl Hl' Heq. exfalso.
  rewrite Forall_forall in Hfp. specialize (Hfp l Hl). apply list_elem_of_fmap in Hl' as ([e q]&->&_).
  rewrite Hfp in Heq. discriminate.
Qed.
(** Nothing that waits for a write and is still in the ring is missing. *)
Lemma journal_lines_complete (old : list event) hist s t f q :
  Inv (Z.of_nat (length old)) hist s t f ->
  Z.max (persisted_event_seq s) (ring_seq s - RING_CAP) < q <= ring_seq s ->
  exists l, l ∈ journal_events s /\ line_source l = "r"%char /\ line_seq l = q.
Proof.
  intros Hinv Hq. pose proof (inv_count _ _ _ _ _ Hinv) as Hc. destruct Hinv as [Hwf _ Hr Hb Hs Hret _ _].
  pose proof ring_cap_range. pose proof (wf_seqs s Hwf). pose proof (length_retained s (proj1 Hwf)) as Hl.
  destruct (lookup_lt_is_Some_2 (retained s) (Z.to_nat (q - (ring_seq s - ring_count s + 1)))) as [e He]; [lia|].
  exists ("r"%char, 0, q, e). split; [|done]. unfold journal_events. rewrite ring_lines_from by done.
  apply elem_of_app. right. apply list_elem_of_lookup. exists (Z.to_nat (q - (ring_seq s - ring_count s + 1))).
  rewrite lookup_lines_from, He. cbn. do 3 f_equal. lia.
Qed.
End lines.

Section facts.
Context `{!Config} `{!Crc32} `{!StudioTransport}.

(** C1 Dumps tell the truth across power cycles.  Take any number of flights - each a boot on its
    own clock, whatever the order the settings backend presents the keys in, with early records, a
    trace of records and writer runs with whatever answers from the backend, and a power cut - and
    dump the journal at the end of the last one over any console.  There is a numbered history of
    those flights such that every event line the console accepted, of flash or RAM, of a complete
    or a broken off dump, is true of it: the event it shows is the one the history has under that
    sequence number.  The lines of each source ascend strictly, and if the console takes every line
    in time no event that waits for a write and is still in the ring is missing. *)
Theorem dumps_tell_the_truth (fls : list flight) (x : flight) (b : Boot.boot)
    (flt : Fault.totem_fault_record) (n t : nat) :
  Forall (fun y => fl_order y ≡ₚ all_slots) (fls ++ [x]) -> total_size (fls ++ [x]) < 2 ^ 32 ->
  boot_ok b -> fault_ok flt ->
  let s := lost_journal (fls ++ [x]) in
  exists L, chronicle (fls ++ [x]) L /\ ring_seq s = Z.of_nat (length L) /\
    wp (@totem_host_event_log_dump _ (fl_clock x) _ b flt s) (fun _ _ _ es =>
      let lines := read_events (accepted es) in
      Forall (true_of L) lines /\ StronglySorted ascending lines /\
      (reliable -> forall q, Z.max (persisted_event_seq s) (ring_seq s - RING_CAP) < q <= ring_seq s ->
       exists l, l ∈ lines /\ line_source l = "r"%char /\ line_seq l = q)) n t.
Proof.
  intros [Hord Hx]%Forall_app Hsz Hb Hflt s. rewrite Forall_singleton in Hx. rewrite total_size_snoc in Hsz.
  assert (0 <= flight_size x) by (unfold flight_size, total_calls; lia).
  destruct (flights_land fls Hord) as (L&HL&Hs0); [lia|].
  destruct (flight_lands _ L _ _ x Hs0 Hx Hsz) as (early&evs&Hearly&Hevs&Hinv&Hl).
  assert (s = fin (flown (flash_of_flights fls) x)) as Hs_def.
  { unfold s, flash_of_flights, lost_journal, flights. by rewrite foldl_snoc. }
  eexists. split; [by apply chronicle_flight|]. cbv zeta in Hinv, Hl. rewrite <- Hs_def in Hinv, Hl.
  set (old := take _ L) in *. set (hist := lastn keep early ++ evs) in *.
  split; [destruct Hinv; rewrite length_app; lia|].
  destruct (@journal_lines_told _ (fl_clock x) _ old hist s _ _ Hinv (landed_told _ _ _ _ Hl)) as [Ht Hs].
  pose proof (landed_wf _ _ _ _ Hl) as Hwf. pose proof (u32_range (@uptime (fl_clock x) t)) as Hid.
  eapply wp_mono; [by apply (@dump_delivers _ (fl_clock x) _ _ b flt s (u32 (@uptime (fl_clock x) t)) n t)|].
  intros [] n1 t1 es ([k Hk]&_&Hall). cbv zeta.
  pose proof (read_full_dump b flt s (u32 (@uptime (fl_clock x) t)) Hwf Hid) as Hread.
  split_and!; [rewrite Hk, read_events_app in Hread; rewrite <- Hread in *..|].
  - by apply Forall_app in Ht as [Ht _].
  - by apply StronglySorted_app_1_l in Hs.
  - intros Hrel q Hq. rewrite (Hall Hrel), Hread. by eapply journal_lines_complete.
Qed.
End facts.

(** Two flights on clocks of their own: four records with one successful write, then a boot that
    reads the store backwards, three early records, and another trace whose write fails; the
    console of that boot breaks off the dump or takes every line at its second attempt. *)
#[local] Existing Instances ieee_crc busy_console.
Definition first_flight : flight :=
  Flight JournalProps.example_clock all_slots [] JournalProps.example_ops (fun _ _ => 0).
Definition second_flight : flight :=
  Flight (ticking 40 10) (reverse all_slots) JournalProps.example_calls JournalProps.example_ops (fun _ _ => - EAGAIN).
Definition second_journal : journal := lost_journal [first_flight; second_flight].

Lemma dumps_tell_the_truth_witness :
  length (journal_events second_journal) = 9%nat /\
  exists L, chronicle [first_flight; second_flight] L /\ ring_seq second_journal = Z.of_nat (length L) /\
    wp (@totem_host_event_log_dump _ (ticking 40 10) _ dumped_boot dumped_fault second_journal) (fun _ _ _ es =>
      Forall (true_of L) (read_events (accepted es)) /\
      StronglySorted ascending (read_events (accepted es)) /\
      forall q, Z.max (persisted_event_seq second_journal) (ring_seq second_journal - RING_CAP) < q
          <= ring_seq second_journal ->
        exists l, l ∈ read_events (accepted es) /\ line_source l = "r"%char /\ line_seq l = q) 0%nat 9%nat.
Proof.
  split; [vm_compute; reflexivity|].
  destruct (dumps_tell_the_truth [first_flight] second_flight dumped_boot dumped_fault 0%nat 9%nat)
    as (L&HL&Hq&Hwp); [by repeat constructor; cbn; rewrite ?reverse_Permutation|vm_compute; reflexivity
    |exact dumped_boot_ok|exact dumped_fault_ok|].
  exists L. split; [exact HL|]. split; [exact Hq|]. eapply wp_mono; [exact Hwp|].
  intros a n1 t1 es (Ht&Hs&Hall). split; [exact Ht|]. split; [exact Hs|]. exact (Hall busy_console_reliable).
Defined.
End DumpTruth.
