(* ===== verification/FlashLog.v ===== *)
(** * The flash as a bounded log of blocks

    The journal writes its blocks to numbered slots in rotation, restores them after a power
    cycle and lists them in a dump.  [FlashLog] shows that slots, rotation and restore amount
    to something simple: over any sequence of flights the flash is the list of all blocks ever
    stored, cut to the last [JOURNAL_SLOTS] of them, and that is what every dump shows. *)
From stdpp Require Import gmap.
From Stdlib Require Import Ascii.
From S2P Require Import Prelude Events Platform Samples RingBuffer Text BootDiagnostics Fault.
From S2P Require Import HostEventLog HostEventSpec HostEventRestore HostEventProps HostEventDump HostEventDumpProps.
From S2P Require Import Chronicle.
Local Open Scope Z_scope.

Module FlashLog.
Import Journal JournalSpec JournalRestore JournalTrace Chronicle DumpTruth Dump DumpProps.
Import JournalTrace.

#[local] Notation flash := (gmap string (list Z)).

(** ** The slots in rotation *)
Section slots.
Context `{!Config} `{!Crc32}.
Implicit Types (s : journal).

Definition slots : nat := Z.to_nat JOURNAL_SLOTS.

(** The empty slots come before the used ones. *)
Definition filled s : Prop :=
  exists l1 l2, rotation s = l1 ++ l2 /\
    Forall (fun i => aget (restored_valid s) i = false) l1 /\ Forall (fun i => aget (restored_valid s) i = true) l2.

Lemma filled_ext s s' :
  next_slot s' = next_slot s -> (forall i, valid_at s' i <-> valid_at s i) -> filled s -> filled s'.
Proof.
  intros Hn Hv (l1&l2&Hr&Hl1&Hl2). exists l1, l2. unfold rotation in *. rewrite Hn. split; [exact Hr|].
  assert (Forall (fun i => 0 <= i < JOURNAL_SLOTS) (l1 ++ l2)) as [Hb1 Hb2]%Forall_app.
  { rewrite <- Hr. apply Forall_fmap, Forall_forall. intros off _. apply slot_of_range. }
  unfold valid_at in Hv. rewrite !Forall_forall in *.
  split; intros i Hi; specialize (Hv i); [specialize (Hb1 i Hi); specialize (Hl1 i Hi)
    |specialize (Hb2 i Hi); specialize (Hl2 i Hi)]; cbn in *.
  - rewrite Hl1 in Hv. destruct (aget (restored_valid s') i); [|done]. exfalso. by destruct (proj1 Hv).
  - rewrite Hl2 in Hv. by destruct (proj2 Hv).
Qed.

Lemma blocks_of_kept s s' : store_kept s s' -> blocks_of s' = blocks_of s /\ (filled s -> filled s').
Proof.
  intros (_&Hn&Hb&Hv). unfold blocks_of, filled, rotation, slot_blocks. by rewrite Hn, Hb, Hv.
Qed.

Lemma length_slot_blocks s l : (length (l ≫= slot_blocks s) <= length l)%nat.
Proof.
  induction l as [|i l IH]; [done|]. cbn. rewrite length_app. unfold slot_blocks at 1.
  destruct (aget _ i); cbn; lia.
Qed.
Lemma length_used_blocks s l :
  Forall (fun i => aget (restored_valid s) i = true) l -> length (l ≫= slot_blocks s) = length l.
Proof.
  induction 1 as [|i l Hi _ IH]; [done|]. cbn. rewrite length_app, IH. unfold slot_blocks. by rewrite Hi.
Qed.

Lemma lastn_drop_first {A} (x : A) l : lastn (length l) (x :: l) = l.
Proof. unfold lastn. cbn [length]. by replace (S (length l) - length l)%nat with 1%nat by lia. Qed.

(** A write appends its block to the log and drops the oldest when it is full. *)
Lemma blocks_of_log s s' :
  wf s -> filled s -> stored 0 s s' ->
  blocks_of s' = lastn slots (blocks_of s ++ [next_block s]) /\ filled s'.
Proof.
  intros Hwf (l1&l2&Hl&Hl1&Hl2) (_&_&Hs). cbn in Hs. destruct Hs as (_&Hn'&Hb'&Hv'). pose proof (wf_seqs s Hwf).
  destruct (rotation_next s s') as (rest&Hr&Hr'&Hrest); [lia|done|].
  assert (S (length rest) = slots) as Hlen.
  { apply (f_equal length) in Hr. unfold rotation in Hr. rewrite length_fmap, length_seqZ in Hr. cbn in Hr.
    unfold slots. lia. }
  assert (alen (restored_valid s) = JOURNAL_SLOTS /\ alen (restored_blocks s) = JOURNAL_SLOTS) as [Hav Hab]
    by (split; apply Hwf).
  assert (forall i, i ∈ rest -> aget (restored_valid s') i = aget (restored_valid s) i /\
    slot_blocks s' i = slot_blocks s i) as Hsame.
  { intros i Hi. rewrite Forall_forall in Hrest. destruct (Hrest i Hi) as [??].
    unfold slot_blocks. by rewrite Hb', Hv', !aget_aset_ne by lia. }
  assert (aget (restored_valid s') (next_slot s) = true) as Hnew by (rewrite Hv', aget_aset_eq; [done|lia]).
  assert (blocks_of s' = (rest ≫= slot_blocks s) ++ [next_block s]) as ->.
  { unfold blocks_of. rewrite Hr', bind_app. f_equal.
    - apply list_bind_ext_elem. intros i Hi. by apply Hsame.
    - cbn. rewrite app_nil_r. unfold slot_blocks. rewrite Hnew, Hb', aget_aset_eq; [done|lia]. }
  assert (forall b l, (forall i, i ∈ l -> i ∈ rest) -> Forall (fun i => aget (restored_valid s) i = b) l ->
    Forall (fun i => aget (restored_valid s') i = b) l) as Hcarry.
  { intros b l Hin. rewrite !Forall_forall. intros Hf i Hi. cbn in *. destruct (Hsame i (Hin i Hi)) as [-> _].
    by apply Hf. }
  unfold blocks_of, filled. rewrite Hr, Hr'. rewrite Hr in Hl.
  change ((next_slot s :: rest) ≫= slot_blocks s) with (slot_blocks s (next_slot s) ++ (rest ≫= slot_blocks s)).
  assert (slot_blocks s (next_slot s) = if aget (restored_valid s) (next_slot s)
    then [aget (restored_blocks s) (next_slot s)] else []) as -> by done.
  destruct l1 as [|i l1].
  - cbn in Hl. subst l2. apply Forall_cons in Hl2 as [Hn Hrest2]. split.
    + rewrite Hn. cbn [app]. replace slots with (length ((rest ≫= slot_blocks s) ++ [next_block s]));
        [by rewrite lastn_drop_first|]. rewrite length_app, length_used_blocks by done. cbn. lia.
    + exists [], (rest ++ [next_slot s]). split_and!; [done|constructor|]. apply Forall_app. split; [|by repeat constructor].
      by apply Hcarry.
  - cbn in Hl. injection Hl as <- Hl. apply Forall_cons in Hl1 as [Hn Hl1]. split.
    + rewrite Hn. cbn [app]. rewrite lastn_all; [done|]. rewrite length_app. pose proof (length_slot_blocks s rest). cbn. lia.
    + exists l1, (l2 ++ [next_slot s]). rewrite Hl, app_assoc. split; [done|].
      split; [apply Hcarry; [set_solver|done]|]. apply Forall_app.
      split; [apply Hcarry; [set_solver|done]|by repeat constructor].
Qed.

Lemma slots_pos : (0 < slots)%nat.
Proof. pose proof journal_slots_range. unfold slots. lia. Qed.
End slots.

(** ** Traces and flights *)
Section flights.
Context `{!Config} `{!Crc32}.
Implicit Types (s : journal) (f : flash).

Lemma trace_log `{!Clock} save ops base hist s t f :
  Inv base hist s t f -> filled s ->
  ring_seq s + total_calls ops + 1 < 2 ^ 32 -> journal_seq s + Z.of_nat (length ops) < 2 ^ 32 ->
  let r := for_each ops (exec save) s t in
  filled (fin r) /\ blocks_of (fin r) = lastn slots (blocks_of s ++ blocks_written save (eff r)).
Proof.
  revert hist s t f. induction ops as [|o ops IH]; intros hist s t f Hinv Hfill Hlt Hjlt.
  { cbn -[lastn]. rewrite app_nil_r. split; [done|]. rewrite lastn_all; [done|].
    unfold blocks_of. etransitivity; [apply length_slot_blocks|]. unfold rotation. by rewrite length_fmap, length_seqZ. }
  assert (total_calls (o :: ops) = Z.of_nat (length (calls o)) + total_calls ops) as Htc.
  { unfold total_calls. change ((o :: ops) ≫= calls) with (calls o ++ (ops ≫= calls)).
    rewrite length_app. lia. }
  assert (0 <= total_calls ops) by (unfold total_calls; lia). cbn [length] in Hjlt.
  pose proof (step_exec save o _ hist s t f Hinv ltac:(lia) ltac:(lia)) as (evs&Hrec&Hinv1&_&Hj1&_).
  pose proof (exec_outcome save o _ hist s t f Hinv ltac:(lia)) as Hout. unfold wp in Hout.
  cbn [for_each]. unfold bind. cbv zeta. cbn [val fin clk eff]. set (r1 := exec save o s t) in *.
  assert (filled (fin r1) /\ blocks_of (fin r1) = lastn slots (blocks_of s ++ blocks_written save (eff r1))) as [Hfill1 Hb1].
  { destruct Hout as [[Hk ->]|(_&_&Hs&->)]; [|destruct (blocks_of_log s (fin r1)); [apply Hinv|done..]].
    destruct (blocks_of_kept s (fin r1) Hk) as [-> Hf]. split; [by apply Hf|]. rewrite app_nil_r, lastn_all; [done|].
    unfold blocks_of. etransitivity; [apply length_slot_blocks|]. unfold rotation. by rewrite length_fmap, length_seqZ. }
  assert (ring_seq (fin r1) <= ring_seq s + Z.of_nat (length (calls o))) as Hq1.
  { pose proof (length_ran o (eff r1)). apply Forall2_length in Hrec.
    destruct Hinv, Hinv1. rewrite length_app in *. lia. }
  destruct (IH _ _ _ _ Hinv1 Hfill1) as [Hfill2 Hb2]; [lia|lia|]. cbv zeta in Hfill2, Hb2. split; [exact Hfill2|].
  unfold blocks_written in *. rewrite Hb2, Hb1, omap_app, app_assoc. apply lastn_app_lastn, slots_pos.
Qed.

(** The blocks a flight stores, and all blocks stored by flights from a flash. *)
Definition written_by f (x : flight) : list block := blocks_written (fl_save x) (eff (flown f x)).
Fixpoint written_from f (fls : list flight) : list block :=
  match fls with
  | [] => []
  | x :: fls => written_by f x ++ written_from (flash_after f x) fls
  end.

Lemma written_from_snoc f j fls x :
  written_from f (fls ++ [x]) = written_from f fls ++ written_by (foldl fly (f, j) fls).1 x.
Proof.
  revert f j. induction fls as [|y fls IH]; intros f j; cbn [written_from app foldl fst].
  { by rewrite app_nil_r. }
  by rewrite (IH _ (fin (flown f y))), app_assoc.
Qed.

Lemma filled_init : filled journal_init.
Proof.
  exists (rotation journal_init), []. rewrite app_nil_r. split; [done|]. split; [|constructor].
  apply Forall_fmap, Forall_forall. intros off _. apply aget_replicate, (slot_of_range journal_init off).
Qed.

Lemma flight_log bound L f s x :
  landed bound L f s -> filled s -> fl_order x ≡ₚ all_slots -> bound + flight_size x < 2 ^ 32 ->
  filled (fin (flown f x)) /\ blocks_of (fin (flown f x)) = lastn slots (blocks_of s ++ written_by f x).
Proof.
  intros [Hwf Hst Hf Htold Hmark [HL Hj]] Hfill Hord Hsz. unfold flight_size in Hsz.
  assert (0 <= total_calls (fl_ops x)) by (unfold total_calls; lia). pose proof (wf_seqs s Hwf) as Hq.
  pose proof (@boot_spec _ (fl_clock x) _ f (fl_order x) (fl_early x) s 0%nat Hwf Hst Hf Hord ltac:(lia))
    as (early&Hearly&Hinv&Hp&Hn&Hv&Hb&Hj').
  fold (powered_up f x) in Hinv, Hp, Hn, Hv, Hb, Hj'. apply Forall2_length in Hearly.
  pose proof Hinv as [_ _ _ _ Hs _ _ _]. rewrite length_lastn in Hs.
  rewrite <- (blocks_of_ext s (fin (powered_up f x)) Hn Hv Hb).
  pose proof (@trace_log (fl_clock x) (fl_save x) (fl_ops x) _ _ _ _ _ Hinv) as Hlog. cbv zeta in Hlog.
  unfold written_by, flown. apply Hlog; [by apply (filled_ext s)|lia|lia].
Qed.

Lemma flights_log fls :
  Forall (fun x => fl_order x ≡ₚ all_slots) fls -> total_size fls < 2 ^ 32 ->
  filled (lost_journal fls) /\ blocks_of (lost_journal fls) = lastn slots (written_from ∅ fls).
Proof.
  induction fls as [|x fls IH] using rev_ind; intros Hord Hsz.
  { split; [apply filled_init|].
    unfold blocks_of. apply bind_nil_elem. intros i (off&->&_)%list_elem_of_fmap.
    unfold slot_blocks. cbn [lost_journal flights foldl snd restored_valid journal_init].
    by rewrite aget_replicate by apply (slot_of_range journal_init off). }
  apply Forall_app in Hord as [Hord Hx]. rewrite Forall_singleton in Hx. rewrite total_size_snoc in Hsz.
  assert (0 <= flight_size x) by (unfold flight_size, total_calls; lia).
  destruct IH as [Hfill Hb]; [done|lia|]. destruct (flights_land fls Hord) as (L&_&Hland); [lia|].
  destruct (flight_log _ L _ _ x Hland Hfill Hx Hsz) as [Hfill' Hb'].
  rewrite (written_from_snoc _ journal_init). fold (flights fls). fold (flash_of_flights fls).
  assert (lost_journal (fls ++ [x]) = fin (flown (flash_of_flights fls) x)) as ->.
  { unfold flash_of_flights, lost_journal, flights. by rewrite foldl_snoc. }
  split; [exact Hfill'|]. rewrite Hb', Hb. apply lastn_app_lastn, slots_pos.
Qed.
End flights.

(** ** What a dump shows of the log *)
Section dump.
Context `{!Config} `{!Crc32} `{!StudioTransport}.
Implicit Types (s : journal) (f : flash).

(** The event lines of a block: its slot, its consecutive numbers, its events. *)
Definition block_lines (b : block) : list line :=
  lines_from "p"%char (slot b) (first_event_seq b) (JournalTrace.block_events b).
(** And those of the ring. *)
Definition ring_lines s : list line :=
  lines_from "r"%char 0 (ring_seq s - ring_count s + 1) (ring_get_ordered s).

Lemma slot_events_lines L s i :
  wf s -> told L s -> i ∈ rotation s -> slot_events s i = slot_blocks s i ≫= block_lines.
Proof.
  intros Hwf [Hh _ Hla] Hi. pose proof (wf_seqs s Hwf). unfold slot_blocks.
  destruct (aget (restored_valid s) i) eqn:Hv; [|unfold slot_events; by rewrite Hv].
  assert (valid_at s i) as Hval.
  { split; [|done]. apply list_elem_of_fmap in Hi as (off&->&_). apply slot_of_range. }
  assert (block_at s i ∈ blocks_of s) as Hin.
  { apply list_elem_of_bind. exists i. split; [|done]. unfold slot_blocks. rewrite Hv. by left. }
  rewrite Forall_forall in Hh, Hla. specialize (Hh _ Hin). specialize (Hla _ Hin). destruct Hh as (Hf1&_&_). cbn in Hla.
  pose proof (valid_at_ok s i Hwf Hval) as (_&_&Hslot&_). rewrite DumpTruth.slot_lines by (done || lia).
  cbn. rewrite app_nil_r. unfold block_lines. change (aget (restored_blocks s) i) with (block_at s i).
  by rewrite Hslot.
Qed.

Lemma journal_events_log L s :
  wf s -> journal_ready s = true -> told L s ->
  journal_events s = (blocks_of s ≫= block_lines) ++ ring_lines s.
Proof.
  intros Hwf Hr Htold. unfold journal_events, ring_lines. rewrite ring_get_ordered_retained, <- ring_lines_from by done.
  f_equal. unfold blocks_of. assert (forall i, i ∈ rotation s -> slot_events s i = slot_blocks s i ≫= block_lines)
    as Hslot by (intros i Hi; by eapply slot_events_lines).
  induction (rotation s) as [|i l IH]; [done|]. cbn [mbind list_bind]. rewrite bind_app, Hslot by (by left).
  f_equal. apply IH. intros j Hj. apply Hslot. by right.
Qed.

(** C19 The flash is a bounded log of blocks.  Over any number of flights - each a boot on its own
    clock, whatever the order the settings backend presents the keys in, with early records, a
    trace of records and writer runs with whatever answers from the backend, and a power cut -
    take all blocks whose write the backend accepted, from the first flight on.  What the console
    accepts of a dump in the last flight shows an initial part, and all of it if every line is
    taken in time, of this: the events of the last [JOURNAL_SLOTS] of these blocks, oldest first,
    each block whole, in its slot and under its numbers, then the events of the ring. *)
Theorem flash_keeps_newest_blocks (fls : list flight) (x : flight) (b : Boot.boot)
    (flt : Fault.totem_fault_record) (n t : nat) :
  Forall (fun y => fl_order y ≡ₚ all_slots) (fls ++ [x]) -> total_size (fls ++ [x]) < 2 ^ 32 ->
  boot_ok b -> fault_ok flt ->
  let s := lost_journal (fls ++ [x]) in
  let log := lastn (Z.to_nat JOURNAL_SLOTS) (written_from ∅ (fls ++ [x])) in
  wp (@totem_host_event_log_dump _ (fl_clock x) _ b flt s) (fun _ _ _ es =>
    read_events (accepted es) `prefix_of` (log ≫= block_lines) ++ ring_lines s /\
    (reliable -> read_events (accepted es) = (log ≫= block_lines) ++ ring_lines s)) n t.
Proof.
  intros Hord Hsz Hb Hflt s log. destruct (flights_log _ Hord Hsz) as [_ Hlog].
  apply Forall_app in Hord as [Hord Hx]. rewrite Forall_singleton in Hx. rewrite total_size_snoc in Hsz.
  assert (0 <= flight_size x) by (unfold flight_size, total_calls; lia).
  destruct (flights_land fls Hord) as (L&_&Hs0); [lia|].
  destruct (flight_lands _ L _ _ x Hs0 Hx Hsz) as (early&evs&_&_&Hinv&Hl). cbv zeta in Hinv, Hl.
  assert (s = fin (flown (flash_of_flights fls) x)) as Hs_def.
  { unfold s, flash_of_flights, lost_journal, flights. by rewrite foldl_snoc. }
  rewrite <- Hs_def in Hinv, Hl. pose proof (landed_wf _ _ _ _ Hl) as Hwf.
  pose proof (u32_range (@uptime (fl_clock x) t)) as Hid.
  pose proof (read_full_dump b flt s (u32 (@uptime (fl_clock x) t)) Hwf Hid) as Hread.
  rewrite (journal_events_log _ s Hwf (inv_ready _ _ _ _ _ Hinv) (landed_told _ _ _ _ Hl)) in Hread.
  fold s in Hlog. rewrite Hlog in Hread.
  change (lastn slots (written_from ∅ (fls ++ [x]))) with log in Hread.
  eapply wp_mono; [by apply (@dump_delivers _ (fl_clock x) _ _ b flt s (u32 (@uptime (fl_clock x) t)) n t)|].
  intros [] n1 t1 es ([k Hk]&_&Hall). split; [|intros Hrel; by rewrite (Hall Hrel)].
  rewrite <- Hread, Hk, read_events_app. by eexists.
Qed.
End dump.

(** The two flights of [Chronicle]: the second one's writes fail, so the flash keeps the block of the
    first, and the dump shows it before the eight events of the ring. *)
#[local] Existing Instances ieee_crc busy_console.

Lemma flash_keeps_newest_blocks_witness :
  let s := lost_journal [first_flight; second_flight] in
  let log := lastn (Z.to_nat JOURNAL_SLOTS) (written_from ∅ [first_flight; second_flight]) in
  length log = 1%nat /\ length (ring_lines s) = 8%nat /\
  wp (@totem_host_event_log_dump _ (ticking 40 10) _ dumped_boot dumped_fault s) (fun _ _ _ es =>
    read_events (accepted es) = (log ≫= block_lines) ++ ring_lines s) 0%nat 9%nat.
Proof.
  cbv zeta. split; [vm_compute; reflexivity|]. split; [vm_compute; reflexivity|].
  pose proof (flash_keeps_newest_blocks [first_flight] second_flight dumped_boot dumped_fault 0%nat 9%nat
    ltac:(by repeat constructor; cbn; rewrite ?reverse_Permutation) ltac:(vm_compute; reflexivity)
    dumped_boot_ok dumped_fault_ok) as Hwp. cbv zeta in Hwp. cbn [app] in Hwp.
  eapply wp_mono; [exact Hwp|]. intros a n1 t1 es [_ Hall]. exact (Hall busy_console_reliable).
Defined.
End FlashLog.
