(* ===== verification/JournalQueue.v ===== *)
(** * The journal on the system work queue

    The journal observes its own flash writes: every [settings_save_one], the journal's and
    the boot counter's included, goes through the wrapper of src/diagnostic_timing.c, whose
    records the drain brings back to the journal.  [JournalQueue] composes the writer, the
    wrapper, the boot counter and the inbox as the system work queue runs them, in any interleaving
    with the records and captures of the other contexts, and shows that the loop ends:
    observing the writes never keeps the writer busy. *)
From stdpp Require Import gmap relations.
From S2P Require Import Prelude Events Platform Samples RingBuffer BootDiagnostics DiagnosticTiming.
From S2P Require Import HostEventLog HostEventSpec HostEventRestore HostEventProps.
Local Open Scope Z_scope.

Module JournalQueue.
Import Journal JournalSpec JournalRestore JournalTrace Inbox SettingsWrap.

(** The state of the three files and whether their work items are queued (or their delays
    running). *)
Record system := System {
  sys_journal : journal;
  sys_inbox : timing;
  sys_boot : Boot.boot;
  persist_queued : bool;
  timing_queued : bool;
}.
#[export] Instance system_eta : Eta system := fun s =>
  System (sys_journal s) (sys_inbox s) (sys_boot s) (persist_queued s) (timing_queued s).

Section code.
Context `{!Config} `{!Clock} `{!Crc32} `{!View}.
(** [__real_settings_save_one]. *)
Variable real : string -> list Z -> Z.

Definition queue (s : system) (e : effect) : system :=
  match e with
  | k_work_submit timing_work => s <| timing_queued := true |>
  | k_work_schedule persist_work _ | k_work_reschedule persist_work _ => s <| persist_queued := true |>
  | _ => s
  end.

(** [settings_save_one], which is the wrapper. *)
Definition save_one (name : string) (value : list Z) (x : system * nat) : system * nat :=
  let r := __wrap_settings_save_one real name value (sys_inbox x.1) x.2 in
  (foldl queue (x.1 <| sys_inbox := fin r |>) (eff r), clk r).

Definition save_counter (x : system * nat) : system * nat :=
  let b := sys_boot x.1 in
  let r := Boot.totem_boot_diagnostics_persist (real "tboot/count" (Boot.counter_bytes b)) b x.2 in
  foldl (fun x e => match e with settings_write name value => save_one name value x | _ => x end)
    (x.1 <| sys_boot := fin r |>, clk r) (eff r).

(** A record and a capture, as any context makes them. *)
Definition log_call (c : record_call) (x : system * nat) : system * nat :=
  let o := run_call c (sys_journal x.1) x.2 in
  (foldl queue (x.1 <| sys_journal := fin o |>) (eff o), clk o).
Definition capture (u k i a r p c : Z) (x : system * nat) : system * nat :=
  let o := totem_diagnostic_timing_capture u k i a r p c (sys_inbox x.1) x.2 in
  (foldl queue (x.1 <| sys_inbox := fin o |>) (eff o), clk o).

(** What the calls of a work handler do to the rest of the system.  The captures of a write
    are stamped from the readings that follow those of the writer. *)
Definition perform (x : system * nat) (e : effect) : system * nat :=
  match e with
  | boot_diagnostics_persist => save_counter x
  | settings_write name value => save_one name value x
  | log_record_timing u k i a r p c => log_call (call_timing u k i a r p c) x
  | _ => (queue x.1 e, x.2)
  end.

(** [during] is what other threads record while the flash write runs. *)
Definition persist_work_handler (during : list record_call) (s : system) (t : nat) : system * nat :=
  let r := totem_host_event_log_persist real during (sys_journal s) t in
  foldl perform (s <| sys_journal := fin r |> <| persist_queued := false |>, clk r) (eff r).
Definition timing_work_handler (s : system) (t : nat) : system * nat :=
  let r := timing_drain (sys_inbox s) t in
  foldl perform (s <| sys_inbox := fin r |> <| timing_queued := false |>, clk r) (eff r).
End code.

Section steps.
Context `{!Config} `{!Clock} `{!Crc32} `{!View}.

(** What disturbs a run of the writer: records made while it writes, and a failed write. *)
Definition trouble (real : string -> list Z -> Z) (during : list record_call) (j : journal) : nat :=
  length during + (if write_result real j =? 0 then 0 else 1).

(** The work queue runs a queued item, the delayed one not before its delay has passed.  A
    drain is one turn; captures come before or after it. *)
Inductive turn : nat -> system * nat -> system * nat -> Prop :=
| turn_persist real during s t t' :
    persist_queued s = true -> (t <= t')%nat -> due (sys_journal s) t' ->
    turn (trouble real during (sys_journal s)) (s, t) (persist_work_handler real during s t')
| turn_timing real s t t' :
    timing_queued s = true -> (t <= t')%nat -> turn 0 (s, t) (timing_work_handler real s t').
(** Another thread records, another context captures. *)
Inductive other : system * nat -> system * nat -> Prop :=
| other_record c s t t' : (t <= t')%nat -> other (s, t) (log_call c (s, t'))
| other_capture u k i a r p c s t t' : (t <= t')%nat -> other (s, t) (capture u k i a r p c (s, t')).

(** [run n m]: [n] turns of the work queue with [m] disturbances in between. *)
Inductive run : nat -> nat -> system * nat -> system * nat -> Prop :=
| run_done x : run 0 0 x x
| run_turn n m k x y z : turn k x y -> run n m y z -> run (S n) (k + m) x z
| run_other n m x y z : other x y -> run n m y z -> run n (S m) x z.
End steps.

(** ** The load of the system *)
Section load.
Context `{!Config} `{!Clock} `{!Crc32} `{!View}.
Implicit Types (s : system) (i : timing) (j : journal) (t : nat).

(** Records above the persisted mark, and records a drain will add (a notice for the drops). *)
Definition unsaved j : Z := ring_seq j - persisted_event_seq j.
Definition backlog i : Z := timing_count i + (if timing_dropped i =? 0 then 0 else 1).
Definition load s : Z := unsaved (sys_journal s) + backlog (sys_inbox s).

(** Two for each turn of the work queue that is left at most; a writer that is not queued
    leaves a full inbox of records alone. *)
Definition credit s : Z :=
  (if persist_queued s then load s + 4 else Z.max 0 (load s - (TIMING_CAP + 1))) + 2 * b2z (timing_queued s).

Lemma backlog_nonneg i : Inbox.wf i -> 0 <= backlog i <= TIMING_CAP + 1.
Proof. unfold backlog. intros (_&_&?&?&_). case_match; lia. Qed.

(** A capture adds at most one record to what a drain will log. *)
Lemma capture_backlog u k a c r p x i t :
  Inbox.wf i ->
  wp (totem_diagnostic_timing_capture u k a c r p x) (fun _ i' t' es =>
    Inbox.wf i' /\ backlog i' <= backlog i + 1 /\ t' = t /\ es = [k_work_submit timing_work]) i t.
Proof.
  intros Hwf. wp_use capture_queued; [done|].
  intros [] i' t' es (Hwf'&->&->&_&Hq). split_and!; try done.
  pose proof (length_queued _ Hwf) as Hl. pose proof (length_queued _ Hwf') as Hl'. pose proof Hwf as (_&_&_&?&_).
  unfold backlog. destruct (timing_count i <? TIMING_CAP); destruct Hq as [Hq Hd]; rewrite Hq in Hl'.
  - rewrite length_app in Hl'. cbn in Hl'. rewrite Hd. lia.
  - rewrite Hd. repeat case_match; unfold UINT8_MAX in *; lia.
Qed.
Lemma timing_capture_backlog k a c r p x i t :
  Inbox.wf i ->
  wp (timing_capture k a c r p x) (fun _ i' t' es =>
    Inbox.wf i' /\ backlog i' <= backlog i + 1 /\ t' = S t /\ es = [k_work_submit timing_work]) i t.
Proof. intros Hwf. unfold timing_capture. wp_steps. by wp_use capture_backlog. Qed.

Lemma save_backlog real name value i t :
  Inbox.wf i ->
  wp (__wrap_settings_save_one real name value) (fun err i' t' es =>
    err = real name value /\ Inbox.wf i' /\ backlog i' <= backlog i + 2 /\ t' = S (S t) /\
    es = [k_work_submit timing_work; settings_write name value; k_work_submit timing_work]) i t.
Proof.
  intros Hwf. unfold __wrap_settings_save_one. wp_steps.
  wp_use timing_capture_backlog; [exact Hwf|]. intros [] i1 t1 es1 (Hwf1&Hb1&->&->).
  change (backlog (i <| write_sequence := _ |>)) with (backlog i) in Hb1. wp_steps.
  wp_use timing_capture_backlog; [done|]. intros [] i2 t2 es2 (Hwf2&Hb2&->&->). wp_steps.
  split_and!; try done; lia.
Qed.
(** What the saves of a writer run change: only the inbox grows, by [n] records at most. *)
Definition observed (n : Z) (x x' : system * nat) : Prop :=
  Inbox.wf (sys_inbox x'.1) /\ backlog (sys_inbox x'.1) <= backlog (sys_inbox x.1) + n /\
  sys_journal x'.1 = sys_journal x.1 /\ persist_queued x'.1 = persist_queued x.1 /\ (x.2 <= x'.2)%nat /\
  (timing_queued x.1 = true -> timing_queued x'.1 = true) /\
  (backlog (sys_inbox x'.1) <= backlog (sys_inbox x.1) \/ timing_queued x'.1 = true).

Lemma save_one_observed real name value x :
  Inbox.wf (sys_inbox x.1) ->
  observed 2 x (save_one real name value x) /\ timing_queued (save_one real name value x).1 = true.
Proof.
  intros Hwf. destruct (save_backlog real name value (sys_inbox x.1) x.2 Hwf) as (_&Hwf'&Hb&Ht&He).
  unfold observed, save_one. rewrite He, Ht. cbn. split_and!; try done; [lia|by right].
Qed.

Lemma save_counter_observed real x :
  Inbox.wf (sys_inbox x.1) -> observed 2 x (save_counter real x).
Proof.
  intros Hwf. unfold save_counter, Boot.totem_boot_diagnostics_persist, bind, get.
  cbn [val fin clk eff]. set (err := real _ _). destruct (Boot.counter_pending _); cbn -[save_one].
  - assert (forall y, sys_inbox y.1 = sys_inbox x.1 -> sys_journal y.1 = sys_journal x.1 ->
      persist_queued y.1 = persist_queued x.1 -> timing_queued y.1 = timing_queued x.1 -> y.2 = x.2 ->
      observed 2 x (save_one real "tboot/count" (Boot.counter_bytes (sys_boot x.1)) y)) as Hy.
    { intros y Hi Hj Hp Hq Ht. assert (Inbox.wf (sys_inbox y.1)) as Hwy by by rewrite Hi.
      pose proof (save_one_observed real "tboot/count" (Boot.counter_bytes (sys_boot x.1)) y Hwy) as [Ho _].
      unfold observed in *. by rewrite Hi, Hj, Hp, Hq, Ht in Ho. }
    destruct (err =? 0); cbn -[save_one]; by apply Hy.
  - unfold observed. cbn. split_and!; try done; [lia|left; lia].
Qed.

Lemma observed_trans n m x y z : observed n x y -> observed m y z -> observed (n + m) x z.
Proof. unfold observed. intros. destruct_and!. split_and!; try done; [lia|congruence..|lia|tauto|]. intuition lia. Qed.

(** ** A run of the writer *)
Lemma saves_observed real j x :
  Inbox.wf (sys_inbox x.1) ->
  let y := foldl (perform real) x [boot_diagnostics_persist; write_effect j] in
  observed 4 x y /\ timing_queued y.1 = true.
Proof.
  intros Hwf. unfold write_effect. cbn -[save_one save_counter].
  pose proof (save_counter_observed real x Hwf) as Ho.
  destruct (save_one_observed real (settings_key (next_slot j)) (block_bytes (next_block j)) (save_counter real x))
    as [Ho' Hq]; [apply Ho|].
  split; [|exact Hq]. by apply (observed_trans 2 2 _ _ _ Ho).
Qed.

(** Requests for the writer only queue it. *)
Lemma queue_arms s es :
  arms_only es -> foldl queue s es = s <| persist_queued := persist_queued s || negb (bool_decide (es = [])) |>.
Proof.
  unfold arms_only. intros Hes. revert s. induction Hes as [|e es (w&_&He) _ IH]; intros s.
  { cbn. rewrite orb_false_r. by destruct s. }
  assert (queue s e = s <| persist_queued := true |>) as Hq by (by destruct He as [->| ->]).
  cbn [foldl]. rewrite Hq, IH. rewrite (bool_decide_eq_false_2 (e :: es = [])) by done.
  cbn. by rewrite orb_true_r.
Qed.
Lemma perform_arms real s t es : arms_only es -> foldl (perform real) (s, t) es = (foldl queue s es, t).
Proof.
  unfold arms_only. intros Hes. revert s. induction Hes as [|e es (w&_&He) _ IH]; intros s; [done|].
  cbn [foldl]. destruct He as [->| ->]; apply IH.
Qed.

(** The calls of a run that ended in state [j'], with its delay rearmed or not. *)
Lemma persist_calls real j j' i b p q t es1 es2 :
  Inbox.wf i -> arms_only es1 -> rearmed j' t es2 -> p = (persisted_event_seq j' <? ring_seq j') ->
  (p = false -> es1 = [] /\ persist_requested j' = false) ->
  let x := foldl (perform real) (System j' i b false q, t) (es1 ++ [boot_diagnostics_persist; write_effect j] ++ es2) in
  sys_journal x.1 = j' /\ Inbox.wf (sys_inbox x.1) /\ (t <= x.2)%nat /\
  backlog (sys_inbox x.1) <= backlog i + 4 /\ timing_queued x.1 = true /\ persist_queued x.1 = p.
Proof.
  intros Hwi Hes1 Hre Hp Hnone x. unfold x. clear x. rewrite foldl_app, perform_arms, queue_arms by done.
  set (s1 := _ <| persist_queued := _ |>).
  assert (persist_queued s1 = negb (bool_decide (es1 = []))) as Hp1 by done.
  destruct (saves_observed real j (s1, t) Hwi) as [(Hwi'&Hb'&Hj2&Hpq&Hclk&_) Htq].
  rewrite foldl_app. revert Hwi' Hb' Hj2 Hpq Hclk Htq.
  generalize (foldl (perform real) (s1, t) [boot_diagnostics_persist; write_effect j]).
  intros y. cbn [fst snd]. rewrite Hp1. change (sys_inbox s1) with i. change (sys_journal s1) with j'. intros.
  unfold rearmed in Hre. rewrite <- Hp in Hre. destruct p.
  - rewrite orb_true_r in Hre. destruct Hre as (w&n&->&_). done.
  - destruct (Hnone eq_refl) as [-> Hreq]. rewrite Hreq in Hre. cbn in Hre. by rewrite Hre.
Qed.

Lemma persist_run_pending real during j i b q base hist t f :
  Inv base hist j t f -> Inbox.wf i -> due j t -> persisted_event_seq j < ring_seq j ->
  ring_seq j + Z.of_nat (length during) + 1 < 2 ^ 32 -> journal_seq j + 1 < 2 ^ 32 ->
  let x := persist_work_handler real during (System j i b true q) t in
  let j' := sys_journal x.1 in
  (exists hist' f', Inv base hist' j' x.2 f') /\ Inbox.wf (sys_inbox x.1) /\
  ring_seq j' = ring_seq j + Z.of_nat (length during) /\ journal_seq j' <= journal_seq j + 1 /\
  persisted_event_seq j' = (if write_result real j =? 0 then first_pending j + batch_size j - 1 else persisted_event_seq j) /\
  backlog (sys_inbox x.1) <= backlog i + 4 /\ timing_queued x.1 = true /\
  persist_queued x.1 = (persisted_event_seq j' <? ring_seq j').
Proof.
  intros Hinv Hwi Hdue Hlt Hq Hjq. pose proof Hinv as [Hwf Hck Hr _ _ _ _ _].
  assert (pending j) as Hp by by eapply inv_pending. pose proof (batch_size_range j Hwf Hp) as Hsz.
  pose proof (persist_writes real during j t Hwf Hck Hr Hdue Hp Hq) as Hw.
  pose proof (step_exec real (op_persist during) base hist j t f Hinv Hq Hjq) as (evs&_&Hinv'&_&Hj'&_).
  cbn [exec] in Hinv', Hj'. unfold wp in Hw. cbv zeta in Hw |- *. unfold persist_work_handler.
  change (set_field persist_queued _ _) with
    (System (fin (totem_host_event_log_persist real during j t)) i b false q). cbn [sys_journal].
  revert Hw Hinv' Hj'. generalize (totem_host_event_log_persist real during j t).
  intros r (_&Hs&Ht&_&(_&_&_&Hseq)&(es1&es2&He&Hes1&Hes2)&Hd) Hinv' Hj'.
  assert (persisted_event_seq (fin r) = if write_result real j =? 0 then first_pending j + batch_size j - 1
    else persisted_event_seq j) as Hp' by (destruct Hs as (_&_&Hs); by destruct (_ =? 0); destruct Hs as (->&_)).
  assert (exists es1 es2, eff r = es1 ++ [boot_diagnostics_persist; write_effect j] ++ es2 /\ arms_only es1 /\
    rearmed (fin r) (clk r) es2 /\ ((persisted_event_seq (fin r) <? ring_seq (fin r)) = false ->
      es1 = [] /\ persist_requested (fin r) = false)) as (es1'&es2'&He'&Hes1'&Hes2'&Hnone).
  { destruct (persisted_event_seq (fin r) <? ring_seq (fin r)) eqn:Hmore; [by exists es1, es2|].
    rewrite Hp' in Hmore. destruct (Z.eqb_spec (write_result real j) 0) as [Herr|]; [|lia].
    destruct during; [|cbn [length] in Hseq; lia]. destruct (Hd eq_refl Herr) as (Hreq&es&He'&Hre).
    exists [], es. split; [done|]. split; [constructor|]. split; [done|]. intros _. split; [done|].
    by rewrite Hreq. }
  destruct (persist_calls real j (fin r) i b _ q (clk r) es1' es2' Hwi Hes1' Hes2' eq_refl Hnone)
    as (Hj2&Hwi'&Hclk&Hb'&Htq&Hpq).
  rewrite He'. revert Hj2 Hwi' Hclk Hb' Htq Hpq. generalize (foldl (perform real) (System (fin r) i b false q, clk r)
    (es1' ++ [boot_diagnostics_persist; write_effect j] ++ es2')).
  intros y -> Hwi' Hclk Hb' Htq Hpq. split; [|split_and!; done || lia].
  exists (hist ++ evs), (commit_all real f (eff r)). by eapply inv_later.
Qed.

(** ** A run of the drain, and the records of others *)
Lemma log_call_inv c base hist j t f i b p q :
  Inv base hist j t f -> ring_seq j + 1 < 2 ^ 32 ->
  let x := log_call c (System j i b p q, t) in
  exists j' p', x.1 = System j' i b p' q /\ (exists hist', Inv base hist' j' x.2 f) /\ (t <= x.2)%nat /\
    ring_seq j' = ring_seq j + 1 /\ same_store j j' /\ (p' = false -> p = false) /\
    (match c with call_timing _ _ _ _ _ _ _ => p' = p /\ x.2 = t | _ => True end).
Proof.
  intros Hinv Hq. pose proof Hinv as [Hwf Hck _ _ _ _ _ _].
  destruct (run_call_spec c j t Hwf Hck Hq) as (Hwf'&Hss&Ht&Hes&e&Hrg&n&_&He). cbv zeta. unfold log_call.
  cbn [sys_journal fst snd]. change (set_field sys_journal _ _) with (System (fin (run_call c j t)) i b p q).
  assert (ring_seq (fin (run_call c j t)) = ring_seq j + 1) as Hq'.
  { destruct Hrg as (_&_&_&->). cbn. apply u32_small. pose proof (wf_seqs j Hwf). lia. }
  assert (match c with call_timing _ _ _ _ _ _ _ => eff (run_call c j t) = [] /\ clk (run_call c j t) = t | _ => True end)
    as Hquiet by (by destruct c).
  rewrite queue_arms by done. eexists _, _. cbn [fst snd]. split; [done|].
  split; [|split_and!; [done|done|done|destruct p; cbn; congruence|]].
  - exists (hist ++ [e]). apply (inv_records base hist [e] j _ t); try done.
    rewrite (same_ring_retained _ _ Hrg). apply push_retained, Hwf.
  - destruct c; [done|]. destruct Hquiet as [-> ->]. cbn. by rewrite orb_false_r.
Qed.

Lemma logged_run real evs j i b p q base hist t f :
  Inv base hist j t f -> ring_seq j + Z.of_nat (length evs) + 1 < 2 ^ 32 ->
  exists j' hist',
    foldl (perform real) (System j i b p q, t) (InboxSpec.logged <$> evs) = (System j' i b p q, t) /\
    Inv base hist' j' t f /\ ring_seq j' = ring_seq j + Z.of_nat (length evs) /\
    journal_seq j' = journal_seq j /\ persisted_event_seq j' = persisted_event_seq j.
Proof.
  revert j hist. induction evs as [|e evs IH]; intros j hist Hinv Hq; cbn [fmap list_fmap foldl].
  { exists j, hist. split_and!; done || (cbn [length]; lia). }
  cbn [perform InboxSpec.logged length] in *.
  set (c := call_timing _ _ _ _ _ _ _).
  destruct (log_call_inv c base hist j t f i b p q Hinv) as (j1&p1&Hx&[hist1 Hinv1]&_&Hq1&(Hp1&Hj1&_)&_&Hpt&Ht); [lia|].
  destruct (log_call c (System j i b p q, t)) as [s1 t1]. cbn [fst snd] in *. subst s1 p1 t1.
  destruct (IH j1 hist1 Hinv1) as (j'&hist'&Hrun&Hinv2&Hq2&Hj2&Hp2); [lia|].
  exists j', hist'. split; [exact Hrun|]. split; [exact Hinv2|]. split_and!; [lia|congruence..].
Qed.

(** ** Turns *)
(** The state between two turns, when the records up to [goal] are to be stored, after [e] disturbances
    and before [m] more at most. *)
Record sys_ok (goal e m : Z) s t : Prop := {
  ok_journal : exists base hist f, Inv base hist (sys_journal s) t f;
  ok_inbox : Inbox.wf (sys_inbox s);
  ok_drain : 0 < backlog (sys_inbox s) -> timing_queued s = true;
  ok_goal : goal <= ring_seq (sys_journal s);
  ok_count : 0 <= e /\ 0 <= m;
  ok_stored : persist_queued s = false ->
    goal <= persisted_event_seq (sys_journal s) /\ load s <= TIMING_CAP + 1 + e;
  ok_room : ring_seq (sys_journal s) + backlog (sys_inbox s) + 2 * credit s + 61 * m + 2 < 2 ^ 32 /\
    journal_seq (sys_journal s) + credit s + 30 * m < 2 ^ 32;
}.

Lemma inv_unsaved base hist j t f : Inv base hist j t f -> 0 <= unsaved j.
Proof. intros [Hwf _ Hr _ _ _ _ _]. assert (persisted_event_seq j <= ring_seq j) by by apply Hwf. unfold unsaved. lia. Qed.

Lemma load_nonneg g e m s t : sys_ok g e m s t -> 0 <= unsaved (sys_journal s) /\ 0 <= load s.
Proof.
  intros [(base&hist&f&Hinv) Hwi _ _ _ _ _]. pose proof (inv_unsaved _ _ _ _ _ Hinv).
  pose proof (backlog_nonneg _ Hwi). unfold load. lia.
Qed.
Lemma credit_nonneg g e m s t : sys_ok g e m s t -> 0 <= credit s.
Proof.
  intros Hok. destruct (load_nonneg _ _ _ _ _ Hok). unfold credit.
  destruct (persist_queued s), (timing_queued s); cbn [b2z]; lia.
Qed.

Lemma ok_later g e m s t t' : sys_ok g e m s t -> (t <= t')%nat -> sys_ok g e m s t'.
Proof.
  intros [(base&hist&f&Hinv) ? ? ? ? ? ?] Ht. split; try done. exists base, hist, f. by eapply inv_later.
Qed.

Lemma drain_turn real g e m s t t' :
  sys_ok g e m s t -> (t <= t')%nat -> timing_queued s = true ->
  let x := timing_work_handler real s t' in
  sys_ok g e m x.1 x.2 /\ credit x.1 + 2 <= credit s.
Proof.
  intros Hok Ht Hq. pose proof (credit_nonneg _ _ _ _ _ Hok) as Hcr.
  destruct Hok as [(base&hist&f&Hinv) Hwi _ Hg [He0 Hm0] Hst [Hr1 Hr2]].
  destruct s as [j i b p q]. cbn [sys_journal sys_inbox persist_queued timing_queued] in *.
  assert (length (queued i) < S (Z.to_nat TIMING_CAP))%nat as Hlen.
  { pose proof (length_queued i Hwi). destruct Hwi as (_&_&?&_). unfold TIMING_CAP in *. lia. }
  destruct (InboxProps.drain_turns_spec (S (Z.to_nat TIMING_CAP)) i t' Hwi Hlen) as (Hwi'&_&Hq'&Hd'&He&Ht').
  cbv zeta. unfold timing_work_handler. cbn [sys_inbox].
  change (timing_drain i t') with (timing_drain_turns (S (Z.to_nat TIMING_CAP)) [] i t').
  revert Hwi' Hq' Hd' He Ht'. generalize (timing_drain_turns (S (Z.to_nat TIMING_CAP)) [] i t').
  intros r Hwi' Hq' Hd' He Ht'. set (evs := _ ++ _) in He.
  assert (Z.of_nat (@length event evs) = backlog i) as Hevs.
  { change (@length event evs) with (@length timing_record evs). unfold evs, backlog, InboxProps.drops_notice. rewrite length_app, Nat2Z.inj_add, length_queued by done.
    by destruct (timing_dropped i =? 0). }
  assert (backlog (fin r) = 0) as Hb'.
  { pose proof (length_queued _ Hwi') as Hl. rewrite Hq' in Hl. unfold backlog. rewrite Hd', <- Hl. done. }
  change (set_field timing_queued _ _) with (System j (fin r) b p false). rewrite He.
  destruct (logged_run real evs j (fin r) b p false base hist (clk r) f) as (j'&hist'&->&Hinv'&Hq2&Hj2&Hp2);
    [by apply (inv_later _ _ _ t); [|lia]|lia|].
  assert (load (System j' (fin r) b p false) = load (System j i b p q)) as Hload.
  { unfold load, unsaved. cbn [sys_journal sys_inbox]. lia. }
  assert (credit (System j' (fin r) b p false) = credit (System j i b p q) - 2) as Hc.
  { unfold credit. rewrite Hload, Hq. cbn [persist_queued timing_queued b2z]. lia. }
  cbn [fst snd]. split; [|lia].
  split; rewrite ?Hload, ?Hc; cbn [sys_journal sys_inbox persist_queued timing_queued]; try done; try lia.
  - by exists base, hist', f.
  - intros Hp. rewrite Hp2. by apply Hst.
Qed.

(** A block takes at least eight records off, or all that were there. *)
Lemma writes_down j j' d :
  persisted_event_seq j < ring_seq j -> ring_seq j' = ring_seq j + d -> 0 <= d ->
  persisted_event_seq j' = first_pending j + batch_size j - 1 ->
  unsaved j' <= unsaved j + d - 8 \/ unsaved j' = d.
Proof.
  pose proof block_events_range. unfold unsaved, batch_size, first_pending. lia.
Qed.

Lemma persist_turn_pending real during g e m j i b q base hist t f :
  sys_ok g e m (System j i b true q) t -> Inv base hist j t f -> due j t -> persisted_event_seq j < ring_seq j ->
  Z.of_nat (trouble real during j) <= m ->
  let x := persist_work_handler real during (System j i b true q) t in
  let k := Z.of_nat (trouble real during j) in
  sys_ok g (e + k) (m - k) x.1 x.2 /\ credit x.1 + 2 <= credit (System j i b true q) + 30 * k.
Proof.
  intros [_ Hwi _ Hg [He0 Hm0] _ [Hr1 Hr2]] Hinv Hdue Hlt Hk. unfold trouble in *. rewrite Nat2Z.inj_add in *. cbv zeta.
  remember (Z.of_nat (length during)) as d eqn:Hdd. assert (0 <= d) as Hd by lia.
  remember (Z.of_nat (if write_result real j =? 0 then 0 else 1)) as k eqn:Hkk.
  assert (if write_result real j =? 0 then k = 0 else k = 1) as Hk1 by (by destruct (_ =? 0)).
  assert (0 <= k) as Hk0 by lia.
  unfold credit, load in *. cbn [sys_journal sys_inbox persist_queued timing_queued] in *.
  pose proof (inv_unsaved _ _ _ _ _ Hinv) as Hu. pose proof (backlog_nonneg i Hwi) as Hb.
  assert (0 <= b2z q) as Hq0 by (by destruct q).
  destruct (persist_run_pending real during j i b q base hist t f Hinv Hwi Hdue Hlt)
    as ((hist'&f'&Hinv')&Hwi'&Hq'&Hj'&Hp'&Hb'&Htq&Hpq); [lia|lia|].
  rewrite <- Hdd in Hq'. revert Hinv' Hwi' Hq' Hj' Hp' Hb' Htq Hpq.
  generalize (persist_work_handler real during (System j i b true q) t). intros x. intros.
  pose proof (backlog_nonneg _ Hwi') as Hbx. pose proof (inv_unsaved _ _ _ _ _ Hinv') as Hux.
  assert (unsaved j = ring_seq j - persisted_event_seq j /\ unsaved (sys_journal x.1) =
    ring_seq (sys_journal x.1) - persisted_event_seq (sys_journal x.1)) as [Huj Huj'] by done.
  assert (persist_queued x.1 = false -> unsaved (sys_journal x.1) = 0) as Hall by (intros Hx; rewrite Hx in Hpq; lia).
  assert ((if persist_queued x.1 then unsaved (sys_journal x.1) + backlog (sys_inbox x.1) + 4
    else Z.max 0 (unsaved (sys_journal x.1) + backlog (sys_inbox x.1) - (TIMING_CAP + 1))) + 4 <=
    unsaved j + backlog i + 4 + 30 * (d + k)) as Hcr.
  { destruct (persist_queued x.1); [|specialize (Hall eq_refl); lia].
    destruct (write_result real j =? 0); [|lia].
    destruct (writes_down j (sys_journal x.1) d Hlt Hq' Hd Hp'); lia. }
  rewrite Htq. cbn [b2z]. split; [|lia].
  split; unfold credit, load; try done; [by exists base, hist', f'|lia|lia| |].
  - intros Hx. specialize (Hall Hx). lia.
  - rewrite Htq. cbn [b2z]. lia.
Qed.

(** Without unsaved records the writer only clears its request. *)
Lemma persist_turn_idle real during g e m j i b q base hist t f k :
  sys_ok g e m (System j i b true q) t -> Inv base hist j t f -> due j t -> ~ persisted_event_seq j < ring_seq j ->
  0 <= k <= m ->
  let x := persist_work_handler real during (System j i b true q) t in
  sys_ok g (e + k) (m - k) x.1 x.2 /\ credit x.1 + 2 <= credit (System j i b true q) + 30 * k.
Proof.
  intros [_ Hwi Hdr Hg [He0 Hm0] _ [Hr1 Hr2]] Hinv Hdue Hge Hk.
  cbn [sys_journal sys_inbox timing_queued] in *. unfold credit, load in *.
  cbn [sys_journal sys_inbox persist_queued timing_queued] in *.
  pose proof Hinv as [Hwf _ Hr _ _ _ _ _].
  pose proof (inv_unsaved _ _ _ _ _ Hinv) as Hu. pose proof (backlog_nonneg i Hwi) as Hb.
  assert (0 <= b2z q) as Hq0 by (by destruct q).
  assert (~ pending j) as Hp by (by rewrite (inv_pending _ _ _ _ _ Hinv)).
  pose proof (persist_idle real during j t Hwf Hr Hdue Hp ltac:(lia)) as (Hj'&Ht'&He').
  assert (persist_work_handler real during (System j i b true q) t =
    (System (j <| persist_requested := false |>) i b false q, S t)) as ->.
  { unfold persist_work_handler. cbn [sys_journal]. by rewrite Hj', Ht', He'. }
  cbn [fst snd persist_queued timing_queued sys_journal sys_inbox].
  change (unsaved (j <| persist_requested := false |>)) with (unsaved j). unfold unsaved in *. split; [|lia].
  split; unfold credit, load; cbn [sys_journal sys_inbox persist_queued timing_queued]; try done; try lia.
  - exists base, hist, f. apply (inv_request _ _ _ _ t); [done|lia].
  - intros _. cbn. unfold unsaved. cbn. lia.
  - change (unsaved (j <| persist_requested := false |>)) with (ring_seq j - persisted_event_seq j). cbn. lia.
Qed.

(** What another thread or context does in between. *)
Lemma other_ok g e m s t x :
  sys_ok g e m s t -> 1 <= m -> other (s, t) x ->
  sys_ok g (e + 1) (m - 1) x.1 x.2 /\ credit x.1 <= credit s + 30.
Proof.
  intros Hok Hm Hstep. destruct (load_nonneg _ _ _ _ _ Hok) as [Hu Hl]. pose proof (credit_nonneg _ _ _ _ _ Hok) as Hcr.
  inversion Hstep as [c s0 t0 t' Ht|u k a r p c v s0 t0 t' Ht]; subst; clear Hstep;
    apply (ok_later _ _ _ _ _ t') in Hok; try done; destruct s as [j i b pq tq];
    destruct Hok as [(base&hist&f&Hinv) Hwi Hdr Hg [He0 Hm0] Hst [Hr1 Hr2]];
    cbn [sys_journal sys_inbox persist_queued timing_queued] in *; pose proof (backlog_nonneg i Hwi) as Hb.
  - destruct (log_call_inv c base hist j t' f i b pq tq Hinv) as (j'&p'&Hx&[hist' Hinv']&_&Hq&(Hp&Hj&_)&Hpp&_); [lia|].
    destruct (log_call c (System j i b pq tq, t')) as [s1 t1]. cbn [fst snd] in *. subst s1.
    assert (load (System j' i b p' tq) = load (System j i b pq tq) + 1) as Hload.
    { unfold load, unsaved. cbn [sys_journal sys_inbox]. lia. }
    assert (credit (System j' i b p' tq) <= credit (System j i b pq tq) + 30) as Hc.
    { unfold credit. rewrite Hload. cbn [persist_queued timing_queued]. unfold TIMING_CAP.
      destruct p', pq; try lia; by specialize (Hpp eq_refl). }
    split; [|done]. split; rewrite ?Hload; cbn [sys_journal sys_inbox persist_queued timing_queued]; try done; try lia.
    + by exists base, hist', f.
    + intros ->. specialize (Hst (Hpp eq_refl)). lia.
  - unfold capture. cbn [fst snd sys_inbox].
    destruct (capture_backlog u k a r p c v i t' Hwi) as (Hwi'&Hb'&Hclk&He). rewrite He, Hclk. cbn [foldl queue].
    set (i' := fin _) in *. change (set_field timing_queued _ _) with (System j i' b pq true).
    pose proof (backlog_nonneg i' Hwi'). cbn [fst snd].
    assert (load (System j i' b pq true) <= load (System j i b pq tq) + 1) as Hload.
    { unfold load. cbn [sys_journal sys_inbox]. lia. }
    assert (credit (System j i' b pq true) <= credit (System j i b pq tq) + 30) as Hc.
    { unfold credit. cbn [persist_queued timing_queued b2z]. destruct pq, tq; cbn [b2z]; lia. }
    split; [|done]. split; cbn [sys_journal sys_inbox persist_queued timing_queued]; try done; try lia.
    + by exists base, hist, f.
    + intros ->. specialize (Hst eq_refl). lia.
Qed.

Lemma turn_ok g e m s t k x :
  sys_ok g e m s t -> Z.of_nat k <= m -> turn k (s, t) x ->
  sys_ok g (e + Z.of_nat k) (m - Z.of_nat k) x.1 x.2 /\ credit x.1 + 2 <= credit s + 30 * Z.of_nat k.
Proof.
  intros Hok Hk Hturn. inversion Hturn as [real during s0 t0 t' Hp Ht Hdue|real s0 t0 t' Hq Ht]; subst.
  2: { destruct (drain_turn real g e m s t t' Hok Ht Hq) as [Hx Hc]. change (Z.of_nat 0) with 0. rewrite Z.add_0_r, Z.sub_0_r, Z.mul_0_r, Z.add_0_r.
       split; [done|lia]. }
  apply (ok_later _ _ _ _ _ t') in Hok; [|done].
  destruct (ok_journal _ _ _ _ _ Hok) as (base&hist&f&Hinv). destruct s as [j i b p q]. cbn in Hp. subst p.
  cbn [sys_journal] in *. destruct (decide (persisted_event_seq j < ring_seq j)).
  - by eapply persist_turn_pending.
  - eapply persist_turn_idle; try done. lia.
Qed.

Lemma disturbed_run_ok g n m x y e b :
  run n m x y -> sys_ok g e b x.1 x.2 -> Z.of_nat m <= b ->
  sys_ok g (e + Z.of_nat m) (b - Z.of_nat m) y.1 y.2 /\
  credit y.1 + 2 * Z.of_nat n <= credit x.1 + 30 * Z.of_nat m.
Proof.
  intros Hrun. revert e b. induction Hrun as [x|n m k [s t] y z Hturn _ IH|n m [s t] y z Hother _ IH]; intros e b Hok Hm.
  - cbn. rewrite Z.add_0_r, Z.sub_0_r. split; [done|lia].
  - destruct (turn_ok g e b s t k y Hok ltac:(lia) Hturn) as [Hy Hc]. destruct (IH _ _ Hy) as [Hz Hc']; [lia|].
    cbn [fst snd] in *. rewrite Nat2Z.inj_add, Z.add_assoc, Z.sub_add_distr. split; [done|lia].
  - destruct (other_ok g e b s t y Hok ltac:(lia) Hother) as [Hy Hc]. destruct (IH _ _ Hy) as [Hz Hc']; [lia|].
    cbn [fst snd] in *. rewrite Nat2Z.inj_succ, <- Z.add_1_l, Z.add_assoc, Z.sub_add_distr. split; [done|lia].
Qed.

(** Some queued item can run, given time. *)
Lemma turn_possible s t :
  (forall ms, exists u, ms <= uptime u) -> persist_queued s || timing_queued s = true ->
  exists k y, turn k (s, t) y.
Proof.
  intros Hclock Hq. destruct (timing_queued s) eqn:Htq.
  { exists 0%nat, (timing_work_handler (fun _ _ => 0) s t). by apply turn_timing. }
  rewrite orb_false_r in Hq.
  destruct (Hclock (last_persist_uptime_ms (sys_journal s) + PERSIST_MIN_INTERVAL_MS)) as [u Hu].
  eexists _, (persist_work_handler (fun _ _ => 0) [] s (Nat.max t u)). apply turn_persist; [done|lia|].
  right. pose proof (uptime_mono u (Nat.max t u) ltac:(lia)). lia.
Qed.

(** C8 The journal settles although it observes itself.  Every flash write of the writer, and the
    save of the boot counter with it, puts two records about itself into the inbox, which the
    drain adds to the journal.  Start from any reached journal with the writer queued, and let the
    work queue run the writer and the drain in any order, with [m] disturbances at any point: records
    of other threads, also while the flash is written, captures of any context between the turns,
    failed writes.  Call load the records above the persisted mark together with those the inbox
    will add.  Then there are at most half as many turns as the load, three more, and fifteen for
    each disturbance; as long as one of the items is queued a turn is possible; and when none is,
    the persisted mark has passed every record from before the run (the writer has stored it,
    unless the ring had overwritten it before the writer came to it), and it is behind by no more
    than a full inbox, one notice and one record for each disturbance. *)
Theorem journal_settles s t base hist (f : gmap string (list Z)) n m s' t' :
  Inv base hist (sys_journal s) t f -> Inbox.wf (sys_inbox s) ->
  (0 < backlog (sys_inbox s) -> timing_queued s = true) -> persist_queued s = true ->
  (forall ms, exists u, ms <= uptime u) -> run n m (s, t) (s', t') ->
  ring_seq (sys_journal s) + 3 * load s + 61 * Z.of_nat m + 20 < 2 ^ 32 ->
  journal_seq (sys_journal s) + load s + 30 * Z.of_nat m + 7 < 2 ^ 32 ->
  Z.of_nat n <= load s / 2 + 3 + 15 * Z.of_nat m /\
  if persist_queued s' || timing_queued s' then exists k y, turn k (s', t') y
  else ring_seq (sys_journal s) <= persisted_event_seq (sys_journal s') /\
       unsaved (sys_journal s') <= TIMING_CAP + 1 + Z.of_nat m.
Proof.
  intros Hinv Hwi Hdr Hp Hclock Hrun Hq Hj.
  pose proof (inv_unsaved _ _ _ _ _ Hinv) as Hu. pose proof (backlog_nonneg _ Hwi) as Hb.
  assert (credit s <= load s + 6) as Hc by (unfold credit; rewrite Hp; destruct (timing_queued s); cbn [b2z]; lia).
  assert (sys_ok (ring_seq (sys_journal s)) 0 (Z.of_nat m) s t) as Hok.
  { split; try done; [by exists base, hist, f|lia|congruence|unfold load in *; lia]. }
  destruct (disturbed_run_ok _ n m (s, t) (s', t') _ _ Hrun Hok) as [Hok' Hle]; [lia|]. cbn [fst snd] in *.
  pose proof (credit_nonneg _ _ _ _ _ Hok'). split; [Z.to_euclidean_division_equations; lia|].
  destruct (persist_queued s' || timing_queued s') eqn:Hq'; [by apply turn_possible|].
  apply orb_false_iff in Hq' as [Hp' _]. destruct Hok' as [_ Hwi' _ _ _ Hst _].
  destruct (Hst Hp') as [Hg Hl]. split; [done|]. pose proof (backlog_nonneg _ Hwi'). unfold load in Hl. lia.
Qed.
End load.

(** Forty records of a first boot, nothing stored yet, the boot counter to be saved. *)
#[local] Instance queue_clock : Clock := ticking 100 100.
#[local] Existing Instance ieee_crc.
#[local] Instance queue_view : View := host_view [] 0 false false false ZMK_TRANSPORT_NONE false.
Definition forty : list op := replicate 40 (op_record (call_record TOTEM_HEVT_CONN 1 1 0 0 0)).
Definition boot0 : outcome journal effect () := boot ∅ all_slots [] journal_init 0%nat.
Definition recorded40 : outcome journal effect () :=
  for_each forty (exec (fun _ _ => 0)) (fin boot0) (clk boot0).
Definition busy : system :=
  System (fin recorded40) timing_init (fin (Boot.totem_boot_diagnostics_loaded 0 (-1) (-1) (Boot.boot_init 0 0) 0%nat)) true false.

Lemma journal_settles_witness :
  load busy = 40 /\
  forall n m s' t', (m <= 1000)%nat -> run n m (busy, clk recorded40) (s', t') ->
    Z.of_nat n <= 23 + 15 * Z.of_nat m /\
    if persist_queued s' || timing_queued s' then exists k y, turn k (s', t') y
    else 40 <= persisted_event_seq (sys_journal s') /\ unsaved (sys_journal s') <= 25 + Z.of_nat m.
Proof.
  split; [vm_compute; reflexivity|].
  assert (exists hist f, Inv 0 hist (fin recorded40) (clk recorded40) f) as (hist&f&Hinv).
  { assert (Inv 0 [] (fin boot0) (clk boot0) ∅) as Hboot.
    { destruct (boot_spec ∅ all_slots [] journal_init 0%nat init_wf JournalProps.init_store_ok
        JournalProps.init_flash_of ltac:(done) ltac:(cbn; lia)) as (evs&Hevs&Hinv&_).
      apply Forall2_nil_inv_l in Hevs as ->. exact Hinv. }
    destruct (trace_inv (fun _ _ => 0) forty 0 [] (fin boot0) (clk boot0) ∅ Hboot) as (evs&_&Hinv&_);
      [vm_compute; reflexivity..|]. by eexists _, _. }
  assert (forall ms, exists u, ms <= uptime u) as Hclock.
  { intros ms. exists (Z.to_nat ms). cbn. lia. }
  assert (0 < backlog (sys_inbox busy) -> timing_queued busy = true) as Hquiet by (vm_compute; discriminate).
  intros n m s' t' Hm Hn.
  assert (ring_seq (sys_journal busy) + 3 * load busy < 2 ^ 31) as Hroom by (vm_compute; reflexivity).
  assert (journal_seq (sys_journal busy) + load busy < 2 ^ 31) as Hroom' by (vm_compute; reflexivity).
  exact (journal_settles busy (clk recorded40) 0 hist f n m s' t' Hinv wf_init Hquiet eq_refl Hclock Hn
    ltac:(lia) ltac:(lia)).
Defined.
End JournalQueue.
