(* ===== verification/ExclusiveHost.v ===== *)
(** * Keeping only the active profile's computer (src/exclusive_host.c)

    [Exclusive] is the code: the eviction scan with its guards, the thrash window, the
    ignore window, the Class-A detector and the bond-heal streak.  The text log lines are
    not modelled; the statics that rate-limit them are. *)
From S2P Require Import Prelude Events Platform RingBuffer.

Module Exclusive.

Definition EXCLUSIVE_HOST_RETRY_MS : Z := 150.
Definition EXCLUSIVE_HOST_SETTLE_MS : Z := 2000.
Definition THRASH_RING_SIZE : Z := 16.
Definition CLASS_A_WINDOW_MS : Z := 60000.
Definition CLASS_A_FAIL_THRESHOLD : Z := 3.

(** The static variables of the file. *)
Record host := Host {
  bg_ignore_until : list Z;        (* int64_t[ZMK_BLE_PROFILE_COUNT] *)
  thrash_cap_logged : bool;
  last_active_profile : Z;         (* int *)
  thrash_ring : list Z;            (* int64_t[THRASH_RING_SIZE] *)
  thrash_ring_head : Z;            (* uint8_t *)
  thrash_ring_count : Z;           (* uint8_t *)
  class_a_fail_ts : list Z;        (* int64_t[CLASS_A_FAIL_THRESHOLD] *)
  class_a_fail_count : Z;          (* uint8_t *)
  last_skip_log_ms : Z;            (* static in drop_if_non_active_host *)
  last_ignore_log_ms : Z;          (* static in drop_if_non_active_host *)
  active_auth_fail_streak : Z;     (* uint8_t *)
}.
#[export] Instance host_eta : Eta host := fun s =>
  Host (bg_ignore_until s) (thrash_cap_logged s) (last_active_profile s) (thrash_ring s)
    (thrash_ring_head s) (thrash_ring_count s) (class_a_fail_ts s) (class_a_fail_count s)
    (last_skip_log_ms s) (last_ignore_log_ms s) (active_auth_fail_streak s).

Section code.
Context `{!Config} `{!Clock} `{!View}.

Definition THRASH_WINDOW_MS : Z := CONFIG_TOTEM_THRASH_WINDOW_SEC * 1000.

Definition host_init : host :=
  Host (replicate (Z.to_nat ZMK_BLE_PROFILE_COUNT) 0) false (-1)
    (replicate (Z.to_nat THRASH_RING_SIZE) 0) 0 0
    (replicate (Z.to_nat CLASS_A_FAIL_THRESHOLD) 0) 0 0 0 0.

Definition bg_clear_ignores : proc host effect () :=
  modify (fun s => s <| bg_ignore_until := replicate (Z.to_nat ZMK_BLE_PROFILE_COUNT) 0 |>
                     <| thrash_cap_logged := false |>).

Definition bg_should_ignore (idx : Z) : proc host effect bool :=
  if (idx <? 0) || (ZMK_BLE_PROFILE_COUNT <=? idx) then ret false else
  s <- get ;;
  if aget (bg_ignore_until s) idx =? 0 then ret false else
  now <- k_uptime_get ;;
  ret (now <? aget (bg_ignore_until s) idx).

Definition bg_note_evict (idx : Z) : proc host effect () :=
  if 0 <? CONFIG_TOTEM_BG_EVICT_IGNORE_MS then
    when ((0 <=? idx) && (idx <? ZMK_BLE_PROFILE_COUNT))
      (now <- k_uptime_get ;;
       modify (fun s => s <| bg_ignore_until :=
         aset (bg_ignore_until s) idx (now + CONFIG_TOTEM_BG_EVICT_IGNORE_MS) |>))
  else ret ().

(** The scan of [thrash_win_count], most recent first, with its [break]. *)
Fixpoint thrash_scan (s : host) (now : Z) (l : list Z) : Z :=
  match l with
  | [] => 0
  | i :: l =>
      let idx := u8 ((thrash_ring_head s + THRASH_RING_SIZE - 1 - i) `mod` THRASH_RING_SIZE) in
      if THRASH_WINDOW_MS <? now - aget (thrash_ring s) idx then 0
      else 1 + thrash_scan s now l
  end.

Definition thrash_win_count : proc host effect Z :=
  if CONFIG_TOTEM_THRASH_DETECT then
    now <- k_uptime_get ;;
    s <- get ;;
    ret (thrash_scan s now (seqZ 0 (thrash_ring_count s)))
  else ret 0.

Definition thrash_note_bg_evict : proc host effect () :=
  when CONFIG_TOTEM_THRASH_DETECT
    (now <- k_uptime_get ;;
     modify (fun s =>
       s <| thrash_ring := aset (thrash_ring s) (thrash_ring_head s) now |>
         <| thrash_ring_head := u8 ((thrash_ring_head s + 1) `mod` THRASH_RING_SIZE) |>
         <| thrash_ring_count := if thrash_ring_count s <? THRASH_RING_SIZE
                                 then u8 (thrash_ring_count s + 1) else thrash_ring_count s |>) ;;
     win <- thrash_win_count ;;
     totem_host_event_log_record_call TOTEM_HEVT_THRASH_WIN (-1) zmk_ble_active_profile_index
       win win 0).

Definition thrash_clear : proc host effect () :=
  when CONFIG_TOTEM_THRASH_DETECT
    (modify (fun s => s <| thrash_ring_head := 0 |> <| thrash_ring_count := 0 |>)).

(** The compaction loop: the timestamps inside the window move to the front. *)
Definition class_a_prune (now : Z) (s : host) : Z * list Z :=
  foldl (fun '(kept, ts) i =>
           if now - aget ts i <=? CLASS_A_WINDOW_MS
           then (u8 (kept + 1), aset ts kept (aget ts i)) else (kept, ts))
    (0, class_a_fail_ts s) (seqZ 0 (class_a_fail_count s)).

Definition class_a_shift (ts : list Z) : list Z :=
  foldl (fun ts i => aset ts (i - 1) (aget ts i)) ts (seqZ 1 (CLASS_A_FAIL_THRESHOLD - 1)).

Definition class_a_note_auth_event (is_fail : bool) : proc host effect () :=
  when CONFIG_TOTEM_THRASH_DETECT
    (if negb is_fail then modify (fun s => s <| class_a_fail_count := 0 |>) else
     now <- k_uptime_get ;;
     modify (fun s =>
       let '(kept, ts) := class_a_prune now s in
       s <| class_a_fail_ts := ts |> <| class_a_fail_count := kept |>) ;;
     modify (fun s =>
       if class_a_fail_count s <? CLASS_A_FAIL_THRESHOLD then
         s <| class_a_fail_ts := aset (class_a_fail_ts s) (class_a_fail_count s) now |>
           <| class_a_fail_count := u8 (class_a_fail_count s + 1) |>
       else
         s <| class_a_fail_ts :=
                aset (class_a_shift (class_a_fail_ts s)) (CLASS_A_FAIL_THRESHOLD - 1) now |>) ;;
     win <- thrash_win_count ;;
     s <- get ;;
     when ((CLASS_A_FAIL_THRESHOLD <=? class_a_fail_count s) && (win <? 2))
       (totem_host_event_log_record_call TOTEM_HEVT_CLASS_A_SUSPECT zmk_ble_active_profile_index
          zmk_ble_active_profile_index (class_a_fail_count s) win 0)).

Definition log_host_conn_disc (c : conn) (disc_reason : Z) : proc host effect () :=
  let idx := zmk_ble_profile_index (bt_conn_get_dst c) in
  let active := zmk_ble_active_profile_index in
  let role := match bt_conn_get_info c with Some info => info_role info | None => -1 end in
  tw <- thrash_win_count ;;
  totem_host_event_log_record_call TOTEM_HEVT_DISC idx active disc_reason tw role.

(** The tail of [drop_if_non_active_host]: the kick itself. *)
Definition drop_host (c : conn) (idx active : Z) : proc host effect () :=
  emit (bt_conn_disconnect c EVICT_DISCONNECT_REASON) ;;
  if negb (bt_conn_disconnect_err c EVICT_DISCONNECT_REASON =? 0) then ret () else
  bg_note_evict idx ;;
  thrash_note_bg_evict ;;
  tw <- thrash_win_count ;;
  totem_host_event_log_record_call TOTEM_HEVT_BG_EVICT idx active EVICT_DISCONNECT_REASON tw 0.

Definition drop_if_non_active_host (force : bool) (c : conn) : proc host effect () :=
  match bt_conn_get_info c with
  | None => ret ()
  | Some info =>
  if negb (info_role info =? BT_CONN_ROLE_PERIPHERAL) then ret () else
  if totem_hid_is_usb || totem_usb_cable_up then ret () else
  let idx := zmk_ble_profile_index (bt_conn_get_dst c) in
  let active := zmk_ble_active_profile_index in
  if idx <? 0 then ret () else
  if idx =? active then ret () else
  if CONFIG_TOTEM_EVICT_REQUIRES_BONDED_ACTIVE &&
     (zmk_ble_active_profile_is_open || negb zmk_ble_active_profile_is_connected) then
    now <- k_uptime_get ;;
    s <- get ;;
    when ((last_skip_log_ms s =? 0) || (10000 <=? now - last_skip_log_ms s))
      (modify (fun s => s <| last_skip_log_ms := now |>) ;;
       tw <- thrash_win_count ;;
       totem_host_event_log_record_call TOTEM_HEVT_BG_EVICT idx active 0 tw 1)
  else
  if force then drop_host c idx active else
  ignored <- bg_should_ignore idx ;;
  if ignored then
    (now <- k_uptime_get ;;
     modify (fun s =>
       if (last_ignore_log_ms s =? 0) || (5000 <=? now - last_ignore_log_ms s)
       then s <| last_ignore_log_ms := now |> else s))
  else
  if CONFIG_TOTEM_THRASH_DETECT then
    (win <- thrash_win_count ;;
     if CONFIG_TOTEM_BG_EVICT_CAP <=? win then
       modify (fun s => s <| thrash_cap_logged := true |>)
     else drop_host c idx active)
  else drop_host c idx active
  end.

Definition exclusive_host_evict_all (force : bool) : proc host effect () :=
  for_each le_conns (drop_if_non_active_host force).

Definition exclusive_host_evict_work_handler : proc host effect () :=
  exclusive_host_evict_all false.
Definition exclusive_host_retry_work_handler : proc host effect () :=
  exclusive_host_evict_all false.
Definition exclusive_host_fallback_work_handler : proc host effect () :=
  exclusive_host_evict_all false.

Definition exclusive_host_schedule_retry : proc host effect () :=
  emit (k_work_schedule exclusive_host_retry_work (K_MSEC EXCLUSIVE_HOST_RETRY_MS)).

Definition bond_heal_clear_active_work_handler : proc host effect () :=
  modify (fun s => s <| active_auth_fail_streak := 0 |>) ;;
  emit zmk_ble_clear_bonds.

Definition bond_heal_note_auth_failure : proc host effect () :=
  modify (fun s => s <| active_auth_fail_streak := u8 (active_auth_fail_streak s + 1) |>) ;;
  s <- get ;;
  if active_auth_fail_streak s <? CONFIG_TOTEM_BOND_HEAL_THRESHOLD then ret ()
  else emit (k_work_submit bond_heal_clear_active_work).

Definition bond_heal_note_auth_ok : proc host effect () :=
  modify (fun s => if negb (active_auth_fail_streak s =? 0)
                   then s <| active_auth_fail_streak := 0 |> else s).

Definition exclusive_host_connected (c : conn) (err : Z) : proc host effect () :=
  let idx := zmk_ble_profile_index (bt_conn_get_dst c) in
  let active := zmk_ble_active_profile_index in
  if negb (err =? 0) then
    totem_host_event_log_record_call TOTEM_HEVT_CONN_FAIL idx active err 0 0
  else
    tw <- thrash_win_count ;;
    totem_host_event_log_record_call TOTEM_HEVT_CONN idx active 0 tw 0 ;;
    emit (k_work_submit exclusive_host_evict_work) ;;
    exclusive_host_schedule_retry ;;
    emit (k_work_reschedule exclusive_host_fallback_work (K_MSEC EXCLUSIVE_HOST_SETTLE_MS)).

Definition exclusive_host_security_changed (c : conn) (level err : Z) : proc host effect () :=
  let idx := zmk_ble_profile_index (bt_conn_get_dst c) in
  let active := zmk_ble_active_profile_index in
  tw <- thrash_win_count ;;
  (if negb (err =? 0)
   then totem_host_event_log_record_call TOTEM_HEVT_SEC_FAIL idx active err tw level
   else totem_host_event_log_record_call TOTEM_HEVT_SEC_OK idx active 0 tw level) ;;
  when (idx =? active)
    (if negb (err =? 0) then class_a_note_auth_event true
     else when (BT_SECURITY_L2 <=? level) (class_a_note_auth_event false)) ;;
  when (CONFIG_TOTEM_BOND_HEAL && (idx =? active))
    (if negb (err =? 0) then bond_heal_note_auth_failure
     else when (BT_SECURITY_L2 <=? level) bond_heal_note_auth_ok) ;;
  emit (k_work_submit exclusive_host_evict_work) ;;
  exclusive_host_schedule_retry.

Definition exclusive_host_disconnected (c : conn) (reason : Z) : proc host effect () :=
  log_host_conn_disc c reason ;;
  let idx := zmk_ble_profile_index (bt_conn_get_dst c) in
  when ((idx =? zmk_ble_active_profile_index) && (reason =? BT_HCI_ERR_AUTH_FAIL))
    (class_a_note_auth_event true) ;;
  when (CONFIG_TOTEM_BOND_HEAL &&
        ((reason =? BT_HCI_ERR_AUTH_FAIL) && (idx =? zmk_ble_active_profile_index)))
    bond_heal_note_auth_failure.

Definition exclusive_host_identity_resolved (identity : bt_addr_le_t) : proc host effect () :=
  let idx := zmk_ble_profile_index identity in
  let active := zmk_ble_active_profile_index in
  totem_host_event_log_record_call TOTEM_HEVT_IDENTITY idx active 0 0 0 ;;
  emit (k_work_submit exclusive_host_evict_work) ;;
  exclusive_host_schedule_retry.

Definition exclusive_host_profile_changed : proc host effect () :=
  let active := zmk_ble_active_profile_index in
  s <- get ;;
  let switched := (0 <=? last_active_profile s) && negb (last_active_profile s =? active) in
  modify (fun s => s <| last_active_profile := active |>) ;;
  when switched
    (when CONFIG_TOTEM_BOND_HEAL (modify (fun s => s <| active_auth_fail_streak := 0 |>)) ;;
     thrash_clear ;;
     bg_clear_ignores ;;
     class_a_note_auth_event false) ;;
  totem_host_event_log_record_call TOTEM_HEVT_PROFILE_CHANGED active active
    (b2z zmk_ble_active_profile_is_connected) 0 (b2z zmk_ble_active_profile_is_open) ;;
  emit (k_work_submit exclusive_host_evict_work) ;;
  exclusive_host_schedule_retry.
End code.
End Exclusive.
