(* ===== verification/ExclusiveHostProps.v ===== *)
(** * What the eviction policy guarantees

    Runs of [ExclusiveHost.v] over any sequence of callbacks and work items, each in
    whatever view of the Bluetooth host it finds. *)
From S2P Require Import Prelude Events Platform Samples RingBuffer ExclusiveHost.

Module ThrashWindow.
Import Exclusive.

(** ** The thrash ring as a list of eviction times, most recent first *)
Definition recent (s : host) : list Z :=
  (fun i => aget (thrash_ring s) ((thrash_ring_head s + 15 - i) `mod` 16)) <$>
    seqZ 0 (thrash_ring_count s).

Definition ring_ok (s : host) : Prop :=
  alen (thrash_ring s) = 16 /\ 0 <= thrash_ring_head s < 16 /\ 0 <= thrash_ring_count s <= 16.

Definition note (now : Z) (s : host) : host :=
  s <| thrash_ring := aset (thrash_ring s) (thrash_ring_head s) now |>
    <| thrash_ring_head := u8 ((thrash_ring_head s + 1) `mod` THRASH_RING_SIZE) |>
    <| thrash_ring_count := if thrash_ring_count s <? THRASH_RING_SIZE
                            then u8 (thrash_ring_count s + 1) else thrash_ring_count s |>.

Lemma note_fields now s :
  ring_ok s ->
  thrash_ring_head (note now s) = (thrash_ring_head s + 1) `mod` 16 /\
  thrash_ring_count (note now s) = Z.min 16 (thrash_ring_count s + 1) /\ ring_ok (note now s).
Proof.
  intros (Hl&Hh&Hc). pose proof (slot_range 16 (thrash_ring_head s + 1) eq_refl).
  unfold ring_ok, note, THRASH_RING_SIZE. cbn. rewrite alen_aset, u8_small by lia.
  destruct (Z.ltb_spec (thrash_ring_count s) 16); [rewrite u8_small by lia|]; split_and!; lia.
Qed.

Lemma note_recent now s : ring_ok s -> recent (note now s) = take 16 (now :: recent s).
Proof.
  intros Hs. destruct (note_fields now s Hs) as (Hh'&Hc'&_). destruct Hs as (Hl&Hh&Hc).
  unfold recent. rewrite Hh', Hc'. cbn [thrash_ring note].
  apply list_eq. intros [|k].
  - rewrite list_lookup_fmap, lookup_seqZ_lt, lookup_take_lt by lia. cbn. f_equal.
    rewrite Z.sub_0_r, Z.add_mod_idemp_l by lia.
    replace (thrash_ring_head s + 1 + 15) with (thrash_ring_head s + 1 * 16) by lia.
    rewrite Z_mod_plus_full, Z.mod_small by lia. by rewrite aget_aset_eq by lia.
  - destruct (decide (Z.of_nat k < Z.min 15 (thrash_ring_count s))).
    + rewrite lookup_take_lt by lia.
      match goal with |- _ = (_ :: ?l) !! _ => change ((now :: l) !! S k) with (l !! k) end.
      rewrite !list_lookup_fmap, !lookup_seqZ_lt by lia. cbn [fmap option_fmap option_map]. f_equal.
      replace (((thrash_ring_head s + 1) `mod` 16 + 15 - (0 + Z.of_nat (S k))) `mod` 16)
        with ((thrash_ring_head s + 15 - (0 + Z.of_nat k)) `mod` 16).
      2: { rewrite <- (Z.add_sub_assoc (_ `mod` _)), Z.add_mod_idemp_l by lia. f_equal. lia. }
      apply aget_aset_ne; [lia|apply slot_range; lia|].
      intros Heq.
      assert ((thrash_ring_head s + 0) `mod` 16 = (thrash_ring_head s + (15 - Z.of_nat k)) `mod` 16) as He.
      { rewrite Z.add_0_r, Z.mod_small by lia. rewrite Heq at 1. f_equal. lia. }
      apply slot_inj in He; lia.
    + rewrite list_lookup_fmap, lookup_seqZ_ge by lia. symmetry. cbn [fmap option_fmap option_map].
      destruct (decide (k < 15)%nat).
      * rewrite lookup_take_lt by lia.
        match goal with |- (_ :: ?l) !! _ = _ => change ((now :: l) !! S k) with (l !! k) end.
        rewrite list_lookup_fmap, lookup_seqZ_ge by lia. done.
      * by rewrite lookup_take_ge by lia.
Qed.

Section window.
Context `{!Config}.
Implicit Types (l : list Z) (now x : Z).

(** Times that decrease from [now] back. *)
Fixpoint desc now l : Prop :=
  match l with [] => True | x :: l => x <= now /\ desc x l end.

Fixpoint scan now l : Z :=
  match l with
  | [] => 0
  | x :: l => if THRASH_WINDOW_MS <? now - x then 0 else 1 + scan now l
  end.

Definition in_window now l : Z := Z.of_nat (length (filter (fun x => now - x <= THRASH_WINDOW_MS) l)).

Lemma desc_le now now' l : desc now l -> now <= now' -> desc now' l.
Proof. destruct l; cbn; [done|]. intros [? ?] ?. split; [lia|done]. Qed.
Lemma desc_take now l n : desc now l -> desc now (take n l).
Proof. revert now n. induction l as [|x l IH]; intros now [|n]; cbn; try done. intros []. auto. Qed.
Lemma desc_lookup now l k x : desc now l -> l !! k = Some x -> x <= now.
Proof.
  revert now k. induction l as [|y l IH]; intros now [|k]; cbn; try done; intros [Hy Hd].
  - intros [= ->]. done.
  - intros Hx. pose proof (IH _ _ Hd Hx). lia.
Qed.

Lemma scan_filter now l : desc now l -> scan now l = in_window now l.
Proof.
  intros Hd. cut (forall m, m <= now -> desc m l -> scan now l = in_window now l).
  { intros Hcut. by apply (Hcut now). }
  clear Hd. unfold in_window. induction l as [|x l IH]; intros m Hm; [done|].
  cbn [desc scan]. intros [Hx Hd]. rewrite filter_cons.
  destruct (Z.ltb_spec THRASH_WINDOW_MS (now - x)).
  - rewrite decide_False by lia. symmetry.
    assert (filter (fun y => now - y <= THRASH_WINDOW_MS) l = []) as ->; [|done].
    apply list_eq. intros k. rewrite lookup_nil. apply lookup_ge_None_2.
    assert (length (filter (fun y => now - y <= THRASH_WINDOW_MS) l) = 0%nat) as ->; [|lia].
    apply length_zero_iff_nil.
    apply elem_of_nil_inv. intros y [Hy Hin]%list_elem_of_filter.
    apply list_elem_of_lookup in Hin as [k' Hk]. pose proof (desc_lookup _ _ _ _ Hd Hk). lia.
  - rewrite decide_True by lia. cbn [length]. rewrite (IH x) by (done || lia). lia.
Qed.

(** Fewer than [k] in the window means the [k]-th most recent is outside. *)
Lemma scan_lt now l (k : nat) x :
  desc now l -> scan now l <= Z.of_nat k -> l !! k = Some x -> THRASH_WINDOW_MS < now - x.
Proof.
  intros Hd. cut (forall m, m <= now -> desc m l -> scan now l <= Z.of_nat k -> l !! k = Some x ->
    THRASH_WINDOW_MS < now - x).
  { intros Hcut. by apply (Hcut now). }
  clear Hd. revert k. induction l as [|y l IH]; intros k m Hm Hd Hs Hk; [done|].
  cbn in Hd, Hs. destruct Hd as [Hy Hd].
  destruct (Z.ltb_spec THRASH_WINDOW_MS (now - y)).
  - destruct k as [|k]; [by injection Hk as ->|].
    pose proof (desc_lookup _ _ _ _ Hd Hk). lia.
  - destruct k as [|k].
    + assert (0 <= scan now l); [|lia]. clear. induction l as [|z l IH]; cbn; [done|]. case_match; lia.
    + apply (IH k y); [lia|done|lia|done].
Qed.

(** No [CAP] + 1 evictions within one window. *)
Definition capped l : Prop :=
  forall (i : nat) x y, l !! i = Some x ->
    l !! (i + Z.to_nat CONFIG_TOTEM_BG_EVICT_CAP)%nat = Some y -> THRASH_WINDOW_MS < x - y.

Lemma capped_take n l : capped l -> capped (take n l).
Proof.
  intros Hc i x y Hx Hy. apply lookup_take_Some in Hx as [Hx _], Hy as [Hy _]. by eapply Hc.
Qed.

Lemma capped_cons now now' l :
  capped l -> desc now l -> now <= now' -> scan now l < CONFIG_TOTEM_BG_EVICT_CAP -> capped (now' :: l).
Proof.
  intros Hc Hd Hle Hs [|i] x y Hx Hy.
  - injection Hx as ->. pose proof bg_evict_cap_range.
    replace (0 + Z.to_nat CONFIG_TOTEM_BG_EVICT_CAP)%nat
      with (S (Z.to_nat (CONFIG_TOTEM_BG_EVICT_CAP - 1))) in Hy by lia. cbn in Hy.
    pose proof (scan_lt now l (Z.to_nat (CONFIG_TOTEM_BG_EVICT_CAP - 1)) y Hd ltac:(lia) Hy). lia.
  - exact (Hc i x y Hx Hy).
Qed.

Lemma thrash_scan_scan s now :
  ring_ok s -> thrash_scan s now (seqZ 0 (thrash_ring_count s)) = scan now (recent s).
Proof.
  intros _. unfold recent. induction (seqZ 0 (thrash_ring_count s)) as [|i l IH]; [done|].
  cbn [thrash_scan fmap list_fmap scan]. unfold THRASH_RING_SIZE.
  pose proof (slot_range 16 (thrash_ring_head s + 15 - i) eq_refl).
  replace (thrash_ring_head s + 16 - 1 - i) with (thrash_ring_head s + 15 - i) by lia.
  rewrite u8_small by lia. by rewrite IH.
Qed.
End window.
End ThrashWindow.

Module ExclusiveRun.
Import Exclusive ThrashWindow.

Section run.
Context `{!Config} `{!Clock}.

(** ** The invariant *)
Definition host_ok (s : host) (t : nat) : Prop :=
  ring_ok s /\ desc (uptime t) (recent s) /\ capped (recent s) /\
  alen (bg_ignore_until s) = ZMK_BLE_PROFILE_COUNT /\
  alen (class_a_fail_ts s) = CLASS_A_FAIL_THRESHOLD /\
  0 <= class_a_fail_count s <= CLASS_A_FAIL_THRESHOLD.

#[export] Instance host_ok_timeless : Timeless host_ok.
Proof.
  intros s t (?&Hd&?). split; [done|]. split; [|done]. eapply desc_le; [done|].
  apply uptime_mono. lia.
Qed.

Lemma host_ok_later s t t' : host_ok s t -> (t <= t')%nat -> host_ok s t'.
Proof. intros HI Hle. induction Hle; [done|]. by apply timeless. Qed.

Lemma init_ok t : host_ok host_init t.
Proof.
  pose proof profile_count_pos. unfold host_ok, ring_ok, recent, CLASS_A_FAIL_THRESHOLD.
  cbn [host_init thrash_ring thrash_ring_head thrash_ring_count bg_ignore_until class_a_fail_ts
       class_a_fail_count]. unfold THRASH_RING_SIZE, CLASS_A_FAIL_THRESHOLD.
  rewrite !alen_replicate by lia. split_and!; try done; lia.
Qed.

(** The fields the invariant reads are untouched. *)
Definition same_core (s s' : host) : Prop :=
  thrash_ring s' = thrash_ring s /\ thrash_ring_head s' = thrash_ring_head s /\
  thrash_ring_count s' = thrash_ring_count s /\
  alen (bg_ignore_until s') = alen (bg_ignore_until s) /\
  alen (class_a_fail_ts s') = alen (class_a_fail_ts s) /\
  class_a_fail_count s' = class_a_fail_count s.

Lemma same_core_ok s s' t : same_core s s' -> host_ok s t -> host_ok s' t.
Proof.
  unfold same_core, host_ok, ring_ok, recent. intros (->&->&->&->&->&->). done.
Qed.

(** ** Who may be disconnected *)
Context `{!View}.

Definition evictable (c : conn) : Prop :=
  (exists info, bt_conn_get_info c = Some info /\ info_role info = BT_CONN_ROLE_PERIPHERAL) /\
  totem_hid_is_usb = false /\ totem_usb_cable_up = false /\
  0 <= zmk_ble_profile_index (bt_conn_get_dst c) /\
  zmk_ble_profile_index (bt_conn_get_dst c) <> zmk_ble_active_profile_index /\
  (CONFIG_TOTEM_EVICT_REQUIRES_BONDED_ACTIVE = true ->
   zmk_ble_active_profile_is_open = false /\ zmk_ble_active_profile_is_connected = true).

Definition may_evict (c : conn) : Prop := c ∈ le_conns /\ evictable c.

Definition allowed (x : effect) : Prop :=
  match x with
  | bt_conn_disconnect c r => may_evict c /\ r = EVICT_DISCONNECT_REASON
  | zmk_ble_clear_bonds => False
  | _ => True
  end.

Local Notation ok := (keeps host_ok allowed).

Lemma log_ok k i a r w x : ok (totem_host_event_log_record_call k i a r w x).
Proof. by apply keeps_emit. Qed.
Lemma submit_ok w : allowed (k_work_submit w).
Proof. done. Qed.
#[local] Hint Resolve log_ok : keeps.

Lemma win_count_ok : ok thrash_win_count.
Proof. unfold thrash_win_count. by keeps_steps. Qed.
#[local] Hint Resolve win_count_ok : keeps.

Lemma win_count_spec s t :
  host_ok s t -> CONFIG_TOTEM_THRASH_DETECT = true ->
  wp thrash_win_count (fun n s' t' es =>
    s' = s /\ t' = S t /\ es = [] /\ n = scan (uptime t) (recent s)) s t.
Proof.
  intros (Hr&_) HT. unfold thrash_win_count. rewrite HT. wp_steps.
  by rewrite thrash_scan_scan.
Qed.

Lemma clear_ok : ok thrash_clear.
Proof.
  unfold thrash_clear. keeps_steps. intros s t (Hr&Hd&Hc&Hrest).
  destruct Hr as (Hl&_&_). unfold host_ok, ring_ok, recent. cbn. split_and!; try done; try lia.
Qed.

Lemma note_ok s t :
  host_ok s t -> capped (uptime t :: recent s) ->
  wp thrash_note_bg_evict (fun _ s' t' es => host_ok s' t' /\ Forall allowed es) s t.
Proof.
  intros (Hr&Hd&Hc&Hrest) Hcap. unfold thrash_note_bg_evict.
  destruct CONFIG_TOTEM_THRASH_DETECT eqn:HT; cbn [when].
  2: { split; [|constructor]. done. }
  apply wp_bind, wp_uptime. apply wp_bind, wp_modify. fold (note (uptime t) s).
  assert (host_ok (note (uptime t) s) (S t)) as Hn.
  { destruct (note_fields (uptime t) s Hr) as (_&_&Hr'). split; [done|]. rewrite note_recent by done.
    split; [|split; [by apply capped_take|done]]. apply desc_take.
    split; [apply uptime_mono; lia|done]. }
  assert (ok (win <- thrash_win_count ;;
    totem_host_event_log_record_call TOTEM_HEVT_THRASH_WIN (-1) zmk_ble_active_profile_index
      win win 0)) as Hok by keeps_steps.
  eapply wp_mono; [apply Hok, Hn|]. done.
Qed.

Lemma note_evict_spec idx s t :
  host_ok s t ->
  wp (bg_note_evict idx) (fun _ s' t' es =>
    host_ok s' t' /\ (t <= t')%nat /\ es = [] /\ recent s' = recent s) s t.
Proof.
  intros HI. unfold bg_note_evict.
  destruct (0 <? CONFIG_TOTEM_BG_EVICT_IGNORE_MS); cbn [when]; [|by wp_steps].
  destruct ((0 <=? idx) && (idx <? ZMK_BLE_PROFILE_COUNT)); cbn [when]; wp_steps; [|done].
  split_and!; try done; [|lia]. eapply same_core_ok; [|by apply timeless].
  unfold same_core. cbn. by rewrite alen_aset.
Qed.

(** The kick is permitted and leaves the window capped, provided the window was not
    full when it was last counted. *)
Lemma drop_host_ok c now s t :
  host_ok s t -> may_evict c -> desc now (recent s) -> now <= uptime t ->
  (CONFIG_TOTEM_THRASH_DETECT = true -> scan now (recent s) < CONFIG_TOTEM_BG_EVICT_CAP) ->
  wp (drop_host c (zmk_ble_profile_index (bt_conn_get_dst c)) zmk_ble_active_profile_index)
    (fun _ s' t' es => host_ok s' t' /\ Forall allowed es) s t.
Proof.
  intros HI Hev Hd Hle Hcap. unfold drop_host. wp_steps.
  destruct (negb _); [wp_steps; split; [done|constructor; [by split|constructor]]|]. wp_steps.
  wp_use note_evict_spec; [done|]. intros [] s1 t1 es1 (HI1&Ht1&->&Hrec). wp_steps.
  assert (wp thrash_note_bg_evict (fun _ s' t' es => host_ok s' t' /\ Forall allowed es) s1 t1) as Hn.
  { destruct CONFIG_TOTEM_THRASH_DETECT eqn:HT.
    - apply note_ok; [done|]. rewrite Hrec. eapply (capped_cons now); [apply HI|done| |auto].
      pose proof (uptime_mono _ _ Ht1). lia.
    - unfold thrash_note_bg_evict. rewrite HT. by wp_steps. }
  eapply wp_mono; [exact Hn|]. intros [] s2 t2 es2 [HI2 Hes2]. cbv beta.
  assert (ok (tw <- thrash_win_count ;; totem_host_event_log_record_call TOTEM_HEVT_BG_EVICT
    (zmk_ble_profile_index (bt_conn_get_dst c)) zmk_ble_active_profile_index
    EVICT_DISCONNECT_REASON tw 0)) as Hok by keeps_steps.
  eapply wp_mono; [apply Hok, HI2|]. intros [] s3 t3 es3 [HI3 Hes3]. split; [done|].
  cbn [app]. constructor; [by split|]. by apply Forall_app.
Qed.

Lemma should_ignore_spec idx s t :
  host_ok s t ->
  wp (bg_should_ignore idx) (fun b s' t' es => s' = s /\ (t <= t')%nat /\ es = []) s t.
Proof.
  intros HI. unfold bg_should_ignore. destruct (_ || _); [by wp_steps|]. wp_steps.
  destruct (_ =? 0); wp_steps; split_and!; done || lia.
Qed.

Lemma drop_if_ok c : c ∈ le_conns -> ok (drop_if_non_active_host false c).
Proof.
  intros Hc. unfold drop_if_non_active_host.
  destruct (bt_conn_get_info c) as [info|] eqn:Hi; [|apply keeps_ret].
  destruct (Z.eqb_spec (info_role info) BT_CONN_ROLE_PERIPHERAL) as [Hr|]; cbn [negb]; [|apply keeps_ret].
  destruct (totem_hid_is_usb) eqn:Hu; [apply keeps_ret|].
  destruct (totem_usb_cable_up) eqn:Hcab; cbn [orb]; [apply keeps_ret|]. cbv zeta.
  destruct (Z.ltb_spec (zmk_ble_profile_index (bt_conn_get_dst c)) 0); [apply keeps_ret|].
  destruct (Z.eqb_spec (zmk_ble_profile_index (bt_conn_get_dst c)) zmk_ble_active_profile_index);
    [apply keeps_ret|].
  destruct (_ && _) eqn:Hb.
  { keeps_steps. }
  assert (may_evict c) as Hev.
  { split; [done|]. unfold evictable. rewrite Hu, Hcab. split_and!; try done; [by exists info|].
    intros Hreq. rewrite Hreq in Hb. cbn in Hb. apply orb_false_iff in Hb as [-> Hb].
    by apply negb_false_iff in Hb. }
  clear Hb. intros s t HI. wp_steps. wp_use should_ignore_spec; [done|].
  intros ignored s1 t1 es1 (->&Ht1&->). pose proof (host_ok_later _ _ _ HI Ht1) as HI1.
  destruct ignored.
  { wp_steps. split; [|constructor]. eapply same_core_ok; [|by apply timeless].
    destruct (_ || _); done. }
  destruct CONFIG_TOTEM_THRASH_DETECT eqn:HT; wp_steps.
  - wp_use win_count_spec; [done|done|]. intros win s2 t2 es2 (->&->&->&->).
    destruct (Z.leb_spec CONFIG_TOTEM_BG_EVICT_CAP (scan (uptime t1) (recent s))); wp_steps.
    { split; [|constructor]. eapply same_core_ok; [|by apply timeless]. done. }
    eapply wp_mono; [eapply (drop_host_ok c (uptime t1) s (S t1)); try done|done].
    + by apply timeless.
    + by destruct HI1 as (_&?&_).
    + apply uptime_mono. lia.
  - eapply wp_mono; [eapply (drop_host_ok c (uptime t1) s t1); try done|done].
    + by destruct HI1 as (_&?&_).
    + congruence.
Qed.
#[local] Hint Resolve clear_ok : keeps.

Lemma evict_all_ok : ok (exclusive_host_evict_all false).
Proof. unfold exclusive_host_evict_all. keeps_steps. by apply drop_if_ok. Qed.

(** ** The Class-A detector *)
Definition fails (s : host) : list Z := take (Z.to_nat (class_a_fail_count s)) (class_a_fail_ts s).

Definition still_recent (now : Z) (l : list Z) : list Z :=
  filter (fun x => now - x <= CLASS_A_WINDOW_MS) l.

Lemma three_cells (ts : list Z) : alen ts = 3 -> exists a b c, ts = [a; b; c].
Proof.
  unfold alen. destruct ts as [|a [|b [|c [|d ts]]]]; cbn [length]; intros; try lia. by exists a, b, c.
Qed.

Lemma prune_spec now s kept ts :
  alen (class_a_fail_ts s) = 3 -> 0 <= class_a_fail_count s <= 3 ->
  class_a_prune now s = (kept, ts) ->
  alen ts = 3 /\ 0 <= kept <= 3 /\ take (Z.to_nat kept) ts = still_recent now (fails s).
Proof.
  unfold class_a_prune, fails, still_recent. intros Hl Hc.
  destruct (three_cells _ Hl) as (a&b&c&->).
  assert (class_a_fail_count s = 0 \/ class_a_fail_count s = 1 \/ class_a_fail_count s = 2 \/
          class_a_fail_count s = 3) as Hcase by lia.
  assert (forall x l, filter (fun x => now - x <= CLASS_A_WINDOW_MS) (x :: l) =
    if now - x <=? CLASS_A_WINDOW_MS then x :: filter (fun x => now - x <= CLASS_A_WINDOW_MS) l
    else filter (fun x => now - x <= CLASS_A_WINDOW_MS) l) as Hf.
  { intros x l. rewrite filter_cons. destruct (Z.leb_spec (now - x) CLASS_A_WINDOW_MS);
      [by rewrite decide_True|by rewrite decide_False by lia]. }
  destruct Hcase as [->|[->|[->| ->]]]; intros Heq;
    [change (seqZ 0 0) with (@nil Z) in Heq|change (seqZ 0 1) with [0] in Heq
    |change (seqZ 0 2) with [0; 1] in Heq|change (seqZ 0 3) with [0; 1; 2] in Heq];
    cbn [foldl] in Heq; change (aget [a; b; c] 0) with a in Heq.
  - by injection Heq as <- <-.
  - change (take (Z.to_nat 1) [a; b; c]) with [a]. rewrite Hf.
    destruct (now - a <=? _); by injection Heq as <- <-.
  - change (take (Z.to_nat 2) [a; b; c]) with [a; b]. rewrite !Hf.
    destruct (now - a <=? _) eqn:Ha;
      [change (aget (aset [a; b; c] 0 a) 1) with b in Heq|change (aget [a; b; c] 1) with b in Heq];
      destruct (now - b <=? _); by injection Heq as <- <-.
  - change (take (Z.to_nat 3) [a; b; c]) with [a; b; c]. rewrite !Hf.
    destruct (now - a <=? _) eqn:Ha;
      [change (aget (aset [a; b; c] 0 a) 1) with b in Heq|change (aget [a; b; c] 1) with b in Heq];
      (destruct (now - b <=? _); cbv beta iota in Heq;
        match type of Heq with
        | (if now - ?x <=? _ then _ else _) = _ => change x with c in Heq
        end; destruct (now - c <=? _); by injection Heq as <- <-).
Qed.

Lemma shift_spec (ts : list Z) now :
  alen ts = 3 -> aset (class_a_shift ts) (CLASS_A_FAIL_THRESHOLD - 1) now = tail ts ++ [now].
Proof. intros Hl. by destruct (three_cells _ Hl) as (a&b&c&->). Qed.

Definition append_fail (now : Z) (s : host) : host :=
  if class_a_fail_count s <? CLASS_A_FAIL_THRESHOLD then
    s <| class_a_fail_ts := aset (class_a_fail_ts s) (class_a_fail_count s) now |>
      <| class_a_fail_count := u8 (class_a_fail_count s + 1) |>
  else
    s <| class_a_fail_ts :=
           aset (class_a_shift (class_a_fail_ts s)) (CLASS_A_FAIL_THRESHOLD - 1) now |>.

Lemma append_fail_spec now s :
  alen (class_a_fail_ts s) = 3 -> 0 <= class_a_fail_count s <= 3 ->
  alen (class_a_fail_ts (append_fail now s)) = 3 /\
  class_a_fail_count (append_fail now s) = Z.min 3 (class_a_fail_count s + 1) /\
  fails (append_fail now s) = lastn 3 (fails s ++ [now]).
Proof.
  intros Hl Hc. unfold append_fail, fails, CLASS_A_FAIL_THRESHOLD.
  destruct (Z.ltb_spec (class_a_fail_count s) 3); cbn.
  - rewrite alen_aset, u8_small by lia. split_and!; [done|lia|].
    assert (length (class_a_fail_ts s) = 3%nat) as Hl' by (unfold alen in Hl; lia).
    rewrite lastn_all by (rewrite length_app, length_take; cbn; lia).
    rewrite Z2Nat.inj_add by lia. change (Z.to_nat 1) with 1%nat. rewrite Nat.add_1_r.
    unfold aset. rewrite (take_S_r _ _ now) by (apply list_lookup_insert_eq; lia).
    by rewrite take_insert_ge by lia.
  - assert (class_a_fail_count s = 3) as -> by lia.
    change 2 with (CLASS_A_FAIL_THRESHOLD - 1). rewrite shift_spec by done.
    destruct (three_cells _ Hl) as (a&b&c&->). by split_and!.
Qed.

Lemma class_a_fail_spec s t :
  host_ok s t -> CONFIG_TOTEM_THRASH_DETECT = true ->
  wp (class_a_note_auth_event true) (fun _ s' t' es =>
    host_ok s' t' /\ fails s' = lastn 3 (still_recent (uptime t) (fails s) ++ [uptime t]) /\
    es = if (3 <=? Z.of_nat (length (fails s'))) && (scan (uptime (S t)) (recent s) <? 2)
         then [log_record TOTEM_HEVT_CLASS_A_SUSPECT (i8 zmk_ble_active_profile_index)
                 (i8 zmk_ble_active_profile_index) 3 (u8 (scan (uptime (S t)) (recent s))) 0]
         else []) s t.
Proof.
  intros HI HT. pose proof HI as (Hr&Hd&Hcap&Hbg&Hl&Hc). unfold CLASS_A_FAIL_THRESHOLD in Hl, Hc.
  unfold class_a_note_auth_event, totem_host_event_log_record_call. rewrite HT.
  cbn [when negb]. wp_steps. destruct (class_a_prune (uptime t) s) as [kept ts] eqn:Hp.
  destruct (prune_spec _ _ _ _ Hl Hc Hp) as (Hl1&Hk&Hf).
  set (s1 := s <| class_a_fail_ts := ts |> <| class_a_fail_count := kept |>).
  fold (append_fail (uptime t) s1). set (s2 := append_fail (uptime t) s1).
  destruct (append_fail_spec (uptime t) s1 Hl1 Hk) as (Hl2&Hc2&Hf2). fold s2 in Hl2, Hc2, Hf2.
  assert (fails s1 = still_recent (uptime t) (fails s)) as Hf1 by exact Hf. rewrite Hf1 in Hf2.
  assert (class_a_fail_count s1 = kept) as Hk1 by done.
  assert (host_ok s2 (S t)) as HI2.
  { apply (timeless (I := host_ok)). unfold host_ok.
    assert (recent s2 = recent s /\ ring_ok s2 /\ bg_ignore_until s2 = bg_ignore_until s) as (->&?&->).
    { unfold s2, append_fail. destruct (_ <? _); done. }
    unfold CLASS_A_FAIL_THRESHOLD. split_and!; try done; lia. }
  assert (recent s2 = recent s) as Hrec.
  { unfold s2, append_fail. destruct (_ <? _); done. }
  wp_use win_count_spec; [done..|]. intros n' s3 t3 es3 (->&->&->&->). wp_steps. rewrite Hrec.
  assert (Z.of_nat (length (fails s2)) = class_a_fail_count s2) as Hlen.
  { unfold fails. rewrite length_take. unfold alen in Hl2. lia. }
  assert (host_ok s2 (S (S t))) as HI3 by by apply timeless.
  unfold CLASS_A_FAIL_THRESHOLD.
  destruct (Z.leb_spec 3 (class_a_fail_count s2)) as [Hge|Hlt]; cbn [andb when]; wp_steps.
  2: { split_and!; try done. rewrite Hlen. by rewrite (proj2 (Z.leb_gt _ _) Hlt). }
  assert (class_a_fail_count s2 = 3) as Hc3 by lia.
  destruct (scan (uptime (S t)) (recent s) <? 2) eqn:Hsc; cbn [when]; wp_steps;
    (split_and!; [done..|]); rewrite Hlen, Hc3, ?Hsc; done.
Qed.

Lemma class_a_ok b : ok (class_a_note_auth_event b).
Proof.
  destruct CONFIG_TOTEM_THRASH_DETECT eqn:HT.
  2: { unfold class_a_note_auth_event. rewrite HT. apply keeps_ret. }
  destruct b.
  - intros s t HI. wp_use class_a_fail_spec; [done..|]. intros [] s' t' es (?&_&->).
    split; [done|]. case_match; by repeat constructor.
  - unfold class_a_note_auth_event. rewrite HT. cbn [when negb]. apply keeps_modify.
    intros s t (Hr&Hd&Hc&Hb&Hl&_). do 5 (split; [done|]).
    unfold CLASS_A_FAIL_THRESHOLD. cbn. lia.
Qed.
#[local] Hint Resolve class_a_ok evict_all_ok : keeps.

Lemma clear_ignores_ok : ok bg_clear_ignores.
Proof.
  unfold bg_clear_ignores. keeps_steps. intros s t (Hr&Hd&Hc&_&Hl). pose proof profile_count_pos.
  do 3 (split; [done|]). split; [cbn; apply alen_replicate; lia|exact Hl].
Qed.

Lemma streak_ok (f : Z -> Z) : ok (modify (fun s => s <| active_auth_fail_streak := f (active_auth_fail_streak s) |>)).
Proof. by apply keeps_modify. Qed.

Lemma bond_failure_ok : ok bond_heal_note_auth_failure.
Proof. unfold bond_heal_note_auth_failure. by keeps_steps. Qed.
Lemma bond_ok_ok : ok bond_heal_note_auth_ok.
Proof. unfold bond_heal_note_auth_ok. apply keeps_modify. intros s t. by destruct (negb _). Qed.
Lemma retry_ok : ok exclusive_host_schedule_retry.
Proof. by apply keeps_emit. Qed.
#[local] Hint Resolve clear_ignores_ok bond_failure_ok bond_ok_ok retry_ok : keeps.

Lemma submit_evict_ok w : ok (emit (k_work_submit w)).
Proof. by apply keeps_emit. Qed.
#[local] Hint Resolve submit_evict_ok : keeps.

Lemma connected_ok c err : ok (exclusive_host_connected c err).
Proof. unfold exclusive_host_connected. by keeps_steps. Qed.
Lemma security_changed_ok c level err : ok (exclusive_host_security_changed c level err).
Proof. unfold exclusive_host_security_changed. by keeps_steps. Qed.
Lemma disconnected_ok c reason : ok (exclusive_host_disconnected c reason).
Proof. unfold exclusive_host_disconnected, log_host_conn_disc. by keeps_steps. Qed.
Lemma identity_resolved_ok a : ok (exclusive_host_identity_resolved a).
Proof. unfold exclusive_host_identity_resolved. by keeps_steps. Qed.
Lemma profile_changed_ok : ok exclusive_host_profile_changed.
Proof. unfold exclusive_host_profile_changed. by keeps_steps. Qed.

(** ** The exact condition of a kick *)
Definition is_kick (c : conn) (x : effect) : bool :=
  match x with bt_conn_disconnect c' _ => bool_decide (c' = c) | _ => false end.

(** [bg_should_ignore] reads the clock only when an ignore window was opened. *)
Definition ignore_set (s : host) (idx : Z) : bool :=
  (0 <=? idx) && (idx <? ZMK_BLE_PROFILE_COUNT) && negb (aget (bg_ignore_until s) idx =? 0).
Definition ignoring (s : host) (idx now : Z) : bool :=
  ignore_set s idx && (now <? aget (bg_ignore_until s) idx).
Definition window_full (s : host) (now : Z) : bool :=
  CONFIG_TOTEM_THRASH_DETECT && (CONFIG_TOTEM_BG_EVICT_CAP <=? in_window now (recent s)).

Lemma should_ignore_exact idx s t :
  wp (bg_should_ignore idx) (fun b s' t' es =>
    s' = s /\ es = [] /\ b = ignoring s idx (uptime t) /\
    t' = if ignore_set s idx then S t else t) s t.
Proof.
  unfold bg_should_ignore, ignoring, ignore_set.
  destruct (Z.ltb_spec idx 0), (Z.leb_spec 0 idx); try lia; cbn [orb andb]; [by wp_steps|].
  destruct (Z.leb_spec ZMK_BLE_PROFILE_COUNT idx), (Z.ltb_spec idx ZMK_BLE_PROFILE_COUNT);
    try lia; cbn [andb]; [by wp_steps|]. wp_steps.
  destruct (_ =? 0); cbn [negb andb]; wp_steps; done.
Qed.

(** The log calls of a kick are no kicks. *)
Definition quiet (c : conn) (x : effect) : Prop := is_kick c x = false.
Definition no_inv (s : host) (t : nat) : Prop := True.
#[local] Instance no_inv_timeless : Timeless no_inv.
Proof. done. Qed.
Local Notation silent c := (keeps no_inv (quiet c)).

Lemma log_silent c k i a r w x : silent c (totem_host_event_log_record_call k i a r w x).
Proof. by apply keeps_emit. Qed.
#[local] Hint Resolve log_silent : keeps.
Lemma win_count_silent c : silent c thrash_win_count.
Proof. unfold thrash_win_count. by keeps_steps. Qed.
#[local] Hint Resolve win_count_silent : keeps.
Lemma note_silent c : silent c thrash_note_bg_evict.
Proof. unfold thrash_note_bg_evict. by keeps_steps. Qed.
Lemma note_evict_silent c idx : silent c (bg_note_evict idx).
Proof. unfold bg_note_evict. by keeps_steps. Qed.
#[local] Hint Resolve note_silent note_evict_silent : keeps.

Lemma silent_existsb c (es : list effect) : Forall (quiet c) es -> existsb (is_kick c) es = false.
Proof. intros Hes. induction Hes as [|x es Hx Hes IH]; [done|]. cbn. by rewrite Hx. Qed.

Lemma drop_host_kicks c idx a s t :
  wp (drop_host c idx a) (fun _ s' t' es => existsb (is_kick c) es = true) s t.
Proof. unfold drop_host. wp_steps. unfold wp. cbn. by rewrite bool_decide_eq_true_2. Qed.

#[export] Instance evictable_dec c : Decision (evictable c).
Proof.
  unfold evictable. destruct (bt_conn_get_info c) as [info|] eqn:Hi.
  2: { right. intros [(info&?&_) _]. done. }
  destruct (decide (info_role info = BT_CONN_ROLE_PERIPHERAL)) as [Hr|Hr].
  2: { right. intros [(info'&[= <-]&?) _]. done. }
  destruct (decide (totem_hid_is_usb = false /\ totem_usb_cable_up = false /\
    0 <= zmk_ble_profile_index (bt_conn_get_dst c) /\
    zmk_ble_profile_index (bt_conn_get_dst c) <> zmk_ble_active_profile_index /\
    (CONFIG_TOTEM_EVICT_REQUIRES_BONDED_ACTIVE = true ->
     zmk_ble_active_profile_is_open = false /\ zmk_ble_active_profile_is_connected = true)))
    as [Hyes|Hno]; [left|right].
  - split; [by exists info|exact Hyes].
  - intros [_ Hyes]. done.
Defined.

Lemma not_evictable_quiet c s t :
  ~ evictable c ->
  wp (drop_if_non_active_host false c) (fun _ s' t' es =>
    existsb (is_kick c) es = false) s t.
Proof.
  intros Hno. assert (silent c (drop_if_non_active_host false c)) as Hs.
  2: { eapply wp_mono; [by apply Hs|]. intros [] s' t' es [_ Hes]. by apply silent_existsb. }
  unfold drop_if_non_active_host.
  destruct (bt_conn_get_info c) as [info|] eqn:Hi; [|apply keeps_ret].
  destruct (Z.eqb_spec (info_role info) BT_CONN_ROLE_PERIPHERAL) as [Hr|]; cbn [negb]; [|apply keeps_ret].
  destruct (totem_hid_is_usb) eqn:Hu; [apply keeps_ret|].
  destruct (totem_usb_cable_up) eqn:Hcab; cbn [orb]; [apply keeps_ret|]. cbv zeta.
  destruct (Z.ltb_spec (zmk_ble_profile_index (bt_conn_get_dst c)) 0); [apply keeps_ret|].
  destruct (Z.eqb_spec (zmk_ble_profile_index (bt_conn_get_dst c)) zmk_ble_active_profile_index);
    [apply keeps_ret|].
  destruct (_ && _) eqn:Hb; [by keeps_steps|]. destruct Hno. unfold evictable. rewrite Hu, Hcab.
  split_and!; try done; [by exists info|].
  intros Hreq. rewrite Hreq in Hb. cbn in Hb. apply orb_false_iff in Hb as [-> Hb].
  by apply negb_false_iff in Hb.
Qed.

(** The guards of an evictable link reduce to the ignore window and the cap. *)
Lemma drop_if_evictable c :
  evictable c ->
  drop_if_non_active_host false c =
    (let idx := zmk_ble_profile_index (bt_conn_get_dst c) in
     let active := zmk_ble_active_profile_index in
     ignored <- bg_should_ignore idx ;;
     if ignored then
       (now <- k_uptime_get ;;
        modify (fun s =>
          if (last_ignore_log_ms s =? 0) || (5000 <=? now - last_ignore_log_ms s)
          then s <| last_ignore_log_ms := now |> else s))
     else if CONFIG_TOTEM_THRASH_DETECT then
       (win <- thrash_win_count ;;
        if CONFIG_TOTEM_BG_EVICT_CAP <=? win then
          modify (fun s => s <| thrash_cap_logged := true |>)
        else drop_host c idx active)
     else drop_host c idx active).
Proof.
  intros ((info&Hi&Hr)&Hu&Hcab&Hidx&Hne&Hreq). unfold drop_if_non_active_host.
  rewrite Hi, Hr, Hu, Hcab. cbv zeta. change (negb (_ =? _)) with false at 1. cbn [orb].
  destruct (Z.ltb_spec (zmk_ble_profile_index (bt_conn_get_dst c)) 0); [lia|].
  destruct (Z.eqb_spec (zmk_ble_profile_index (bt_conn_get_dst c)) zmk_ble_active_profile_index); [done|].
  destruct CONFIG_TOTEM_EVICT_REQUIRES_BONDED_ACTIVE; [|done].
  destruct (Hreq eq_refl) as [-> ->]. done.
Qed.

Lemma drop_host_exact c s t :
  host_ok s t ->
  let idx := zmk_ble_profile_index (bt_conn_get_dst c) in
  wp (drop_if_non_active_host false c) (fun _ s' t' es =>
    existsb (is_kick c) es =
      bool_decide (evictable c) && negb (ignoring s idx (uptime t)) &&
      negb (window_full s (uptime (if ignore_set s idx then S t else t)))) s t.
Proof.
  intros HI idx. destruct (decide (evictable c)) as [Hev|Hno].
  2: { rewrite bool_decide_eq_false_2 by done. by apply not_evictable_quiet. }
  rewrite bool_decide_eq_true_2, drop_if_evictable by done. cbn [andb]. fold idx. cbv zeta.
  wp_steps. wp_use should_ignore_exact. intros b s1 t1 es1 (->&->&Hb&->).
  destruct b; rewrite <- Hb; cbn [negb andb]; [by wp_steps|]. unfold window_full.
  set (t1 := if ignore_set s idx then S t else t) in *.
  assert (host_ok s t1) as HI1.
  { apply (host_ok_later s t); [done|]. unfold t1. destruct (ignore_set s idx); lia. }
  destruct CONFIG_TOTEM_THRASH_DETECT eqn:HT; cbn [andb].
  2: { cbn [negb]. wp_use drop_host_kicks. intros [] s' t' es Hk. exact Hk. }
  wp_steps. wp_use win_count_spec; [done..|]. intros win s2 t2 es2 (->&->&->&->).
  rewrite scan_filter by (by destruct HI1 as (_&?&_)).
  destruct (CONFIG_TOTEM_BG_EVICT_CAP <=? in_window (uptime t1) (recent s)); cbn [negb].
  { by wp_steps. }
  wp_use drop_host_kicks. intros [] s' t' es Hk. exact Hk.
Qed.
End run.

(** ** Runs *)
Section trace.
Context `{!Config} `{!Clock}.

Inductive input (V : View) :=
| in_connected (c : conn) (err : Z)
| in_security_changed (c : conn) (level err : Z)
| in_disconnected (c : conn) (reason : Z)
| in_identity_resolved (identity : bt_addr_le_t)
| in_profile_changed
| in_evict_work | in_retry_work | in_fallback_work
| in_bond_heal_work.
#[global] Arguments in_connected {V}.
#[global] Arguments in_security_changed {V}.
#[global] Arguments in_disconnected {V}.
#[global] Arguments in_identity_resolved {V}.
#[global] Arguments in_profile_changed {V}.
#[global] Arguments in_evict_work {V}.
#[global] Arguments in_retry_work {V}.
#[global] Arguments in_fallback_work {V}.
#[global] Arguments in_bond_heal_work {V}.

Definition handle (V : View) (i : input V) : proc host effect () :=
  match i with
  | in_connected c err => exclusive_host_connected c err
  | in_security_changed c level err => exclusive_host_security_changed c level err
  | in_disconnected c reason => exclusive_host_disconnected c reason
  | in_identity_resolved a => exclusive_host_identity_resolved a
  | in_profile_changed => exclusive_host_profile_changed
  | in_evict_work => exclusive_host_evict_work_handler
  | in_retry_work => exclusive_host_retry_work_handler
  | in_fallback_work => exclusive_host_fallback_work_handler
  | in_bond_heal_work => bond_heal_clear_active_work_handler
  end.

(** An occurrence of an input in the view the host stack offers at that time. *)
Record occurrence := Occ { occ_view : View; occ_input : input occ_view }.

(** The effects of a run carry the view they were decided in. *)
Definition run_one (o : occurrence) : proc host (View * effect) () :=
  zoom (fun s => s) (fun s _ => s) (fun x => (occ_view o, x)) (handle (occ_view o) (occ_input o)).
Definition run (os : list occurrence) : proc host (View * effect) () := for_each os run_one.

Definition permitted (vx : View * effect) : Prop :=
  match vx.2 with
  | bt_conn_disconnect c r => @may_evict _ vx.1 c /\ r = EVICT_DISCONNECT_REASON
  | _ => True
  end.

Lemma handle_ok (V : View) (i : input V) s t :
  host_ok s t ->
  wp (handle V i) (fun _ s' t' es => host_ok s' t' /\ Forall (fun x => permitted (V, x)) es) s t.
Proof.
  intros HI.
  assert (forall m, keeps host_ok (@allowed _ V) m -> wp m (fun (_ : ()) s' t' es =>
    host_ok s' t' /\ Forall (fun x => permitted (V, x)) es) s t) as Hgo.
  { intros m Hm. wp_use Hm; [done|]. intros [] s' t' es [HI' Hes]. split; [done|].
    eapply Forall_impl; [exact Hes|]. intros [] Hx; try done; exact Hx. }
  destruct i; cbn [handle].
  - apply Hgo, connected_ok.
  - apply Hgo, security_changed_ok.
  - apply Hgo, disconnected_ok.
  - apply Hgo, identity_resolved_ok.
  - apply Hgo, profile_changed_ok.
  - apply Hgo, evict_all_ok.
  - apply Hgo, evict_all_ok.
  - apply Hgo, evict_all_ok.
  - unfold bond_heal_clear_active_work_handler. wp_steps. split; [done|by repeat constructor].
Qed.

Lemma run_ok os s t :
  host_ok s t -> wp (run os) (fun _ s' t' es => host_ok s' t' /\ Forall permitted es) s t.
Proof.
  intros HI. unfold run. apply wp_for_each; [done|]. intros o s1 t1 _ HI1.
  pose proof (handle_ok (occ_view o) (occ_input o) s1 t1 HI1) as Hh.
  unfold run_one, zoom, wp in *. cbn. destruct Hh as [? Hes]. split; [done|].
  by apply Forall_fmap.
Qed.
End trace.
End ExclusiveRun.

(** * Properties *)
Module ExclusiveProps.
Import Exclusive ThrashWindow ExclusiveRun.

Lemma reachable_ok `{!Config} `{!Clock} (os : list occurrence) (t : nat) :
  host_ok (fin (run os host_init t)) (clk (run os host_init t)).
Proof. exact (proj1 (run_ok os host_init t (init_ok t))). Qed.

(** C10 No run of the module ever disconnects a link it must keep: whatever callbacks and work
    items run, in whatever order and views, a disconnect is only requested for a link of the
    connection table in the peripheral role, with HID not on USB and no cable, whose address
    resolved to a profile other than the selected one and, where the configuration asks for
    it, only while the selected profile is bonded and connected; the reason is always the
    configured one. *)
Theorem evictions_protect_links `{!Config} `{!Clock} (os : list occurrence) (t : nat)
    (V : View) (c : conn) (r : Z) :
  (V, bt_conn_disconnect c r) ∈ eff (run os host_init t) ->
  r = EVICT_DISCONNECT_REASON /\ c ∈ le_conns /\
  (exists info, bt_conn_get_info c = Some info /\ info_role info = BT_CONN_ROLE_PERIPHERAL) /\
  totem_hid_is_usb = false /\ totem_usb_cable_up = false /\
  0 <= zmk_ble_profile_index (bt_conn_get_dst c) /\
  zmk_ble_profile_index (bt_conn_get_dst c) <> zmk_ble_active_profile_index /\
  (CONFIG_TOTEM_EVICT_REQUIRES_BONDED_ACTIVE = true ->
   zmk_ble_active_profile_is_open = false /\ zmk_ble_active_profile_is_connected = true).
Proof.
  intros Hin. destruct (run_ok os host_init t (init_ok t)) as [_ Hes].
  rewrite Forall_forall in Hes. destruct (Hes _ Hin) as [[Hc Hev] Hr]. by split_and!; try apply Hev.
Qed.

#[local] Instance example_clock : Clock := ticking 1000 10.

(** Profile 0 is selected and connected; a second computer, on profile 1, connects too. *)
Definition two_hosts : View :=
  host_view [Link central_info 2 (-1); Link peripheral_info 2 0; Link peripheral_info 1 1] 0
    false true false ZMK_TRANSPORT_BLE false.
Definition example_run : list occurrence :=
  [Occ two_hosts (in_connected 2%nat 0); Occ two_hosts in_evict_work; Occ two_hosts in_retry_work].

Lemma evictions_protect_links_witness :
  (two_hosts, bt_conn_disconnect 2%nat 0x13) ∈ eff (run example_run host_init 0%nat) /\
  @zmk_ble_profile_index two_hosts (@bt_conn_get_dst two_hosts 2%nat) <> 0.
Proof.
  assert ((two_hosts, bt_conn_disconnect 2%nat 0x13) ∈ eff (run example_run host_init 0%nat)) as Hin.
  { apply list_elem_of_lookup. exists 4%nat. reflexivity. }
  split; [exact Hin|].
  exact (proj1 (proj2 (proj2 (proj2 (proj2 (proj2 (proj2
    (evictions_protect_links example_run 0%nat two_hosts 2%nat 0x13 Hin)))))))).
Defined.

(** C27 The anti-flap cap: in every reachable state the eviction times since the last profile
    switch that the ring holds are spaced so that no thrash window contains more than
    [CONFIG_TOTEM_BG_EVICT_CAP] evictions. *)
Theorem evictions_capped `{!Config} `{!Clock} (os : list occurrence) (t i : nat) (x y : Z) :
  let times := recent (fin (run os host_init t)) in
  times !! i = Some x ->
  times !! (i + Z.to_nat CONFIG_TOTEM_BG_EVICT_CAP)%nat = Some y ->
  CONFIG_TOTEM_THRASH_WINDOW_SEC * 1000 < x - y.
Proof. intros times Hx Hy. destruct (reachable_ok os t) as (_&_&Hcap&_). exact (Hcap i x y Hx Hy). Qed.

(** Eight scans, a good twenty seconds apart: each kicks the second computer again. *)
Definition slow_clock : Clock := ticking 1000 4000.
Definition kicks : list occurrence := Nat.iter 8 (fun l => Occ two_hosts in_evict_work :: l) [].

Lemma evictions_capped_witness :
  let times := recent (fin (@run _ slow_clock kicks host_init 0%nat)) in
  times !! 0%nat = Some 177000 /\ times !! 4%nat = Some 81000 /\ 10 * 1000 < 177000 - 81000.
Proof.
  split; [|split]; [vm_compute; reflexivity..|].
  apply (@evictions_capped totem_left_conf slow_clock kicks 0 0 177000 81000);
    vm_compute; reflexivity.
Defined.

(** C34 Exactly which links an eviction scan kicks: in every reachable state, for every link and
    view, [drop_if_non_active_host] requests the disconnect if and only if the link is
    evictable, its profile is outside its ignore window, and fewer than the cap of the
    recorded evictions lie in the thrash window at the time it is counted. *)
Theorem kick_exact `{!Config} `{!Clock} `{!View} (os : list occurrence) (t : nat) (c : conn) :
  let s := fin (run os host_init t) in
  let n := clk (run os host_init t) in
  let idx := zmk_ble_profile_index (bt_conn_get_dst c) in
  wp (drop_if_non_active_host false c) (fun _ s' n' es =>
    existsb (is_kick c) es =
      bool_decide (evictable c) &&
      negb (ignore_set s idx && (uptime n <? aget (bg_ignore_until s) idx)) &&
      negb (CONFIG_TOTEM_THRASH_DETECT &&
            (CONFIG_TOTEM_BG_EVICT_CAP <=?
             in_window (uptime (if ignore_set s idx then S n else n)) (recent s)))) s n.
Proof. intros s n idx. apply (drop_host_exact c s n), reachable_ok. Qed.

(** C35 The Class-A detector is a sliding window over authentication failures: in every reachable
    state a failure keeps the failures of the last minute, at most the two most recent of
    them, and appends its own time; it records a suspicion exactly when that makes three and
    fewer than two evictions lie in the thrash window. *)
Theorem class_a_sliding_window `{!Config} `{!Clock} `{!View} (os : list occurrence) (t : nat) :
  CONFIG_TOTEM_THRASH_DETECT = true ->
  let s := fin (run os host_init t) in
  let n := clk (run os host_init t) in
  wp (class_a_note_auth_event true) (fun _ s' n' es =>
    fails s' = lastn 3 (filter (fun x => uptime n - x <= 60000) (fails s) ++ [uptime n]) /\
    es = if (3 <=? Z.of_nat (length (fails s'))) && (in_window (uptime (S n)) (recent s) <? 2)
         then [log_record TOTEM_HEVT_CLASS_A_SUSPECT (i8 zmk_ble_active_profile_index)
                 (i8 zmk_ble_active_profile_index) 3 (u8 (in_window (uptime (S n)) (recent s))) 0]
         else []) s n.
Proof.
  intros HT s n. pose proof (reachable_ok os t) as HI. fold s n in HI.
  wp_use class_a_fail_spec; [done..|]. intros [] s' n' es (_&Hf&->). split; [exact Hf|].
  rewrite scan_filter; [done|]. destruct HI as (_&Hd&_). eapply desc_le; [done|].
  apply uptime_mono. lia.
Qed.

Definition three_fails : list occurrence :=
  [Occ two_hosts (in_disconnected 1%nat 5); Occ two_hosts (in_security_changed 1%nat 1 9)].

Lemma class_a_sliding_window_witness :
  let s := fin (run three_fails host_init 0%nat) in
  let n := clk (run three_fails host_init 0%nat) in
  length (fails s) = 2%nat /\
  wp (@class_a_note_auth_event _ _ two_hosts true) (fun _ s' n' es =>
    fails s' = lastn 3 (filter (fun x => uptime n - x <= 60000) (fails s) ++ [uptime n])) s n.
Proof.
  split; [vm_compute; reflexivity|].
  pose proof (@class_a_sliding_window _ _ two_hosts three_fails 0 eq_refl) as Hw.
  cbv zeta in Hw |- *. eapply wp_mono; [exact Hw|]. intros [] s' n' es [Hf _]. exact Hf.
Defined.

(** Only a change of the selected index is a profile switch: on a switch the thrash window,
    every ignore window, the Class-A window and (with bond healing) the failure streak are
    empty afterwards; a notification of the same index, or the first one after boot, leaves
    them all as they were.  Either way the eviction scan is requested now and once more. *)
Theorem switch_resets_policy `{!Config} `{!Clock} `{!View} (s : host) (t : nat) :
  wp exclusive_host_profile_changed (fun _ s' t' es =>
    last_active_profile s' = zmk_ble_active_profile_index /\
    [k_work_submit exclusive_host_evict_work; k_work_schedule exclusive_host_retry_work 150]
      `suffix_of` es /\
    if (0 <=? last_active_profile s) && negb (last_active_profile s =? zmk_ble_active_profile_index)
    then (CONFIG_TOTEM_THRASH_DETECT = true -> recent s' = [] /\ fails s' = []) /\
         (forall idx now, ignoring s' idx now = false) /\
         (CONFIG_TOTEM_BOND_HEAL = true -> active_auth_fail_streak s' = 0)
    else recent s' = recent s /\ fails s' = fails s /\
         bg_ignore_until s' = bg_ignore_until s /\
         active_auth_fail_streak s' = active_auth_fail_streak s) s t.
Proof.
  unfold exclusive_host_profile_changed, totem_host_event_log_record_call,
    exclusive_host_schedule_retry, thrash_clear, bg_clear_ignores, class_a_note_auth_event.
  wp_steps.
  destruct ((0 <=? last_active_profile s) && _) eqn:Hsw; cbn [when].
  2: { wp_steps. split_and!; try done. eexists [_]. reflexivity. }
  assert (forall s' idx now, bg_ignore_until s' = replicate (Z.to_nat ZMK_BLE_PROFILE_COUNT) 0 ->
    ignoring s' idx now = false) as Hig.
  { intros s' idx now Hbg. unfold ignoring, ignore_set. rewrite Hbg.
    destruct (Z.leb_spec 0 idx), (Z.ltb_spec idx ZMK_BLE_PROFILE_COUNT); cbn [andb]; try done.
    by rewrite aget_replicate by lia. }
  destruct CONFIG_TOTEM_BOND_HEAL, CONFIG_TOTEM_THRASH_DETECT; cbn [when negb]; wp_steps;
    (split_and!; [done|by eexists [_]| |by intros; apply Hig|]); done.
Qed.
End ExclusiveProps.
