(* ===== verification/ReconnectWatch.v ===== *)
(** * The reconnect watch (src/reconnect_watch.c)

    A recovery ladder of at most three timed steps after a profile switch or when the
    active host goes down. *)
From S2P Require Import Prelude Events Platform.

Module Watch.

(** [enum reconnect_step]. *)
Inductive reconnect_step :=
| RECONNECT_STEP_NONE | RECONNECT_STEP_READV | RECONNECT_STEP_EVICT | RECONNECT_STEP_ZOMBIE.
#[export] Instance reconnect_step_eq_dec : EqDecision reconnect_step.
Proof. solve_decision. Defined.

(** The static variables of the file; the two work items are effects. *)
Record watch := MkWatch {
  next_step : reconnect_step;
  ladder_from_active_down : bool;
  watch_profile_index : Z;    (* int *)
}.
#[export] Instance watch_eta : Eta watch := fun s =>
  MkWatch (next_step s) (ladder_from_active_down s) (watch_profile_index s).

(** [struct host_conn_scan]: a local variable of the handler. *)
Record host_conn_scan := Scan {
  active_match : option conn;
  any_host : option conn;
  host_count : Z;
}.
#[export] Instance scan_eta : Eta host_conn_scan := fun s =>
  Scan (active_match s) (any_host s) (host_count s).

Section code.
Context `{!Config} `{!View}.

Definition RECONNECT_WATCH_STEP_SEC : Z := CONFIG_TOTEM_RECONNECT_WATCH_SEC.

Definition reconnect_watch_first_delay_sec : Z :=
  if CONFIG_ZMK_BLE_ADV_BOOST && (RECONNECT_WATCH_STEP_SEC <? CONFIG_ZMK_BLE_ADV_BOOST_SEC)
  then CONFIG_ZMK_BLE_ADV_BOOST_SEC else RECONNECT_WATCH_STEP_SEC.

Definition scan_host_conns (c : conn) (scan : host_conn_scan) : proc watch effect host_conn_scan :=
  match bt_conn_get_info c with
  | None => ret scan
  | Some info =>
  if negb (info_role info =? BT_CONN_ROLE_PERIPHERAL) then ret scan else
  if negb (info_state info =? BT_CONN_STATE_CONNECTED) then ret scan else
  let scan := scan <| host_count := host_count scan + 1 |> in
  scan <- (match any_host scan with
           | None => emit (bt_conn_ref c) ;; ret (scan <| any_host := Some c |>)
           | Some _ => ret scan
           end) ;;
  let idx := zmk_ble_profile_index (bt_conn_get_dst c) in
  match active_match scan with
  | None => if idx =? zmk_ble_active_profile_index
            then emit (bt_conn_ref c) ;; ret (scan <| active_match := Some c |>) else ret scan
  | Some _ => ret scan
  end
  end.

Definition host_conn_scan_release (scan : host_conn_scan) : proc watch effect () :=
  (match active_match scan with Some c => emit (bt_conn_unref c) | None => ret () end) ;;
  match any_host scan with Some c => emit (bt_conn_unref c) | None => ret () end.

Definition drop_non_active_hosts (c : conn) : proc watch effect () :=
  match bt_conn_get_info c with
  | None => ret ()
  | Some info =>
  if negb (info_role info =? BT_CONN_ROLE_PERIPHERAL) then ret () else
  let idx := zmk_ble_profile_index (bt_conn_get_dst c) in
  if (idx <? 0) || (idx =? zmk_ble_active_profile_index) then ret () else
  if bt_conn_get_security c <? BT_SECURITY_L2 then ret () else
  emit (bt_conn_disconnect c BT_HCI_ERR_REMOTE_USER_TERM_CONN)
  end.

Definition reconnect_watch_reset : proc watch effect () :=
  modify (fun s => s <| next_step := RECONNECT_STEP_NONE |>
                     <| ladder_from_active_down := false |>) ;;
  emit (k_work_cancel_delayable reconnect_watch_work).

Definition log_step (step : Z) (scan : host_conn_scan) : proc watch effect () :=
  s <- get ;;
  totem_host_event_log_record_call TOTEM_HEVT_WATCH_STEP zmk_ble_active_profile_index
    zmk_ble_active_profile_index step (host_count scan) (b2z (ladder_from_active_down s)).

(** The switch of the work handler: one step of the ladder. *)
Definition take_step (s : watch) (scan : host_conn_scan) : proc watch effect () :=
  match next_step s with
  | RECONNECT_STEP_READV =>
      log_step 1 scan ;;
      emit (if CONFIG_ZMK_BLE_ADV_BOOST then zmk_ble_adv_boost_rearm else zmk_ble_adv_kick) ;;
      modify (fun s => s <| next_step := RECONNECT_STEP_EVICT |>) ;;
      emit (k_work_schedule reconnect_watch_work (K_SECONDS RECONNECT_WATCH_STEP_SEC))
  | RECONNECT_STEP_EVICT =>
      log_step 2 scan ;;
      for_each le_conns drop_non_active_hosts ;;
      modify (fun s => s <| next_step := RECONNECT_STEP_ZOMBIE |>) ;;
      emit (k_work_schedule reconnect_watch_work (K_SECONDS RECONNECT_WATCH_STEP_SEC))
  | RECONNECT_STEP_ZOMBIE => log_step 3 scan ;; reconnect_watch_reset
  | RECONNECT_STEP_NONE => reconnect_watch_reset
  end.

Definition reconnect_watch_work_handler : proc watch effect () :=
  if totem_hid_is_usb || totem_usb_cable_up || zmk_ble_host_adv_suppressed then
    reconnect_watch_reset
  else if zmk_ble_active_profile_is_open then reconnect_watch_reset
  else if zmk_ble_active_profile_is_connected then reconnect_watch_reset
  else
  scan <- fold_each le_conns scan_host_conns (Scan None None 0) ;;
  match active_match scan with
  | Some _ => reconnect_watch_reset ;; host_conn_scan_release scan
  | None =>
  s <- get ;;
  take_step s scan ;;
  host_conn_scan_release scan
  end.

Definition reconnect_watch_arm_full : proc watch effect () :=
  if totem_hid_is_usb || totem_usb_cable_up || zmk_ble_host_adv_suppressed then
    reconnect_watch_reset
  else if zmk_ble_active_profile_is_open || zmk_ble_active_profile_is_connected then
    reconnect_watch_reset
  else
  modify (fun s => s <| ladder_from_active_down := false |>
                     <| next_step := RECONNECT_STEP_READV |>) ;;
  let delay := reconnect_watch_first_delay_sec in
  totem_host_event_log_record_call TOTEM_HEVT_WATCH_ARM zmk_ble_active_profile_index
    zmk_ble_active_profile_index delay 0 0 ;;
  emit (k_work_reschedule reconnect_watch_work (K_SECONDS delay)).

Definition reconnect_watch_arm_light : proc watch effect () :=
  if totem_hid_is_usb || totem_usb_cable_up then ret ()
  else if zmk_ble_active_profile_is_open || zmk_ble_active_profile_is_connected then
    reconnect_watch_reset
  else if zmk_ble_host_adv_suppressed then ret ()
  else
  s <- get ;;
  if bool_decide (next_step s <> RECONNECT_STEP_NONE) then ret () else
  modify (fun s => s <| ladder_from_active_down := true |>
                     <| next_step := RECONNECT_STEP_READV |>) ;;
  totem_host_event_log_record_call TOTEM_HEVT_WATCH_ARM zmk_ble_active_profile_index
    zmk_ble_active_profile_index RECONNECT_WATCH_STEP_SEC 0 1 ;;
  emit (k_work_reschedule reconnect_watch_work (K_SECONDS RECONNECT_WATCH_STEP_SEC)).

Definition totem_reconnect_watch_arm_if_needed : proc watch effect () :=
  reconnect_watch_arm_light.

Definition active_down_arm_work_handler : proc watch effect () :=
  if negb CONFIG_TOTEM_RECONNECT_WATCH_ON_ACTIVE_DOWN then ret ()
  else if zmk_ble_active_profile_is_open then ret ()
  else if zmk_ble_host_adv_suppressed then ret ()
  else if zmk_ble_active_profile_is_connected then ret ()
  else
  s <- get ;;
  if bool_decide (next_step s <> RECONNECT_STEP_NONE) then ret () else
  totem_host_event_log_record_call TOTEM_HEVT_ACTIVE_DOWN_ARM zmk_ble_active_profile_index
    zmk_ble_active_profile_index 0 0 0 ;;
  reconnect_watch_arm_light.

Definition reconnect_watch_profile_changed : proc watch effect () :=
  let profile := zmk_ble_active_profile_index in
  s <- get ;;
  if profile =? watch_profile_index s then ret () else
  modify (fun s => s <| watch_profile_index := profile |>) ;;
  reconnect_watch_arm_full.

Definition reconnect_watch_connected (c : conn) (err : Z) : proc watch effect () :=
  if negb (err =? 0) then ret () else
  when zmk_ble_active_profile_is_connected reconnect_watch_reset.

Definition reconnect_watch_disconnected (c : conn) (reason : Z) : proc watch effect () :=
  let idx := zmk_ble_profile_index (bt_conn_get_dst c) in
  let active := zmk_ble_active_profile_index in
  if totem_hid_is_usb || totem_usb_cable_up then ret () else
  if (idx <? 0) || negb (idx =? active) then ret () else
  if negb CONFIG_TOTEM_RECONNECT_WATCH_ON_ACTIVE_DOWN then ret () else
  emit (k_work_submit active_down_arm_work).

Definition reconnect_watch_security_changed (c : conn) (level err : Z) : proc watch effect () :=
  when ((BT_SECURITY_L2 <=? level) && zmk_ble_active_profile_is_connected) reconnect_watch_reset.

Definition reconnect_watch_init : proc watch effect () :=
  modify (fun s => s <| watch_profile_index := zmk_ble_active_profile_index |>).

Definition reconnect_watch_settings_commit : proc watch effect () :=
  modify (fun s => s <| watch_profile_index := zmk_ble_active_profile_index |>).
End code.

(** Zero-initialised statics. *)
Definition watch_zero : watch := MkWatch RECONNECT_STEP_NONE false 0.
End Watch.
