(* ===== verification/ReconnectWatchProps.v ===== *)
(** * What the reconnect watch guarantees

    The ladder together with its delayable work item, under any sequence of callbacks,
    each in whatever view of the host stack it finds. *)
From S2P Require Import Prelude Events Platform Samples ReconnectWatch.

Module WatchRun.
Import Watch.

Section facts.
Context `{!Config} `{!View}.
Implicit Types (s : watch) (t : nat) (c : conn) (scan : host_conn_scan) (es : list effect).

(** ** The connection scan *)
Definition held scan : list conn := option_list (active_match scan) ++ option_list (any_host scan).

(** A link that shows the selected computer is connected. *)
Definition shows_active c : Prop :=
  exists info, bt_conn_get_info c = Some info /\ info_role info = BT_CONN_ROLE_PERIPHERAL /\
    info_state info = BT_CONN_STATE_CONNECTED /\
    zmk_ble_profile_index (bt_conn_get_dst c) = zmk_ble_active_profile_index.

Lemma scan_host_conns_spec c scan s t :
  wp (scan_host_conns c scan) (fun scan' s' t' es =>
    s' = s /\ t' = t /\ (exists r, es = bt_conn_ref <$> r /\ held scan' ≡ₚ held scan ++ r) /\
    (active_match scan' = None <-> active_match scan = None /\ ~ shows_active c)) s t.
Proof.
  unfold scan_host_conns, shows_active.
  destruct (bt_conn_get_info c) as [info|] eqn:Hi.
  2: { wp_steps. split_and!; [done..|by exists []; rewrite app_nil_r|].
       split; [intros ->; split; [done|by intros (?&?&_)]|tauto]. }
  destruct (Z.eqb_spec (info_role info) BT_CONN_ROLE_PERIPHERAL) as [Hr|Hr]; cbn [negb].
  2: { wp_steps. split_and!; [done..|by exists []; rewrite app_nil_r|].
       split; [intros ->; split; [done|by intros (?&[= <-]&?&_)]|tauto]. }
  destruct (Z.eqb_spec (info_state info) BT_CONN_STATE_CONNECTED) as [Hs|Hs]; cbn [negb].
  2: { wp_steps. split_and!; [done..|by exists []; rewrite app_nil_r|].
       split; [intros ->; split; [done|by intros (?&[= <-]&_&?&_)]|tauto]. }
  assert ((exists info0, Some info = Some info0 /\ info_role info0 = BT_CONN_ROLE_PERIPHERAL /\
    info_state info0 = BT_CONN_STATE_CONNECTED /\
    zmk_ble_profile_index (bt_conn_get_dst c) = zmk_ble_active_profile_index) <->
    zmk_ble_profile_index (bt_conn_get_dst c) = zmk_ble_active_profile_index) as Hsh.
  { split; [by intros (?&?&?&?&?)|]. by exists info. }
  eapply (wp_mono _ (fun scan' s' t' es =>
    s' = s /\ t' = t /\ (exists r, es = bt_conn_ref <$> r /\ held scan' ≡ₚ held scan ++ r) /\
    (active_match scan' = None <-> active_match scan = None /\
       zmk_ble_profile_index (bt_conn_get_dst c) <> zmk_ble_active_profile_index))).
  2: { intros scan' s' t' es. by rewrite Hsh. }
  clear Hsh. cbv zeta. destruct scan as [am ah n].
  cbn [any_host host_count active_match].
  destruct ah as [h|], am as [a|]; cbn; wp_steps; cbn;
    try (destruct (Z.eqb_spec (zmk_ble_profile_index (bt_conn_get_dst c))
           zmk_ble_active_profile_index); wp_steps; cbn);
    (split_and!; [done|done| |by split; [..|by intros []]]).
  all: first [ by exists [] | by exists [c] | by exists [c; c]
             | exists [c]; split; [done|apply Permutation_swap] ].
Qed.

Lemma scan_spec (l : list conn) scan s t :
  wp (fold_each l scan_host_conns scan) (fun scan' s' t' es =>
    s' = s /\ t' = t /\ (exists r, es = bt_conn_ref <$> r /\ held scan' ≡ₚ held scan ++ r) /\
    (active_match scan' = None <-> active_match scan = None /\ forall c, c ∈ l -> ~ shows_active c)) s t.
Proof.
  revert scan. induction l as [|c l IH]; intros scan; cbn [fold_each].
  { wp_steps. split_and!; [done..| |].
    - exists []. by rewrite app_nil_r.
    - split; [|tauto]. intros ->. split; [done|]. by intros c ?%elem_of_nil. }
  apply wp_bind. wp_use scan_host_conns_spec. intros scan1 s1 t1 es1 (->&->&(r1&->&Hr1)&Ha1).
  wp_use IH. intros scan2 s2 t2 es2 (->&->&(r2&->&Hr2)&Ha2). split_and!; [done..| |].
  - exists (r1 ++ r2). split; [by rewrite fmap_app|]. by rewrite Hr2, Hr1, app_assoc.
  - rewrite Ha2, Ha1. setoid_rewrite elem_of_cons. naive_solver.
Qed.

(** ** The delayable work item *)

(** Whether the watch's work item is pending after an effect. *)
Definition timer (p : bool) (x : effect) : bool :=
  match x with
  | k_work_schedule reconnect_watch_work _ | k_work_reschedule reconnect_watch_work _ => true
  | k_work_cancel_delayable reconnect_watch_work => false
  | _ => p
  end.
Definition timer_after (p : bool) es : bool := foldl timer p es.

Lemma timer_after_app p es es' : timer_after p (es ++ es') = timer_after (timer_after p es) es'.
Proof. apply foldl_app. Qed.

(** References taken and given back. *)
Definition refs es : list conn := omap (fun x => match x with bt_conn_ref c => Some c | _ => None end) es.
Definition unrefs es : list conn := omap (fun x => match x with bt_conn_unref c => Some c | _ => None end) es.
Definition kicks es : list conn :=
  omap (fun x => match x with bt_conn_disconnect c _ => Some c | _ => None end) es.

Lemma refs_app es es' : refs (es ++ es') = refs es ++ refs es'.
Proof. apply omap_app. Qed.
Lemma unrefs_app es es' : unrefs (es ++ es') = unrefs es ++ unrefs es'.
Proof. apply omap_app. Qed.
Lemma kicks_app es es' : kicks (es ++ es') = kicks es ++ kicks es'.
Proof. apply omap_app. Qed.

Lemma ref_effects (r : list conn) p :
  refs (bt_conn_ref <$> r) = r /\ unrefs (bt_conn_ref <$> r) = [] /\ kicks (bt_conn_ref <$> r) = [] /\
  timer_after p (bt_conn_ref <$> r) = p.
Proof.
  induction r as [|c r (IH1&IH2&IH3&IH4)]; [done|]. cbn. split_and!; try done. by f_equal.
Qed.

Lemma release_spec scan s t :
  wp (host_conn_scan_release scan) (fun _ s' t' es =>
    s' = s /\ unrefs es = held scan /\ refs es = [] /\ kicks es = [] /\
    forall p, timer_after p es = p) s t.
Proof. unfold host_conn_scan_release. by destruct scan as [[a|] [h|] n]. Qed.

Lemma reset_spec s t :
  wp reconnect_watch_reset (fun _ s' t' es =>
    next_step s' = RECONNECT_STEP_NONE /\ es = [k_work_cancel_delayable reconnect_watch_work]) s t.
Proof. done. Qed.

(** A link step 2 may drop. *)
Definition droppable c : Prop :=
  c ∈ le_conns /\ (exists info, bt_conn_get_info c = Some info /\ info_role info = BT_CONN_ROLE_PERIPHERAL) /\
  0 <= zmk_ble_profile_index (bt_conn_get_dst c) /\
  zmk_ble_profile_index (bt_conn_get_dst c) <> zmk_ble_active_profile_index /\
  BT_SECURITY_L2 <= bt_conn_get_security c.

Lemma drop_all_spec (l : list conn) s t :
  (forall c, c ∈ l -> c ∈ le_conns) ->
  wp (for_each l drop_non_active_hosts) (fun _ s' t' es =>
    s' = s /\ refs es = [] /\ unrefs es = [] /\ (forall p, timer_after p es = p) /\
    (forall c, c ∈ kicks es -> droppable c)) s t.
Proof.
  induction l as [|c l IH]; intros Hl; cbn [for_each].
  { wp_steps. split_and!; try done. by intros c ?%elem_of_nil. }
  apply wp_bind.
  assert (wp (drop_non_active_hosts c) (fun _ s' t' es => s' = s /\ t' = t /\
    (es = [] \/ es = [bt_conn_disconnect c BT_HCI_ERR_REMOTE_USER_TERM_CONN] /\ droppable c)) s t) as Hd.
  { unfold drop_non_active_hosts, droppable.
    destruct (bt_conn_get_info c) as [info|] eqn:Hi; [|wp_steps; auto].
    destruct (Z.eqb_spec (info_role info) BT_CONN_ROLE_PERIPHERAL); cbn [negb]; [|wp_steps; auto].
    cbv zeta. destruct (Z.ltb_spec (zmk_ble_profile_index (bt_conn_get_dst c)) 0); cbn [orb];
      [wp_steps; auto|].
    destruct (Z.eqb_spec (zmk_ble_profile_index (bt_conn_get_dst c)) zmk_ble_active_profile_index);
      [wp_steps; auto|].
    destruct (Z.ltb_spec (bt_conn_get_security c) BT_SECURITY_L2); wp_steps; auto.
    split_and!; try done. right. split; [done|]. split_and!; try done; [apply Hl; by left|by exists info]. }
  eapply wp_mono; [exact Hd|]. cbv beta. intros [] s1 t1 es1 (->&->&Hes1).
  wp_use IH; [intros c' ?; apply Hl; by right|].
  intros [] s2 t2 es2 (->&Hr&Hu&Ht&Hk).
  destruct Hes1 as [->|[-> Hdr]]; [by split_and!|].
  split_and!; try done. intros c' [->|Hc]%elem_of_cons; [done|by apply Hk].
Qed.

(** ** One firing of the work item *)
Definition rank (x : reconnect_step) : nat :=
  match x with
  | RECONNECT_STEP_NONE => 0 | RECONNECT_STEP_ZOMBIE => 1
  | RECONNECT_STEP_EVICT => 2 | RECONNECT_STEP_READV => 3
  end.

Definition recovery_allowed : Prop :=
  totem_hid_is_usb = false /\ totem_usb_cable_up = false /\ zmk_ble_host_adv_suppressed = false /\
  zmk_ble_active_profile_is_open = false /\ zmk_ble_active_profile_is_connected = false /\
  forall c, c ∈ le_conns -> ~ shows_active c.

Definition fired s s' es : Prop :=
  (rank (next_step s') <= pred (rank (next_step s)))%nat /\
  timer_after false es = bool_decide (next_step s' <> RECONNECT_STEP_NONE) /\
  unrefs es ≡ₚ refs es /\
  (forall c, c ∈ kicks es -> recovery_allowed /\ next_step s = RECONNECT_STEP_EVICT /\ droppable c).

Lemma fired_reset s s' es :
  next_step s' = RECONNECT_STEP_NONE -> es = [k_work_cancel_delayable reconnect_watch_work] ->
  fired s s' es.
Proof.
  intros Hn ->. unfold fired. rewrite Hn. split_and!; [cbn; lia|done|done|]. by intros c ?%elem_of_nil.
Qed.

(** A step after the scan: it is over and done with once the scan is released. *)
Lemma fired_step s scan (r : list conn) es1 s2 es2 :
  held scan ≡ₚ r -> unrefs es1 = [] -> refs es1 = [] ->
  (rank (next_step s2) <= pred (rank (next_step s)))%nat ->
  timer_after false es1 = bool_decide (next_step s2 <> RECONNECT_STEP_NONE) ->
  (forall c, c ∈ kicks es1 -> recovery_allowed /\ next_step s = RECONNECT_STEP_EVICT /\ droppable c) ->
  unrefs es2 = held scan -> refs es2 = [] -> kicks es2 = [] -> (forall p, timer_after p es2 = p) ->
  fired s s2 ((bt_conn_ref <$> r) ++ es1 ++ es2).
Proof.
  intros Hh Hu1 Hr1 Hrank Ht1 Hk1 Hu2 Hr2 Hk2 Ht2.
  destruct (ref_effects r false) as (Hrr&Hru&Hrk&Hrt). unfold fired.
  rewrite !unrefs_app, !refs_app, !kicks_app, !timer_after_app, Hru, Hrr, Hrk, Hrt, Hu1, Hr1, Hu2,
    Hr2, Hk2, Ht2, Ht1, !app_nil_r.
  by split_and!.
Qed.

Lemma take_step_spec s scan t :
  recovery_allowed ->
  wp (take_step s scan) (fun _ s2 t2 es =>
    unrefs es = [] /\ refs es = [] /\ (rank (next_step s2) <= pred (rank (next_step s)))%nat /\
    timer_after false es = bool_decide (next_step s2 <> RECONNECT_STEP_NONE) /\
    (forall c, c ∈ kicks es -> recovery_allowed /\ next_step s = RECONNECT_STEP_EVICT /\ droppable c)) s t.
Proof.
  intros Hrec. unfold take_step, log_step, totem_host_event_log_record_call.
  destruct (next_step s) eqn:Hns; wp_steps.
  - split_and!; try done. by intros c ?%elem_of_nil.
  - destruct CONFIG_ZMK_BLE_ADV_BOOST; (split_and!; try done); by intros c ?%elem_of_nil.
  - wp_use drop_all_spec; [done|]. intros [] s2 t2 es2 (->&Hr2&Hu2&Ht2&Hk2). wp_steps.
    match goal with
    | |- context [?x :: es2 ++ ?l] => change (x :: es2 ++ l) with ([x] ++ es2 ++ l)
    end.
    rewrite !unrefs_app, !refs_app, !kicks_app, !timer_after_app, Hu2, Hr2, Ht2.
    split_and!; try done. intros c Hc'. rewrite app_nil_r in Hc'. auto.
  - split_and!; try done. by intros c ?%elem_of_nil.
Qed.

Lemma work_handler_fired s t :
  wp reconnect_watch_work_handler (fun _ s' t' es => fired s s' es) s t.
Proof.
  assert (wp reconnect_watch_reset (fun _ s' t' es => fired s s' es) s t) as Hreset
    by (apply fired_reset; done).
  unfold reconnect_watch_work_handler.
  destruct totem_hid_is_usb eqn:Hu; [exact Hreset|].
  destruct totem_usb_cable_up eqn:Hc; [exact Hreset|].
  destruct zmk_ble_host_adv_suppressed eqn:Hs; [exact Hreset|]. cbn [orb].
  destruct zmk_ble_active_profile_is_open eqn:Ho; [exact Hreset|].
  destruct zmk_ble_active_profile_is_connected eqn:Hcon; [exact Hreset|].
  clear Hreset. apply wp_bind. wp_use scan_spec.
  intros scan s1 t1 es1 (->&->&(r&->&Hheld)&Hact). cbn [held option_list active_match any_host app] in Hheld.
  destruct (active_match scan) as [a|] eqn:Ha.
  - clear Hact. wp_steps. wp_use reset_spec. intros [] s2 t2 es2 (Hn&->).
    wp_use release_spec. intros [] s3 t3 es3 (->&Hun&Href&Hk&Ht).
    apply (fired_step s scan r [k_work_cancel_delayable reconnect_watch_work] s2 es3); try done.
    + rewrite Hn. cbn. lia.
    + by rewrite Hn.
    + by intros c ?%elem_of_nil.
  - destruct Hact as [Hact _]. destruct (Hact eq_refl) as [_ Hno].
    assert (recovery_allowed) as Hrec by by unfold recovery_allowed.
    apply wp_bind, wp_get. cbn [app]. apply wp_bind.
    wp_use (take_step_spec s scan t Hrec).
    intros [] s2 t2 es2 (Hu2&Hr2&Hrank&Ht2&Hk2).
    wp_use release_spec. intros [] s3 t3 es3 (->&Hun&Href&Hk&Ht).
    by apply (fired_step s scan r es2 s2 es3).
Qed.

(** ** The other handlers *)

(** Every other handler keeps the work item pending exactly while a step is armed, and
    never disconnects anybody. *)
Definition armed s : bool := bool_decide (next_step s <> RECONNECT_STEP_NONE).
Definition tracks (m : proc watch effect ()) : Prop :=
  forall s t, wp m (fun _ s' t' es =>
    timer_after (armed s) es = armed s' /\ kicks es = [] /\ refs es = [] /\ unrefs es = []) s t.

Lemma tracks_ret : tracks (ret ()).
Proof. done. Qed.
Lemma tracks_reset : tracks reconnect_watch_reset.
Proof. done. Qed.
Lemma tracks_if (b : bool) m m' : tracks m -> tracks m' -> tracks (if b then m else m').
Proof. by destruct b. Qed.
Lemma tracks_bind m m' : tracks m -> tracks m' -> tracks (m ;; m').
Proof.
  intros Hm Hm' s t. apply wp_bind. eapply wp_mono; [apply Hm|].
  intros [] s1 t1 es1 (Ht1&Hk1&Hr1&Hu1). eapply wp_mono; [apply Hm'|].
  intros [] s2 t2 es2 (Ht2&Hk2&Hr2&Hu2).
  rewrite timer_after_app, kicks_app, refs_app, unrefs_app, Ht1, Hk1, Hr1, Hu1, Ht2, Hk2, Hr2, Hu2. done.
Qed.
Lemma tracks_log k i a r w x : tracks (totem_host_event_log_record_call k i a r w x).
Proof. done. Qed.
Lemma tracks_get (m : watch -> proc watch effect ()) :
  (forall s t, wp (m s) (fun _ s' t' es =>
    timer_after (armed s) es = armed s' /\ kicks es = [] /\ refs es = [] /\ unrefs es = []) s t) ->
  tracks (s <- get ;; m s).
Proof. intros Hm s t. apply wp_bind, wp_get. apply Hm. Qed.

Lemma tracks_arm_full : tracks reconnect_watch_arm_full.
Proof.
  unfold reconnect_watch_arm_full. do 2 (apply tracks_if; [apply tracks_reset|]). done.
Qed.
Lemma tracks_arm_light : tracks reconnect_watch_arm_light.
Proof.
  unfold reconnect_watch_arm_light. apply tracks_if; [apply tracks_ret|].
  apply tracks_if; [apply tracks_reset|]. apply tracks_if; [apply tracks_ret|].
  apply tracks_get. intros s t. by destruct (bool_decide (next_step s <> RECONNECT_STEP_NONE)).
Qed.
Lemma tracks_active_down : tracks active_down_arm_work_handler.
Proof.
  unfold active_down_arm_work_handler. do 4 (apply tracks_if; [apply tracks_ret|]).
  apply tracks_get. intros s t.
  destruct (bool_decide (next_step s <> RECONNECT_STEP_NONE)); [apply tracks_ret|].
  apply (tracks_bind _ _ (tracks_log _ _ _ _ _ _) tracks_arm_light).
Qed.
Lemma tracks_profile_changed : tracks reconnect_watch_profile_changed.
Proof.
  unfold reconnect_watch_profile_changed. apply tracks_get. intros s t.
  apply tracks_if; [apply tracks_ret|]. apply tracks_bind; [done|apply tracks_arm_full].
Qed.
Lemma tracks_connected c err : tracks (reconnect_watch_connected c err).
Proof. unfold reconnect_watch_connected, when. repeat apply tracks_if; done. Qed.
Lemma tracks_disconnected c reason : tracks (reconnect_watch_disconnected c reason).
Proof. unfold reconnect_watch_disconnected. cbv zeta. repeat apply tracks_if; done. Qed.
Lemma tracks_security_changed c level err : tracks (reconnect_watch_security_changed c level err).
Proof. unfold reconnect_watch_security_changed, when. repeat apply tracks_if; done. Qed.
End facts.

(** ** The system: the ladder and its pending work item *)
Section trace.
Context `{!Config}.

Inductive input :=
| in_connected (c : conn) (err : Z)
| in_disconnected (c : conn) (reason : Z)
| in_security_changed (c : conn) (level err : Z)
| in_profile_changed
| in_active_down_work
| in_arm_if_needed
| in_settings_commit
| in_watch_timer.     (* the kernel runs the work item, if it is pending *)

Definition handler (V : View) (i : input) : proc watch effect () :=
  match i with
  | in_connected c err => reconnect_watch_connected c err
  | in_disconnected c reason => reconnect_watch_disconnected c reason
  | in_security_changed c level err => reconnect_watch_security_changed c level err
  | in_profile_changed => reconnect_watch_profile_changed
  | in_active_down_work => active_down_arm_work_handler
  | in_arm_if_needed => totem_reconnect_watch_arm_if_needed
  | in_settings_commit => reconnect_watch_settings_commit
  | in_watch_timer => reconnect_watch_work_handler
  end.

(** The state of the ladder and whether its work item is pending. *)
Record system := Sys { ladder : watch; work_pending : bool }.

(** One occurrence: the new system and the effects of the handler, if one ran. *)
Definition sys_step (x : system) (o : View * input) : system * list effect :=
  let '(V, i) := o in
  match i with
  | in_watch_timer =>
      if work_pending x then
        let r := handler V i (ladder x) 0%nat in
        (Sys (fin r) (timer_after false (eff r)), eff r)
      else (x, [])
  | _ =>
      let r := handler V i (ladder x) 0%nat in
      (Sys (fin r) (timer_after (work_pending x) (eff r)), eff r)
  end.
Definition sys_run (x : system) (os : list (View * input)) : system :=
  foldl (fun x o => (sys_step x o).1) x os.

Definition sys_init : system := Sys watch_zero false.
Definition coherent (x : system) : Prop := work_pending x = armed (ladder x).

Lemma handler_tracks (V : View) i : i <> in_watch_timer -> tracks (handler V i).
Proof.
  destruct i; cbn [handler]; intros Hi; try done.
  - apply tracks_connected.
  - apply tracks_disconnected.
  - apply tracks_security_changed.
  - apply tracks_profile_changed.
  - apply tracks_active_down.
  - apply tracks_arm_light.
Qed.

Lemma sys_step_quiet x (V : View) i :
  i <> in_watch_timer ->
  let r := handler V i (ladder x) 0%nat in
  sys_step x (V, i) = (Sys (fin r) (timer_after (work_pending x) (eff r)), eff r).
Proof. by destruct i. Qed.

(** Who is disconnected, and when. *)
Lemma sys_step_kicks x (V : View) i c :
  c ∈ kicks (sys_step x (V, i)).2 -> recovery_allowed /\ droppable c.
Proof.
  assert (i = in_watch_timer \/ i <> in_watch_timer) as [->|Hi] by (destruct i; (by left) || (by right)).
  - cbn [sys_step]. destruct (work_pending x); [|by intros ?%elem_of_nil].
    pose proof (work_handler_fired (ladder x) 0%nat) as (_&_&_&Hk). intros Hin.
    by destruct (Hk c Hin) as (?&_&?).
  - rewrite (sys_step_quiet x V i Hi). cbn [snd].
    pose proof (handler_tracks V i Hi (ladder x) 0%nat) as (_&Hk&_). rewrite Hk. by intros ?%elem_of_nil.
Qed.

Lemma sys_step_coherent x o : coherent x -> coherent (sys_step x o).1.
Proof.
  unfold coherent. destruct o as [V i]. intros Hx.
  assert (i = in_watch_timer \/ i <> in_watch_timer) as [->|Hi] by (destruct i; (by left) || (by right)).
  - cbn [sys_step]. destruct (work_pending x) eqn:Hw; [|cbn; by rewrite <- Hx, Hw]. cbn.
    pose proof (work_handler_fired (ladder x) 0%nat) as (_&Ht&_). exact Ht.
  - pose proof (handler_tracks V i Hi (ladder x) 0%nat) as (Ht&_).
    rewrite (sys_step_quiet x V i Hi).
    cbn [fst work_pending ladder]. by rewrite Hx.
Qed.

Lemma sys_run_coherent os x : coherent x -> coherent (sys_run x os).
Proof.
  revert x. induction os as [|o os IH]; intros x Hx; [done|]. cbn. apply IH.
  by apply sys_step_coherent.
Qed.
End trace.
End WatchRun.

(** * Properties *)
Module WatchProps.
Import Watch WatchRun.

Lemma init_coherent : coherent sys_init.
Proof. done. Qed.

(** C11 The ladder never hangs and never fires stray: whatever callbacks and work items have run,
    in whatever views, its work item is pending exactly while a recovery step is armed. *)
Theorem ladder_armed_iff_scheduled `{!Config} (os : list (View * input)) :
  let x := sys_run sys_init os in
  work_pending x = true <-> next_step (ladder x) <> RECONNECT_STEP_NONE.
Proof.
  cbv zeta. rewrite (sys_run_coherent os sys_init init_coherent). unfold armed.
  by rewrite bool_decide_eq_true.
Qed.

Lemma timer_rank `{!Config} x (V : View) :
  coherent x ->
  (rank (next_step (ladder (sys_step x (V, in_watch_timer)).1)) <= pred (rank (next_step (ladder x))))%nat.
Proof.
  intros Hx. cbn [sys_step]. destruct (work_pending x) eqn:Hp.
  - pose proof (work_handler_fired (ladder x) 0%nat) as (Hr&_). exact Hr.
  - unfold coherent, armed in Hx. rewrite Hp in Hx. cbn.
    symmetry in Hx. apply bool_decide_eq_false, dec_stable in Hx. rewrite Hx. cbn. lia.
Qed.

Lemma timers_rank `{!Config} (Vs : list View) x :
  coherent x ->
  let x' := sys_run x ((fun V => (V, in_watch_timer)) <$> Vs) in
  coherent x' /\ (rank (next_step (ladder x')) <= rank (next_step (ladder x)) - length Vs)%nat.
Proof.
  revert x. induction Vs as [|V Vs IH]; intros x Hx; [split; [done|cbn; lia]|].
  pose proof (timer_rank x V Hx). pose proof (sys_step_coherent x (V, in_watch_timer) Hx) as Hx'.
  destruct (IH _ Hx') as [Hc Hr]. split; [exact Hc|]. cbn [length fmap list_fmap] in *.
  unfold sys_run in *. cbn [foldl]. etrans; [exact Hr|]. lia.
Qed.

Lemma rank_le r : (rank r <= 3)%nat.
Proof. destruct r; cbn; lia. Qed.

(** C26 The ladder is finite: from any reachable state, three consecutive runs of its work item,
    in whatever views, end it: nothing is armed and nothing is pending. *)
Theorem ladder_terminates `{!Config} (os : list (View * input)) (Vs : list View) :
  (3 <= length Vs)%nat ->
  let x := sys_run (sys_run sys_init os) ((fun V => (V, in_watch_timer)) <$> Vs) in
  next_step (ladder x) = RECONNECT_STEP_NONE /\ work_pending x = false.
Proof.
  intros Hl. pose proof (sys_run_coherent os sys_init init_coherent) as Hx.
  destruct (timers_rank Vs _ Hx) as [Hc Hr]. cbv zeta in *.
  set (x := sys_run (sys_run sys_init os) _) in *.
  pose proof (rank_le (next_step (ladder (sys_run sys_init os)))).
  assert (rank (next_step (ladder x)) = 0)%nat as Hn0 by lia.
  assert (next_step (ladder x) = RECONNECT_STEP_NONE) as Hn by by destruct (next_step (ladder x)).
  split; [done|]. rewrite Hc. unfold armed. rewrite Hn. done.
Qed.

(** The selected computer is down, another one is connected and encrypted. *)
Definition down : View :=
  host_view [Link peripheral_info 2 1] 0 false false false ZMK_TRANSPORT_BLE false.
Definition switched : View :=
  host_view [Link peripheral_info 2 1] 2 false false false ZMK_TRANSPORT_BLE false.

Lemma ladder_terminates_witness :
  work_pending (sys_run sys_init [(switched, in_profile_changed)]) = true /\
  work_pending (sys_run (sys_run sys_init [(switched, in_profile_changed)])
    ((fun V => (V, in_watch_timer)) <$> [switched; down; switched])) = false.
Proof.
  split; [vm_compute; reflexivity|].
  apply (ladder_terminates [(switched, in_profile_changed)] [switched; down; switched]). cbn. lia.
Defined.

(** C25 The watch never disconnects the selected computer, an unmapped peer or a pairing in
    progress: in every run it asks for a disconnect only from its own work item at step two,
    while HID is not on USB, no cable is in, advertising is not suppressed, the selected
    profile is bonded and not connected and no live link shows it, and only for an encrypted
    peripheral-role link of another profile. *)
Theorem watch_drops_only_others `{!Config} (os : list (View * input)) (V : View) (i : input)
    (c : conn) :
  c ∈ kicks (sys_step (sys_run sys_init os) (V, i)).2 ->
  i = in_watch_timer /\ next_step (ladder (sys_run sys_init os)) = RECONNECT_STEP_EVICT /\
  totem_hid_is_usb = false /\ totem_usb_cable_up = false /\ zmk_ble_host_adv_suppressed = false /\
  zmk_ble_active_profile_is_open = false /\ zmk_ble_active_profile_is_connected = false /\
  (forall c', c' ∈ le_conns -> ~ shows_active c') /\
  c ∈ le_conns /\
  (exists info, bt_conn_get_info c = Some info /\ info_role info = BT_CONN_ROLE_PERIPHERAL) /\
  0 <= zmk_ble_profile_index (bt_conn_get_dst c) /\
  zmk_ble_profile_index (bt_conn_get_dst c) <> zmk_ble_active_profile_index /\
  BT_SECURITY_L2 <= bt_conn_get_security c.
Proof.
  intros Hin. set (x := sys_run sys_init os) in *.
  assert (i = in_watch_timer \/ i <> in_watch_timer) as [->|Hi] by (destruct i; (by left) || (by right)).
  - cbn [sys_step] in Hin. destruct (work_pending x); [|by apply elem_of_nil in Hin].
    pose proof (work_handler_fired (ladder x) 0%nat) as (_&_&_&Hk).
    destruct (Hk c Hin) as ((?&?&?&?&?&?)&?&(?&?&?&?&?)). by split_and!.
  - pose proof (handler_tracks V i Hi (ladder x) 0%nat) as (_&Hk&_).
    rewrite (sys_step_quiet x V i Hi) in Hin. cbn [snd] in Hin. rewrite Hk in Hin. by apply elem_of_nil in Hin.
Qed.

Definition at_step_two : list (View * input) :=
  [(switched, in_profile_changed); (switched, in_watch_timer)].

Lemma watch_drops_only_others_witness :
  0%nat ∈ kicks (sys_step (sys_run sys_init at_step_two) (switched, in_watch_timer)).2 /\
  @zmk_ble_profile_index switched (@bt_conn_get_dst switched 0%nat) <> 2.
Proof.
  assert (0%nat ∈ kicks (sys_step (sys_run sys_init at_step_two) (switched, in_watch_timer)).2) as Hin
    by (vm_compute; left).
  split; [exact Hin|].
  destruct (watch_drops_only_others at_step_two switched in_watch_timer 0%nat Hin)
    as (_&_&_&_&_&_&_&_&_&_&_&Hne&_). exact Hne.
Defined.

(** C40 Connection references are balanced: every occurrence gives back exactly the connection
    references it took, on every path of the handler. *)
Theorem watch_refs_balanced `{!Config} (os : list (View * input)) (V : View) (i : input) :
  let es := (sys_step (sys_run sys_init os) (V, i)).2 in unrefs es ≡ₚ refs es.
Proof.
  cbv zeta. set (x := sys_run sys_init os).
  assert (i = in_watch_timer \/ i <> in_watch_timer) as [->|Hi] by (destruct i; (by left) || (by right)).
  - cbn [sys_step]. destruct (work_pending x); [|done].
    pose proof (work_handler_fired (ladder x) 0%nat) as (_&_&Hb&_). exact Hb.
  - pose proof (handler_tracks V i Hi (ladder x) 0%nat) as (_&_&Hr&Hu).
    rewrite (sys_step_quiet x V i Hi). cbn [snd]. by rewrite Hr, Hu.
Qed.

(** Only an index change arms the full ladder: a notification of the watched index does
    nothing; a change is remembered, and arms the first step after the longer of the boost
    window and the step time when the new profile is bonded, down and BLE may advertise, or
    cancels whatever was armed otherwise. *)
Theorem profile_change_arms `{!Config} `{!View} (s : watch) (t : nat) :
  wp reconnect_watch_profile_changed (fun _ s' t' es =>
    if watch_profile_index s =? zmk_ble_active_profile_index then s' = s /\ es = []
    else watch_profile_index s' = zmk_ble_active_profile_index /\
      ladder_from_active_down s' = false /\
      if negb totem_hid_is_usb && negb totem_usb_cable_up && negb zmk_ble_host_adv_suppressed &&
         negb zmk_ble_active_profile_is_open && negb zmk_ble_active_profile_is_connected
      then next_step s' = RECONNECT_STEP_READV /\ exists d,
        last es = Some (k_work_reschedule reconnect_watch_work (1000 * d)) /\
        CONFIG_TOTEM_RECONNECT_WATCH_SEC <= d /\
        (CONFIG_ZMK_BLE_ADV_BOOST = true -> CONFIG_ZMK_BLE_ADV_BOOST_SEC <= d)
      else next_step s' = RECONNECT_STEP_NONE /\
        es = [k_work_cancel_delayable reconnect_watch_work]) s t.
Proof.
  unfold reconnect_watch_profile_changed. wp_steps. rewrite (Z.eqb_sym zmk_ble_active_profile_index).
  destruct (watch_profile_index s =? zmk_ble_active_profile_index); [by wp_steps|]. wp_steps.
  unfold reconnect_watch_arm_full, reconnect_watch_reset.
  destruct totem_hid_is_usb, totem_usb_cable_up, zmk_ble_host_adv_suppressed,
    zmk_ble_active_profile_is_open, zmk_ble_active_profile_is_connected; cbn [orb negb andb];
    wp_steps; try done.
  split_and!; try done. exists reconnect_watch_first_delay_sec.
  unfold reconnect_watch_first_delay_sec, RECONNECT_WATCH_STEP_SEC.
  destruct CONFIG_ZMK_BLE_ADV_BOOST; cbn [andb].
  - destruct (Z.ltb_spec CONFIG_TOTEM_RECONNECT_WATCH_SEC CONFIG_ZMK_BLE_ADV_BOOST_SEC);
      (split; [done|]); split; [lia|intros _; lia|lia|intros _; lia].
  - split; [done|]. split; [lia|done].
Qed.
End WatchProps.
