(* ===== verification/HandoffDiagnostics.v ===== *)
(** * Handoff observation (src/handoff_diagnostics.c)

    Per-connection radio counters, armed by the disconnect request of a background host
    and reported once when the link goes down.  The file only observes: each of its
    linker wrappers calls the wrapped function once.  [Handoff] also models
    [__wrap_bt_conn_set_state] of src/diagnostic_timing.c, which drives it. *)
From S2P Require Import Prelude Events Platform.

Module Handoff.

(** [struct handoff_radio]. *)
Record handoff_radio := Radio {
  armed : bool; rx_known : bool; first_bad : bool;
  last_rx : Z;                                             (* uint32_t *)
  done_count : Z; bad : Z; aborted : Z; skipped : Z;       (* uint16_t; [done] in C *)
  rx_packets : Z; no_rx : Z; invalid_rx : Z; mic_pass : Z; mic_fail : Z;
  tx_setups : Z; tx_completed : Z; tx_uncompleted : Z;
  first_tx_setup : Z; first_tx_end : Z; last_tx_end : Z;   (* uint32_t *)
}.
#[export] Instance radio_eta : Eta handoff_radio := fun r =>
  Radio (armed r) (rx_known r) (first_bad r) (last_rx r) (done_count r) (bad r) (aborted r)
    (skipped r) (rx_packets r) (no_rx r) (invalid_rx r) (mic_pass r) (mic_fail r) (tx_setups r)
    (tx_completed r) (tx_uncompleted r) (first_tx_setup r) (first_tx_end r) (last_tx_end r).
Definition radio_zero : handoff_radio := Radio false false false 0 0 0 0 0 0 0 0 0 0 0 0 0 0 0 0.
#[export] Instance radio_inhabited : Inhabited handoff_radio := populate radio_zero.

(** The wrapped functions and their arguments; a pointer into the link layer is an integer. *)
Inductive real_fn :=
| __real_bt_conn_disconnect (c : conn) (reason : Z)
| __real_llcp_tx_enqueue (ll tx : Z)
| __real_llcp_lp_comm_tx_ack (ll ctx tx : Z)
| __real_ull_cp_prt_elapse (ll elapsed_event error_code : Z)
| __real_ull_conn_done (done : Z)
| __real_bt_conn_set_state (c : conn) (state : Z)
| totem_security_tx_queued (ll tx : Z).

Inductive observation :=
| captured (e : event)       (* totem_diagnostic_timing_capture *)
| called (f : real_fn).

(** The static variables of the file: [radios]. *)
Definition radios : Type := list handoff_radio.

(** What the wrappers read of the link layer. *)
Record lll_conn := Lll {
  lll_handle : Z; lll_role : Z; lazy_prepare : Z; latency_event : Z; is_must_expire : bool;
}.
Record pdu_data := Pdu { ll_id : Z; pdu_len : Z; opcode : Z }.
Record done_extra := Done {
  crc_valid : bool; is_aborted : bool; trx_cnt : Z; mic_state : Z;
}.

(** Constants of the link layer's private headers, and the build of the controller. *)
Class Controller := {
  PDU_DATA_LLID_CTRL : Z;
  PDU_DATA_LLCTRL_TYPE_TERMINATE_IND : Z;
  LLL_CONN_MIC_PASS : Z;
  LLL_CONN_MIC_FAIL : Z;
  ETIMEDOUT : Z;
  BT_CONN_CONNECTED : Z;
  BT_CONN_DISCONNECT_COMPLETE : Z;
  CONFIG_BT_CTLR_LE_ENC : bool;
  CONFIG_BT_CTLR_CONN_META : bool;
  mic_states_differ : LLL_CONN_MIC_PASS <> LLL_CONN_MIC_FAIL;
  conn_states_differ : BT_CONN_CONNECTED <> BT_CONN_DISCONNECT_COMPLETE;
}.

Section code.
Context `{!Config} `{!Clock} `{!View} `{!Controller}.

Definition radios_init : radios := replicate (Z.to_nat CONFIG_BT_MAX_CONN) radio_zero.
Definition array_size : Z := CONFIG_BT_MAX_CONN.

Definition capture (time type handle stage low high : Z) : proc radios observation () :=
  emit (captured (mk_event time type (i8 handle) (i8 (handle ≫ 8)) stage low high)).

Definition capture_value (type handle stage value : Z) : proc radios observation () :=
  now <- k_uptime_get_32 ;;
  capture now type handle stage (Z.land value 0xff) (value ≫ 8).

Definition totem_handoff_tx_armed (handle : Z) : proc radios observation bool :=
  if array_size <=? handle then ret false else
  s <- get ;; ret (armed (aget s handle)).

Definition add_count (value count : Z) : Z := Z.min (u32 (value + count)) UINT16_MAX.

Definition set_radio (handle : Z) (f : handoff_radio -> handoff_radio) : proc radios observation () :=
  modify (fun s => aset s handle (f (aget s handle))).

Definition totem_handoff_tx_setup (handle : Z) : proc radios observation () :=
  if array_size <=? handle then ret () else
  s <- get ;;
  when (armed (aget s handle))
    (when (tx_setups (aget s handle) =? 0)
       (now <- k_uptime_get_32 ;; set_radio handle (fun r => r <| first_tx_setup := now |>)) ;;
     set_radio handle (fun r => r <| tx_setups := add_count (tx_setups r) 1 |>)).

Definition totem_handoff_tx_result (handle : Z) (completed : bool) : proc radios observation () :=
  if array_size <=? handle then ret () else
  s <- get ;;
  when (armed (aget s handle))
    (if completed then
       now <- k_uptime_get_32 ;;
       when (tx_completed (aget s handle) =? 0)
         (set_radio handle (fun r => r <| first_tx_end := now |>)) ;;
       set_radio handle (fun r => r <| last_tx_end := now |>
                                    <| tx_completed := add_count (tx_completed r) 1 |>)
     else set_radio handle (fun r => r <| tx_uncompleted := add_count (tx_uncompleted r) 1 |>)).

Definition totem_handoff_connected (handle : Z) : proc radios observation () :=
  if array_size <=? handle then ret () else set_radio handle (fun _ => radio_zero).

(** [cond ? time : k_uptime_get_32()]. *)
Definition time_or_now (known : bool) (time : Z) : proc radios observation Z :=
  if known then ret time else k_uptime_get_32.

Definition totem_handoff_disconnected (handle : Z) : proc radios observation () :=
  if array_size <=? handle then ret () else
  s <- get ;;
  let radio := aget s handle in
  set_radio handle (fun _ => radio_zero) ;;
  if negb (armed radio) then ret () else
  capture_value TOTEM_HEVT_HANDOFF_RADIO handle 0 (done_count radio) ;;
  capture_value TOTEM_HEVT_HANDOFF_RADIO handle 1 (bad radio) ;;
  capture_value TOTEM_HEVT_HANDOFF_RADIO handle 2 (aborted radio) ;;
  capture_value TOTEM_HEVT_HANDOFF_RADIO handle 3 (skipped radio) ;;
  capture_value TOTEM_HEVT_HANDOFF_RADIO handle 7 (rx_packets radio) ;;
  capture_value TOTEM_HEVT_HANDOFF_RADIO handle 8 (no_rx radio) ;;
  capture_value TOTEM_HEVT_HANDOFF_RADIO handle 9 (invalid_rx radio) ;;
  capture_value TOTEM_HEVT_HANDOFF_RADIO handle 10 (mic_pass radio) ;;
  capture_value TOTEM_HEVT_HANDOFF_RADIO handle 11 (mic_fail radio) ;;
  time <- time_or_now (rx_known radio) (last_rx radio) ;;
  capture time TOTEM_HEVT_HANDOFF_RADIO handle 5 0 (b2z (rx_known radio)) ;;
  capture_value TOTEM_HEVT_HANDOFF_TX handle 0 (tx_setups radio) ;;
  capture_value TOTEM_HEVT_HANDOFF_TX handle 1 (tx_completed radio) ;;
  capture_value TOTEM_HEVT_HANDOFF_TX handle 2 (tx_uncompleted radio) ;;
  time <- time_or_now (negb (tx_setups radio =? 0)) (first_tx_setup radio) ;;
  capture time TOTEM_HEVT_HANDOFF_TX handle 3 0 (b2z (negb (tx_setups radio =? 0))) ;;
  time <- time_or_now (negb (tx_completed radio =? 0)) (first_tx_end radio) ;;
  capture time TOTEM_HEVT_HANDOFF_TX handle 4 0 (b2z (negb (tx_completed radio =? 0))) ;;
  time <- time_or_now (negb (tx_completed radio =? 0)) (last_tx_end radio) ;;
  capture time TOTEM_HEVT_HANDOFF_TX handle 5 0 (b2z (negb (tx_completed radio =? 0))).

(** The handle of a link whose disconnect is a handoff. *)
Definition handoff_handle (c : conn) : option (Z * bt_conn_info) :=
  match bt_conn_get_info c with
  | None => None
  | Some info =>
      if (info_type info =? BT_CONN_TYPE_LE) && (info_role info =? BT_CONN_ROLE_PERIPHERAL) &&
         (info_state info =? BT_CONN_STATE_CONNECTED) && negb zmk_usb_is_powered then
        let profile := zmk_ble_profile_index (bt_conn_get_dst c) in
        if (0 <=? profile) && negb (profile =? zmk_ble_active_profile_index) then
          match bt_hci_get_conn_handle c with
          | Some handle => if handle <? array_size then Some (handle, info) else None
          | None => None
          end
        else None
      else None
  end.

(** [real] is what [__real_bt_conn_disconnect] returns; [during] is what the other wrappers
    do while it runs: the request reaches the controller before the call returns. *)
Definition __wrap_bt_conn_disconnect (during : proc radios observation ()) (real : Z) (c : conn) (reason : Z) : proc radios observation Z :=
  let handoff := handoff_handle c in
  (match handoff with
   | Some (handle, info) =>
       s <- get ;;
       let previous := aget s handle in
       set_radio handle (fun _ => radio_zero <| armed := true |>
                                    <| rx_known := rx_known previous |>
                                    <| last_rx := last_rx previous |>) ;;
       now <- k_uptime_get_32 ;;
       capture now TOTEM_HEVT_HANDOFF_TERM handle 0 0 reason ;;
       capture_value TOTEM_HEVT_HANDOFF_PARAM handle 0 (le_interval info) ;;
       capture_value TOTEM_HEVT_HANDOFF_PARAM handle 1 (le_latency info) ;;
       capture_value TOTEM_HEVT_HANDOFF_PARAM handle 2 (le_timeout info) ;;
       time <- time_or_now (rx_known previous) (last_rx previous) ;;
       capture time TOTEM_HEVT_HANDOFF_RADIO handle 4 0 (b2z (rx_known previous))
   | None => ret ()
   end) ;;
  emit (called (__real_bt_conn_disconnect c reason)) ;;
  during ;;
  let err := real in
  (match handoff with
   | Some (handle, _) =>
       now <- k_uptime_get_32 ;;
       capture now TOTEM_HEVT_HANDOFF_TERM handle 1 (err_class err) (err_byte err) ;;
       when (negb (err =? 0)) (set_radio handle (fun r => r <| armed := false |>))
   | None => ret ()
   end) ;;
  ret err.

Definition termination_observed (lll : lll_conn) (pdu : pdu_data) (stage : Z)
    : proc radios observation () :=
  let handle := lll_handle lll in
  if (array_size <=? handle) || negb (ll_id pdu =? PDU_DATA_LLID_CTRL) ||
     negb (opcode pdu =? PDU_DATA_LLCTRL_TYPE_TERMINATE_IND) then ret () else
  s <- get ;;
  when (armed (aget s handle))
    (now <- k_uptime_get_32 ;; capture now TOTEM_HEVT_HANDOFF_TERM handle stage 0 0).

(** [ll], [ctx] and [tx] are the arguments; [lll] is what the wrapper reads of [*ll], [pdu] of
    [*tx]. *)
Definition __wrap_llcp_tx_enqueue (lll : lll_conn) (pdu : pdu_data) (ll tx : Z)
    : proc radios observation () :=
  termination_observed lll pdu 2 ;;
  emit (called (totem_security_tx_queued ll tx)) ;;
  emit (called (__real_llcp_tx_enqueue ll tx)).

Definition __wrap_llcp_lp_comm_tx_ack (lll : lll_conn) (pdu : pdu_data) (ll ctx tx : Z)
    : proc radios observation () :=
  termination_observed lll pdu 3 ;;
  emit (called (__real_llcp_lp_comm_tx_ack ll ctx tx)).

(** [real] is the result of the wrapped function and what it leaves in [*error_code];
    [terminating] says the local procedure it left is the termination procedure; [local_expire]
    is the local timer before the call. *)
Definition __wrap_ull_cp_prt_elapse (real : Z * Z) (terminating : bool) (lll : lll_conn)
    (local_expire : Z) (ll elapsed_event error_code : Z) : proc radios observation Z :=
  emit (called (__real_ull_cp_prt_elapse ll elapsed_event error_code)) ;;
  let '(result, code) := real in
  let handle := lll_handle lll in
  if negb (result =? - ETIMEDOUT) || (local_expire =? 0) || (elapsed_event <? local_expire) ||
     negb (lll_role lll =? BT_CONN_ROLE_PERIPHERAL) || (array_size <=? handle) then ret result else
  when terminating
    (s <- get ;;
     when (armed (aget s handle))
       (now <- k_uptime_get_32 ;;
        capture now TOTEM_HEVT_HANDOFF_TERM handle 4 0 code)) ;;
  ret result.

(** What [__wrap_ull_conn_done] does to the armed counters. *)
Definition count_done (lll : lll_conn) (d : done_extra) (r : handoff_radio) : handoff_radio :=
  let valid := crc_valid d && negb (is_aborted d) in
  let has_rx := negb (trx_cnt d =? 0) in
  r <| done_count := add_count (done_count r) 1 |>
    <| bad := add_count (bad r) (b2z (negb valid)) |>
    <| aborted := add_count (aborted r) (b2z (is_aborted d)) |>
    <| rx_packets := add_count (rx_packets r) (trx_cnt d) |>
    <| no_rx := add_count (no_rx r) (b2z (negb (is_aborted d) && negb has_rx)) |>
    <| invalid_rx := add_count (invalid_rx r)
                       (b2z (negb (is_aborted d) && has_rx && negb (crc_valid d))) |>
    <| mic_pass := if CONFIG_BT_CTLR_LE_ENC
                   then add_count (mic_pass r) (b2z (mic_state d =? LLL_CONN_MIC_PASS))
                   else mic_pass r |>
    <| mic_fail := if CONFIG_BT_CTLR_LE_ENC
                   then add_count (mic_fail r) (b2z (mic_state d =? LLL_CONN_MIC_FAIL))
                   else mic_fail r |>
    <| skipped := add_count (skipped r)
                    (u32 (lazy_prepare lll +
                          (if CONFIG_BT_CTLR_CONN_META && is_must_expire lll then 0 else latency_event lll))) |>
    <| first_bad := first_bad r || negb valid |>.

(** [d] is what [*done] says of the event, [lll] the connection it belongs to. *)
Definition __wrap_ull_conn_done (lll : lll_conn) (d : done_extra) (done : Z)
    : proc radios observation () :=
  let handle := lll_handle lll in
  when ((handle <? array_size) && (lll_role lll =? BT_CONN_ROLE_PERIPHERAL))
    (now <- k_uptime_get_32 ;;
     let valid := crc_valid d && negb (is_aborted d) in
     s <- get ;;
     let radio := aget s handle in
     when valid (set_radio handle (fun r => r <| rx_known := true |> <| last_rx := now |>)) ;;
     when (armed radio) (set_radio handle (count_done lll d)) ;;
     when (armed radio && (negb valid && negb (first_bad radio)))
       (capture now TOTEM_HEVT_HANDOFF_RADIO handle 6 0 (b2z (is_aborted d)))) ;;
  emit (called (__real_ull_conn_done done)).

(** [__wrap_bt_conn_set_state] (src/diagnostic_timing.c), with the controller in the build;
    [type], [handle] and [err] are fields of [c]. *)
Definition __wrap_bt_conn_set_state (type handle err : Z) (c : conn) (state : Z)
    : proc radios observation () :=
  when ((type =? BT_CONN_TYPE_LE) && (state =? BT_CONN_CONNECTED)) (totem_handoff_connected handle) ;;
  when ((type =? BT_CONN_TYPE_LE) && (state =? BT_CONN_DISCONNECT_COMPLETE))
    (now <- k_uptime_get_32 ;;
     emit (captured (mk_event now TOTEM_HEVT_HCI_DISC (i8 (Z.land handle 0xff)) (i8 (handle ≫ 8))
             err 0 zmk_ble_active_profile_index)) ;;
     totem_handoff_disconnected handle) ;;
  emit (called (__real_bt_conn_set_state c state)).
End code.
End Handoff.
