(* ===== verification/HandoffReport.v ===== *)
(** * What the handoff observers report

    The wrappers of src/handoff_diagnostics.c are transparent, their counters stay
    consistent, and a handoff is reported once and completely. *)
From S2P Require Import Prelude Events Platform Samples RingBuffer DiagnosticTiming.
From S2P Require Import HandoffDiagnostics.

Module Report.
Import Handoff.

(** ** The entry points, as the host, the link layer and the radio call them *)
Inductive event_op :=
| op_tx_setup (handle : Z)
| op_tx_result (handle : Z) (completed : bool)
| op_enqueue (lll : lll_conn) (pdu : pdu_data) (ll tx : Z)
| op_ack (lll : lll_conn) (pdu : pdu_data) (ll ctx tx : Z)
| op_elapse (real : Z * Z) (terminating : bool) (lll : lll_conn) (local_expire : Z)
    (ll elapsed_event error_code : Z)
| op_done (lll : lll_conn) (d : done_extra) (done : Z).

Inductive op :=
| op_event (o : event_op)
| op_disconnect (V : View) (during : list event_op) (real : Z) (c : conn) (reason : Z)
| op_set_state (V : View) (type handle err : Z) (c : conn) (state : Z).

Section facts.
Context `{!Config} `{!Clock} `{!Controller}.
Implicit Types (s : radios) (t : nat) (es : list observation) (h : Z) (r : handoff_radio).

Definition exec_event (o : event_op) : proc radios observation Z :=
  match o with
  | op_tx_setup h => totem_handoff_tx_setup h ;; ret 0
  | op_tx_result h c => totem_handoff_tx_result h c ;; ret 0
  | op_enqueue lll pdu ll tx => __wrap_llcp_tx_enqueue lll pdu ll tx ;; ret 0
  | op_ack lll pdu ll ctx tx => __wrap_llcp_lp_comm_tx_ack lll pdu ll ctx tx ;; ret 0
  | op_elapse real term lll le ll ee code => __wrap_ull_cp_prt_elapse real term lll le ll ee code
  | op_done lll d done => __wrap_ull_conn_done lll d done ;; ret 0
  end.
Definition run_events (os : list event_op) : proc radios observation () :=
  for_each os (fun o => _ <- exec_event o ;; ret ()).
Definition exec (o : op) : proc radios observation Z :=
  match o with
  | op_event o => exec_event o
  | op_disconnect V during real c reason =>
      __wrap_bt_conn_disconnect (run_events during) real c reason
  | op_set_state V type handle err c state =>
      __wrap_bt_conn_set_state type handle err c state ;; ret 0
  end.
Definition run (os : list op) : proc radios observation () :=
  for_each os (fun o => _ <- exec o ;; ret ()).

(** The calls the image would make without the wrappers, and their results. *)
Definition event_calls (o : event_op) : list real_fn :=
  match o with
  | op_tx_setup _ | op_tx_result _ _ => []
  | op_enqueue _ _ ll tx => [totem_security_tx_queued ll tx; __real_llcp_tx_enqueue ll tx]
  | op_ack _ _ ll ctx tx => [__real_llcp_lp_comm_tx_ack ll ctx tx]
  | op_elapse _ _ _ _ ll elapsed_event error_code =>
      [__real_ull_cp_prt_elapse ll elapsed_event error_code]
  | op_done _ _ done => [__real_ull_conn_done done]
  end.
Definition op_calls (o : op) : list real_fn :=
  match o with
  | op_event o => event_calls o
  | op_disconnect _ during _ c reason =>
      __real_bt_conn_disconnect c reason :: (during ≫= event_calls)
  | op_set_state _ _ _ _ c state => [__real_bt_conn_set_state c state]
  end.
Definition op_returns (o : op) : Z :=
  match o with
  | op_event (op_elapse real _ _ _ _ _ _) => real.1
  | op_disconnect _ _ real _ _ => real
  | _ => 0
  end.

Definition call_of (o : observation) : option real_fn :=
  match o with called f => Some f | captured _ => None end.
Definition calls es : list real_fn := omap call_of es.
Definition capture_of (o : observation) : option event :=
  match o with captured e => Some e | called _ => None end.
Definition captures es : list event := omap capture_of es.

Lemma calls_app es es' : calls (es ++ es') = calls es ++ calls es'.
Proof. apply omap_app. Qed.
Lemma captures_app es es' : captures (es ++ es') = captures es ++ captures es'.
Proof. apply omap_app. Qed.

(** ** Handlers that only record *)
#[local] Notation silent := (keeps (fun _ _ => True) (fun o => call_of o = None)).
#[local] Notation talks := (talks call_of).
#[local] Notation talks_silent := (talks_mute call_of).
#[local] Notation talks_bind := (talks_bind call_of).
#[local] Notation talks_for_each := (talks_for_each call_of).

Ltac silent_steps :=
  try unfold mute;
  repeat first [ progress keeps_steps | reflexivity
               | match goal with |- context [match ?x with _ => _ end] => destruct x end ].

Lemma silent_tx_setup h : silent (totem_handoff_tx_setup h).
Proof. unfold totem_handoff_tx_setup, set_radio. silent_steps. Qed.
Lemma silent_tx_result h c : silent (totem_handoff_tx_result h c).
Proof. unfold totem_handoff_tx_result, set_radio. silent_steps. Qed.
Lemma silent_connected h : silent (totem_handoff_connected h).
Proof. unfold totem_handoff_connected, set_radio. silent_steps. Qed.
Lemma silent_capture_value type h stage v : silent (capture_value type h stage v).
Proof. unfold capture_value, capture. silent_steps. Qed.
Lemma silent_time_or_now b time : silent (time_or_now b time).
Proof. unfold time_or_now. silent_steps. Qed.
Lemma silent_termination lll pdu stage : silent (termination_observed lll pdu stage).
Proof. unfold termination_observed, capture. silent_steps. Qed.
#[local] Hint Resolve silent_tx_setup silent_tx_result silent_connected silent_capture_value
  silent_time_or_now silent_termination : keeps.
Lemma silent_disconnected h : silent (totem_handoff_disconnected h).
Proof.
  unfold totem_handoff_disconnected, set_radio, capture. silent_steps.
Qed.

#[local] Hint Resolve silent_disconnected : keeps.

Lemma talks_event o : talks (event_calls o) (exec_event o).
Proof.
  rewrite <- (app_nil_r (event_calls o)). destruct o as [h|h c|lll pdu ll tx|lll pdu ll ctx tx|[res code'] term lll le ll ee code|lll d done];
    cbn [exec_event event_calls].
  - apply talks_bind; [apply talks_silent, silent_tx_setup|by intros a s t].
  - apply talks_bind; [apply talks_silent, silent_tx_result|by intros a s t].
  - apply talks_bind; [|by intros a s t]. unfold __wrap_llcp_tx_enqueue.
    apply (talks_bind []); [apply talks_silent, silent_termination|intros _].
    by apply (talks_bind [_] [_]).
  - apply talks_bind; [|by intros a s t]. unfold __wrap_llcp_lp_comm_tx_ack.
    by apply (talks_bind [] [_]); [apply talks_silent, silent_termination|].
  - unfold __wrap_ull_cp_prt_elapse. apply (talks_bind [_]); [by intros s t|intros _].
    apply talks_silent. unfold capture. silent_steps.
  - apply talks_bind; [|by intros a s t]. unfold __wrap_ull_conn_done.
    apply (talks_bind [] [_]); [|by intros _ s t]. apply talks_silent.
    unfold set_radio, capture. silent_steps.
Qed.

Lemma talks_op o : talks (op_calls o) (exec o).
Proof.
  destruct o as [o|V during real c reason|V type h err c state]; cbn [exec op_calls];
    [apply talks_event|..].
  - unfold __wrap_bt_conn_disconnect. apply (talks_bind [] (_ :: _)).
    { apply talks_silent. destruct (handoff_handle c) as [[h info]|];
        unfold set_radio, capture; silent_steps. }
    intros _. apply (talks_bind [_]); [by intros s t|intros _].
    rewrite <- (app_nil_r (during ≫= _)). apply talks_bind.
    { unfold run_events. apply talks_for_each. intros o. rewrite <- (app_nil_r (event_calls o)).
      apply talks_bind; [apply talks_event|by intros a s t]. }
    intros _. apply (talks_bind []); [|by intros a s t]. apply talks_silent.
    destruct (handoff_handle c) as [[h info]|]; unfold set_radio, capture; silent_steps.
  - rewrite <- (app_nil_r [_]). apply talks_bind; [|by intros a s t].
    unfold __wrap_bt_conn_set_state. apply (talks_bind [] [_]).
    { apply talks_silent. silent_steps. }
    intros _. apply (talks_bind [] [_]); [|by intros _ s t]. apply talks_silent.
    silent_steps.
Qed.

(** C14 Every wrapper of the file calls the wrapped function exactly once (the enqueue wrapper
    also the security observer before it), with the caller's arguments, whatever the state and the counters are, 
    and returns what the wrapped function returned; the calls nested in a disconnect
    request come while the request is in progress. *)
Theorem observers_transparent o s t :
  calls (eff (exec o s t)) = op_calls o /\ val (exec o s t) = op_returns o.
Proof.
  split; [apply talks_op|].
  destruct o as [[]|V during real c reason|V type h err c state]; try reflexivity.
  cbn. destruct real as [res code]. cbn. by destruct (_ || _).
Qed.

(** ** The counters *)

(** The counters of one connection, as 16-bit counts that saturate: the classes of bad
    events are disjoint parts of the events seen, until the total saturates. *)
Definition radio_ok r : Prop :=
  (0 <= aborted r <= bad r) /\ (0 <= invalid_rx r <= bad r) /\ (bad r <= done_count r) /\
  (0 <= no_rx r <= done_count r) /\ (0 <= mic_pass r <= done_count r) /\
  (0 <= mic_fail r <= done_count r) /\ (done_count r <= UINT16_MAX) /\
  (done_count r < UINT16_MAX ->
     aborted r + no_rx r + invalid_rx r <= done_count r /\ mic_pass r + mic_fail r <= done_count r) /\
  first_bad r = negb (bad r =? 0).
Definition radio_bounds r : Prop :=
  Forall (fun x => 0 <= x <= UINT16_MAX)
    [skipped r; rx_packets r; tx_setups r; tx_completed r; tx_uncompleted r].
Definition radio_wf r : Prop := radio_ok r /\ radio_bounds r.

Lemma add_count_range v c : 0 <= v -> 0 <= add_count v c <= UINT16_MAX.
Proof. intros. unfold add_count. pose proof (u32_range (v + c)). unfold UINT16_MAX. lia. Qed.
Lemma add_count_small v c :
  0 <= v <= UINT16_MAX -> 0 <= c <= 255 -> add_count v c = Z.min (v + c) UINT16_MAX.
Proof. intros. unfold add_count. rewrite u32_small; [done|]. unfold UINT16_MAX in *. lia. Qed.

Lemma radio_wf_zero : radio_wf radio_zero.
Proof.
  split; [|repeat constructor; cbn; unfold UINT16_MAX; lia].
  unfold radio_ok; cbn; unfold UINT16_MAX. split_and!; try done; lia.
Qed.

Lemma count_done_ok lll d r : radio_ok r -> radio_ok (count_done lll d r).
Proof.
  intros (?&?&?&?&?&?&?&Hlt&Hfb). pose proof mic_states_differ as Hmic.
  set (v := crc_valid d && negb (is_aborted d)).
  assert (forall b, 0 <= b2z b <= 255) as Hb by (intros []; cbn; lia).
  unfold radio_ok, count_done. fold v. cbn -[add_count b2z UINT16_MAX].
  rewrite !(add_count_small _ (b2z _)), (add_count_small _ 1) by (auto; lia).
  assert (b2z (is_aborted d) <= b2z (negb v)).
  { unfold v. destruct (crc_valid d), (is_aborted d); cbn; lia. }
  set (nr := negb (is_aborted d) && negb (negb (trx_cnt d =? 0))).
  set (ir := negb (is_aborted d) && negb (trx_cnt d =? 0) && negb (crc_valid d)).
  assert (b2z ir <= b2z (negb v) /\ b2z (is_aborted d) + b2z nr + b2z ir <= 1) as [??].
  { unfold ir, nr, v. destruct (crc_valid d), (is_aborted d), (trx_cnt d =? 0); cbn; lia. }
  set (mp := mic_state d =? LLL_CONN_MIC_PASS). set (mf := mic_state d =? LLL_CONN_MIC_FAIL).
  assert (b2z mp + b2z mf <= 1).
  { unfold mp, mf. destruct (Z.eqb_spec (mic_state d) LLL_CONN_MIC_PASS),
      (Z.eqb_spec (mic_state d) LLL_CONN_MIC_FAIL); cbn; lia. }
  pose proof (Hb (is_aborted d)). pose proof (Hb nr). pose proof (Hb ir). pose proof (Hb mp).
  pose proof (Hb mf). pose proof (b2z_range (negb v)).
  destruct CONFIG_BT_CTLR_LE_ENC; split_and!; try lia.
  all: rewrite Hfb; destruct v; cbn [negb b2z]; rewrite ?orb_false_r, ?orb_true_r.
  all: repeat match goal with |- context [?a =? ?b] => destruct (Z.eqb_spec a b) end; cbn;
    unfold UINT16_MAX in *; try done; lia.
Qed.

Lemma count_done_bounds lll d r : radio_bounds r -> radio_bounds (count_done lll d r).
Proof.
  unfold radio_bounds. rewrite !Forall_cons, !Forall_nil. intros (?&?&?&?&?&_).
  unfold count_done. cbn -[add_count b2z].
  split_and!; try (exact I || lia); apply add_count_range; lia.
Qed.

Definition all_wf s (_ : nat) : Prop := Forall radio_wf s.
#[local] Instance all_wf_timeless : Timeless all_wf.
Proof. by intros s t. Qed.
#[local] Notation counts := (keeps all_wf (fun _ : observation => True)).

Lemma counts_set_radio h (f : handoff_radio -> handoff_radio) :
  (forall r, radio_wf r -> radio_wf (f r)) -> counts (set_radio h f).
Proof.
  intros Hf. apply keeps_modify. intros s t Hs. apply Forall_aset; [exact Hs|]. apply Hf.
  unfold aget. destruct (decide (Z.to_nat h < length s)%nat).
  - eapply Forall_lookup_1; [exact Hs|]. by apply list_lookup_lookup_total_lt.
  - rewrite list_lookup_total_alt, lookup_ge_None_2 by lia. apply radio_wf_zero.
Qed.

(** An update outside the classified counters. *)
Ltac keep_counters :=
  let H1 := fresh in let H2 := fresh in
  intros ? [H1 H2]; split; [exact H1|];
  unfold radio_bounds in *; rewrite !Forall_cons, !Forall_nil in *;
  cbn -[add_count] in *; destruct_and!; split_and!; try (exact I || lia);
  apply add_count_range; lia.
Ltac counts_steps :=
  repeat first [ progress keeps_steps | exact I
               | apply counts_set_radio; (keep_counters || (intros; apply radio_wf_zero))
               | match goal with |- context [match ?x with _ => _ end] => destruct x eqn:? end ].

Lemma counts_tx_setup h : counts (totem_handoff_tx_setup h).
Proof. unfold totem_handoff_tx_setup. counts_steps. Qed.
Lemma counts_tx_result h c : counts (totem_handoff_tx_result h c).
Proof. unfold totem_handoff_tx_result. counts_steps. Qed.
Lemma counts_connected h : counts (totem_handoff_connected h).
Proof. unfold totem_handoff_connected. counts_steps. Qed.
Lemma counts_capture_value type h stage v : counts (capture_value type h stage v).
Proof. unfold capture_value, capture. counts_steps. Qed.
Lemma counts_time_or_now b time : counts (time_or_now b time).
Proof. unfold time_or_now. counts_steps. Qed.
Lemma counts_termination lll pdu stage : counts (termination_observed lll pdu stage).
Proof. unfold termination_observed, capture. counts_steps. Qed.
#[local] Hint Resolve counts_tx_setup counts_tx_result counts_connected counts_capture_value
  counts_time_or_now counts_termination : keeps.
Lemma counts_disconnected h : counts (totem_handoff_disconnected h).
Proof. unfold totem_handoff_disconnected, capture. counts_steps. Qed.
Lemma counts_conn_done lll d done : counts (__wrap_ull_conn_done lll d done).
Proof.
  unfold __wrap_ull_conn_done, capture. counts_steps.
  apply counts_set_radio. intros r [Hr Hb]. split; [by apply count_done_ok|by apply count_done_bounds].
Qed.
#[local] Hint Resolve counts_disconnected counts_conn_done : keeps.

Lemma counts_event o : counts (exec_event o).
Proof.
  destruct o; cbn [exec_event]; unfold __wrap_llcp_tx_enqueue, __wrap_llcp_lp_comm_tx_ack,
    __wrap_ull_cp_prt_elapse, capture; counts_steps.
Qed.
#[local] Hint Resolve counts_event : keeps.
Lemma counts_op o : counts (exec o).
Proof.
  destruct o; cbn [exec]; unfold __wrap_bt_conn_disconnect, __wrap_bt_conn_set_state, run_events,
    capture; counts_steps.
Qed.
#[local] Hint Resolve counts_op : keeps.

(** C13 From boot, under any interleaving of the wrappers, every counter of every connection stays in
    its 16 bits; aborted and invalid receptions are among the bad events and those among
    the events seen; until the total saturates the aborted, empty and invalid events are
    disjoint and so are the MIC verdicts; and the first-bad flag is set exactly when a bad
    event was counted. *)
Theorem counters_consistent ops t :
  Forall radio_wf (fin (run ops radios_init t)).
Proof.
  assert (counts (run ops)) as Hrun by (unfold run; counts_steps).
  apply (Hrun radios_init t). apply Forall_replicate, radio_wf_zero.
Qed.

(** ** Decoding a record: the connection, the stage and the value *)
Definition ev_handle (e : event) : Z := of_le16 (u8 (idx e)) (u8 (active e)).
Definition ev_value (e : event) : Z := of_le16 (thrash_win e) (extra e).

Lemma ev_handle_mk time k h st low high :
  0 <= h < 65536 -> ev_handle (mk_event time k (i8 h) (i8 (h ≫ 8)) st low high) = h.
Proof.
  intros. unfold ev_handle. cbn [mk_event idx active]. rewrite !i8_idemp, !u8_i8.
  rewrite of_le16_le16. by apply u16_small.
Qed.
Lemma ev_value_mk time k i a st v :
  0 <= v < 65536 -> ev_value (mk_event time k i a st (Z.land v 0xff) (v ≫ 8)) = v.
Proof.
  intros. unfold ev_value. cbn [mk_event thrash_win extra].
  change 0xff with (Z.ones 8). rewrite Z.land_ones by lia. fold (u8 v). rewrite u8_idemp.
  rewrite of_le16_le16. by apply u16_small.
Qed.
Lemma ev_flag_mk time k i a st (b : bool) :
  ev_value (mk_event time k i a st 0 (b2z b)) = 256 * b2z b.
Proof. by destruct b. Qed.

(** A record: its kind, its stage, its value and, when one was observed, its time. *)
Definition line : Type := totem_host_evt * Z * Z * option Z.
Definition says h (e : event) (l : line) : Prop :=
  let '(k, stage, value, time) := l in
  type e = evt k /\ ev_handle e = h /\ reason e = stage /\ ev_value e = value /\
  (forall x, time = Some x -> uptime_ms e = u32 x).

(** What a finished handoff reports. *)
Definition report_of r : list line :=
  let when_ (b : bool) (x : Z) := if b then Some x else None in
  [(TOTEM_HEVT_HANDOFF_RADIO, 0, done_count r, None); (TOTEM_HEVT_HANDOFF_RADIO, 1, bad r, None);
   (TOTEM_HEVT_HANDOFF_RADIO, 2, aborted r, None); (TOTEM_HEVT_HANDOFF_RADIO, 3, skipped r, None);
   (TOTEM_HEVT_HANDOFF_RADIO, 7, rx_packets r, None); (TOTEM_HEVT_HANDOFF_RADIO, 8, no_rx r, None);
   (TOTEM_HEVT_HANDOFF_RADIO, 9, invalid_rx r, None); (TOTEM_HEVT_HANDOFF_RADIO, 10, mic_pass r, None);
   (TOTEM_HEVT_HANDOFF_RADIO, 11, mic_fail r, None);
   (TOTEM_HEVT_HANDOFF_RADIO, 5, 256 * b2z (rx_known r), when_ (rx_known r) (last_rx r));
   (TOTEM_HEVT_HANDOFF_TX, 0, tx_setups r, None); (TOTEM_HEVT_HANDOFF_TX, 1, tx_completed r, None);
   (TOTEM_HEVT_HANDOFF_TX, 2, tx_uncompleted r, None);
   (TOTEM_HEVT_HANDOFF_TX, 3, 256 * b2z (negb (tx_setups r =? 0)),
      when_ (negb (tx_setups r =? 0)) (first_tx_setup r));
   (TOTEM_HEVT_HANDOFF_TX, 4, 256 * b2z (negb (tx_completed r =? 0)),
      when_ (negb (tx_completed r =? 0)) (first_tx_end r));
   (TOTEM_HEVT_HANDOFF_TX, 5, 256 * b2z (negb (tx_completed r =? 0)),
      when_ (negb (tx_completed r =? 0)) (last_tx_end r))].

(** [reporting h ls m]: [m] leaves the state alone and captures records that say [ls]. *)
Definition reporting {A} h (ls : list line) (m : proc radios observation A) : Prop :=
  forall s t, wp m (fun _ s' _ es => s' = s /\ Forall2 (says h) (captures es) ls) s t.

Lemma reporting_cons {A} h l ls (m : proc radios observation ()) (k : () -> proc radios observation A) :
  reporting h [l] m -> reporting h ls (k ()) -> reporting h (l :: ls) (bind m k).
Proof.
  intros Hm Hk s t. apply wp_bind. eapply wp_mono; [apply Hm|].
  intros [] s1 t1 es1 [-> Hes1]. eapply wp_mono; [apply Hk|]. intros a s2 t2 es2 [-> Hes2].
  split; [done|]. rewrite captures_app. change (l :: ls) with ([l] ++ ls). by apply Forall2_app.
Qed.
Lemma reporting_value h (k : totem_host_evt) stage v :
  0 <= h < 65536 -> is_byte stage -> 0 <= v <= UINT16_MAX ->
  reporting h [(k, stage, v, None)] (capture_value k h stage v).
Proof.
  intros Hh Hst Hv s t. unfold capture_value, capture. wp_steps. split; [done|].
  unfold UINT16_MAX in Hv. pose proof (evt_range k).
  repeat constructor; [by apply u8_small; lia|by apply ev_handle_mk|by apply u8_small
                      |by apply ev_value_mk; lia|done].
Qed.
(** [capture(known ? time : k_uptime_get_32(), ...)]. *)
Lemma reporting_flag {A} h (k : totem_host_evt) stage b x ls (m : proc radios observation A) :
  0 <= h < 65536 -> is_byte stage -> reporting h ls m ->
  reporting h ((k, stage, 256 * b2z b, if b then Some x else None) :: ls)
    (time <- time_or_now b x ;; capture time k h stage 0 (b2z b) ;; m).
Proof.
  intros Hh Hst Hm s t. wp_steps. unfold time_or_now.
  assert (forall y s t, (b -> y = x) ->
    wp (capture y k h stage 0 (b2z b) ;; m) (fun _ s' _ es => s' = s /\
      Forall2 (says h) (captures es) ((k, stage, 256 * b2z b, if b then Some x else None) :: ls)) s t)
    as Hcap.
  { intros y s0 t0 Hy. apply (reporting_cons h _ ls _ (fun _ => m)); [|exact Hm].
    intros s1 t1. unfold capture. wp_steps. split; [done|]. pose proof (evt_range k).
    repeat constructor; [by apply u8_small; lia|by apply ev_handle_mk|by apply u8_small
                        |by apply ev_flag_mk|].
    intros z. destruct b; [|done]. intros [= <-]. cbn. by rewrite Hy. }
  destruct b; [apply wp_ret|apply wp_uptime_32]; cbv beta; (eapply wp_mono; [by apply Hcap|done]).
Qed.
Lemma reporting_last h (k : totem_host_evt) stage b x :
  0 <= h < 65536 -> is_byte stage ->
  reporting h [(k, stage, 256 * b2z b, if b then Some x else None)]
    (time <- time_or_now b x ;; capture time k h stage 0 (b2z b)).
Proof.
  intros Hh Hst s t.
  pose proof (reporting_flag h k stage b x [] (ret ()) Hh Hst) as Hr.
  specialize (Hr ltac:(intros s0 t0; by repeat constructor) s t). revert Hr.
  unfold wp, time_or_now. by destruct b.
Qed.

Lemma disconnected_reporting s h t :
  0 <= h < CONFIG_BT_MAX_CONN -> h < 65536 -> alen s = CONFIG_BT_MAX_CONN ->
  radio_wf (aget s h) -> armed (aget s h) = true ->
  wp (totem_handoff_disconnected h) (fun _ s' _ es =>
    s' = aset s h radio_zero /\ Forall2 (says h) (captures es) (report_of (aget s h))) s t.
Proof.
  intros Hh Hh16 Hlen [Hok Hb] Harm. unfold totem_handoff_disconnected, array_size, set_radio.
  destruct (Z.leb_spec CONFIG_BT_MAX_CONN h); [lia|].
  apply wp_bind, wp_get. cbv beta zeta. apply wp_bind, wp_modify. cbv beta. rewrite Harm. cbn [negb].
  set (r := aget s h) in *. unfold radio_bounds in Hb. rewrite !Forall_cons, Forall_nil in Hb.
  destruct Hok as (?&?&?&?&?&?&?&_). destruct_and! Hb.
  match goal with |- wp ?m _ _ _ => assert (reporting h (report_of r) m) as Hm end; [|apply Hm].
  unfold report_of.
  repeat lazymatch goal with
  | |- reporting _ _ (bind (capture_value _ _ _ _) _) =>
      apply reporting_cons; [apply reporting_value; [lia|unfold is_byte; lia|lia]|]
  | |- reporting _ [_] _ => apply reporting_last; [lia|unfold is_byte; lia]
  | |- reporting _ _ _ => apply reporting_flag; [lia|unfold is_byte; lia|]
  end.
Qed.

(** C36 When a link that was armed by a handoff goes down, the sixteen counters and timestamps
    collected for it are captured once, in a fixed order; each record decodes to the
    link's handle and to the exact 16-bit value counted (low byte, high byte), a time that
    was observed is reported as it was stored; the slot is cleared, so a second disconnect
    of the same handle reports nothing. *)
Theorem disconnect_reports_once s h t :
  0 <= h < CONFIG_BT_MAX_CONN -> h < 65536 -> alen s = CONFIG_BT_MAX_CONN ->
  radio_wf (aget s h) -> armed (aget s h) = true ->
  let r := totem_handoff_disconnected h s t in
  Forall2 (says h) (captures (eff r)) (report_of (aget s h)) /\ fin r = aset s h radio_zero /\
  (forall t', eff (totem_handoff_disconnected h (fin r) t') = []).
Proof.
  intros Hh Hh16 Hlen Hwf Harm r.
  destruct (disconnected_reporting s h t Hh Hh16 Hlen Hwf Harm) as [Hfin Hes].
  split; [exact Hes|]. split; [exact Hfin|]. intros t'. unfold r. rewrite Hfin.
  unfold totem_handoff_disconnected, array_size, set_radio.
  destruct (Z.leb_spec CONFIG_BT_MAX_CONN h); [done|]. cbn. by rewrite aget_aset_eq by lia.
Qed.

(** ** Delivery to the timing inbox *)
Definition deliver es : proc Inbox.timing effect () :=
  for_each (captures es) (fun e =>
    Inbox.totem_diagnostic_timing_capture (uptime_ms e) (type e) (idx e) (active e) (reason e)
      (thrash_win e) (extra e)).

Lemma deliver_queued es i t :
  Inbox.wf i -> Forall event_ok (captures es) ->
  Inbox.timing_count i + alen (captures es) <= TIMING_CAP ->
  wp (deliver es) (fun _ i' _ _ => Inbox.wf i' /\
    Inbox.queued i' = Inbox.queued i ++ captures es /\
    Inbox.timing_dropped i' = Inbox.timing_dropped i) i t.
Proof.
  unfold deliver. intros Hwf Hok. revert i t Hwf. induction Hok as [|e l He Hl IH]; intros i t Hwf Hc.
  { wp_steps. by rewrite app_nil_r. }
  unfold alen in *. cbn [for_each length] in *. wp_steps. wp_use Inbox.capture_queued; [exact Hwf|].
  intros [] i1 t1 es1 (Hwf1&_&_&_&Hq). destruct (Z.ltb_spec (Inbox.timing_count i) TIMING_CAP); [|lia].
  destruct Hq as [Hq Hd]. rewrite (mk_event_id e He) in Hq.
  assert (Inbox.timing_count i1 = Inbox.timing_count i + 1) as Hc1.
  { rewrite <- !Inbox.length_queued by done. rewrite Hq, length_app. cbn. lia. }
  eapply wp_mono; [apply IH; [done|lia]|]. intros [] i2 t2 es2 (?&Hq2&Hd2).
  rewrite Hq2, Hq, Hd2, Hd, <- app_assoc. done.
Qed.

Lemma captures_ok {A} (m : proc radios observation A) s t :
  keeps (fun _ _ => True) (fun o => forall e, capture_of o = Some e -> event_ok e) m ->
  Forall event_ok (captures (eff (m s t))).
Proof.
  intros Hm. destruct (Hm s t I) as [_ Hes]. unfold captures.
  induction Hes as [|[e|f] es Ho _ IH]; cbn; [done| |done]. constructor; [by apply Ho|done].
Qed.
#[local] Notation wellformed :=
  (keeps (fun (_ : radios) (_ : nat) => True) (fun o => forall e, capture_of o = Some e -> event_ok e)).
Lemma wellformed_disconnected h : wellformed (totem_handoff_disconnected h).
Proof.
  unfold totem_handoff_disconnected, capture_value, time_or_now, set_radio, capture.
  repeat first [ progress keeps_steps | exact I | intros ? [= <-]; apply mk_event_ok ].
Qed.

(** What a link-down captures: the HCI record, then the report of the handoff. *)
Lemma link_down_burst V s h err c t :
  0 <= h < CONFIG_BT_MAX_CONN -> h < 65536 -> alen s = CONFIG_BT_MAX_CONN ->
  radio_wf (aget s h) -> armed (aget s h) = true ->
  let es := eff (@__wrap_bt_conn_set_state _ _ V _ BT_CONN_TYPE_LE h err c BT_CONN_DISCONNECT_COMPLETE s t) in
  Forall event_ok (captures es) /\ length (captures es) = 17%nat /\
  exists hci report, captures es = hci :: report /\ Forall2 (says h) report (report_of (aget s h)).
Proof.
  intros Hh Hh16 Hlen Hwf Harm es. unfold es, __wrap_bt_conn_set_state. pose proof conn_states_differ.
  destruct (Z.eqb_spec BT_CONN_DISCONNECT_COMPLETE BT_CONN_CONNECTED); [congruence|].
  rewrite (Z.eqb_refl BT_CONN_DISCONNECT_COMPLETE). cbn -[totem_handoff_disconnected].
  rewrite !captures_app, app_nil_r.
  destruct (disconnected_reporting s h (S t) Hh Hh16 Hlen Hwf Harm) as [_ Hes].
  split; [|split; [cbn; by rewrite (Forall2_length _ _ _ Hes)|by eexists _, _]].
  constructor; [apply mk_event_ok|]. apply captures_ok, wellformed_disconnected.
Qed.

(** The burst of a link-down (the HCI record and the sixteen records of the handoff) is
    queued completely and in order, without a drop, whenever the inbox has seventeen of
    its twenty-four slots free at that moment. *)
Theorem disconnect_burst_fits V s h err c t i t' :
  0 <= h < CONFIG_BT_MAX_CONN -> h < 65536 -> alen s = CONFIG_BT_MAX_CONN ->
  radio_wf (aget s h) -> armed (aget s h) = true ->
  Inbox.wf i -> Inbox.timing_count i + 17 <= TIMING_CAP ->
  let es := eff (@__wrap_bt_conn_set_state _ _ V _ BT_CONN_TYPE_LE h err c BT_CONN_DISCONNECT_COMPLETE s t) in
  let i' := fin (deliver es i t') in
  length (captures es) = 17%nat /\
  Inbox.queued i' = Inbox.queued i ++ captures es /\
  Inbox.timing_dropped i' = Inbox.timing_dropped i.
Proof.
  intros Hh Hh16 Hlen Hwf Harm Hi Hfree es i'.
  destruct (link_down_burst V s h err c t Hh Hh16 Hlen Hwf Harm) as (Hok&Hn&_). fold es in Hok, Hn.
  split; [exact Hn|]. apply (deliver_queued es i t' Hi Hok). unfold alen. lia.
Qed.

(** ** The disconnect request *)
Definition arms s : list bool := armed <$> s.

Lemma arms_aset s h r : armed r = armed (aget s h) -> arms (aset s h r) = arms s.
Proof.
  intros Hr. unfold arms, aset. rewrite list_fmap_insert. apply list_insert_id'.
  rewrite length_fmap. intros Hlt. rewrite list_lookup_fmap.
  unfold aget in Hr. rewrite (list_lookup_lookup_total_lt s) by done. cbn. by rewrite Hr.
Qed.
Lemma aget_arms s s' h : arms s = arms s' -> armed (aget s h) = armed (aget s' h).
Proof.
  intros Heq. unfold aget.
  assert (forall l, armed (l !!! Z.to_nat h) = default false (arms l !! Z.to_nat h)) as Hd.
  { intros l. unfold arms. rewrite list_lookup_fmap.
    destruct (decide (Z.to_nat h < length l)%nat).
    - by rewrite (list_lookup_lookup_total_lt l) by done.
    - rewrite (lookup_ge_None_2 l) by lia. cbn. by rewrite (list_lookup_total_alt l), (lookup_ge_None_2 l) by lia. }
  by rewrite !Hd, Heq.
Qed.

(** The other wrappers leave the armed flags alone. *)
#[local] Notation steady l := (keeps (fun s _ => arms s = l) (fun _ : observation => True)).
#[local] Instance arms_timeless l : Timeless (fun s (_ : nat) => arms s = l).
Proof. by intros s t. Qed.
Lemma steady_set_radio l h (f : handoff_radio -> handoff_radio) :
  (forall r, armed (f r) = armed r) -> steady l (set_radio h f).
Proof. intros Hf. apply keeps_modify. intros s _ <-. by apply arms_aset. Qed.
Lemma steady_event l o : steady l (exec_event o).
Proof.
  destruct o; cbn [exec_event]; unfold totem_handoff_tx_setup, totem_handoff_tx_result,
    __wrap_llcp_tx_enqueue, __wrap_llcp_lp_comm_tx_ack, __wrap_ull_cp_prt_elapse,
    __wrap_ull_conn_done, termination_observed, capture;
  repeat first [ progress keeps_steps | exact I | by apply steady_set_radio
               | match goal with |- context [match ?x with _ => _ end] => destruct x eqn:? end ].
Qed.
Lemma steady_events l os : steady l (run_events os).
Proof. unfold run_events. keeps_steps. apply steady_event. Qed.

(** A disconnect request is observed as a handoff exactly for a connected LE peripheral link of
    a stored profile other than the selected one, while the cable is down.  It then arms
    that connection alone, its counters starting from zero with the last reception kept,
    and whatever the radio and the link layer do while the request runs, the connection
    is left armed exactly when the stack accepted the request; any other request changes
    nothing itself. *)
Theorem disconnect_request_arms V during real c reason s t :
  alen s = CONFIG_BT_MAX_CONN ->
  let r := exec (op_disconnect V during real c reason) s t in
  match handoff_handle c with
  | Some (h, info) =>
      0 <= h ->
      (exists t', let s1 := fin (run_events during
             (aset s h (radio_zero <| armed := true |> <| rx_known := rx_known (aget s h) |>
                                   <| last_rx := last_rx (aget s h) |>)) t') in
       fin r = if real =? 0 then s1 else aset s1 h ((aget s1 h) <| armed := false |>)) /\
      armed (aget (fin r) h) = (real =? 0) /\
      (forall h', 0 <= h' -> h' <> h -> armed (aget (fin r) h') = armed (aget s h'))
  | None => fin r = fin (run_events during s t) /\
            captures (eff r) = captures (eff (run_events during s t))
  end.
Proof.
  intros Hlen r. destruct (handoff_handle c) as [[h info]|] eqn:Hh.
  2:{ unfold r, exec, __wrap_bt_conn_disconnect. rewrite Hh. cbn. split; [done|].
      rewrite app_nil_r. done. }
  intros Hh0. assert (h < CONFIG_BT_MAX_CONN) as Hlt.
  { revert Hh. unfold handoff_handle, array_size.
    repeat match goal with |- context [match ?x with _ => _ end] => destruct x eqn:? end;
      try done. intros [= -> _]. lia. }
  set (s0 := aset s h (radio_zero <| armed := true |> <| rx_known := rx_known (aget s h) |>
                                   <| last_rx := last_rx (aget s h) |>)).
  assert (exists t', fin r = let s1 := fin (run_events during s0 t') in
     if real =? 0 then s1 else aset s1 h ((aget s1 h) <| armed := false |>)) as [t' Hfin].
  { change (wp (exec (op_disconnect V during real c reason)) (fun _ s' _ _ =>
      exists t', s' = let s1 := fin (run_events during s0 t') in
        if real =? 0 then s1 else aset s1 h ((aget s1 h) <| armed := false |>)) s t).
    cbn [exec]. unfold __wrap_bt_conn_disconnect, capture_value, capture, set_radio. rewrite Hh.
    wp_steps. eapply (wp_mono _ (fun _ s' _ _ => s' = s0)); [unfold time_or_now; by destruct (rx_known _)|].
    intros x s2 t2 es2 ->. wp_steps.
    eapply (wp_mono _ (fun _ s' _ _ => s' = fin (run_events during s0 t2))); [done|].
    intros [] s3 t3 es3 ->. wp_steps. destruct (real =? 0); cbn [negb when]; wp_steps; by exists t2. }
  pose proof (steady_events (arms s0) during s0 t' eq_refl) as [Harms _].
  set (s1 := fin (run_events during s0 t')) in *.
  assert (alen s1 = CONFIG_BT_MAX_CONN) as Hlen1.
  { apply (f_equal length) in Harms. unfold arms in Harms. rewrite !length_fmap in Harms.
    unfold alen. rewrite Harms, <- Hlen. unfold s0. apply alen_aset. }
  split; [exists t'; exact Hfin|]. rewrite Hfin. cbv zeta. split.
  - destruct (real =? 0); [|by rewrite aget_aset_eq by lia].
    rewrite (aget_arms _ _ h Harms). unfold s0. by rewrite aget_aset_eq by lia.
  - intros h' Hh' Hne. assert (armed (aget s1 h') = armed (aget s h')) as Ha.
    { rewrite (aget_arms _ _ h' Harms). unfold s0. by rewrite aget_aset_ne by lia. }
    destruct (real =? 0); [done|]. by rewrite aget_aset_ne by lia.
Qed.
End facts.

(** ** Witnesses *)
#[local] Instance report_clock : Clock := ticking 1000 7.
#[local, refine] Instance example_controller : Controller := {|
  PDU_DATA_LLID_CTRL := 3;
  PDU_DATA_LLCTRL_TYPE_TERMINATE_IND := 2;
  LLL_CONN_MIC_PASS := 1;
  LLL_CONN_MIC_FAIL := 2;
  ETIMEDOUT := 116;
  BT_CONN_CONNECTED := 7;
  BT_CONN_DISCONNECT_COMPLETE := 1;
  CONFIG_BT_CTLR_LE_ENC := true;
  CONFIG_BT_CTLR_CONN_META := true;
|}.
Proof. all: done. Defined.


Definition example_radio : handoff_radio :=
  radio_zero <| armed := true |> <| rx_known := true |> <| last_rx := 900 |>
    <| done_count := 300 |> <| bad := 2 |> <| aborted := 1 |> <| first_bad := true |>
    <| tx_setups := 1 |> <| tx_completed := 1 |> <| first_tx_setup := 950 |>.
Definition example_radios : radios := aset radios_init 2 example_radio.

Lemma example_radio_wf : radio_wf (aget example_radios 2).
Proof.
  change (aget example_radios 2) with example_radio.
  split; [|repeat constructor; cbn; unfold UINT16_MAX; lia].
  unfold radio_ok; cbn; unfold UINT16_MAX. split_and!; try done; lia.
Qed.

Lemma example_handle : 0 <= 2 < CONFIG_BT_MAX_CONN /\ 2 < 65536.
Proof. cbn. lia. Qed.
Lemma example_room : Inbox.timing_count Inbox.timing_init + 17 <= TIMING_CAP.
Proof. cbn. unfold TIMING_CAP. lia. Qed.

Lemma disconnect_reports_once_witness :
  armed (aget example_radios 2) = true /\
  Forall2 (says 2) (captures (eff (totem_handoff_disconnected 2 example_radios 0%nat)))
    (report_of example_radio).
Proof.
  split; [reflexivity|].
  exact (proj1 (disconnect_reports_once example_radios 2 0%nat (proj1 example_handle) (proj2 example_handle)
                  eq_refl example_radio_wf eq_refl)).
Defined.

Definition example_view : View :=
  host_view [Link central_info 2 (-1); Link peripheral_info 2 0; Link peripheral_info 2 1]
    0 false true false ZMK_TRANSPORT_BLE false.

Lemma disconnect_burst_fits_witness :
  let es := eff (@__wrap_bt_conn_set_state _ _ example_view _ BT_CONN_TYPE_LE 2 0x16 2%nat
                   BT_CONN_DISCONNECT_COMPLETE example_radios 0%nat) in
  length (captures es) = 17%nat /\
  Inbox.queued (fin (deliver es Inbox.timing_init 0%nat)) = captures es.
Proof.
  cbv zeta.
  destruct (disconnect_burst_fits example_view example_radios 2 0x16 2%nat 0%nat Inbox.timing_init 0%nat
              (proj1 example_handle) (proj2 example_handle) eq_refl example_radio_wf eq_refl
              Inbox.wf_init example_room) as (Hn&Hq&_).
  split; [exact Hn|exact Hq].
Defined.

Lemma disconnect_request_arms_witness :
  @handoff_handle _ example_view 2%nat = Some (2, peripheral_info) /\
  armed (aget (fin (exec (op_disconnect example_view [] 0 2%nat 0x13) radios_init 0%nat)) 2) = true.
Proof.
  pose proof (disconnect_request_arms example_view [] 0 2%nat 0x13 radios_init 0%nat eq_refl) as H0.
  assert (@handoff_handle _ example_view 2%nat = Some (2, peripheral_info)) as H1 by reflexivity.
  split; [exact H1|]. rewrite H1 in H0. apply H0. lia.
Defined.
End Report.
