(* ===== verification/HandoffRadioTx.v ===== *)
(** * Radio transmissions of a handoff (src/handoff_radio_tx.c)

    Wrappers around the radio HAL that recognise the termination PDU of an armed
    connection and resolve its transmission once.  [RadioTx] works on the radio context of
    the file together with the counters of [HandoffDiagnostics.v] it reports to. *)
From S2P Require Import Prelude Events Platform HandoffDiagnostics.

Module RadioTx.
Import Handoff.

(** [radio_isr_cb_t]: the two callbacks the file compares against, or another. *)
Inductive radio_isr_cb_t := lll_conn_isr_rx | lll_conn_isr_tx | other_isr (n : nat).
#[export] Instance radio_isr_cb_eq_dec : EqDecision radio_isr_cb_t.
Proof. solve_decision. Defined.

(** [tx_radio]; a pointer is an integer, [None] is [NULL]. *)
Record tx_radio := TxRadio {
  param : option Z;
  handle : Z;                        (* uint16_t *)
  active : bool; encrypted : bool; pending : bool;
  encrypted_packet : option Z;
  encrypted_term : bool;
  diag : radios;                     (* the counters of handoff_diagnostics.c *)
}.
#[export] Instance tx_radio_eta : Eta tx_radio := fun s =>
  TxRadio (param s) (handle s) (active s) (encrypted s) (pending s) (encrypted_packet s)
    (encrypted_term s) (diag s).

Inductive tx_effect :=
| totem_handoff_tx_setup_call (handle : Z)
| totem_handoff_tx_result_call (handle : Z) (completed : bool)
| __real_radio_isr_set (cb : radio_isr_cb_t) (param : option Z)
| __real_radio_ccm_tx_pkt_set (cnf packet : Z)
| __real_radio_pkt_tx_set (packet : Z)
| __real_radio_status_reset
| observed (o : observation).

(** What the file reads of [*param] when it is a connection. *)
Record lll_view := LllView { view_handle : Z; view_role : Z; view_enc_tx : bool }.

Section code.
Context `{!Config} `{!Clock} `{!Controller}.

Definition tx_init : tx_radio := TxRadio None 0 false false false None false radios_init.

Definition is_termination (pdu : pdu_data) : bool :=
  (ll_id pdu =? PDU_DATA_LLID_CTRL) && (2 <=? pdu_len pdu) &&
  (opcode pdu =? PDU_DATA_LLCTRL_TYPE_TERMINATE_IND).

(** Calls into handoff_diagnostics.c run on its counters. *)
Definition in_diag {A} (m : proc radios observation A) : proc tx_radio tx_effect A :=
  zoom diag (fun d s => s <| diag := d |>) observed m.

(** [end_event] is the radio's END event when the function reads it. *)
Definition finish_pending (end_event : bool) : proc tx_radio tx_effect () :=
  s <- get ;;
  when (pending s)
    (let completed := end_event in
     emit (totem_handoff_tx_result_call (handle s) completed) ;;
     in_diag (totem_handoff_tx_result (handle s) completed) ;;
     modify (fun s => s <| pending := false |>)).

Definition __wrap_radio_isr_set (end_event : bool) (lll : lll_view) (cb : radio_isr_cb_t)
    (p : option Z) : proc tx_radio tx_effect () :=
  s <- get ;;
  (if bool_decide (cb = lll_conn_isr_rx \/ cb = lll_conn_isr_tx) then
     when (bool_decide (cb = lll_conn_isr_rx)) (finish_pending end_event) ;;
     when (bool_decide (p <> param s))
       (finish_pending end_event ;;
        modify (fun s => s <| encrypted_packet := None |>)) ;;
     modify (fun s => s <| param := p |> <| handle := view_handle lll |>) ;;
     armed <- in_diag (totem_handoff_tx_armed (view_handle lll)) ;;
     modify (fun s =>
       s <| active := (view_role lll =? BT_CONN_ROLE_PERIPHERAL) && armed |>
         <| encrypted := if CONFIG_BT_CTLR_LE_ENC then view_enc_tx lll else false |>)
   else when (bool_decide (p <> param s))
     (finish_pending end_event ;;
      modify (fun s => s <| active := false |> <| encrypted_packet := None |>
                         <| param := None |>))) ;;
  emit (__real_radio_isr_set cb p).

(** [result] is the packet the wrapped function returns, [pdu] what [packet] points to. *)
Definition __wrap_radio_ccm_tx_pkt_set (result : Z) (pdu : pdu_data) (cnf packet : Z)
    : proc tx_radio tx_effect Z :=
  s <- get ;;
  let term := active s && is_termination pdu in
  emit (__real_radio_ccm_tx_pkt_set cnf packet) ;;
  modify (fun s => s <| encrypted_packet := Some result |> <| encrypted_term := term |>) ;;
  ret result.

(** [pdu] is what [packet] points to. *)
Definition __wrap_radio_pkt_tx_set (end_event : bool) (pdu : pdu_data) (packet : Z)
    : proc tx_radio tx_effect () :=
  s <- get ;;
  let term := active s &&
    (if encrypted s then bool_decide (encrypted_packet s = Some packet) && encrypted_term s
     else is_termination pdu) in
  modify (fun s => s <| encrypted_packet := None |>) ;;
  finish_pending end_event ;;
  emit (__real_radio_pkt_tx_set packet) ;;
  when term
    (s <- get ;;
     emit (totem_handoff_tx_setup_call (handle s)) ;;
     in_diag (totem_handoff_tx_setup (handle s)) ;;
     modify (fun s => s <| pending := true |>)).

Definition __wrap_radio_status_reset (end_event : bool) : proc tx_radio tx_effect () :=
  finish_pending end_event ;;
  emit __real_radio_status_reset.
End code.
End RadioTx.
