(* ===== verification/HandoffProps.v ===== *)
(** * What the radio observer guarantees

    [TxRun] runs the wrappers of the radio HAL (src/handoff_radio_tx.c) interleaved with the
    operations of the host and of the link layer (src/handoff_diagnostics.c), which arm and
    disarm the links: every transmission set up is resolved once, and a termination is
    recognised. *)
From S2P Require Import Prelude Events Platform Samples RingBuffer DiagnosticTiming.
From S2P Require Import HandoffDiagnostics HandoffReport HandoffRadioTx.

Module TxRun.
Import Handoff RadioTx.

Section facts.
Context `{!Config} `{!Clock} `{!Controller}.
Implicit Types (s : tx_radio) (t : nat) (es : list tx_effect).

(** ** Calls of the radio HAL, as the controller makes them, and the operations of the
    host and of the link layer that come between them *)
Inductive call :=
| call_isr_set (end_event : bool) (lll : lll_view) (cb : radio_isr_cb_t) (p : option Z)
| call_ccm (result : Z) (pdu : pdu_data) (cnf packet : Z)
| call_pkt (end_event : bool) (pdu : pdu_data) (packet : Z)
| call_reset (end_event : bool)
| call_host (o : Report.op).

Definition exec (c : call) : proc tx_radio tx_effect () :=
  match c with
  | call_isr_set e lll cb p => __wrap_radio_isr_set e lll cb p
  | call_ccm r pdu cnf packet => _ <- __wrap_radio_ccm_tx_pkt_set r pdu cnf packet ;; ret ()
  | call_pkt e pdu packet => __wrap_radio_pkt_tx_set e pdu packet
  | call_reset e => __wrap_radio_status_reset e
  | call_host o => _ <- in_diag (Report.exec o) ;; ret ()
  end.

(** The calls of the radio HAL the image would make without the wrappers. *)
Definition real_of (c : call) : list tx_effect :=
  match c with
  | call_isr_set _ _ cb p => [__real_radio_isr_set cb p]
  | call_ccm _ _ cnf packet => [__real_radio_ccm_tx_pkt_set cnf packet]
  | call_pkt _ _ packet => [__real_radio_pkt_tx_set packet]
  | call_reset _ => [__real_radio_status_reset]
  | call_host _ => []
  end.
Definition is_real (x : tx_effect) : bool :=
  match x with
  | __real_radio_isr_set _ _ | __real_radio_ccm_tx_pkt_set _ _ | __real_radio_pkt_tx_set _
  | __real_radio_status_reset => true
  | _ => false
  end.

(** What is reported to the counters, in order. *)
Inductive report := setup (handle : Z) | result (handle : Z).
Definition report_of (x : tx_effect) : option report :=
  match x with
  | totem_handoff_tx_setup_call h => Some (setup h)
  | totem_handoff_tx_result_call h _ => Some (result h)
  | _ => None
  end.
Definition reports es : list report := omap report_of es.

(** Setups and results alternate and name the same connection; [p] and [q] are the
    handles pending before and after. *)
Fixpoint alternates (p : option Z) (l : list report) (q : option Z) : Prop :=
  match l with
  | [] => p = q
  | setup h :: l => p = None /\ alternates (Some h) l q
  | result h :: l => p = Some h /\ alternates None l q
  end.
Definition mark s : option Z := if pending s then Some (handle s) else None.

Lemma alternates_app p q r l l' : alternates p l q -> alternates q l' r -> alternates p (l ++ l') r.
Proof.
  revert p. induction l as [|[] l IH]; intros p; cbn; [by intros ->|..]; intros [-> ?] ?; auto.
Qed.

Definition plain es : Prop := reports es = [] /\ filter is_real es = [].

Lemma observed_plain (os : list observation) : plain (observed <$> os).
Proof. unfold plain. induction os as [|o os [IH1 IH2]]; [done|]. split; [exact IH1|exact IH2]. Qed.

Lemma in_diag_spec {A} (m : proc radios observation A) s t :
  wp (in_diag m) (fun _ s' t' es => plain es /\ exists d, s' = s <| diag := d |>) s t.
Proof. unfold wp, in_diag, zoom. cbn. split; [apply observed_plain|]. eauto. Qed.

Lemma reports_app es es' : reports (es ++ es') = reports es ++ reports es'.
Proof. apply omap_app. Qed.

Lemma plain_after es es' : plain es' -> reports (es ++ es') = reports es /\
  filter is_real (es ++ es') = filter is_real es.
Proof. intros [Hr Hf]. by rewrite reports_app, filter_app, Hr, Hf, !app_nil_r. Qed.

(** What a step does to the reports and to the wrapped function. *)
Definition step (s : tx_radio) (real : list tx_effect) (s' : tx_radio) es : Prop :=
  alternates (mark s) (reports es) (mark s') /\ filter is_real es = real.

Lemma step_trans s s1 s2 r1 r2 es1 es2 :
  step s r1 s1 es1 -> step s1 r2 s2 es2 -> step s (r1 ++ r2) s2 (es1 ++ es2).
Proof.
  intros [Ha1 Hr1] [Ha2 Hr2]. unfold step. rewrite reports_app, filter_app, Hr1, Hr2.
  split; [by eapply alternates_app|done].
Qed.

Lemma finish_pending_spec e s t :
  wp (finish_pending e) (fun _ s' t' es =>
    step s [] s' es /\ pending s' = false /\ param s' = param s /\ handle s' = handle s /\
    active s' = active s) s t.
Proof.
  unfold finish_pending. wp_steps. destruct (pending s) eqn:Hp; cbn [when].
  2:{ wp_steps. by split_and!. }
  wp_steps. wp_use in_diag_spec. intros [] s1 t1 es1 [Hes [d ->]]. wp_steps.
  split_and!; try done. unfold step, mark. rewrite Hp, app_nil_r.
  destruct (plain_after [totem_handoff_tx_result_call (handle s) e] es1 Hes) as [Hr Hf].
  cbn [app] in Hr, Hf. by rewrite Hr, Hf.
Qed.

(** A handler that only resolves what is pending. *)
Definition quiet (m : proc tx_radio tx_effect ()) : Prop :=
  forall s t, wp m (fun _ s' t' es => step s [] s' es) s t.

Lemma quiet_finish e : quiet (finish_pending e).
Proof. intros s t. wp_use finish_pending_spec. by intros [] s1 t1 es1 (?&_). Qed.
Lemma quiet_ret : quiet (ret ()).
Proof. intros s t. by split. Qed.
Lemma quiet_modify f : (forall s, mark (f s) = mark s) -> quiet (modify f).
Proof. intros Hf s t. split; [|done]. by cbn; rewrite Hf. Qed.
Lemma quiet_seq {A} (m : proc tx_radio tx_effect A) k :
  (forall s t, wp m (fun _ s' t' es => step s [] s' es) s t) ->
  (forall a, quiet (k a)) -> quiet (bind m k).
Proof.
  intros Hm Hk s t. apply wp_bind. eapply wp_mono; [apply Hm|]. intros a s1 t1 es1 Hs1.
  eapply wp_mono; [apply Hk|]. intros [] s2 t2 es2 Hs2. by apply (step_trans s s1 s2 [] []).
Qed.
Lemma quiet_when b m : quiet m -> quiet (when b m).
Proof. destruct b; [done|intros _; apply quiet_ret]. Qed.
Lemma quiet_in_diag {A} (m : proc radios observation A) s t :
  wp (in_diag m) (fun _ s' t' es => step s [] s' es) s t.
Proof. wp_use in_diag_spec. by intros a s1 t1 es1 [[Hr Hf] [d ->]]; split; [rewrite Hr|]. Qed.
Lemma quiet_get s t : wp get (fun _ s' t' es => step s [] s' es) s t.
Proof. by split. Qed.

Ltac quiet_steps := repeat first
  [ apply quiet_finish | apply quiet_seq; [|intros ?] | apply quiet_when | apply quiet_in_diag
  | apply quiet_ret | apply quiet_get | by apply quiet_modify | intros ? ?; progress cbv beta ].

(** Every callback of a connection reports the handle the link layer gave its context. *)
Section attribution.
Context (handle_of : option Z -> Z).

Definition consistent (c : call) : Prop :=
  match c with
  | call_isr_set _ lll cb p =>
      cb = lll_conn_isr_rx \/ cb = lll_conn_isr_tx -> view_handle lll = handle_of p
  | _ => True
  end.
#[export] Instance consistent_dec c : Decision (consistent c).
Proof. destruct c; cbn; apply _. Defined.

(** The radio context belongs to the connection it names. *)
Definition attributed s : Prop := active s \/ pending s -> handle s = handle_of (param s).

(** The bookkeeping of a connection callback. *)
Lemma take_context_step e (q : option Z) h s0 s t es0 :
  step s0 [] s es0 -> param s = param s0 -> (pending s -> handle s = handle s0) ->
  attributed s0 -> pending s0 \/ pending s = false -> h = handle_of q ->
  wp (when (bool_decide (q <> param s0))
        (finish_pending e ;; modify (fun s => s <| encrypted_packet := None |>)))
    (fun _ s' t' es =>
      step s0 [] (s' <| param := q |> <| handle := h |>) (es0 ++ es)) s t.
Proof.
  intros Hs Hparam Hp1 Hs0 Hp0 Hv. case_bool_decide as Hne; cbn [when]; wp_steps.
  - wp_use finish_pending_spec. intros [] s2 t2 es2 (Hs2&Hp2&_). wp_steps.
    rewrite !app_nil_r. apply (step_trans s0 s _ [] []); [done|].
    destruct Hs2 as [Ha Hf]. split; [|done]. revert Ha. unfold mark. cbn. by rewrite Hp2.
  - rewrite app_nil_r. destruct Hs as [Ha Hf]. split; [|done].
    revert Ha. unfold mark. cbn. destruct (pending s); [|done]. destruct Hp0 as [Hp0|]; [|done].
    rewrite Hv, (Hp1 I), Hs0 by auto. by destruct (decide (q = param s0)) as [->|].
Qed.

Lemma isr_set_step e lll cb p s t :
  attributed s -> consistent (call_isr_set e lll cb p) ->
  wp (__wrap_radio_isr_set e lll cb p)
    (fun _ s' t' es => step s [__real_radio_isr_set cb p] s' es /\ attributed s') s t.
Proof.
  intros Hs Hc.
  unfold __wrap_radio_isr_set. wp_steps. case_bool_decide as Hcb.
  + eapply (wp_bind (when _ _)), wp_mono.
    { instantiate (1 := fun _ s1 _ es => step s [] s1 es /\ param s1 = param s /\
        (pending s1 -> handle s1 = handle s) /\ (pending s \/ pending s1 = false)).
      case_bool_decide; cbn [when]; [wp_use finish_pending_spec|wp_steps].
      - intros [] s1 t1 es1 (?&Hp&?&?&?). rewrite Hp. by split_and!; [| |intros []|right].
      - split_and!; try done. destruct (pending s); [by left|by right]. }
    intros [] s1 t1 es1 (Hs1&Hparam&Hh1&Hp1). apply wp_bind.
    eapply wp_mono; [by apply (take_context_step e p (view_handle lll)); auto|].
    intros [] s2 t2 es2 Hs2. wp_steps. wp_use in_diag_spec.
    intros b s3 t3 es3 [[Hr3 Hf3] [d ->]]. wp_steps. split; [|intros _; by apply Hc].
    rewrite app_nil_r, (app_assoc es1), <- (app_assoc (es1 ++ es2)).
    apply (step_trans s (s2 <| param := p |> <| handle := view_handle lll |>) _ [] [_]);
      [exact Hs2|].
    unfold step. rewrite reports_app, filter_app, Hr3, Hf3. by split.
  + case_bool_decide as Hne; cbn [when]; wp_steps.
    * wp_use finish_pending_spec. intros [] s1 t1 es1 (Hs1&Hp1&_). wp_steps.
      rewrite app_nil_r. split; [|by intros [|?]; cbn in *; rewrite ?Hp1 in *].
      by apply (step_trans s s1 _ [] [_]).
    * by split.
Qed.

Lemma exec_step c s t :
  attributed s -> consistent c ->
  wp (exec c) (fun _ s' t' es => step s (real_of c) s' es /\ attributed s') s t.
Proof.
  intros Hs Hc. destruct c as [e lll cb p|r pdu cnf packet|e pdu packet|e|o]; cbn [exec real_of].
  - by apply isr_set_step.
  - unfold __wrap_radio_ccm_tx_pkt_set. wp_steps. by split.
  - unfold __wrap_radio_pkt_tx_set. wp_steps. wp_use finish_pending_spec.
    intros [] s1 t1 es1 (Hs1&Hp1&Hparam&Hh&Ha). wp_steps. cbn in Hparam, Hh, Ha.
    destruct (active s) eqn:Has; cbn [andb]; [destruct (if encrypted s then _ else _)|];
      cbn [when]; wp_steps.
    2,3: split; [by apply (step_trans s s1 s1 [] [_])|];
      intros [Hact|Hpend]; [|by rewrite Hp1 in Hpend];
      rewrite Hh, Hparam; apply Hs; left; cbn; congruence.
    wp_use in_diag_spec. intros [] s2 t2 es2 [Hes [d ->]]. wp_steps. split.
    2:{ intros _. cbn. rewrite Hh, Hparam. apply Hs. left. by rewrite Has. }
    apply (step_trans s s1 _ [] [_]); [exact Hs1|]. unfold step, mark. rewrite Hp1, app_nil_r.
    destruct (plain_after [__real_radio_pkt_tx_set packet;
      totem_handoff_tx_setup_call (handle s1)] es2 Hes) as [Hr Hf].
    cbn [app] in Hr, Hf. by rewrite Hr, Hf.
  - unfold __wrap_radio_status_reset. wp_steps. wp_use finish_pending_spec.
    intros [] s1 t1 es1 (Hs1&Hp1&Hparam&Hh&Ha). wp_steps.
    split; [by apply (step_trans s s1 s1 [] [_])|].
    unfold attributed. rewrite Hp1, Hparam, Hh, Ha. intros [?|[]]. apply Hs. by left.
  - wp_steps. wp_use in_diag_spec. intros z s1 t1 es1 [[Hr Hf] [d ->]]. wp_steps.
    rewrite app_nil_r. split; [|exact Hs]. by split; [rewrite Hr|].
Qed.

Lemma run_step cs s t :
  attributed s -> Forall consistent cs ->
  wp (for_each cs exec) (fun _ s' t' es => step s (cs ≫= real_of) s' es) s t.
Proof.
  intros Hs Hcs. revert s t Hs. induction Hcs as [|c cs Hc Hcs IH]; intros s t Hs;
    cbn [for_each mbind list_bind].
  { wp_steps. by split. }
  wp_steps. eapply wp_mono; [by apply exec_step|]. intros [] s1 t1 es1 [Hs1 Ha1].
  eapply wp_mono; [by apply IH|]. intros [] s2 t2 es2 Hs2.
  by apply (step_trans s s1 s2).
Qed.
End attribution.

(** The next transmission starts with nothing pending. *)
Lemma run_reset cs e s t :
  pending (fin (for_each (cs ++ [call_reset e]) exec s t)) = false.
Proof.
  change (wp (for_each (cs ++ [call_reset e]) exec) (fun _ s' _ _ => pending s' = false) s t).
  revert s t. induction cs as [|c cs IH]; intros s t; cbn [app for_each].
  - cbn [exec]. unfold __wrap_radio_status_reset. wp_steps. wp_use finish_pending_spec.
    intros [] s1 t1 es1 (_&Hp&_). wp_steps. exact Hp.
  - apply wp_bind. eapply (wp_mono _ (fun _ _ _ _ => True)); [done|]. intros [] s1 t1 es1 _. apply IH.
Qed.

(** C23 Under every interleaving of the four radio HAL calls with the operations of the host
    and the link layer (those that arm and disarm links included), with every callback of a
    connection carrying that connection's handle: transmissions set up and results
    alternate, a result always names the handle whose transmission was set up, and at most
    one is outstanding at the end (the one the context marks pending), none after the next
    reset of the radio status.  The wrapped functions are called exactly once per call, in
    order, with their own arguments. *)
Theorem transmissions_resolved handle_of cs t :
  Forall (consistent handle_of) cs ->
  let r := for_each cs exec tx_init t in
  alternates None (reports (eff r)) (mark (fin r)) /\ filter is_real (eff r) = (cs ≫= real_of) /\
  forall e, alternates None (reports (eff (for_each (cs ++ [call_reset e]) exec tx_init t))) None.
Proof.
  intros Hcs r. assert (attributed handle_of tx_init) as Hinit by by intros [].
  destruct (run_step handle_of cs tx_init t Hinit Hcs) as [Ha Hf]. split_and!; [exact Ha|exact Hf|].
  intros e. destruct (run_step handle_of (cs ++ [call_reset e]) tx_init t Hinit) as [Ha' _].
  { by apply Forall_app; split; [|by constructor]. }
  revert Ha'. unfold mark. by rewrite run_reset.
Qed.

(** The handles set up for observation. *)
Definition set_up es : list Z :=
  omap (fun x => match x with totem_handoff_tx_setup_call h => Some h | _ => None end) es.
Lemma set_up_app es es' : set_up (es ++ es') = set_up es ++ set_up es'.
Proof. apply omap_app. Qed.
Lemma set_up_observed (os : list observation) : set_up (observed <$> os) = [].
Proof. by induction os. Qed.

Lemma finish_pending_frame e s t :
  wp (finish_pending e)
    (fun _ s' t' es => set_up es = [] /\ exists d, s' = s <| pending := false |> <| diag := d |>) s t.
Proof.
  unfold finish_pending. wp_steps. destruct s as [p h ac en [] ep et dg]; cbn [when pending].
  - unfold wp, in_diag, zoom. cbn. rewrite app_nil_r, set_up_observed. eauto.
  - split; [done|by exists dg].
Qed.

(** What one transmission sets up, and the context it leaves. *)
Lemma pkt_tx_set_spec e pdu packet s t :
  let term := active s &&
    (if encrypted s then bool_decide (encrypted_packet s = Some packet) && encrypted_term s
     else is_termination pdu) in
  wp (__wrap_radio_pkt_tx_set e pdu packet) (fun _ s' t' es =>
    set_up es = (if term then [handle s] else []) /\ active s' = active s /\
    encrypted s' = encrypted s /\ handle s' = handle s /\ encrypted_packet s' = None) s t.
Proof.
  intros term. unfold __wrap_radio_pkt_tx_set. wp_steps. wp_use finish_pending_frame.
  intros [] s1 t1 es1 [Hes1 [d ->]]. wp_steps. fold term. destruct term; cbn [when]; wp_steps.
  - unfold wp, in_diag, zoom. cbn. rewrite set_up_app, Hes1. cbn.
    rewrite app_nil_r, set_up_observed. done.
  - cbn. rewrite set_up_app, Hes1. done.
Qed.

(** On an active context a plaintext packet is set up for observation exactly when it is a
    termination PDU.  An encrypted packet is exactly when it is the buffer the last CCM
    call produced from a termination PDU, whatever the ciphertext looks like, and
    transmitting the same buffer again is not taken for another termination. *)
Theorem termination_recognised s t e e' r clear cipher cipher' cnf packet :
  active s = true ->
  let hit := if is_termination clear then [handle s] else [] in
  if encrypted s
  then set_up (eff (for_each [call_ccm r clear cnf packet; call_pkt e cipher r; call_pkt e' cipher' r]
                      exec s t)) = hit
  else set_up (eff (exec (call_pkt e clear packet) s t)) = hit.
Proof.
  intros Hact hit. destruct (encrypted s) eqn:Henc.
  - change (wp (for_each [call_ccm r clear cnf packet; call_pkt e cipher r; call_pkt e' cipher' r] exec)
      (fun _ _ _ es => set_up es = hit) s t).
    cbn [for_each exec]. unfold __wrap_radio_ccm_tx_pkt_set. wp_steps. wp_use pkt_tx_set_spec.
    intros [] s1 t1 es1. cbn. rewrite Hact, Henc, bool_decide_true by done. cbn [andb].
    intros (Hes1&Ha1&He1&Hh1&Hp1). wp_steps. wp_use pkt_tx_set_spec.
    intros [] s2 t2 es2. rewrite Ha1, He1, Hp1. cbn. intros (Hes2&_). wp_steps.
    fold (set_up (es1 ++ es2 ++ [])). by rewrite !set_up_app, Hes1, Hes2, !app_nil_r.
  - change (wp (__wrap_radio_pkt_tx_set e clear packet) (fun _ _ _ es => set_up es = hit) s t).
    wp_use pkt_tx_set_spec. intros [] s1 t1 es1. rewrite Hact, Henc. by intros (?&_).
Qed.
End facts.

(** ** Witnesses *)
#[local] Instance example_clock : Clock := ticking 0 7.
#[local] Existing Instance Report.example_controller.

Definition example_handle_of (p : option Z) : Z := match p with Some p => p - 0x20000000 | None => 0 end.
(** The host disconnects an inactive profile, the link layer sends the termination on the
    encrypted link, sees it leave, and the radio turns to another connection and then to
    another event. *)
Definition example_calls : list call :=
  [call_host (Report.op_disconnect Report.example_view [] 0 2%nat 0x13);
   call_isr_set false (LllView 2 1 true) lll_conn_isr_rx (Some 0x20000002);
   call_ccm 7 (Pdu 3 2 2) 5 8; call_pkt false (Pdu 0 9 9) 7; call_reset true;
   call_isr_set false (LllView 1 1 false) lll_conn_isr_tx (Some 0x20000001);
   call_isr_set true (LllView 0 0 false) (other_isr 4) None].

Lemma transmissions_resolved_witness :
  Forall (consistent example_handle_of) example_calls /\
  reports (eff (for_each example_calls exec tx_init 0%nat)) = [setup 2; result 2] /\
  filter is_real (eff (for_each example_calls exec tx_init 0%nat)) = (example_calls ≫= real_of).
Proof.
  assert (Forall (consistent example_handle_of) example_calls) as Hc
    by (repeat constructor; by intros []).
  split; [exact Hc|]. split; [vm_compute; reflexivity|].
  exact (proj1 (proj2 (transmissions_resolved example_handle_of example_calls 0%nat Hc))).
Defined.

(** An armed, encrypted peripheral link. *)
Definition example_tx : tx_radio :=
  TxRadio (Some 0x20000001) 1 true true false None false
    (aset radios_init 1 (radio_zero <| armed := true |>)).
Lemma termination_recognised_witness :
  active example_tx = true /\
  set_up (eff (for_each [call_ccm 7 (Pdu 3 2 2) 5 8; call_pkt false (Pdu 0 9 9) 7;
                         call_pkt true (Pdu 0 9 9) 7] exec example_tx 0%nat)) = [1].
Proof.
  split; [reflexivity|].
  exact (termination_recognised example_tx 0%nat false true 7 (Pdu 3 2 2) (Pdu 0 9 9) (Pdu 0 9 9) 5 8
           eq_refl).
Defined.
End TxRun.
