(* ===== verification/SecurityTiming.v ===== *)
(** * Security observers (src/security_timing.c, src/security_controller_timing.c)

    Wrappers around the host's and the controller's security functions that put the time and
    the outcome of each step into the timing inbox.  [Security] is the host's side,
    [LinkSecurity] the controller's; [SecurityProps] shows that they change nothing and that
    they read metadata only: never a byte of key material, never one outside a buffer. *)
From S2P Require Import Prelude Events Platform Samples.
From S2P Require Import HandoffDiagnostics.

Module Security.

(** The wrapped functions, with their arguments; a pointer is an integer. *)
Inductive security_call :=
| __real_bt_l2cap_send_pdu (chan buf cb user_data : Z)
| __real_net_buf_slist_put (list buf : Z)
| __real_net_buf_slist_get (list : Z)
| __real_bt_conn_security_changed (c hci_err err : Z)
| __real_bt_l2cap_security_changed (c hci_status : Z)
| __real_ull_cp_rx (ll link rx : Z)
| __real_ull_cp_ltk_req_reply (ll : Z) (ltk : list Z)
| __real_ull_cp_ltk_req_neq_reply (ll : Z).

Inductive security_effect :=
| host (e : effect)
| called (f : security_call).

(** The files keep no state. *)
Definition observer (A : Type) : Type := proc () security_effect A.
Definition on_host {A} (m : proc () effect A) : observer A := zoom id (fun s _ => s) host m.

(** [struct net_buf]: [buf_data i] is the byte at [data + i], whether or not it belongs to
    the buffer, whose bytes are the first [buf_len]. *)
Record net_buf := NetBuf { buf_is_evt : bool; buf_len : Z; buf_data : Z -> Z }.

(** The fields of the host's [struct bt_conn] and of a channel that are read. *)
Record bt_conn := BtConn { conn_type : Z; conn_role : Z; conn_handle : Z; conn_sec_level : Z }.

(** Constants of the HCI, SMP and L2CAP headers, fixed by the Bluetooth specification. *)
Definition BT_HCI_EVT_ENCRYPT_CHANGE : Z := 0x08.
Definition BT_HCI_EVT_ENCRYPT_KEY_REFRESH_COMPLETE : Z := 0x30.
Definition BT_HCI_EVT_LE_META_EVENT : Z := 0x3e.
Definition BT_HCI_EVT_LE_LTK_REQUEST : Z := 0x05.
Definition BT_SMP_CMD_SECURITY_REQUEST : Z := 0x0b.
Definition BT_L2CAP_CID_SMP : Z := 0x0006.
(** Sizes of the packed event structures: the header (code, length); the subevent code; the
    LTK request (handle, random number, diversifier); status, handle, encryption flag;
    status, handle. *)
Definition evt_hdr_size : Z := 2.
Definition le_meta_event_size : Z := 1.
Definition le_ltk_request_size : Z := 2 + 8 + 2.
Definition encrypt_change_size : Z := 1 + 2 + 1.
Definition encrypt_key_refresh_complete_size : Z := 1 + 2.
Definition handle_offset : Z := 1.
Definition encrypt_offset : Z := 3.

Section code.
Context `{!Clock}.

Definition timing (type handle stage pair extra : Z) : observer () :=
  now <- k_uptime_get_32 ;;
  on_host (totem_diagnostic_timing_capture_call now type (i8 handle) (i8 (handle ≫ 8)) stage pair extra).

Definition sys_get_le16 (p : Z -> Z) (off : Z) : Z := of_le16 (p off) (p (off + 1)).

(** [rx_queue] says the list is the host's receive queue. *)
Definition encryption_observed (rx_queue : bool) (b : option net_buf) (stage : Z) : observer () :=
  match b with
  | None => ret ()
  | Some b =>
      if negb rx_queue || negb (buf_is_evt b) || (buf_len b <? evt_hdr_size) then ret () else
      let evt_code := buf_data b 0 in
      let hdr_len := buf_data b 1 in
      if buf_len b <? evt_hdr_size + hdr_len then ret () else
      let payload i := buf_data b (evt_hdr_size + i) in
      if (evt_code =? BT_HCI_EVT_LE_META_EVENT) &&
         (le_meta_event_size + le_ltk_request_size <=? hdr_len) &&
         (payload 0 =? BT_HCI_EVT_LE_LTK_REQUEST)
      then timing TOTEM_HEVT_SECURITY_EXCHANGE (sys_get_le16 payload le_meta_event_size) (6 + stage) 0 0
      else
      let refresh := evt_code =? BT_HCI_EVT_ENCRYPT_KEY_REFRESH_COMPLETE in
      if negb (evt_code =? BT_HCI_EVT_ENCRYPT_CHANGE) && negb refresh then ret () else
      let required := if refresh then encrypt_key_refresh_complete_size else encrypt_change_size in
      if (hdr_len <? required) || (buf_len b <? evt_hdr_size + hdr_len) then ret () else
      timing TOTEM_HEVT_ENCRYPT_EVENT (sys_get_le16 payload handle_offset)
        (stage + if refresh then 2 else 0) (payload 0)
        (if refresh then UINT8_MAX else payload encrypt_offset)
  end.

(** [chan], [buf], [cb] and [user_data] are the arguments: [c] is the connection of [*chan],
    [cid] its transmit channel id, [b] what [*buf] holds.  [real] is the result. *)
Definition __wrap_bt_l2cap_send_pdu (real : Z) (c : option bt_conn) (cid : Z) (b : net_buf)
    (chan buf cb user_data : Z) : observer Z :=
  let trace := match c with
    | Some conn =>
        (cid =? BT_L2CAP_CID_SMP) && (buf_len b =? 2) &&
        (buf_data b 0 =? BT_SMP_CMD_SECURITY_REQUEST) &&
        (conn_type conn =? BT_CONN_TYPE_LE) && (conn_role conn =? BT_CONN_ROLE_PERIPHERAL)
    | None => false
    end in
  let handle := match c with Some conn => if trace then conn_handle conn else 0 | None => 0 end in
  when trace (timing TOTEM_HEVT_SECURITY_EXCHANGE handle 0 0 0) ;;
  emit (called (__real_bt_l2cap_send_pdu chan buf cb user_data)) ;;
  let err := real in
  when trace (timing TOTEM_HEVT_SECURITY_EXCHANGE handle 1 (err_class err) (err_byte err)) ;;
  ret err.

(** [rx_queue] is [list == &bt_dev.rx_queue], [b] what [buf] points to. *)
Definition __wrap_net_buf_slist_put (rx_queue : bool) (b : option net_buf) (list buf : Z)
    : observer () :=
  encryption_observed rx_queue b 0 ;;
  emit (called (__real_net_buf_slist_put list buf)).

(** [real] is the buffer the wrapped function returns. *)
Definition __wrap_net_buf_slist_get (real : option net_buf) (rx_queue : bool) (list : Z)
    : observer (option net_buf) :=
  emit (called (__real_net_buf_slist_get list)) ;;
  encryption_observed rx_queue real 1 ;;
  ret real.

Definition security_observed (conn : bt_conn) (stage hci_status : Z) : observer () :=
  when ((conn_type conn =? BT_CONN_TYPE_LE) && (conn_role conn =? BT_CONN_ROLE_PERIPHERAL))
    (timing TOTEM_HEVT_SECURITY_TIMING (conn_handle conn) stage hci_status (conn_sec_level conn)).

(** [conn] and [after] are what [*c] holds before and after the wrapped function. *)
Definition __wrap_bt_conn_security_changed (conn after : bt_conn) (c hci_err err : Z) : observer () :=
  security_observed conn 0 hci_err ;;
  emit (called (__real_bt_conn_security_changed c hci_err err)) ;;
  security_observed after 2 hci_err.

Definition __wrap_bt_l2cap_security_changed (after : bt_conn) (c hci_status : Z) : observer () :=
  emit (called (__real_bt_l2cap_security_changed c hci_status)) ;;
  security_observed after 1 hci_status.
End code.
End Security.

Module LinkSecurity.
Import Handoff Security.

(** The encryption procedure's PDUs, from the link layer's private header: the cases of a
    switch are distinct. *)
Class EncryptionPdus := {
  PDU_DATA_LLCTRL_TYPE_ENC_REQ : Z; PDU_DATA_LLCTRL_TYPE_ENC_RSP : Z;
  PDU_DATA_LLCTRL_TYPE_START_ENC_REQ : Z; PDU_DATA_LLCTRL_TYPE_START_ENC_RSP : Z;
  PDU_DATA_LLCTRL_LEN_enc_req : Z; PDU_DATA_LLCTRL_LEN_enc_rsp : Z;
  PDU_DATA_LLCTRL_LEN_start_enc_req : Z; PDU_DATA_LLCTRL_LEN_start_enc_rsp : Z;
}.

Section code.
Context `{!Clock} `{!Controller} `{!EncryptionPdus}.

Definition exchange_capture (lll : lll_conn) (stage code extra : Z) : observer () :=
  when (lll_role lll =? BT_CONN_ROLE_PERIPHERAL)
    (Security.timing TOTEM_HEVT_SECURITY_EXCHANGE (lll_handle lll) stage code extra).

Definition encryption_pdu (pdu : pdu_data) : bool :=
  if negb (ll_id pdu =? PDU_DATA_LLID_CTRL) || (pdu_len pdu <? 1) then false
  else if opcode pdu =? PDU_DATA_LLCTRL_TYPE_ENC_REQ then pdu_len pdu =? PDU_DATA_LLCTRL_LEN_enc_req
  else if opcode pdu =? PDU_DATA_LLCTRL_TYPE_ENC_RSP then pdu_len pdu =? PDU_DATA_LLCTRL_LEN_enc_rsp
  else if opcode pdu =? PDU_DATA_LLCTRL_TYPE_START_ENC_REQ
  then pdu_len pdu =? PDU_DATA_LLCTRL_LEN_start_enc_req
  else if opcode pdu =? PDU_DATA_LLCTRL_TYPE_START_ENC_RSP
  then pdu_len pdu =? PDU_DATA_LLCTRL_LEN_start_enc_rsp
  else false.

Definition totem_security_tx_queued (lll : lll_conn) (pdu : pdu_data) : observer () :=
  when (encryption_pdu pdu) (exchange_capture lll 3 (opcode pdu) 0).

(** [ll], [link] and [rx] are the arguments; [lll] is what is read of [*ll], [pdu] of [*rx]. *)
Definition __wrap_ull_cp_rx (lll : lll_conn) (pdu : pdu_data) (ll link rx : Z) : observer () :=
  when (encryption_pdu pdu) (exchange_capture lll 2 (opcode pdu) 0) ;;
  emit (called (__real_ull_cp_rx ll link rx)).

(** [real] is the result of the wrapped function, [lll] and [after] what is read of [*ll]
    before and after it. *)
Definition __wrap_ull_cp_ltk_req_reply (real : Z) (lll after : lll_conn) (ll : Z) (ltk : list Z)
    : observer Z :=
  exchange_capture lll 4 0 1 ;;
  emit (called (__real_ull_cp_ltk_req_reply ll ltk)) ;;
  let result := real in
  exchange_capture after 5 result 1 ;;
  ret result.

Definition __wrap_ull_cp_ltk_req_neq_reply (real : Z) (lll after : lll_conn) (ll : Z) : observer Z :=
  exchange_capture lll 4 0 0 ;;
  emit (called (__real_ull_cp_ltk_req_neq_reply ll)) ;;
  let result := real in
  exchange_capture after 5 result 0 ;;
  ret result.
End code.
End LinkSecurity.

Module SecurityProps.
Import Handoff Security LinkSecurity.

Section facts.
Context `{!Clock} `{!Controller} `{!EncryptionPdus}.
Implicit Types (b : net_buf) (t : nat) (lll : lll_conn).

Definition call_of (e : security_effect) : option security_call :=
  match e with called f => Some f | host _ => None end.
Definition capture_of (e : security_effect) : option effect :=
  match e with host c => Some c | called _ => None end.
(** What a run puts into the timing inbox. *)
Definition captures {A} (m : observer A) t : list effect := omap capture_of (eff (m () t)).

Notation quiet := (mute call_of).

Lemma timing_quiet type handle stage pair extra : quiet (timing type handle stage pair extra).
Proof. intros [] t _. split; [done|]. by repeat constructor. Qed.
#[local] Hint Resolve timing_quiet : keeps.
Lemma encryption_observed_quiet q (o : option net_buf) stage : quiet (encryption_observed q o stage).
Proof. destruct o as [b|]; unfold encryption_observed, mute; keeps_steps; by apply timing_quiet. Qed.
Lemma security_observed_quiet c stage status : quiet (security_observed c stage status).
Proof. unfold security_observed, mute; keeps_steps; by apply timing_quiet. Qed.
Lemma exchange_capture_quiet lll stage code extra : quiet (exchange_capture lll stage code extra).
Proof. unfold exchange_capture, mute; keeps_steps; by apply timing_quiet. Qed.
Lemma security_quiet_when c (m : observer ()) : quiet m -> quiet (when c m).
Proof. intros Hm. apply keeps_when. by intros _. Qed.

(** A wrapper: observers, the call, observers. *)
Lemma talks_around {A} (pre post : observer ()) (f : security_call) (a : A) :
  quiet pre -> quiet post -> talks call_of [f] (pre ;; emit (called f) ;; post ;; ret a).
Proof.
  intros Hpre Hpost. apply (talks_bind _ [] [f]); [by apply talks_mute|intros _].
  apply (talks_bind _ [f] []); [by apply talks_emit|intros _].
  apply (talks_bind _ [] []); [by apply talks_mute|intros _; apply talks_ret].
Qed.
Lemma talks_after (post : observer ()) (f : security_call) :
  quiet post -> talks call_of [f] (emit (called f) ;; post).
Proof.
  intros Hpost. apply (talks_bind _ [f] []); [by apply talks_emit|intros _; by apply talks_mute].
Qed.
Lemma talks_before (pre : observer ()) (f : security_call) :
  quiet pre -> talks call_of [f] (pre ;; emit (called f)).
Proof.
  intros Hpre. apply (talks_bind _ [] [f]); [by apply talks_mute|intros _; by apply talks_emit].
Qed.

(** The security wrappers are transparent: each makes exactly the call it wraps, with the
    arguments it was given, and returns its result unchanged. *)
Theorem security_wrappers_transparent :
  (forall real c cid b chan buf cb ud,
    talks call_of [__real_bt_l2cap_send_pdu chan buf cb ud]
      (__wrap_bt_l2cap_send_pdu real c cid b chan buf cb ud) /\
    forall t, val (__wrap_bt_l2cap_send_pdu real c cid b chan buf cb ud () t) = real) /\
  (forall q o list buf, talks call_of [__real_net_buf_slist_put list buf] (__wrap_net_buf_slist_put q o list buf)) /\
  (forall real q list, talks call_of [__real_net_buf_slist_get list] (__wrap_net_buf_slist_get real q list) /\
    forall t, val (__wrap_net_buf_slist_get real q list () t) = real) /\
  (forall c c' p h err, talks call_of [__real_bt_conn_security_changed p h err]
    (__wrap_bt_conn_security_changed c c' p h err)) /\
  (forall c p h, talks call_of [__real_bt_l2cap_security_changed p h]
    (__wrap_bt_l2cap_security_changed c p h)) /\
  (forall lll pdu ll link rx, talks call_of [__real_ull_cp_rx ll link rx] (__wrap_ull_cp_rx lll pdu ll link rx)) /\
  (forall real lll lll' ll ltk, talks call_of [__real_ull_cp_ltk_req_reply ll ltk]
    (__wrap_ull_cp_ltk_req_reply real lll lll' ll ltk) /\
    forall t, val (__wrap_ull_cp_ltk_req_reply real lll lll' ll ltk () t) = real) /\
  (forall real lll lll' ll, talks call_of [__real_ull_cp_ltk_req_neq_reply ll]
    (__wrap_ull_cp_ltk_req_neq_reply real lll lll' ll) /\
    forall t, val (__wrap_ull_cp_ltk_req_neq_reply real lll lll' ll () t) = real).
Proof.
  split_and!; intros; try split; try done.
  - apply talks_around; apply security_quiet_when, timing_quiet.
  - apply talks_before, encryption_observed_quiet.
  - apply (talks_bind _ [_] []); [by apply talks_emit|intros _].
    apply (talks_bind _ [] []); [apply talks_mute, encryption_observed_quiet|intros _; apply talks_ret].
  - apply (talks_bind _ [] [_]); [apply talks_mute, security_observed_quiet|intros _].
    apply talks_after, security_observed_quiet.
  - apply talks_after, security_observed_quiet.
  - apply talks_before, security_quiet_when, exchange_capture_quiet.
  - apply talks_around; apply exchange_capture_quiet.
  - apply talks_around; apply exchange_capture_quiet.
Qed.

(** Two buffers that differ only in what is no metadata: everything outside the buffer, and
    inside it everything after the fifth byte, but for the encryption flag of an
    encryption-change event. *)
Definition same_metadata b b' : Prop :=
  buf_is_evt b = buf_is_evt b' /\ buf_len b = buf_len b' /\
  (forall i, 0 <= i < 5 -> i < buf_len b -> buf_data b i = buf_data b' i) /\
  (buf_data b 0 = BT_HCI_EVT_ENCRYPT_CHANGE -> 5 < buf_len b -> buf_data b 5 = buf_data b' 5).

Lemma encryption_observed_metadata q b b' stage :
  same_metadata b b' -> encryption_observed q (Some b) stage = encryption_observed q (Some b') stage.
Proof.
  intros (Ht&Hl&Hd&H5). unfold encryption_observed. rewrite <- Ht, <- Hl.
  destruct (negb q || negb (buf_is_evt b)); [done|]. cbn [orb].
  destruct (Z.ltb_spec (buf_len b) evt_hdr_size) as [|Hlen]; [done|]. unfold evt_hdr_size in Hlen.
  rewrite <- (Hd 0), <- (Hd 1) by lia. unfold evt_hdr_size.
  destruct (Z.ltb_spec (buf_len b) (2 + buf_data b 1)) as [|Hhdr]; [done|].
  unfold sys_get_le16, le_meta_event_size, le_ltk_request_size, handle_offset, encrypt_offset,
    encrypt_key_refresh_complete_size, encrypt_change_size.
  assert (3 <= buf_data b 1 -> forall i, 0 <= i < 3 -> buf_data b' (2 + i) = buf_data b (2 + i)) as Hp
    by (intros ? i ?; symmetry; apply Hd; lia).
  destruct (Z.leb_spec (1 + (2 + 8 + 2)) (buf_data b 1)).
  - rewrite (Hp ltac:(lia) 0), (Hp ltac:(lia) 1), (Hp ltac:(lia) (1 + 1)) by lia.
    destruct (Z.eqb_spec (buf_data b 0) BT_HCI_EVT_ENCRYPT_CHANGE) as [He|He].
    + change (2 + 3) with 5. rewrite (H5 He) by lia. done.
    + destruct (buf_data b 0 =? BT_HCI_EVT_ENCRYPT_KEY_REFRESH_COMPLETE); done.
  - rewrite !andb_false_r. cbn [andb].
    destruct (Z.eqb_spec (buf_data b 0) BT_HCI_EVT_ENCRYPT_CHANGE) as [He|He];
    destruct (buf_data b 0 =? BT_HCI_EVT_ENCRYPT_KEY_REFRESH_COMPLETE); cbn [negb andb]; try done;
    destruct (Z.ltb_spec (buf_data b 1) (1 + 2)), (Z.ltb_spec (buf_data b 1) (1 + 2 + 1)); cbn [orb];
    try (done || lia);
    rewrite (Hp ltac:(lia) 0), (Hp ltac:(lia) 1), (Hp ltac:(lia) (1 + 1)) by lia; try done.
    all: change (2 + 3) with 5; rewrite (H5 He) by lia; done.
Qed.

(** C16 The observers read metadata only.  What reaches the journal of an HCI event does not
    depend on any byte outside the buffer nor, inside it, on anything but the event's header,
    subevent code or status, connection handle and encryption flag - in particular not on the
    random number and diversifier of a key request; what reaches it of a key reply does not
    depend on the key. *)
Theorem security_metadata_only b b' :
  same_metadata b b' ->
  (forall q stage, encryption_observed q (Some b) stage = encryption_observed q (Some b') stage) /\
  (forall real lll lll' ll ltk ltk' t,
    captures (__wrap_ull_cp_ltk_req_reply real lll lll' ll ltk) t =
    captures (__wrap_ull_cp_ltk_req_reply real lll lll' ll ltk') t).
Proof.
  intros Hb. split; [intros; by apply encryption_observed_metadata|].
  intros. unfold captures. cbn. by rewrite !omap_app.
Qed.

(** What the host's receive queue shows of a well-formed event: the bytes of the handle, the
    status and the flag. *)
Lemma encrypt_change_observed stage status lo hi flag n d t :
  is_byte lo -> is_byte hi -> is_byte status -> is_byte flag -> 6 <= n -> 0 <= stage < 2 ->
  (forall i x, [BT_HCI_EVT_ENCRYPT_CHANGE; 4; status; lo; hi; flag] !! i = Some x -> d (Z.of_nat i) = x) ->
  captures (encryption_observed true (Some (NetBuf true n d)) stage) t =
    [timing_capture_call (u32 (uptime t)) TOTEM_HEVT_ENCRYPT_EVENT (i8 lo) (i8 hi) stage status flag].
Proof.
  unfold is_byte. intros Hlo Hhi Hs Hf Hn Hst Hd. unfold captures, encryption_observed. cbn [buf_is_evt buf_len buf_data].
  pose proof (Hd 0%nat _ eq_refl : d 0 = _) as E0. pose proof (Hd 1%nat _ eq_refl : d 1 = _) as E1.
  pose proof (Hd 2%nat _ eq_refl : d 2 = _) as E2. pose proof (Hd 3%nat _ eq_refl : d 3 = _) as E3.
  pose proof (Hd 4%nat _ eq_refl : d 4 = _) as E4. pose proof (Hd 5%nat _ eq_refl : d 5 = _) as E5.
  rewrite E0, E1. unfold evt_hdr_size.
  destruct (Z.ltb_spec n 2); [lia|]. destruct (Z.ltb_spec n (2 + 4)); [lia|].
  cbn -[timing sys_get_le16 u8 i8]. unfold sys_get_le16.
  change (2 + (handle_offset + 1)) with 4. change (2 + handle_offset) with 3. 
  change (2 + encrypt_offset) with 5. change (2 + 0) with 2. rewrite E2, E3, E4, E5.
  change (4 <? encrypt_change_size) with false. unfold timing. cbn -[u8 i8 Z.shiftr evt]. unfold of_le16. rewrite shiftr_div by lia.
  rewrite u32_idemp, !i8_idemp, !(u8_small status), (u8_small flag), Z.add_0_r, (u8_small stage) by lia.
  do 2 f_equal; solve_cint.
Qed.
End facts.

(** Two key requests that differ in the random number, the diversifier and what follows. *)
Definition ltk_request (secret : list Z) : net_buf :=
  NetBuf true 15 (fun i => default 0 (([0x3e; 13; 0x05; 0x34; 0x02] ++ secret) !! Z.to_nat i)).
#[local] Instance security_clock : Clock := ticking 1000 1.

Lemma security_metadata_only_witness :
  captures (encryption_observed true (Some (ltk_request [1; 2; 3; 4; 5; 6; 7; 8; 9; 10])) 0) 0 =
    [timing_capture_call 1000 38 0x34 2 6 0 0] /\
  captures (encryption_observed true (Some (ltk_request [])) 0) 0 =
    captures (encryption_observed true (Some (ltk_request [1; 2; 3; 4; 5; 6; 7; 8; 9; 10])) 0) 0.
Proof.
  split; [vm_compute; reflexivity|].
  assert (same_metadata (ltk_request []) (ltk_request [1; 2; 3; 4; 5; 6; 7; 8; 9; 10])) as Hm.
  { split_and!; [done|done| |discriminate]. intros i Hi _. cbn.
    assert (Z.to_nat i < 5)%nat as Hn by lia. revert Hn. generalize (Z.to_nat i) as k. clear.
    intros k Hk. do 5 (destruct k as [|k]; [done|]). lia. }
  unfold captures. by rewrite (proj1 (security_metadata_only _ _ Hm) true 0).
Defined.
End SecurityProps.
