(* ===== verification/HidReportDiagnostics.v ===== *)
(** * HID report counters (src/hid_report_diagnostics.c)

    Wrappers count what happens to keyboard reports, per profile and stage, and a delayed
    summary writes the changed counts to the event log.  [HidReport] keeps the table of the
    file as the flat array C lays out. *)
From S2P Require Import Prelude Events Platform.

Module HidReport.

Inductive hid_stage :=
| RELEASE_OK | RELEASE_FAILED | QUEUED | QUEUE_FAILED | DEQUEUED | EVICTED
| NO_HOST_DROP | NOTIFY_ACCEPTED | NOTIFY_FAILED | UNSUBSCRIBED
| ALL_UP_QUEUED | ALL_UP_ACCEPTED | ALL_UP_EVICTED | ALL_UP_FAILED.
#[export] Instance hid_stage_eq_dec : EqDecision hid_stage.
Proof. solve_decision. Defined.
Definition hid_stages : list hid_stage :=
  [RELEASE_OK; RELEASE_FAILED; QUEUED; QUEUE_FAILED; DEQUEUED; EVICTED; NO_HOST_DROP;
   NOTIFY_ACCEPTED; NOTIFY_FAILED; UNSUBSCRIBED; ALL_UP_QUEUED; ALL_UP_ACCEPTED; ALL_UP_EVICTED;
   ALL_UP_FAILED].
Definition stage_number (s : hid_stage) : Z :=
  match s with
  | RELEASE_OK => 0 | RELEASE_FAILED => 1 | QUEUED => 2 | QUEUE_FAILED => 3 | DEQUEUED => 4
  | EVICTED => 5 | NO_HOST_DROP => 6 | NOTIFY_ACCEPTED => 7 | NOTIFY_FAILED => 8
  | UNSUBSCRIBED => 9 | ALL_UP_QUEUED => 10 | ALL_UP_ACCEPTED => 11 | ALL_UP_EVICTED => 12
  | ALL_UP_FAILED => 13
  end.
Definition HID_STAGE_COUNT : Z := 14.

(** [struct hid_count]. *)
Record hid_count := HidCount {
  last_ms : Z;   (* uint32_t *)
  total : Z;     (* uint16_t *)
  error : Z;     (* uint8_t *)
  dirty : bool;
}.
#[export] Instance hid_count_eta : Eta hid_count := fun c =>
  HidCount (last_ms c) (total c) (error c) (dirty c).
#[export] Instance hid_count_inhabited : Inhabited hid_count := populate (HidCount 0 0 0 false).

(** The static variables of the file. *)
Record hid := Hid {
  counts : list hid_count;     (* counts[ZMK_BLE_PROFILE_COUNT][HID_STAGE_COUNT] *)
  dequeued_report : bool;
  all_up_report : bool;
  keyboard_notify : bool;
  notify_profile : Z;
}.
#[export] Instance hid_eta : Eta hid := fun s =>
  Hid (counts s) (dequeued_report s) (all_up_report s) (keyboard_notify s) (notify_profile s).

(** [struct zmk_hid_keyboard_report_body], as far as it is read. *)
Record keyboard_report := KeyboardReport { modifiers : Z; keys : list Z }.

(** [struct k_msgq *]: the queue the file compares against, or another. *)
Inductive k_msgq := zmk_hog_keyboard_msgq | other_msgq (n : nat).
Definition is_hog (queue : k_msgq) : bool :=
  match queue with zmk_hog_keyboard_msgq => true | other_msgq _ => false end.

(** The wrapped functions, with their arguments; a pointer is an integer. *)
Inductive hid_call :=
| __real_zmk_hid_release (usage : Z)
| __real_z_impl_k_msgq_put (queue : k_msgq) (data timeout : Z)
| __real_z_impl_k_msgq_get (queue : k_msgq) (data timeout : Z)
| __real_zmk_ble_active_profile_conn
| __real_bt_gatt_notify_cb (c : conn) (params : Z).

Inductive hid_effect :=
| host (e : effect)
| called (f : hid_call).

(** Constants of ZMK's HID headers. *)
Class HidUsage := {
  ZMK_HID_USAGE_PAGE : Z -> Z;
  HID_USAGE_KEY : Z;
}.

Section code.
Context `{!Config} `{!Clock} `{!HidUsage}.

Definition hid_init : hid :=
  Hid (replicate (Z.to_nat (ZMK_BLE_PROFILE_COUNT * HID_STAGE_COUNT)) inhabitant)
    false false false 0.

(** [counts[profile][stage]]. *)
Definition cell (profile stage : Z) : Z := profile * HID_STAGE_COUNT + stage.
Definition on_host {A} (m : proc hid effect A) : proc hid hid_effect A :=
  zoom id (fun s _ => s) host m.

(** One turn of the loop of [flush_counts]; the lock makes the read and the reset one step. *)
Definition flush_cell (profile : Z) (stage : hid_stage) (changed : bool)
    : proc hid hid_effect bool :=
  let ix := cell profile (stage_number stage) in
  s <- get ;;
  let count := aget (counts s) ix in
  modify (fun s => s <| counts := aset (counts s) ix
    ((aget (counts s) ix) <| dirty := false |> <| error := 0 |>) |>) ;;
  if negb (dirty count) then ret changed else
  on_host (totem_host_event_log_record_timing_call (last_ms count) TOTEM_HEVT_HID_COUNT
             profile (-1) (stage_number stage) (Z.land (total count) 0xff) (total count ≫ 8)) ;;
  when (negb (error count =? 0))
    (on_host (totem_host_event_log_record_timing_call (last_ms count) TOTEM_HEVT_HID_ERROR
                profile (-1) (stage_number stage) (error count) 0)) ;;
  ret true.

Definition cells : list (Z * hid_stage) :=
  p ← seqZ 0 ZMK_BLE_PROFILE_COUNT; (fun s => (p, s)) <$> hid_stages.

Definition flush_counts : proc hid hid_effect () :=
  changed <- fold_each cells (fun '(profile, stage) => flush_cell profile stage) false ;;
  when changed (on_host (emit log_persist)).

Definition count_event (profile : Z) (stage : hid_stage) (err : Z) : proc hid hid_effect () :=
  if (profile <? 0) || (ZMK_BLE_PROFILE_COUNT <=? profile) then ret () else
  now <- k_uptime_get_32 ;;
  let ix := cell profile (stage_number stage) in
  modify (fun s =>
    let count := aget (counts s) ix in
    s <| counts := aset (counts s) ix
      (count <| total := u16 (total count + 1) |> <| last_ms := now |> <| dirty := true |>
             <| error := if err =? 0 then error count else err_byte err |>) |>) ;;
  on_host (emit (k_work_schedule summary_work (K_SECONDS 5))).

Definition all_up (report : keyboard_report) : bool :=
  (modifiers report =? 0) && forallb (fun k => k =? 0) (keys report).

(** In each wrapper [real] is the result of the wrapped function. *)
Definition __wrap_zmk_hid_release `{!View} (real usage : Z) : proc hid hid_effect Z :=
  let profile := zmk_ble_active_profile_index in
  let trace := (ZMK_HID_USAGE_PAGE usage =? HID_USAGE_KEY) && negb totem_hid_is_usb in
  emit (called (__real_zmk_hid_release usage)) ;;
  let err := real in
  when trace
    (count_event profile (if err <? 0 then RELEASE_FAILED else RELEASE_OK)
       (if err <? 0 then err else 0)) ;;
  ret err.

(** [report] is what [data] points to. *)
Definition __wrap_z_impl_k_msgq_put `{!View} (real : Z) (report : keyboard_report) (queue : k_msgq)
    (data timeout : Z) : proc hid hid_effect Z :=
  if negb (is_hog queue) then emit (called (__real_z_impl_k_msgq_put queue data timeout)) ;; ret real else
  let profile := zmk_ble_active_profile_index in
  let released := all_up report in
  emit (called (__real_z_impl_k_msgq_put queue data timeout)) ;;
  let err := real in
  count_event profile (if err =? 0 then QUEUED else QUEUE_FAILED) err ;;
  when ((err =? 0) && released) (count_event profile ALL_UP_QUEUED 0) ;;
  ret err.

(** [worker] says the caller is the HOG work queue; [report] is what the call fetched into
    [*data], and the view is the one after it returned. *)
Definition __wrap_z_impl_k_msgq_get `{!View} (real : Z) (worker : bool) (report : keyboard_report)
    (queue : k_msgq) (data timeout : Z) : proc hid hid_effect Z :=
  emit (called (__real_z_impl_k_msgq_get queue data timeout)) ;;
  let err := real in
  when (is_hog queue)
    (when worker (modify (fun s => s <| dequeued_report := err =? 0 |>)) ;;
     when (err =? 0)
       (let profile := zmk_ble_active_profile_index in
        let released := all_up report in
        count_event profile (if worker then DEQUEUED else EVICTED) 0 ;;
        if worker then modify (fun s => s <| all_up_report := released |>)
        else when released (count_event profile ALL_UP_EVICTED 0))) ;;
  ret err.

Definition __wrap_zmk_ble_active_profile_conn `{!View} (real : option conn) (worker : bool)
    : proc hid hid_effect (option conn) :=
  emit (called __real_zmk_ble_active_profile_conn) ;;
  s <- get ;;
  when (bool_decide (real = None) && worker && dequeued_report s)
    (count_event zmk_ble_active_profile_index NO_HOST_DROP 0 ;;
     modify (fun s => s <| dequeued_report := false |>)) ;;
  ret real.

Definition totem_hid_report_observed `{!View} (c : conn) (subscribed : bool)
    : proc hid hid_effect () :=
  let profile := zmk_ble_profile_index (bt_conn_get_dst c) in
  modify (fun s => s <| notify_profile := profile |> <| keyboard_notify := true |>
                     <| dequeued_report := false |>) ;;
  when (negb subscribed) (count_event profile UNSUBSCRIBED 0).

Definition __wrap_bt_gatt_notify_cb (real : Z) (worker : bool) (c : conn) (params : Z)
    : proc hid hid_effect Z :=
  s <- get ;;
  let trace := worker && keyboard_notify s in
  if negb trace then emit (called (__real_bt_gatt_notify_cb c params)) ;; ret real else
  modify (fun s => s <| keyboard_notify := false |>) ;;
  emit (called (__real_bt_gatt_notify_cb c params)) ;;
  let err := real in
  count_event (notify_profile s) (if err =? 0 then NOTIFY_ACCEPTED else NOTIFY_FAILED) err ;;
  s <- get ;;
  when (all_up_report s)
    (count_event (notify_profile s) (if err =? 0 then ALL_UP_ACCEPTED else ALL_UP_FAILED) err) ;;
  ret err.
End code.
End HidReport.
