(* ===== verification/HidReportProps.v ===== *)
(** * What the HID report counters guarantee

    No count is lost between the hooks and the summary, whatever the interleaving; a flush
    reports every changed count once; the wrappers are transparent and count what they
    observe. *)
From S2P Require Import Prelude Events Platform Samples HidReportDiagnostics.

Module HidProps.
Import HidReport.

Section facts.
Context `{!Config} `{!Clock} `{!HidUsage}.
Implicit Types (s : hid) (t : nat) (es : list hid_effect) (c : hid_count).

Definition table_size : Z := ZMK_BLE_PROFILE_COUNT * HID_STAGE_COUNT.
Definition valid_profile (p : Z) : Prop := 0 <= p < ZMK_BLE_PROFILE_COUNT.

Lemma stage_range g : 0 <= stage_number g < HID_STAGE_COUNT.
Proof. destruct g; cbn; unfold HID_STAGE_COUNT; lia. Qed.
#[local] Instance stage_number_inj : Inj eq eq stage_number.
Proof. intros [] [] Heq; (reflexivity || discriminate Heq). Qed.
Lemma cell_range p g : valid_profile p -> 0 <= cell p (stage_number g) < table_size.
Proof.
  unfold valid_profile, cell, table_size. pose proof (stage_range g). unfold HID_STAGE_COUNT in *. nia.
Qed.
Lemma cell_inj p g p' g' :
  cell p (stage_number g) = cell p' (stage_number g') -> p = p' /\ g = g'.
Proof.
  unfold cell. pose proof (stage_range g). pose proof (stage_range g'). unfold HID_STAGE_COUNT in *.
  intros. assert (p = p') by lia. split; [done|]. apply (inj stage_number). lia.
Qed.

(** ** The log records of the file *)
Definition logged (x : hid_effect) : option (Z * Z * Z * Z) :=
  match x with
  | host (log_record_timing _ k p _ g low high) => Some (k, p, g, of_le16 low high)
  | _ => None
  end.

(** The count last reported for a cell, after the effects [es]. *)
Definition report_step (p : Z) (g : hid_stage) (l : option Z) (x : hid_effect) : option Z :=
  match logged x with
  | Some (k, p', g', v) =>
      if bool_decide (k = evt TOTEM_HEVT_HID_COUNT /\ p' = p /\ g' = stage_number g) then Some v else l
  | None => l
  end.
Definition last_report (p : Z) (g : hid_stage) (l : option Z) es : option Z :=
  foldl (report_step p g) l es.

Lemma last_report_app p g l es es' :
  last_report p g l (es ++ es') = last_report p g (last_report p g l es) es'.
Proof. apply foldl_app. Qed.

(** ** Interleavings of counted events and flush turns *)
Inductive op :=
| op_event (profile : Z) (stage : hid_stage) (err : Z)
| op_turn (i : nat).           (* turn [i] of the loop of flush_counts *)
Definition exec (o : op) : proc hid hid_effect () :=
  match o with
  | op_event p g err => count_event p g err
  | op_turn i => match cells !! i with
                 | Some (p, g) => _ <- flush_cell p g false ;; ret ()
                 | None => ret ()
                 end
  end.

(** How many of the operations count an event in the cell. *)
Definition hits (p : Z) (g : hid_stage) (o : op) : Z :=
  match o with
  | op_event p' g' _ => if bool_decide (p' = p /\ g' = g) then 1 else 0
  | op_turn _ => 0
  end.
Definition occurrences (p : Z) (g : hid_stage) (ops : list op) : Z :=
  foldr (fun o n => hits p g o + n) 0 ops.

(** A cell counts the events modulo 2^16, and holds nothing unreported unless it is
    marked; [n] events so far, [l] the count last reported. *)
Definition cell_ok c (n : Z) (l : option Z) : Prop :=
  total c = u16 n /\ (dirty c = true \/ l = Some (total c) \/ n = 0) /\
  (error c <> 0 -> dirty c = true) /\ 0 <= error c < 256 /\ 0 <= n.
Definition table_ok s (n : Z -> hid_stage -> Z) (l : Z -> hid_stage -> option Z) : Prop :=
  alen (counts s) = table_size /\
  forall p g, valid_profile p -> cell_ok (aget (counts s) (cell p (stage_number g))) (n p g) (l p g).

Lemma table_ok_init : table_ok hid_init (fun _ _ => 0) (fun _ _ => None).
Proof.
  pose proof profile_count_pos. split.
  - unfold hid_init. cbn [counts]. apply alen_replicate. unfold table_size, HID_STAGE_COUNT. lia.
  - intros p g Hp. unfold hid_init. cbn [counts]. rewrite aget_replicate by (by apply cell_range).
    repeat split; cbn; auto; lia.
Qed.

Lemma elem_of_cells p g : (p, g) ∈ cells <-> valid_profile p.
Proof.
  unfold cells, valid_profile. rewrite list_elem_of_bind. split.
  - intros (q&Hq&Hin). rewrite list_elem_of_fmap in Hq. destruct Hq as (g'&[= -> ->]&_).
    apply elem_of_seqZ in Hin. lia.
  - intros Hp. exists p. split; [|apply elem_of_seqZ; lia]. apply list_elem_of_fmap. exists g.
    split; [done|]. unfold hid_stages. destruct g; set_solver.
Qed.
Lemma profile_i8 p : valid_profile p -> i8 p = p.
Proof. intros Hp. unfold valid_profile in Hp. pose proof profile_count_pos. apply i8_small. lia. Qed.
Lemma stage_u8 g : u8 (stage_number g) = stage_number g.
Proof. by destruct g. Qed.
Lemma low_high v : of_le16 (u8 (Z.land v 0xff)) (u8 (v ≫ 8)) = u16 v.
Proof.
  change 0xff with (Z.ones 8). rewrite Z.land_ones by lia. fold (u8 v). rewrite u8_idemp.
  apply of_le16_le16.
Qed.

(** What counting an event does to the cells. *)
Lemma table_ok_count n l s t p0 g0 err :
  table_ok s n l ->
  wp (count_event p0 g0 err) (fun _ s' t' es =>
    table_ok s' (fun p g => n p g + if bool_decide (p0 = p /\ g0 = g) then 1 else 0)
      (fun p g => last_report p g (l p g) es)) s t.
Proof.
  intros [Hlen Hok]. unfold count_event.
  destruct ((p0 <? 0) || (ZMK_BLE_PROFILE_COUNT <=? p0)) eqn:Hv.
  { wp_steps. split; [done|]. intros p g Hp. rewrite bool_decide_false, Z.add_0_r by
      (intros [<- _]; apply orb_true_iff in Hv; unfold valid_profile in Hp; lia). by apply Hok. }
  assert (valid_profile p0) as Hp0 by (apply orb_false_iff in Hv; unfold valid_profile; lia).
  pose proof (cell_range p0 g0 Hp0) as Hr. wp_steps. split.
  { cbn. by rewrite alen_aset. }
  intros p g Hp. cbn. rewrite aget_aset by (pose proof (cell_range p g Hp); lia).
  destruct (decide (p0 = p /\ g0 = g)) as [[-> ->]|Hne].
  - rewrite decide_True, bool_decide_true by done. destruct (Hok p g Hp) as (Ht&_&_&He&Hn).
    unfold cell_ok; cbn -[err_byte]. split_and!; auto; try lia.
    + rewrite Ht. solve_cint.
    + destruct (err =? 0); [lia|]. unfold err_byte. apply u8_range.
    + destruct (err =? 0); [lia|]. unfold err_byte. apply u8_range.
  - rewrite decide_False by (by intros ?%cell_inj).
    rewrite bool_decide_false, Z.add_0_r by done. by apply Hok.
Qed.

(** What one turn of the flush reports. *)
Definition cell_records p g c : list hid_effect :=
  if dirty c then
    host (log_record_timing (u32 (last_ms c)) (evt TOTEM_HEVT_HID_COUNT) (i8 p) (-1)
            (u8 (stage_number g)) (u8 (Z.land (total c) 0xff)) (u8 (total c ≫ 8))) ::
    if error c =? 0 then []
    else [host (log_record_timing (u32 (last_ms c)) (evt TOTEM_HEVT_HID_ERROR) (i8 p) (-1)
                  (u8 (stage_number g)) (u8 (error c)) 0)]
  else [].
Definition swept c : hid_count := c <| dirty := false |> <| error := 0 |>.

Lemma flush_cell_spec p g b s t :
  let ix := cell p (stage_number g) in
  wp (flush_cell p g b) (fun b' s' t' es =>
    s' = s <| counts := aset (counts s) ix (swept (aget (counts s) ix)) |> /\
    es = cell_records p g (aget (counts s) ix) /\ b' = b || dirty (aget (counts s) ix) /\ t' = t) s t.
Proof.
  intros ix. unfold flush_cell, cell_records. apply wp_bind, wp_get. cbv beta zeta.
  apply wp_bind, wp_modify. cbv beta. fold ix.
  destruct (dirty (aget (counts s) ix)); cbn [negb]; [|by rewrite orb_false_r].
  rewrite orb_true_r. unfold wp. destruct (error (aget (counts s) ix) =? 0); done.
Qed.

Lemma last_report_records p g l p0 g0 c :
  valid_profile p0 -> 0 <= total c < 65536 ->
  last_report p g l (cell_records p0 g0 c) =
  if dirty c && bool_decide (p0 = p /\ g0 = g) then Some (total c) else l.
Proof.
  intros Hp0 Ht. unfold cell_records. rewrite profile_i8, stage_u8 by done.
  destruct (dirty c); [|done]. cbn [andb].
  assert (report_step p g l (host (log_record_timing (u32 (last_ms c)) (evt TOTEM_HEVT_HID_COUNT) p0
    (-1) (stage_number g0) (u8 (Z.land (total c) 0xff)) (u8 (total c ≫ 8)))) =
    if bool_decide (p0 = p /\ g0 = g) then Some (total c) else l) as Hc.
  { unfold report_step. cbn -[evt]. rewrite low_high, u16_small by done.
    erewrite bool_decide_ext; [done|]. rewrite (inj_iff stage_number). tauto. }
  destruct (error c =? 0); cbn [last_report foldl]; rewrite Hc; [done|].
  unfold report_step. cbn -[evt]. by rewrite bool_decide_false by (intros [? _]; done).
Qed.

(** What one turn of the flush does to the cells. *)
Lemma table_ok_flush n l s t p0 g0 b :
  table_ok s n l -> valid_profile p0 ->
  wp (flush_cell p0 g0 b) (fun _ s' t' es =>
    table_ok s' n (fun p g => last_report p g (l p g) es)) s t.
Proof.
  intros [Hlen Hok] Hp0. wp_use flush_cell_spec. intros b' s' t' es (->&->&_).
  pose proof (cell_range p0 g0 Hp0) as Hr. split; [cbn; by rewrite alen_aset|].
  intros p g Hp. cbn. pose proof (cell_range p g Hp).
  assert (0 <= total (aget (counts s) (cell p0 (stage_number g0))) < 65536) as Ht.
  { destruct (Hok p0 g0 Hp0) as [-> _]. apply u16_range. }
  rewrite last_report_records by done. rewrite aget_aset by lia.
  destruct (decide (p0 = p /\ g0 = g)) as [[-> ->]|Hne].
  - rewrite decide_True, bool_decide_true, andb_true_r by done.
    destruct (Hok p g Hp) as (Htot&Hd&_&_&Hn). unfold cell_ok, swept; cbn.
    split_and!; try done; try lia. destruct (dirty _); [by auto|].
    by destruct Hd as [?|[?|?]]; auto.
  - rewrite decide_False by (by intros ?%cell_inj).
    rewrite bool_decide_false, andb_false_r by done. by apply Hok.
Qed.

(** ** The whole summary *)
Definition at_cell s (x : Z * hid_stage) : hid_count := aget (counts s) (cell x.1 (stage_number x.2)).

Lemma NoDup_cells : NoDup cells.
Proof.
  unfold cells. apply NoDup_bind.
  - intros p p' y _ _ (?&->&_)%list_elem_of_fmap (?&[=]&_)%list_elem_of_fmap. done.
  - intros p _. apply NoDup_fmap_2; [by intros ?? [=]|]. unfold hid_stages.
    repeat (constructor; [set_solver|]). constructor.
  - apply NoDup_seqZ.
Qed.

Lemma flush_cells_spec L b s t :
  alen (counts s) = table_size -> NoDup L -> (forall p g, (p, g) ∈ L -> valid_profile p) ->
  wp (fold_each L (fun '(p, g) => flush_cell p g) b) (fun b' s' t' es =>
    alen (counts s') = table_size /\
    (forall p g, valid_profile p -> at_cell s' (p, g) =
       if decide ((p, g) ∈ L) then swept (at_cell s (p, g)) else at_cell s (p, g)) /\
    es = (L ≫= fun '(p, g) => cell_records p g (at_cell s (p, g))) /\
    b' = b || existsb (fun x => dirty (at_cell s x)) L) s t.
Proof.
  revert b s t. induction L as [|[p g] L IH]; intros b s t Hlen Hnd Hv; cbn [fold_each].
  { wp_steps. split_and!; [done|..|done|by rewrite orb_false_r]. intros. by rewrite decide_False by set_solver. }
  apply NoDup_cons in Hnd as [Hin Hnd]. apply wp_bind. wp_use flush_cell_spec.
  intros b1 s1 t1 es1 (->&->&->&_). assert (valid_profile p) as Hp by (apply (Hv p g); set_solver).
  pose proof (cell_range p g Hp) as Hr.
  set (s1 := s <| counts := _ |>).
  assert (forall q h, valid_profile q -> at_cell s1 (q, h) =
    if decide ((q, h) = (p, g)) then swept (at_cell s (p, g)) else at_cell s (q, h)) as Hs1.
  { intros q h Hq. pose proof (cell_range q h Hq). unfold at_cell, s1. cbn.
    rewrite aget_aset by lia. destruct (decide ((q, h) = (p, g))) as [[= -> ->]|Hne].
    - by rewrite decide_True.
    - rewrite decide_False; [done|]. intros [-> ->]%cell_inj. done. }
  assert (forall q h, (q, h) ∈ L -> at_cell s1 (q, h) = at_cell s (q, h)) as Hrest.
  { intros q h Hqh. rewrite Hs1 by (apply (Hv q h); set_solver). rewrite decide_False; [done|].
    intros [= -> ->]. done. }
  eapply wp_mono; [apply (IH _ s1)|].
  { unfold s1. cbn. by rewrite alen_aset. } { done. } { intros q h Hqh. apply (Hv q h). set_solver. }
  intros b2 s2 t2 es2 (Hlen2&Hs2&->&->). split_and!; [done|..].
  - intros q h Hq. rewrite Hs2, Hs1 by done.
    destruct (decide ((q, h) = (p, g))) as [[= -> ->]|Hne].
    + by rewrite (decide_False (P := (p, g) ∈ L)), (decide_True (P := (p, g) ∈ _)) by set_solver.
    + destruct (decide ((q, h) ∈ L)); [rewrite decide_True by set_solver|rewrite decide_False by set_solver]; done.
  - cbn. f_equal. apply list_bind_ext_elem. intros [q h] Hqh. by rewrite Hrest.
  - cbn. rewrite <- orb_assoc. do 2 f_equal. clear -Hrest. induction L as [|[q h] L IHL]; [done|].
    cbn. rewrite Hrest, IHL by set_solver. done.
Qed.

(** What a summary reports, cell by cell in the order of the table. *)
Definition summary s : list hid_effect := cells ≫= fun '(p, g) => cell_records p g (at_cell s (p, g)).
Definition any_dirty s : bool := existsb (fun x => dirty (at_cell s x)) cells.

Lemma flush_counts_spec s t :
  alen (counts s) = table_size ->
  wp flush_counts (fun _ s' t' es =>
    alen (counts s') = table_size /\
    (forall p g, valid_profile p -> at_cell s' (p, g) = swept (at_cell s (p, g))) /\
    es = summary s ++ (if any_dirty s then [host log_persist] else [])) s t.
Proof.
  intros Hlen. unfold flush_counts. wp_steps. wp_use flush_cells_spec; [done|apply NoDup_cells|..].
  { intros p g. apply elem_of_cells. }
  intros b s1 t1 es1 (Hlen1&Hs1&->&->). cbn [orb]. unfold wp, when, any_dirty, summary.
  split; [by destruct (existsb _ _)|]. split.
  - intros p g Hp. destruct (existsb _ _); cbn -[at_cell];
      (rewrite Hs1, decide_True by (done || by apply elem_of_cells)); done.
  - by destruct (existsb _ _).
Qed.

(** A summary writes one count record per changed cell, in table order, carrying the
    16-bit total and the time of the last event, followed by an error record when an error
    was seen since the last summary; it asks the journal to persist exactly when something
    changed, and leaves nothing to report: a second summary is silent. *)
Theorem flush_reports_changes s t :
  alen (counts s) = table_size ->
  let r := flush_counts s t in
  eff r = summary s ++ (if any_dirty s then [host log_persist] else []) /\
  (forall p g, valid_profile p -> at_cell (fin r) (p, g) = swept (at_cell s (p, g))) /\
  (forall t', eff (flush_counts (fin r) t') = []).
Proof.
  intros Hlen r. destruct (flush_counts_spec s t Hlen) as (Hlen'&Hs'&Hes). split_and!; [done..|].
  intros t'. destruct (flush_counts_spec (fin r) t' Hlen') as (_&_&->).
  assert (forall p g, (p, g) ∈ cells -> at_cell (fin r) (p, g) = swept (at_cell s (p, g))) as Hsw.
  { intros p g Hin%elem_of_cells. by apply Hs'. }
  unfold summary, any_dirty. clear Hes Hs' Hlen'. revert Hsw. generalize cells as L.
  induction L as [|[p g] L IH]; intros Hsw; [done|]. cbn. rewrite Hsw by set_solver. cbn.
  apply IH. intros. apply Hsw. set_solver.
Qed.

(** ** No event is lost *)
Lemma table_ok_op n l o s t :
  table_ok s n l ->
  wp (exec o) (fun _ s' t' es =>
    table_ok s' (fun p g => n p g + hits p g o) (fun p g => last_report p g (l p g) es)) s t.
Proof.
  assert (forall s l', table_ok s n l' -> table_ok s (fun p g => n p g + 0) l') as Hz.
  { intros s' l' [? Hc]. split; [done|]. intros p g Hp. rewrite Z.add_0_r. by apply Hc. }
  intros Hok. destruct o as [p0 g0 err|i]; cbn [exec hits].
  { by apply table_ok_count. }
  destruct (cells !! i) as [[p0 g0]|] eqn:Hi; [|wp_steps; by apply Hz].
  apply list_elem_of_lookup_2, elem_of_cells in Hi. apply wp_bind. wp_use table_ok_flush; [done..|].
  intros b s1 t1 es1 H1'. wp_steps. rewrite app_nil_r. by apply Hz.
Qed.

Lemma table_ok_run ops n l s t :
  table_ok s n l ->
  wp (for_each ops exec) (fun _ s' t' es =>
    table_ok s' (fun p g => n p g + occurrences p g ops) (fun p g => last_report p g (l p g) es)) s t.
Proof.
  revert n l s t. induction ops as [|o ops IH]; intros n l s t Hok; cbn [for_each].
  { wp_steps. destruct Hok as [? Hc]. split; [done|]. intros p g Hp. cbn. rewrite Z.add_0_r. by apply Hc. }
  apply wp_bind. eapply wp_mono; [by apply table_ok_op|]. intros [] s1 t1 es1 Hok1.
  eapply wp_mono; [by apply IH|]. intros [] s2 t2 es2 [Hlen2 Hc2]. split; [done|].
  intros p g Hp. rewrite last_report_app. cbn [occurrences foldr]. fold (occurrences p g ops).
  rewrite Z.add_assoc. by apply Hc2.
Qed.

Lemma last_report_bind p g l (L : list (Z * hid_stage)) s :
  (forall q h, (q, h) ∈ L -> valid_profile q /\ 0 <= total (at_cell s (q, h)) < 65536) ->
  last_report p g l (L ≫= fun '(q, h) => cell_records q h (at_cell s (q, h))) =
  if dirty (at_cell s (p, g)) && bool_decide ((p, g) ∈ L) then Some (total (at_cell s (p, g))) else l.
Proof.
  revert l. induction L as [|[q h] L IH]; intros l HL; cbn -[last_report at_cell].
  { by rewrite bool_decide_false, andb_false_r by set_solver. }
  rewrite last_report_app, IH by (intros; apply HL; by right).
  destruct (HL q h (list_elem_of_here _ _)) as [Hq Ht]. rewrite last_report_records by done.
  destruct (decide (q = p /\ h = g)) as [[-> ->]|Hne].
  - rewrite (bool_decide_true (p = p /\ _)), (bool_decide_true ((p, g) ∈ (p, g) :: L)) by set_solver.
    destruct (dirty _), (bool_decide _); done.
  - rewrite (bool_decide_false (q = p /\ _)), andb_false_r by done.
    erewrite (bool_decide_ext ((p, g) ∈ (q, h) :: L)); [done|]. set_solver.
Qed.

(** C15 However counted events and turns of the summary interleave, after one more complete
    summary the last count reported for every profile and stage is the number of events
    that happened, modulo 2^16: no event is lost between the hooks and the log, and none is counted
    twice. *)
Theorem no_count_lost ops p g t :
  valid_profile p -> 0 < occurrences p g ops ->
  let r := (for_each ops exec ;; flush_counts) hid_init t in
  total (at_cell (fin r) (p, g)) = u16 (occurrences p g ops) /\
  last_report p g None (eff r) = Some (u16 (occurrences p g ops)) /\
  dirty (at_cell (fin r) (p, g)) = false.
Proof.
  intros Hp Hocc r.
  assert (wp (for_each ops exec ;; flush_counts) (fun _ s' _ es =>
    total (at_cell s' (p, g)) = u16 (occurrences p g ops) /\
    last_report p g None es = Some (u16 (occurrences p g ops)) /\
    dirty (at_cell s' (p, g)) = false) hid_init t) as Hwp; [|exact Hwp].
  apply wp_bind. eapply wp_mono; [apply table_ok_run, table_ok_init|].
  intros [] s1 t1 es1 [Hlen1 Hc1]. wp_use flush_counts_spec; [done|].
  intros [] s2 t2 es2 (_&Hs2&->). rewrite Hs2 by done. rewrite !last_report_app.
  destruct (Hc1 p g Hp) as (Ht&Hd&_). change (aget (counts s1) (cell p (stage_number g))) with (at_cell s1 (p, g)) in Ht, Hd. cbn [swept].
  assert (last_report p g (last_report p g None es1) (summary s1) = Some (u16 (occurrences p g ops))) as Hl.
  { unfold summary. rewrite last_report_bind.
    - rewrite bool_decide_true by (by apply elem_of_cells). rewrite andb_true_r.
      destruct (dirty (at_cell s1 (p, g))); [by rewrite Ht|].
      destruct Hd as [?|[->|?]]; [done|by rewrite Ht|lia].
    - intros q h Hin%elem_of_cells. split; [done|].
      destruct (Hc1 q h Hin) as [Htq _]. unfold at_cell. cbn [fst snd]. rewrite Htq. apply u16_range. }
  rewrite Hl. split; [exact Ht|]. split; [by destruct (any_dirty s1)|done].
Qed.

(** ** The wrappers, as their callers reach them *)
Inductive hook :=
| hook_release (V : View) (real usage : Z)
| hook_put (V : View) (real : Z) (report : keyboard_report) (queue : k_msgq) (data timeout : Z)
| hook_get (V : View) (real : Z) (worker : bool) (report : keyboard_report) (queue : k_msgq)
    (data timeout : Z)
| hook_profile_conn (V : View) (real : option conn) (worker : bool)
| hook_notify (real : Z) (worker : bool) (c : conn) (params : Z).

(** The result is a number or, for [zmk_ble_active_profile_conn], a connection. *)
Definition run_hook (o : hook) : proc hid hid_effect (Z + option conn) :=
  match o with
  | hook_release V real usage => err <- __wrap_zmk_hid_release real usage ;; ret (inl err)
  | hook_put V real report queue data timeout =>
      err <- __wrap_z_impl_k_msgq_put real report queue data timeout ;; ret (inl err)
  | hook_get V real worker report queue data timeout =>
      err <- __wrap_z_impl_k_msgq_get real worker report queue data timeout ;; ret (inl err)
  | hook_profile_conn V real worker =>
      c <- __wrap_zmk_ble_active_profile_conn real worker ;; ret (inr c)
  | hook_notify real worker c params =>
      err <- __wrap_bt_gatt_notify_cb real worker c params ;; ret (inl err)
  end.
Definition hook_call (o : hook) : hid_call * (Z + option conn) :=
  match o with
  | hook_release _ real usage => (__real_zmk_hid_release usage, inl real)
  | hook_put _ real _ queue data timeout => (__real_z_impl_k_msgq_put queue data timeout, inl real)
  | hook_get _ real _ _ queue data timeout => (__real_z_impl_k_msgq_get queue data timeout, inl real)
  | hook_profile_conn _ real _ => (__real_zmk_ble_active_profile_conn, inr real)
  | hook_notify real _ c params => (__real_bt_gatt_notify_cb c params, inl real)
  end.
Definition call_of (x : hid_effect) : option hid_call :=
  match x with called f => Some f | host _ => None end.

Lemma mute_on_host {A} (m : proc hid effect A) : mute call_of (on_host m).
Proof.
  intros s t _. split; [done|]. unfold on_host, zoom. cbn. rewrite Forall_fmap. by apply Forall_true.
Qed.
Lemma mute_count_event p g err : mute call_of (count_event p g err).
Proof.
  unfold count_event, mute. keeps_steps; try done. apply mute_on_host.
Qed.
#[local] Hint Resolve mute_count_event : keeps.
Ltac mute_steps :=
  unfold mute in *; repeat first [ progress keeps_steps | reflexivity | apply mute_count_event
    | match goal with |- context [match ?x with _ => _ end] => destruct x end ].

Lemma talks_hook o : talks call_of [(hook_call o).1] (run_hook o).
Proof.
  destruct o; cbn [run_hook hook_call fst]; apply (talks_bind _ [_] []); try (by intros);
    unfold __wrap_zmk_hid_release, __wrap_z_impl_k_msgq_put, __wrap_z_impl_k_msgq_get,
      __wrap_zmk_ble_active_profile_conn, __wrap_bt_gatt_notify_cb.
  - apply (talks_bind _ [_] []); [by apply talks_emit|intros _]. apply talks_mute. mute_steps.
  - destruct queue; cbn [is_hog negb]; (apply (talks_bind _ [_] []); [by apply talks_emit|intros _]);
      apply talks_mute; mute_steps.
  - apply (talks_bind _ [_] []); [by apply talks_emit|intros _]. apply talks_mute. mute_steps.
  - apply (talks_bind _ [_] []); [by apply talks_emit|intros _]. apply talks_mute. mute_steps.
  - apply (talks_bind _ [] [_]); [by intros|intros s0].
    destruct (worker && keyboard_notify s0); cbn [negb].
    + apply (talks_bind _ [] [_]); [by intros|intros _].
      apply (talks_bind _ [_] []); [by apply talks_emit|intros _]. apply talks_mute. mute_steps.
    + apply (talks_bind _ [_] []); [by apply talks_emit|intros _]. by intros.
Qed.

(** Every hook on the report path calls the function it wraps exactly once with the caller's
    arguments and hands its result back, whatever the counters and flags are. *)
Theorem hooks_transparent o s t :
  omap call_of (eff (run_hook o s t)) = [(hook_call o).1] /\ val (run_hook o s t) = (hook_call o).2.
Proof.
  split; [apply talks_hook|]. destruct o; try reflexivity.
  - by destruct queue.
  - cbn. unfold __wrap_bt_gatt_notify_cb. cbn. by destruct (worker && keyboard_notify s).
Qed.
End facts.

(** ** Witnesses *)
#[local] Instance hid_clock : Clock := ticking 0 3.
#[local] Instance hid_usage : HidUsage := {| ZMK_HID_USAGE_PAGE u := u ≫ 16; HID_USAGE_KEY := 7 |}.

Lemma flush_reports_changes_witness :
  let s := fin (count_event 1 QUEUED 0 hid_init 0%nat) in
  alen (counts s) = table_size /\ length (eff (flush_counts s 1%nat)) = 2%nat.
Proof.
  cbv zeta. assert (alen (counts (fin (count_event 1 QUEUED 0 hid_init 0%nat))) = table_size) as Hl
    by (vm_compute; reflexivity).
  split; [exact Hl|].
  destruct (flush_reports_changes (fin (count_event 1 QUEUED 0 hid_init 0%nat)) 1%nat Hl) as [He _].
  rewrite He. vm_compute. reflexivity.
Defined.

Definition example_ops : list op :=
  [op_event 0 QUEUED 0; op_turn 2; op_event 0 QUEUED 0; op_event 3 QUEUE_FAILED (-35); op_turn 0].
Lemma no_count_lost_witness :
  last_report 0 QUEUED None (eff ((for_each example_ops exec ;; flush_counts) hid_init 0%nat)) = Some 2.
Proof.
  assert (valid_profile 0) as Hp by (unfold valid_profile; cbn; lia).
  assert (0 < occurrences 0 QUEUED example_ops) as Ho by (vm_compute; reflexivity).
  exact (proj1 (proj2 (no_count_lost example_ops 0 QUEUED 0%nat Hp Ho))).
Defined.
End HidProps.
