(* ===== verification/HidConnectionLog.v ===== *)
(** * Per-connection HID milestones (src/hid_connection_log.c)

    The first subscription, report, failure and security request of each link are journalled
    once, and a completion callback is asked for again only after a failed result.  [HidLog]
    is the code, [HidLogProps] the bounds it keeps. *)
From stdpp Require Import gmap.
From S2P Require Import Prelude Events Platform Samples HidReportDiagnostics.

Module HidLog.

(** The five bitmaps, as sets of connection indices, and the counters of
    hid_report_diagnostics.c. *)
Record hid_log := MkHidLog {
  first_attempts : gset conn;
  first_subscriptions : gset conn;
  first_errors : gset conn;
  tracked_sends : gset conn;
  first_security_requests : gset conn;
  reports : HidReport.hid;
}.
#[export] Instance hid_log_eta : Eta hid_log := fun s =>
  MkHidLog (first_attempts s) (first_subscriptions s) (first_errors s) (tracked_sends s)
    (first_security_requests s) (reports s).

Inductive log_effect :=
| host (e : effect)
| __real_bt_conn_set_security (c : conn) (sec : Z)
| report (e : HidReport.hid_effect).

Section code.
Context `{!Config} `{!Clock} `{!HidReport.HidUsage} `{!View}.

Definition hid_log_init : hid_log := MkHidLog ∅ ∅ ∅ ∅ ∅ HidReport.hid_init.

Definition on_host {A} (m : proc hid_log effect A) : proc hid_log log_effect A :=
  zoom id (fun s _ => s) host m.
Definition on_reports {A} (m : proc HidReport.hid HidReport.hid_effect A)
    : proc hid_log log_effect A :=
  zoom reports (fun d s => s <| reports := d |>) report m.

Definition profile_of (c : conn) : Z := zmk_ble_profile_index (bt_conn_get_dst c).

Definition zmk_ble_advertising_observed (stage err : Z) : proc hid_log log_effect () :=
  let active := zmk_ble_active_profile_index in
  on_host (totem_host_event_log_record_call TOTEM_HEVT_ADV_RESULT active active stage
             (err_class err) (err_magnitude err)).

(** [real] is the result of the wrapped function. *)
Definition __wrap_bt_conn_set_security (real : Z) (c : conn) (sec : Z) : proc hid_log log_effect Z :=
  s <- get ;;
  let trace := bool_decide (c ∉ first_security_requests s) in
  modify (fun s => s <| first_security_requests := {[c]} ∪ first_security_requests s |>) ;;
  let idx := profile_of c in
  let active := zmk_ble_active_profile_index in
  when trace (on_host (totem_diag_log_record TOTEM_HEVT_SEC_REQUEST idx active sec
                         (bt_conn_get_security c))) ;;
  emit (__real_bt_conn_set_security c sec) ;;
  let err := real in
  when trace (on_host (totem_host_event_log_record_call TOTEM_HEVT_SEC_REQUEST_RESULT idx active sec
                         (err_class err) (err_magnitude err))) ;;
  ret err.

Definition zmk_hog_subscription_observed (c : conn) : proc hid_log log_effect () :=
  s <- get ;;
  modify (fun s => s <| first_subscriptions := {[c]} ∪ first_subscriptions s |>) ;;
  when (bool_decide (c ∉ first_subscriptions s))
    (on_host (totem_diag_log_record TOTEM_HEVT_HID_SUBSCRIBED (profile_of c)
                zmk_ble_active_profile_index 0 0)).

(** The result asks the caller for a completion callback. *)
Definition zmk_hog_keyboard_report_attempted (c : conn) (subscribed : bool)
    : proc hid_log log_effect bool :=
  on_reports (HidReport.totem_hid_report_observed c subscribed) ;;
  s <- get ;;
  modify (fun s => s <| first_attempts := {[c]} ∪ first_attempts s |>) ;;
  when (bool_decide (c ∉ first_attempts s))
    (on_host (totem_diag_log_record TOTEM_HEVT_HID_FIRST_ATTEMPT (profile_of c)
                zmk_ble_active_profile_index 0 (b2z subscribed))) ;;
  s <- get ;;
  modify (fun s => s <| tracked_sends := {[c]} ∪ tracked_sends s |>) ;;
  ret (bool_decide (c ∉ tracked_sends s)).

Definition zmk_hog_keyboard_report_result (c : conn) (err : Z) : proc hid_log log_effect () :=
  s <- get ;;
  let seen := bool_decide (c ∈ first_errors s) in
  when (negb (err =? 0))
    (modify (fun s => s <| tracked_sends := tracked_sends s ∖ {[c]} |>) ;;
     modify (fun s => s <| first_errors := {[c]} ∪ first_errors s |>)) ;;
  if negb (err =? 0) && seen then ret () else
  on_host (totem_diag_log_record TOTEM_HEVT_HID_TX_RESULT (profile_of c)
             zmk_ble_active_profile_index (if err =? 0 then 0 else - err) (b2z (negb (err =? 0)))).

Definition hid_log_connected (c : conn) (err : Z) : proc hid_log log_effect () :=
  if negb (err =? 0) then ret () else
  match bt_hci_get_conn_handle c with
  | Some handle =>
      now <- k_uptime_get_32 ;;
      on_host (totem_host_event_log_record_timing_call now TOTEM_HEVT_CONN_HANDLE (profile_of c)
                 zmk_ble_active_profile_index (Z.land handle 0xff) 0 (handle ≫ 8))
  | None => ret ()
  end ;;
  modify (fun s => s <| first_attempts := first_attempts s ∖ {[c]} |>
                     <| first_subscriptions := first_subscriptions s ∖ {[c]} |>
                     <| first_errors := first_errors s ∖ {[c]} |>
                     <| tracked_sends := tracked_sends s ∖ {[c]} |>).

Definition security_log_disconnected (c : conn) (reason : Z) : proc hid_log log_effect () :=
  modify (fun s => s <| first_security_requests := first_security_requests s ∖ {[c]} |>).
End code.
End HidLog.

Module HidLogProps.
Import HidLog.

(** The calls the file receives, each with what it sees of the stack. *)
Inductive log_op :=
| op_subscribed (c : conn)
| op_attempt (c : conn) (subscribed : bool)
| op_result (c : conn) (err : Z)
| op_connected (c : conn) (err : Z)
| op_disconnected (c : conn) (reason : Z)
| op_security (real : Z) (c : conn) (sec : Z)
| op_advertising (stage err : Z).

Section facts.
Context `{!Config} `{!Clock} `{!HidReport.HidUsage}.
Implicit Types (s : hid_log) (t : nat) (c : conn) (o : log_op) (ops : list (View * log_op)).

(** The result tells whether a completion callback was asked for. *)
Definition exec (v : View) o : proc hid_log log_effect bool :=
  match o with
  | op_subscribed c => zmk_hog_subscription_observed c ;; ret false
  | op_attempt c subscribed => zmk_hog_keyboard_report_attempted c subscribed
  | op_result c err => zmk_hog_keyboard_report_result c err ;; ret false
  | op_connected c err => hid_log_connected c err ;; ret false
  | op_disconnected c reason => security_log_disconnected c reason ;; ret false
  | op_security real c sec => _ <- __wrap_bt_conn_set_security real c sec ;; ret false
  | op_advertising stage err => zmk_ble_advertising_observed stage err ;; ret false
  end.

(** The link a call is about. *)
Definition about o : option conn :=
  match o with
  | op_subscribed c | op_attempt c _ | op_result c _ | op_connected c _ | op_disconnected c _
  | op_security _ c _ => Some c
  | op_advertising _ _ => None
  end.
(** The calls that begin or end the life of a link. *)
Definition session_of c o : Prop :=
  match o with
  | op_connected c' err => c' = c -> err <> 0
  | op_disconnected c' _ => c' <> c
  | _ => True
  end.

(** A quantity summed over a run. *)
Fixpoint total_of (f : log_op -> outcome hid_log log_effect bool -> nat) ops s t : nat :=
  match ops with
  | [] => 0
  | (v, o) :: ops => let r := exec v o s t in f o r + total_of f ops (fin r) (clk r)
  end.

(** Kind and last byte of the journal records of a run. *)
Definition record_of (e : log_effect) : option (Z * Z) :=
  match e with host (log_record ty _ _ _ _ x) => Some (ty, x) | _ => None end.
Definition records (es : list log_effect) : list (Z * Z) := omap record_of es.
(** The records of a kind that calls about link [c] make. *)
Definition logged c (k : totem_host_evt) (extra : Z -> bool) o (r : outcome hid_log log_effect bool) : nat :=
  if decide (about o = Some c)
  then length (filter (fun e => (e.1 =? k) && extra e.2 = true) (records (eff r))) else 0.
Definition granted c o (r : outcome hid_log log_effect bool) : nat :=
  if decide (about o = Some c) then (if val r then 1 else 0) else 0.
Definition failed c o : nat :=
  match o with op_result c' err => if decide (c' = c) then (if err =? 0 then 0 else 1) else 0 | _ => 0 end.

(** A quantity that uses up a potential is bounded by it. *)
Lemma total_bounded f (pot : hid_log -> nat) (gain : log_op -> nat) ops s t :
  (forall v o s t, (v, o) ∈ ops -> f o (exec v o s t) + pot (fin (exec v o s t)) <= pot s + gain o)%nat ->
  (total_of f ops s t <= pot s + sum_list (gain <$> ops.*2))%nat.
Proof.
  revert s t. induction ops as [|[v o] ops IH]; intros s t Hstep; cbn -[exec]; [lia|].
  pose proof (Hstep v o s t ltac:(set_solver)) as Ho.
  pose proof (IH (fin (exec v o s t)) (clk (exec v o s t)) ltac:(intros; apply Hstep; set_solver)). lia.
Qed.

Definition credit (set : hid_log -> gset conn) c s : nat := if decide (c ∈ set s) then 0 else 1.

(** What each call does to the bitmaps, which records it makes, what it returns. *)
Definition same_sets s s' : Prop :=
  first_attempts s' = first_attempts s /\ first_subscriptions s' = first_subscriptions s /\
  first_errors s' = first_errors s /\ tracked_sends s' = tracked_sends s /\
  first_security_requests s' = first_security_requests s.
Definition with_sets s att sub err trk sec : hid_log := MkHidLog att sub err trk sec (reports s).

Lemma records_reports es : records (report <$> es) = [].
Proof. by induction es. Qed.

Lemma exec_spec v o s t :
  let r := exec v o s t in
  match o with
  | op_subscribed c =>
      same_sets (s <| first_subscriptions := {[c]} ∪ first_subscriptions s |>) (fin r) /\ val r = false /\
      records (eff r) = if bool_decide (c ∈ first_subscriptions s) then [] else [(evt TOTEM_HEVT_HID_SUBSCRIBED, 0)]
  | op_attempt c sub =>
      same_sets (s <| first_attempts := {[c]} ∪ first_attempts s |> <| tracked_sends := {[c]} ∪ tracked_sends s |>)
        (fin r) /\ val r = bool_decide (c ∉ tracked_sends s) /\
      records (eff r) = if bool_decide (c ∈ first_attempts s) then []
                        else [(evt TOTEM_HEVT_HID_FIRST_ATTEMPT, b2z sub)]
  | op_result c err =>
      same_sets (if err =? 0 then s else
        s <| tracked_sends := tracked_sends s ∖ {[c]} |> <| first_errors := {[c]} ∪ first_errors s |>) (fin r) /\
      val r = false /\
      records (eff r) = if err =? 0 then [(evt TOTEM_HEVT_HID_TX_RESULT, 0)]
                        else if bool_decide (c ∈ first_errors s) then []
                        else [(evt TOTEM_HEVT_HID_TX_RESULT, 1)]
  | op_connected c err =>
      same_sets (if err =? 0 then
        s <| first_attempts := first_attempts s ∖ {[c]} |>
          <| first_subscriptions := first_subscriptions s ∖ {[c]} |>
          <| first_errors := first_errors s ∖ {[c]} |> <| tracked_sends := tracked_sends s ∖ {[c]} |>
        else s) (fin r) /\ val r = false /\ records (eff r) = []
  | op_disconnected c _ =>
      same_sets (s <| first_security_requests := first_security_requests s ∖ {[c]} |>) (fin r) /\
      val r = false /\ records (eff r) = []
  | op_security real c sec =>
      same_sets (s <| first_security_requests := {[c]} ∪ first_security_requests s |>) (fin r) /\
      val r = false /\
      records (eff r) = if bool_decide (c ∈ first_security_requests s) then []
        else [(evt TOTEM_HEVT_SEC_REQUEST, u8 (bt_conn_get_security c));
              (evt TOTEM_HEVT_SEC_REQUEST_RESULT, u8 (err_magnitude real))]
  | op_advertising stage err =>
      same_sets s (fin r) /\ val r = false /\
      records (eff r) = [(evt TOTEM_HEVT_ADV_RESULT, u8 (err_magnitude err))]
  end.
Proof.
  destruct o as [c|c sub|c err|c err|c reason|real c sec|stage err]; cbv zeta; cbn [exec].
  - unfold zmk_hog_subscription_observed, same_sets. cbn -[u8 bool_decide].
    rewrite bool_decide_not. by destruct (bool_decide (c ∈ _)).
  - unfold zmk_hog_keyboard_report_attempted, same_sets. cbn -[u8 bool_decide HidReport.totem_hid_report_observed].
    rewrite bool_decide_not. unfold records. rewrite omap_app. fold records.
    rewrite records_reports. destruct (bool_decide (c ∈ first_attempts s)), sub; done.
  - unfold zmk_hog_keyboard_report_result, same_sets. cbn -[u8 bool_decide].
    destruct (Z.eqb_spec err 0); cbn -[u8 bool_decide]; [done|].
    by destruct (bool_decide (c ∈ first_errors s)).
  - unfold hid_log_connected, same_sets. destruct (Z.eqb_spec err 0); cbn; [|done].
    by destruct (bt_hci_get_conn_handle c).
  - done.
  - unfold __wrap_bt_conn_set_security, same_sets. cbn -[u8 bool_decide err_magnitude err_class].
    rewrite bool_decide_not. destruct (bool_decide (c ∈ _)); cbn -[u8 err_magnitude err_class]; [done|].
    done.
  - cbn -[u8 err_magnitude]. by rewrite ?u8_idemp.
Qed.

(** Everything a call can change for link [c]: one line per bitmap. *)
Ltac log_step v o s t :=
  intros Hsess; unfold logged, granted, credit;
  pose proof (exec_spec v o s t) as Hspec; destruct o; cbv zeta in Hspec;
  destruct Hspec as ((E1&E2&E3&E4&E5)&Ev&Er);
  cbn [about session_of failed] in *;
  rewrite ?E1, ?E2, ?E3, ?E4, ?E5, ?Ev, ?Er; cbn -[u8 evt decide bool_decide difference union];
  repeat match goal with
  | |- context [decide (Some ?d = Some ?c)] => destruct (decide (Some d = Some c)) as [[= ->]|?]
  | |- context [?err =? 0] => destruct (Z.eqb_spec err 0)
  | |- context [decide (?d = ?c)] => destruct (decide (d = c)); [subst|]
  | |- context [bool_decide ?P] => destruct (bool_decide_reflect P)
  end; cbn -[u8 evt decide difference union];
  repeat case_decide; try done; try lia;
  exfalso; rewrite ?elem_of_union, ?elem_of_difference, ?elem_of_singleton in *; intuition congruence.

Lemma attempt_step c v o s t :
  session_of c o ->
  (logged c TOTEM_HEVT_HID_FIRST_ATTEMPT (fun _ => true) o (exec v o s t) +
   credit first_attempts c (fin (exec v o s t)) <= credit first_attempts c s)%nat.
Proof. log_step v o s t. Qed.
Lemma subscription_step c v o s t :
  session_of c o ->
  (logged c TOTEM_HEVT_HID_SUBSCRIBED (fun _ => true) o (exec v o s t) +
   credit first_subscriptions c (fin (exec v o s t)) <= credit first_subscriptions c s)%nat.
Proof. log_step v o s t. Qed.
Lemma failure_step c v o s t :
  session_of c o ->
  (logged c TOTEM_HEVT_HID_TX_RESULT (fun x => (x =? 1)%Z) o (exec v o s t) +
   credit first_errors c (fin (exec v o s t)) <= credit first_errors c s)%nat.
Proof. log_step v o s t. Qed.
Lemma request_step c v o s t :
  session_of c o ->
  (logged c TOTEM_HEVT_SEC_REQUEST (fun _ => true) o (exec v o s t) +
   credit first_security_requests c (fin (exec v o s t)) <= credit first_security_requests c s)%nat.
Proof. log_step v o s t. Qed.
Lemma grant_step c v o s t :
  session_of c o ->
  (granted c o (exec v o s t) + credit tracked_sends c (fin (exec v o s t)) <=
   credit tracked_sends c s + failed c o)%nat.
Proof. log_step v o s t. Qed.

Lemma credit_le c set s : (credit set c s <= 1)%nat.
Proof. unfold credit. case_decide; lia. Qed.
Lemma sum_zero {A} (l : list A) : sum_list ((fun _ => 0%nat) <$> l) = 0%nat.
Proof. by induction l. Qed.

(** A quantity that consumes the credit of a bitmap occurs at most once in a session. *)
Lemma once_per_session f set c ops s t :
  (forall v o s t, session_of c o ->
     (f o (exec v o s t) + credit set c (fin (exec v o s t)) <= credit set c s)%nat) ->
  Forall (fun x => session_of c x.2) ops -> (total_of f ops s t <= 1)%nat.
Proof.
  intros Hf Hs. pose proof (credit_le c set s).
  pose proof (total_bounded f (credit set c) (fun _ => 0%nat) ops s t) as Hb.
  rewrite sum_zero in Hb. etrans; [apply Hb|lia].
  intros v o s0 t0 Ho. rewrite Nat.add_0_r. apply Hf.
  rewrite Forall_forall in Hs. exact (Hs _ Ho).
Qed.

(** C24 Bounded logging and completion tracking: whatever happens on the other links, within one
    session of a link (no new connection and no disconnection) its first report attempt, first
    subscription, first failed report and first security request are journalled at most once each, and
    the completion callbacks asked for number at most one more than the failed results
    reported: without a failure only one is asked for, and each failure allows one more. *)
Theorem milestones_once c ops s t :
  Forall (fun x => session_of c x.2) ops ->
  (total_of (logged c TOTEM_HEVT_HID_FIRST_ATTEMPT (fun _ => true)) ops s t <= 1)%nat /\
  (total_of (logged c TOTEM_HEVT_HID_SUBSCRIBED (fun _ => true)) ops s t <= 1)%nat /\
  (total_of (logged c TOTEM_HEVT_HID_TX_RESULT (fun x => (x =? 1)%Z)) ops s t <= 1)%nat /\
  (total_of (logged c TOTEM_HEVT_SEC_REQUEST (fun _ => true)) ops s t <= 1)%nat /\
  (total_of (granted c) ops s t <= 1 + sum_list (failed c <$> ops.*2))%nat.
Proof.
  intros Hs. split_and!.
  - apply (once_per_session _ first_attempts c); [intros; by apply attempt_step|done].
  - apply (once_per_session _ first_subscriptions c); [intros; by apply subscription_step|done].
  - apply (once_per_session _ first_errors c); [intros; by apply failure_step|done].
  - apply (once_per_session _ first_security_requests c); [intros; by apply request_step|done].
  - etrans; [apply (total_bounded (granted c) (credit tracked_sends c) (failed c))|].
    + intros v o s0 t0 Ho. apply grant_step. rewrite Forall_forall in Hs. exact (Hs _ Ho).
    + pose proof (credit_le c tracked_sends s). lia.
Qed.

(** A successful connection starts a new session: the next attempt is journalled and asks for
    a callback. *)
Lemma connected_rearms v v' c sub s t :
  let s' := fin (exec v (op_connected c 0) s t) in
  wp (exec v' (op_attempt c sub)) (fun tracked _ _ es =>
    tracked = true /\ records es = [(evt TOTEM_HEVT_HID_FIRST_ATTEMPT, b2z sub)]) s' t.
Proof.
  intros s'. destruct (exec_spec v (op_connected c 0) s t) as ((Ha0&_&_&Ht0&_)&_&_).
  assert (first_attempts s' = first_attempts s ∖ {[c]}) as Ha by exact Ha0.
  assert (tracked_sends s' = tracked_sends s ∖ {[c]}) as Ht by exact Ht0.
  destruct (exec_spec v' (op_attempt c sub) s' t) as (_&Hv&Hr). unfold wp. rewrite Hv, Hr, Ha, Ht.
  assert (forall X : gset conn, c ∉ X ∖ {[c]}) as Hn by (clear; set_solver).
  by rewrite (bool_decide_eq_false_2 _ (Hn _)), (bool_decide_eq_true_2 _ (Hn _)).
Qed.
End facts.

(** Two links; link 1 fails twice, succeeds, and fails again. *)
#[local] Instance log_clock : Clock := ticking 0 1.
#[local] Instance log_usage : HidReport.HidUsage := {| HidReport.ZMK_HID_USAGE_PAGE u := u ≫ 16; HidReport.HID_USAGE_KEY := 7 |}.
Definition log_view : View :=
  host_view [Link peripheral_info 2 0; Link peripheral_info 2 1] 1 false true false ZMK_TRANSPORT_BLE false.
Definition session : list (View * log_op) := pair log_view <$>
  [op_subscribed 1%nat; op_attempt 1%nat true; op_result 1%nat (-105); op_attempt 0%nat true; op_attempt 1%nat true;
   op_connected 0%nat 0; op_result 1%nat (-105); op_attempt 1%nat true; op_result 1%nat 0; op_attempt 1%nat true; op_security 0 1%nat 2].

(** The code does not ask which send a failed result belongs to: the failure of a send that
    had no callback lets the next attempt ask for one while the first is still unanswered. *)
Example two_in_flight :
  total_of (granted 1%nat) (pair log_view <$> [op_attempt 1%nat true; op_attempt 1%nat true;
    op_result 1%nat (-105); op_attempt 1%nat true]) hid_log_init 0 = 2%nat.
Proof. vm_compute. reflexivity. Qed.

Lemma milestones_once_witness :
  total_of (granted 1%nat) session hid_log_init 0 = 3%nat /\
  total_of (logged 1%nat TOTEM_HEVT_HID_FIRST_ATTEMPT (fun _ => true)) session hid_log_init 0 = 1%nat /\
  (total_of (granted 1%nat) session hid_log_init 0 <= 1 + sum_list (failed 1%nat <$> session.*2))%nat.
Proof.
  split; [vm_compute; reflexivity|]. split; [vm_compute; reflexivity|].
  assert (Forall (fun x : View * log_op => session_of 1%nat x.2) session) as Hs
    by (repeat constructor; discriminate).
  exact (proj2 (proj2 (proj2 (proj2 (milestones_once 1%nat session hid_log_init 0%nat Hs))))).
Defined.
End HidLogProps.
