(* ===== verification/HostPolicies.v ===== *)
(** * Policies for the other hosts (src/lazy_inactive_host.c, src/usb_host_quiet.c)

    Two alternatives to dropping background hosts one by one: keep them on slow connection
    parameters ([Lazy]), or drop all of them while USB carries the keys ([Quiet]).
    [PolicyProps] characterises which links each of them touches. *)
From S2P Require Import Prelude Events Platform Samples.

Module Lazy.

(** [struct bt_le_conn_param]. *)
Record conn_param := ConnParam { interval_min : Z; interval_max : Z; latency : Z; timeout : Z }.
#[export] Instance conn_param_eq_dec : EqDecision conn_param.
Proof. solve_decision. Defined.

Inductive lazy_effect :=
| host (e : effect)
| bt_conn_le_param_update (c : conn) (param : conn_param).

(** The Kconfig symbols with their ranges. *)
Class LazyConfig := {
  CONFIG_BT_PERIPHERAL_PREF_MIN_INT : Z;
  CONFIG_BT_PERIPHERAL_PREF_MAX_INT : Z;
  CONFIG_TOTEM_LAZY_HOST_MIN_INT : Z;
  CONFIG_TOTEM_LAZY_HOST_MAX_INT : Z;
  CONFIG_TOTEM_LAZY_HOST_LATENCY : Z;
  CONFIG_TOTEM_LAZY_HOST_TIMEOUT : Z;
  lazy_min_range : 24 <= CONFIG_TOTEM_LAZY_HOST_MIN_INT <= 320;
  lazy_max_range : 24 <= CONFIG_TOTEM_LAZY_HOST_MAX_INT <= 320;
  lazy_latency_range : 0 <= CONFIG_TOTEM_LAZY_HOST_LATENCY <= 30;
  lazy_timeout_range : 100 <= CONFIG_TOTEM_LAZY_HOST_TIMEOUT <= 3200;
}.

Section code.
Context `{!LazyConfig} `{!View}.
(** The file keeps no state. *)
Definition lazy (A : Type) : Type := proc () lazy_effect A.

Definition ACTIVE_LATENCY : Z := 0.
Definition ACTIVE_TIMEOUT : Z := 400.
Definition active_param : conn_param :=
  ConnParam CONFIG_BT_PERIPHERAL_PREF_MIN_INT CONFIG_BT_PERIPHERAL_PREF_MAX_INT ACTIVE_LATENCY ACTIVE_TIMEOUT.
Definition lazy_param : conn_param :=
  ConnParam CONFIG_TOTEM_LAZY_HOST_MIN_INT CONFIG_TOTEM_LAZY_HOST_MAX_INT
    CONFIG_TOTEM_LAZY_HOST_LATENCY CONFIG_TOTEM_LAZY_HOST_TIMEOUT.

Definition apply_params (c : conn) (snappy : bool) : lazy () :=
  match bt_conn_get_info c with
  | None => ret ()
  | Some info =>
      if negb (info_role info =? BT_CONN_ROLE_PERIPHERAL) then ret () else
      if negb (info_state info =? BT_CONN_STATE_CONNECTED) then ret () else
      if bt_conn_get_security c <? BT_SECURITY_L2 then ret () else
      let param := if snappy then active_param else lazy_param in
      emit (bt_conn_le_param_update c param)
  end.

Definition update_one_host (c : conn) : lazy () :=
  match bt_conn_get_info c with
  | None => ret ()
  | Some info =>
      if negb (info_role info =? BT_CONN_ROLE_PERIPHERAL) then ret () else
      if negb (info_state info =? BT_CONN_STATE_CONNECTED) then ret () else
      let idx := zmk_ble_profile_index (bt_conn_get_dst c) in
      if idx <? 0 then ret () else
      let snappy := idx =? zmk_ble_active_profile_index in
      apply_params c snappy
  end.

Definition lazy_host_refresh : lazy () := for_each le_conns update_one_host.
Definition lazy_host_work_handler : lazy () := lazy_host_refresh.
End code.

Definition lazy_host_schedule : lazy () := emit (host (k_work_reschedule lazy_host_work (K_MSEC 100))).
Definition lazy_host_profile_changed : lazy () := lazy_host_schedule.
Definition lazy_host_connected (err : Z) : lazy () :=
  if negb (err =? 0) then ret () else lazy_host_schedule.
Definition lazy_host_security_changed (level : Z) : lazy () :=
  when (BT_SECURITY_L2 <=? level) lazy_host_schedule.
Definition lazy_host_identity_resolved : lazy () := lazy_host_schedule.
End Lazy.

Module Quiet.
Section code.
Context `{!View}.
Definition quiet (A : Type) : Type := proc () effect A.

Definition drop_host_conn (c : conn) : quiet () :=
  match bt_conn_get_info c with
  | None => ret ()
  | Some info =>
      if negb (info_role info =? BT_CONN_ROLE_PERIPHERAL) then ret () else
      emit (bt_conn_disconnect c BT_HCI_ERR_REMOTE_USER_TERM_CONN)
  end.

Definition usb_host_quiet_work_handler : quiet () :=
  if negb zmk_usb_is_powered then
    totem_diag_log_record TOTEM_HEVT_ADV (-1) (-1) 1 0
  else
    for_each le_conns drop_host_conn ;;
    totem_diag_log_record TOTEM_HEVT_ADV (-1) (-1) 0 1.
End code.

Definition usb_host_quiet_listener : quiet () :=
  emit (k_work_reschedule usb_host_quiet_work (K_MSEC 50)).
Definition usb_host_quiet_init : quiet () :=
  emit (k_work_schedule usb_host_quiet_work (K_MSEC 400)).
End Quiet.

Module PolicyProps.
Import Lazy Quiet.

Section facts.
Context `{!LazyConfig} `{!View}.

(** A loop whose turns each emit a known list. *)
Lemma for_each_emits {E A} (f : A -> proc () E ()) (g : A -> list E) (l : list A) t :
  (forall x t, f x () t = Outcome () () t (g x)) ->
  for_each l f () t = Outcome () () t (l ≫= g).
Proof.
  intros Hf. revert t. induction l as [|x l IH]; intros t; [done|].
  cbn. unfold bind. by rewrite Hf, IH.
Qed.

Definition role_is (role : Z) (c : conn) : bool :=
  match bt_conn_get_info c with Some info => info_role info =? role | None => false end.
Definition is_connected (c : conn) : bool :=
  match bt_conn_get_info c with Some info => info_state info =? BT_CONN_STATE_CONNECTED | None => false end.

(** ** Lazy hosts *)
(** A host link whose profile is known and that is encrypted, and what it should run at. *)
Definition tunable (c : conn) : bool :=
  role_is BT_CONN_ROLE_PERIPHERAL c && is_connected c &&
  (0 <=? zmk_ble_profile_index (bt_conn_get_dst c)) && (BT_SECURITY_L2 <=? bt_conn_get_security c).
Definition wanted (c : conn) : conn_param :=
  if zmk_ble_profile_index (bt_conn_get_dst c) =? zmk_ble_active_profile_index
  then active_param else lazy_param.

Lemma update_one_host_run c t :
  update_one_host c () t =
  Outcome () () t (if tunable c then [bt_conn_le_param_update c (wanted c)] else []).
Proof.
  unfold update_one_host, apply_params, tunable, role_is, is_connected, wanted.
  destruct (bt_conn_get_info c) as [info|]; [|done].
  destruct (info_role info =? BT_CONN_ROLE_PERIPHERAL); cbn [negb andb]; [|done].
  destruct (info_state info =? BT_CONN_STATE_CONNECTED); cbn [negb andb]; [|done].
  destruct (Z.ltb_spec (zmk_ble_profile_index (bt_conn_get_dst c)) 0),
    (Z.leb_spec 0 (zmk_ble_profile_index (bt_conn_get_dst c))); try lia; cbn [andb]; [done|].
  by destruct (Z.ltb_spec (bt_conn_get_security c) BT_SECURITY_L2),
    (Z.leb_spec BT_SECURITY_L2 (bt_conn_get_security c)); try lia.
Qed.

Lemma bind_if_filter {A B} (p : A -> bool) (f : A -> B) (l : list A) :
  (l ≫= fun x => if p x then [f x] else []) = f <$> filter (fun x => p x = true) l.
Proof.
  induction l as [|x l IH]; [done|]. cbn [mbind list_bind]. rewrite IH, filter_cons.
  destruct (p x); cbn; by case_decide.
Qed.

(** A refresh of the lazy-host policy asks for new connection parameters on exactly the
    encrypted, connected host links whose profile is known, once each and in table order: the snappy
    ones on the link of the selected profile, the lazy ones on the others; the split link and
    unresolved links are left alone and nothing is disconnected. *)
Theorem lazy_refresh_exact t :
  lazy_host_work_handler () t =
  Outcome () () t ((fun c => bt_conn_le_param_update c (wanted c)) <$>
                   filter (fun c => tunable c = true) le_conns).
Proof.
  unfold lazy_host_work_handler, lazy_host_refresh.
  by rewrite (for_each_emits _ _ _ _ update_one_host_run), bind_if_filter.
Qed.

(** ** USB quiet *)
Lemma drop_host_conn_run c t :
  drop_host_conn c () t =
  Outcome () () t (if role_is BT_CONN_ROLE_PERIPHERAL c
                   then [bt_conn_disconnect c BT_HCI_ERR_REMOTE_USER_TERM_CONN] else []).
Proof.
  unfold drop_host_conn, role_is. destruct (bt_conn_get_info c) as [info|]; [|done].
  by destruct (info_role info =? BT_CONN_ROLE_PERIPHERAL).
Qed.

Lemma usb_quiet_run t :
  usb_host_quiet_work_handler () t =
  Outcome () () t
    (if zmk_usb_is_powered
     then ((fun c => bt_conn_disconnect c BT_HCI_ERR_REMOTE_USER_TERM_CONN) <$>
           filter (fun c => role_is BT_CONN_ROLE_PERIPHERAL c = true) le_conns) ++
          [log_record TOTEM_HEVT_ADV (-1) (-1) 0 0 1]
     else [log_record TOTEM_HEVT_ADV (-1) (-1) 1 0 0]).
Proof.
  unfold usb_host_quiet_work_handler. destruct zmk_usb_is_powered; cbn [negb]; [|done].
  unfold bind. by rewrite (for_each_emits _ _ _ _ drop_host_conn_run), bind_if_filter.
Qed.

(** While the USB cable is up, the quiet policy disconnects every computer and only
    computers: exactly the links this half is the peripheral of, once each, so the split link
    is never touched; with the cable gone it disconnects nothing.  Either way the journal gets
    one record of whether host advertising is on. *)
Theorem usb_quiet_exact t :
  usb_host_quiet_work_handler () t =
  Outcome () () t
    (if zmk_usb_is_powered
     then ((fun c => bt_conn_disconnect c BT_HCI_ERR_REMOTE_USER_TERM_CONN) <$>
           filter (fun c => role_is BT_CONN_ROLE_PERIPHERAL c = true) le_conns) ++
          [log_record TOTEM_HEVT_ADV (-1) (-1) 0 0 1]
     else [log_record TOTEM_HEVT_ADV (-1) (-1) 1 0 0]).
Proof. apply usb_quiet_run. Qed.
End facts.
End PolicyProps.
