(* ===== verification/StudioConsole.v ===== *)
(** * Studio console helpers (src/totem_studio_extras.c, src/totem_studio_usb.c)

    The heartbeat with its line of signal strengths, the request for a dump, and the retries
    that move the endpoint to USB.  [Extras] and [StudioUsb] are the code, [StudioProps] shows
    that the line never overflows its buffer and that the retries end. *)
From Stdlib Require Import Ascii String.
From S2P Require Import Prelude Events Platform Samples Text.
Local Open Scope string_scope.
Local Open Scope list_scope.
Local Open Scope Z_scope.

Inductive studio_effect :=
| host (e : effect)
| schedule_heartbeat_work (ms : Z)
| totem_host_event_log_request_dump
| zmk_studio_log_set_streaming (on : bool)
| zmk_ble_adv_wake
| zmk_studio_uart_rearm
| zmk_endpoint_set_preferred_transport (t : zmk_transport)
| reschedule_studio_usb_work (ms : Z)
| schedule_studio_usb_work (ms : Z)
| printk (line : string).

Module Extras.

(** [struct rssi_acc]: [line] is the text before the terminating zero, [n] the length counted. *)
Record rssi_acc := RssiAcc { line : string; n : Z; peers : Z; hosts : Z; split : Z }.
#[export] Instance rssi_acc_eta : Eta rssi_acc := fun a =>
  RssiAcc (line a) (n a) (peers a) (hosts a) (split a).
Definition rssi_zero : rssi_acc := RssiAcc "" 0 0 0 0.

(** The studio-log module and the controller: the size of a line, whether the log is on, what
    the RSSI command reports, and the advertising state's name. *)
Class StudioLog := {
  CONFIG_ZMK_STUDIO_LOG_LINE_MAX : Z;
  zmk_studio_log_is_streaming : bool;
  hci_read_rssi : conn -> option Z;      (* None: the command could not be made or failed *)
  zmk_ble_adv_state : string;
}.

Section code.
Context `{!Config} `{!Clock} `{!StudioLog} `{!View}.
Definition extras (A : Type) : Type := proc () studio_effect A.

Definition dump_frame_cb (payload : list Z) : extras () :=
  if (alen payload <? 2) || negb (aget payload 1 =? 49) then ret () else
  emit totem_host_event_log_request_dump ;;
  emit (zmk_studio_log_set_streaming true).

Definition read_conn_rssi (c : conn) : Z :=
  let rssi := 127 in
  match bt_hci_get_conn_handle c with
  | None => rssi
  | Some _ => match hci_read_rssi c with Some r => i8 r | None => rssi end
  end.

(** [snprintk(acc->line + acc->n, sizeof(acc->line) - acc->n, text)], then [acc->n += wrote]
    and [acc->peers++]: the text is cut to the room left. *)
Definition acc_print (text : string) (acc : rssi_acc) : rssi_acc :=
  let wrote := len text in
  let room := CONFIG_ZMK_STUDIO_LOG_LINE_MAX - n acc in
  let acc := acc <| line := line acc +:+ String.substring 0 (Z.to_nat (room - 1)) text |> in
  if 0 <? wrote then acc <| n := n acc + wrote |> <| peers := u8 (peers acc + 1) |> else acc.

Definition rssi_one (c : conn) (acc : rssi_acc) : rssi_acc :=
  match bt_conn_get_info c with
  | None => acc
  | Some info =>
      if negb (info_state info =? BT_CONN_STATE_CONNECTED) then acc else
      let rssi := read_conn_rssi c in
      let idx := zmk_ble_profile_index (bt_conn_get_dst c) in
      let is_split := (idx <? 0) && (info_role info =? BT_CONN_ROLE_CENTRAL) in
      let acc := if is_split then acc <| split := u8 (split acc + 1) |>
                 else if 0 <=? idx then acc <| hosts := u8 (hosts acc + 1) |> else acc in
      if CONFIG_ZMK_STUDIO_LOG_LINE_MAX - 16 <=? n acc then acc else
      if is_split then
        acc_print (if rssi =? 127 then " split=--" else " split=" +:+ fmt_d rssi) acc
      else if 0 <=? idx then
        acc_print (if rssi =? 127 then " idx" +:+ fmt_d idx +:+ "=--"
                   else " idx" +:+ fmt_d idx +:+ "=" +:+ fmt_d rssi) acc
      else acc_print (" other=" +:+ fmt_d rssi) acc
  end.
Definition rssi_all : rssi_acc := foldl (fun acc c => rssi_one c acc) rssi_zero le_conns.

Definition heartbeat_work_cb : extras () :=
  emit (schedule_heartbeat_work (K_SECONDS 10)) ;;
  if negb zmk_studio_log_is_streaming then ret () else
  let hid := match zmk_endpoint_get_selected_transport with
             | ZMK_TRANSPORT_USB => "usb" | ZMK_TRANSPORT_BLE => "ble" | _ => "none" end in
  let acc := rssi_all in
  now <- k_uptime_get_32 ;;
  emit (printk ("totem_log t=" +:+ fmt_u (now `quot` 1000) +:+ "s usb=1 hid=" +:+ hid +:+ " adv=" +:+
    zmk_ble_adv_state +:+ " hosts=" +:+ fmt_u (hosts acc) +:+ " split=" +:+ fmt_u (split acc))) ;;
  emit (printk (if peers acc =? 0 then "totem_ble rssi none" else "totem_ble rssi" +:+ line acc)).

Definition totem_studio_extras_init : extras () := emit (schedule_heartbeat_work (K_SECONDS 10)).
End code.
End Extras.

Module StudioUsb.

(** The values of ZMK's [enum zmk_transport]. *)
Class Transports := { transport_number : zmk_transport -> Z }.

(** The static variable [tries], a uint8_t. *)
Section code.
Context `{!View} `{!Transports}.
Definition studio_usb (A : Type) : Type := proc Z studio_effect A.

(** [err] is what setting the preference returns; the view is the one after it. *)
Definition totem_studio_prefer_usb (err : Z) : studio_usb () :=
  if negb zmk_usb_is_powered then modify (fun _ => 0) ;; emit zmk_ble_adv_wake else
  emit zmk_studio_uart_rearm ;;
  emit (zmk_endpoint_set_preferred_transport ZMK_TRANSPORT_USB) ;;
  if totem_hid_is_usb then modify (fun _ => 0) else
  tries <- get ;;
  if tries <? 20 then
    modify (fun tries => u8 (tries + 1)) ;;
    tries <- get ;;
    when ((tries =? 1) || (tries =? 20))
      (emit (printk ("totem_studio prefer_usb err=" +:+ fmt_d err +:+ " selected=" +:+
         fmt_d (transport_number zmk_endpoint_get_selected_transport) +:+ " try=" +:+ fmt_u tries))) ;;
    emit (reschedule_studio_usb_work (K_MSEC 250))
  else ret ().

Definition totem_studio_usb_kick : studio_usb () := emit (reschedule_studio_usb_work (K_MSEC 200)).

(** The event is a change of the USB connection state or of the endpoint, or another. *)
Inductive studio_event := usb_event (conn_state : Z) | endpoint_event (transport : Z) | other_event.
Definition totem_studio_usb_listener (eh : studio_event) : studio_usb () :=
  match eh with
  | usb_event conn_state =>
      zoom id (fun s _ => s) host (totem_diag_log_record TOTEM_HEVT_USB (-1) (-1) (u8 conn_state)
        (u8 (transport_number zmk_endpoint_get_selected_transport)))
  | endpoint_event transport =>
      zoom id (fun s _ => s) host (totem_diag_log_record TOTEM_HEVT_USB (-1) (-1) 0xFF (u8 transport))
  | other_event => ret ()
  end ;;
  totem_studio_usb_kick.
Definition totem_studio_usb_init : studio_usb () := emit (schedule_studio_usb_work (K_MSEC 1500)).
End code.
End StudioUsb.

Module StudioProps.
Import Extras StudioUsb.

(** ** The line of signal strengths *)
Section rssi.
Context `{!Config} `{!Clock} `{!StudioLog} `{!View}.
Implicit Types (acc : rssi_acc) (c : conn).

(** What a connection contributes, when there is room. *)
Definition rssi_text (c : conn) : option string :=
  match bt_conn_get_info c with
  | Some info =>
      if info_state info =? BT_CONN_STATE_CONNECTED then
        let rssi := read_conn_rssi c in
        let idx := zmk_ble_profile_index (bt_conn_get_dst c) in
        Some (if (idx <? 0) && (info_role info =? BT_CONN_ROLE_CENTRAL) then
                " split=" +:+ (if rssi =? 127 then "--" else fmt_d rssi)
              else if 0 <=? idx then
                " idx" +:+ fmt_d idx +:+ "=" +:+ (if rssi =? 127 then "--" else fmt_d rssi)
              else " other=" +:+ fmt_d rssi)
      else None
  | None => None
  end.
Definition room acc : bool := n acc <? CONFIG_ZMK_STUDIO_LOG_LINE_MAX - 16.

Lemma read_conn_rssi_range c : -128 <= read_conn_rssi c < 128.
Proof.
  unfold read_conn_rssi. destruct (bt_hci_get_conn_handle c); [|lia].
  destruct (hci_read_rssi c); [apply i8_range|lia].
Qed.

(** ZMK's profile indices: a profile, or a negative error. *)
Hypothesis profile_index_range :
  forall c, zmk_ble_profile_index (bt_conn_get_dst c) < ZMK_BLE_PROFILE_COUNT.

Lemma rssi_text_len c text : rssi_text c = Some text -> 0 < len text <= 12.
Proof.
  unfold rssi_text. destruct (bt_conn_get_info c) as [info|]; [|done].
  destruct (info_state info =? _); [|done]. intros [= <-].
  pose proof (read_conn_rssi_range c) as Hr. pose proof (len_i8 (read_conn_rssi c) Hr) as Hlr.
  pose proof (profile_index_range c) as Hi. pose proof profile_count_pos.
  destruct (Z.ltb_spec (zmk_ble_profile_index (bt_conn_get_dst c)) 0) as [Hneg|Hpos]; cbn [andb].
  - destruct (Z.leb_spec 0 (zmk_ble_profile_index (bt_conn_get_dst c))); [lia|].
    destruct (info_role info =? _); rewrite len_app; [|].
    + change (len " split=") with 7. destruct (read_conn_rssi c =? 127); [by vm_compute|].
      pose proof (len_nonneg (fmt_d (read_conn_rssi c))). lia.
    + change (len " other=") with 7. pose proof (len_nonneg (fmt_d (read_conn_rssi c))). lia.
  - destruct (Z.leb_spec 0 (zmk_ble_profile_index (bt_conn_get_dst c))); [|lia].
    assert (len (fmt_d (zmk_ble_profile_index (bt_conn_get_dst c))) <= 3) as Hl.
    { unfold fmt_d. destruct (Z.ltb_spec (zmk_ble_profile_index (bt_conn_get_dst c)) 0); [lia|].
      apply len_u8. lia. }
    rewrite !len_app. change (len " idx") with 4. change (len "=") with 1.
    pose proof (len_nonneg (fmt_d (zmk_ble_profile_index (bt_conn_get_dst c)))).
    destruct (read_conn_rssi c =? 127); [change (len "--") with 2; lia|].
    pose proof (len_nonneg (fmt_d (read_conn_rssi c))). lia.
Qed.

(** A line whose counted length is its length, and that fits. *)
Definition fits acc : Prop := n acc = len (line acc) /\ n acc < CONFIG_ZMK_STUDIO_LOG_LINE_MAX - 4.

Lemma substring_all text k : (String.length text <= k)%nat -> String.substring 0 k text = text.
Proof.
  revert k. induction text as [|a text IH]; intros [|k] Hk; cbn in *; try done; [lia|].
  f_equal. apply IH. lia.
Qed.

Lemma acc_print_spec text acc :
  n acc = len (line acc) -> room acc = true -> 0 < len text <= 12 ->
  let acc' := acc_print text acc in
  fits acc' /\ line acc' = line acc +:+ text /\ hosts acc' = hosts acc /\ split acc' = split acc /\
  peers acc' = u8 (peers acc + 1).
Proof.
  unfold room. intros Hn Hroom%Z.ltb_lt Ht. unfold acc_print, fits.
  destruct (Z.ltb_spec 0 (len text)); [|lia].
  rewrite substring_all by (unfold len in *; lia). cbn. rewrite len_app. split_and!; done || lia.
Qed.

(** Counting changes neither the line nor its length. *)
Definition counted c acc : rssi_acc :=
  match bt_conn_get_info c with
  | Some info =>
      let idx := zmk_ble_profile_index (bt_conn_get_dst c) in
      if info_state info =? BT_CONN_STATE_CONNECTED then
        if (idx <? 0) && (info_role info =? BT_CONN_ROLE_CENTRAL) then acc <| split := u8 (split acc + 1) |>
        else if 0 <=? idx then acc <| hosts := u8 (hosts acc + 1) |> else acc
      else acc
  | None => acc
  end.
Lemma counted_same c acc :
  n (counted c acc) = n acc /\ line (counted c acc) = line acc /\ peers (counted c acc) = peers acc.
Proof.
  unfold counted. destruct (bt_conn_get_info c) as [info|]; [|done].
  destruct (info_state info =? BT_CONN_STATE_CONNECTED); [|done].
  by destruct ((zmk_ble_profile_index (bt_conn_get_dst c) <? 0) && (info_role info =? BT_CONN_ROLE_CENTRAL)),
    (0 <=? zmk_ble_profile_index (bt_conn_get_dst c)).
Qed.

Lemma rssi_one_counted c acc :
  rssi_one c acc =
  match rssi_text c with
  | Some text => if room acc then acc_print text (counted c acc) else counted c acc
  | None => acc
  end.
Proof.
  pose proof (counted_same c acc) as (Hn&_&_). revert Hn.
  unfold rssi_one, rssi_text, counted, room. destruct (bt_conn_get_info c) as [info|]; [|done].
  destruct (info_state info =? BT_CONN_STATE_CONNECTED); cbn [negb]; [|done]. intros ->.
  rewrite Z.leb_antisym. destruct (n acc <? CONFIG_ZMK_STUDIO_LOG_LINE_MAX - 16); cbn [negb]; [|done].
  by destruct ((zmk_ble_profile_index (bt_conn_get_dst c) <? 0) && (info_role info =? BT_CONN_ROLE_CENTRAL)),
    (0 <=? zmk_ble_profile_index (bt_conn_get_dst c)), (read_conn_rssi c =? 127).
Qed.

Lemma rssi_one_line c acc :
  fits acc ->
  fits (rssi_one c acc) /\
  line (rssi_one c acc) = line acc +:+ (if room acc then default "" (rssi_text c) else "").
Proof.
  intros [Hn Hfit]. rewrite rssi_one_counted. destruct (counted_same c acc) as (Hcn&Hcl&_).
  destruct (rssi_text c) as [text|] eqn:Ht.
  - destruct (room acc) eqn:Hroom; cbn [default].
    + assert (room (counted c acc) = true) as Hroom' by (unfold room in *; by rewrite Hcn).
      destruct (acc_print_spec text (counted c acc)) as (Hf&Hl&_);
        [congruence|done|by apply (rssi_text_len c)|]. by rewrite Hl, Hcl.
    + unfold fits. rewrite Hcn, Hcl, str_app_nil. done.
  - cbn. destruct (room acc); rewrite str_app_nil; done.
Qed.

Definition cat (texts : list string) : string := foldr String.append "" texts.
Lemma cat_snoc texts text : cat (texts ++ [text]) = cat texts +:+ text.
Proof.
  induction texts as [|x texts IH]; cbn [cat foldr app]; [by rewrite str_app_nil|].
  fold (cat (texts ++ [text])) (cat texts). by rewrite IH, str_app_assoc.
Qed.

(** C37 The heartbeat's line of signal strengths never overflows its buffer and is never cut: for
    every connection table, its counted length is its length, leaves room for the terminating
    zero, and the line is the whole text of a prefix of the connected links - of all of them
    unless fewer than 17 bytes were left. *)
Theorem rssi_line_bounded :
  16 <= CONFIG_ZMK_STUDIO_LOG_LINE_MAX ->
  let acc := rssi_all in let texts := omap rssi_text le_conns in
  n acc = len (line acc) /\ len (line acc) < CONFIG_ZMK_STUDIO_LOG_LINE_MAX - 4 /\
  exists k, line acc = cat (take k texts) /\ (take k texts = texts \/ room acc = false).
Proof.
  intros Hmax. unfold rssi_all. cbv zeta. generalize le_conns as l. intros l.
  cut (fits (foldl (fun acc c => rssi_one c acc) rssi_zero l) /\
       exists k, (k <= length (omap rssi_text l))%nat /\
         line (foldl (fun acc c => rssi_one c acc) rssi_zero l) = cat (take k (omap rssi_text l)) /\
         (take k (omap rssi_text l) = omap rssi_text l \/
          room (foldl (fun acc c => rssi_one c acc) rssi_zero l) = false)).
  { intros ([Hn Hfit]&k&_&Hk). rewrite <- Hn. split_and!; [done..|by exists k]. }
  induction l as [|c l IH] using rev_ind.
  { cbn. split; [split; [done|cbn; lia]|]. exists 0%nat. split_and!; [done|done|by left]. }
  rewrite foldl_app. cbn [foldl]. destruct IH as [Hfit (k&Hle&Hl&Hor)].
  set (acc := foldl (fun acc c => rssi_one c acc) rssi_zero l) in *.
  destruct (rssi_one_line c acc Hfit) as [Hfit' Hline]. split; [done|].
  rewrite omap_app. cbn [omap list_omap].
  destruct (room acc) eqn:Hroom.
  - destruct Hor as [Hk|]; [|done]. exists (length (omap rssi_text (l ++ [c]))).
    rewrite omap_app. cbn [omap list_omap]. rewrite firstn_all. split_and!; [lia| |by left].
    rewrite Hline, Hl, Hk. destruct (rssi_text c); cbn [default]; [by rewrite cat_snoc|].
    by rewrite str_app_nil, app_nil_r.
  - exists k. rewrite Hline, str_app_nil, Hl, take_app_le, length_app by done. split_and!; [lia|done|].
    right. unfold room in *. destruct Hfit' as [-> _], Hfit as [Hn _]. by rewrite Hline, str_app_nil, <- Hn.
Qed.
End rssi.

(** A table with the split link, two hosts, one of them weak, and a link being set up. *)
#[local] Instance studio_log : StudioLog := {|
  CONFIG_ZMK_STUDIO_LOG_LINE_MAX := 40;
  zmk_studio_log_is_streaming := true;
  hci_read_rssi c := if (c =? 2)%nat then None else Some (- 40 - 10 * Z.of_nat c);
  zmk_ble_adv_state := "off";
|}.
#[local] Instance rssi_view : View :=
  host_view [Link central_info 2 (-1); Link peripheral_info 2 0; Link peripheral_info 2 3;
             Link (ConnInfo 1 1 0 0 0 0) 1 (-1); Link peripheral_info 2 4]
    0 false true false ZMK_TRANSPORT_USB true.
Lemma rssi_view_profiles c : zmk_ble_profile_index (bt_conn_get_dst c) < ZMK_BLE_PROFILE_COUNT.
Proof. do 5 (destruct c as [|c]; [by vm_compute|]). by vm_compute. Qed.

Lemma rssi_line_bounded_witness :
  line rssi_all = " split=-40 idx0=-50 idx3=--" /\ hosts rssi_all = 3 /\ split rssi_all = 1 /\
  len (line rssi_all) < 40 - 4.
Proof.
  split; [vm_compute; reflexivity|]. split; [vm_compute; reflexivity|]. split; [vm_compute; reflexivity|].
  assert (16 <= CONFIG_ZMK_STUDIO_LOG_LINE_MAX) as Hmax by (vm_compute; discriminate).
  exact (proj1 (proj2 (rssi_line_bounded rssi_view_profiles Hmax))).
Defined.

(** ** The retries *)
Section retries.
Context `{!Transports}.

Definition rescheduled (es : list studio_effect) : bool :=
  existsb (fun e => match e with reschedule_studio_usb_work _ => true | _ => false end) es.
(** The runs of the work item that follow one another without an event from outside: each
    sees its own state of the world and comes after the one that rescheduled it. *)
Fixpoint work_runs (envs : list (View * Z)) (tries : Z) : list (outcome Z studio_effect ()) :=
  match envs with
  | [] => []
  | (v, err) :: envs =>
      let r := @totem_studio_prefer_usb v _ err tries 0%nat in
      r :: if rescheduled (eff r) then work_runs envs (fin r) else []
  end.

(** One run: it reschedules itself, one try further, exactly when the cable is up, USB is not
    selected and fewer than twenty tries were made; otherwise it forgets the tries, unless it gives up. *)
Lemma prefer_usb_run (v : View) err tries t :
  0 <= tries <= 20 ->
  let r := totem_studio_prefer_usb err tries t in
  if negb zmk_usb_is_powered || totem_hid_is_usb then rescheduled (eff r) = false /\ fin r = 0
  else if tries <? 20 then rescheduled (eff r) = true /\ fin r = tries + 1
  else rescheduled (eff r) = false /\ fin r = tries.
Proof.
  intros Ht.
  change (wp (totem_studio_prefer_usb err) (fun _ s' _ es =>
    if negb zmk_usb_is_powered || totem_hid_is_usb then rescheduled es = false /\ s' = 0
    else if tries <? 20 then rescheduled es = true /\ s' = tries + 1
    else rescheduled es = false /\ s' = tries) tries t).
  unfold totem_studio_prefer_usb. destruct zmk_usb_is_powered; cbn [negb orb]; [|by wp_steps].
  wp_steps. destruct totem_hid_is_usb; [by wp_steps|]. wp_steps.
  destruct (Z.ltb_spec tries 20); [|by wp_steps]. wp_steps. rewrite u8_small by lia.
  by destruct ((tries + 1 =? 1) || (tries + 1 =? 20)); cbn [when]; wp_steps.
Qed.

Definition stops_early (envs : list (View * Z)) (runs : list (outcome Z studio_effect ())) : Prop :=
  exists v err r, envs !! (length runs - 1)%nat = Some (v, err) /\ last runs = Some r /\
    (@zmk_usb_is_powered v = false \/ @totem_hid_is_usb v = true) /\ fin r = 0.

Lemma work_runs_bounded envs tries :
  0 <= tries <= 20 ->
  let runs := work_runs envs tries in
  Z.of_nat (length runs) <= 21 - tries /\
  ((length runs < length envs)%nat -> Z.of_nat (length runs) < 21 - tries -> stops_early envs runs).
Proof.
  revert tries. induction envs as [|[v err] envs IH]; intros tries Ht; cbn [work_runs]; [cbn; lia|].
  pose proof (prefer_usb_run v err tries 0%nat Ht) as Hr. cbv zeta in Hr.
  set (r := totem_studio_prefer_usb err tries 0%nat) in *.
  destruct (negb zmk_usb_is_powered || totem_hid_is_usb) eqn:Hstop.
  - destruct Hr as [-> Hfin]. cbn [length]. split; [lia|]. intros _ _. exists v, err, r. split_and!; [done..| |done].
    apply orb_true_iff in Hstop as [?%negb_true_iff|?]; auto.
  - destruct (Z.ltb_spec tries 20).
    + destruct Hr as [-> ->]. destruct (IH (tries + 1) ltac:(lia)) as [Hlen Hwhy].
      cbn [length]. split; [lia|]. intros Hle Hlt.
      destruct (Hwhy ltac:(lia) ltac:(lia)) as (v'&err'&r'&Henv&Hlast&Hor&Hfin).
      destruct (work_runs envs (tries + 1)) as [|r0 runs]; [done|].
      exists v', err', r'. split_and!; [|done..]. rewrite <- Henv. cbn. by rewrite Nat.sub_0_r.
    + destruct Hr as [-> _]. cbn [length]. split; lia.
Qed.

(** C38 Moving the endpoint to USB ends: whatever the environment does, at most twenty-one runs of
    the work item follow one another; it stops early only because the cable is out or USB is
    selected, and then forgets its tries, so that the next event gets all of them again. *)
Theorem prefer_usb_terminates envs :
  let runs := work_runs envs 0 in
  (length runs <= 21)%nat /\
  ((length runs < length envs)%nat -> (length runs < 21)%nat ->
   stops_early envs runs).
Proof. destruct (work_runs_bounded envs 0) as [Hlen Hwhy]; [lia|]. split; [lia|]. intros. apply Hwhy; lia. Qed.
End retries.
End StudioProps.
