(* ===== verification/ConsoleLogs.v ===== *)
(** * Console logs (src/totem_battery_log.c, src/totem_endpoint_log.c, src/conn_params_log.c)

    The battery lines with their rate limit and the journal heartbeat ([Battery]), the endpoint
    line printed on change ([Endpoint]), the connection-parameter line ([Params]); [LogProps]
    states the rate limit, the heartbeat's encoding and the change detection. *)
From Stdlib Require Import Ascii String Sorted.
From S2P Require Import Prelude Events Platform Samples Text.
Local Open Scope string_scope.
Local Open Scope list_scope.
Local Open Scope Z_scope.

Inductive log_effect :=
| host (e : effect)
| printk (line : string)
| reschedule_batt_tick (ms : Z)
| reschedule_batt_heartbeat (ms : Z)
| schedule_batt_tick (ms : Z)
| schedule_batt_heartbeat (ms : Z)
| schedule_endpoint_boot (ms : Z)
| schedule_endpoint_poll (ms : Z)
| reschedule_endpoint_poll (ms : Z).

Module Battery.

Record battery := MkBattery {
  peripheral_soc : Z;             (* int; -1 until the peripheral reported *)
  last_event_print_ms : Z;
  last_printed : string;
}.
#[export] Instance battery_eta : Eta battery := fun s =>
  MkBattery (peripheral_soc s) (last_event_print_ms s) (last_printed s).
Definition battery_init : battery := MkBattery (-1) 0 "".

Definition BATT_EVENT_MIN_INTERVAL_MS : Z := 1000.
Definition LEVELS_MAX : nat := 48.

(** What the file reads of ZMK's battery, the sensor and the studio-log module. *)
Class BatteryView := {
  zmk_battery_millivolts : Z;
  gauge_voltage : option (Z * Z);            (* val1, val2; None: no device or an error *)
  zmk_battery_reported_soc : Z;
  zmk_battery_state_of_charge : Z;
  zmk_studio_log_battery_snapshot : option string;   (* Some in builds with that module *)
}.
Class BatteryConfig := {
  CONFIG_TOTEM_BATTERY_LOG_INTERVAL_SEC : Z;
  CONFIG_TOTEM_DIAG_HEARTBEAT_MIN : Z;
}.

Section code.
Context `{!Clock} `{!BatteryConfig} `{!BatteryView} `{!View}.

Definition battery_mv : Z :=
  let mv := u16 zmk_battery_millivolts in
  if mv =? 0 then
    match gauge_voltage with
    | Some (val1, val2) => u16 (val1 * 1000 + val2 `quot` 1000)
    | None => mv
    end
  else mv.

Definition left_on_usb : bool := zmk_usb_is_powered.

(** The text in a buffer of LEVELS_MAX characters. *)
Definition format_levels (s : battery) : string :=
  String.substring 0 (LEVELS_MAX - 1)
    (match zmk_studio_log_battery_snapshot with
     | Some text => text
     | None =>
         if peripheral_soc s <? 0
         then "left=" +:+ fmt_u zmk_battery_reported_soc +:+ " right=--"
         else "left=" +:+ fmt_u zmk_battery_reported_soc +:+ " right=" +:+ fmt_d (peripheral_soc s)
     end).

Definition batt_event_should_print : proc battery log_effect bool :=
  now <- k_uptime_get ;;
  s <- get ;;
  let levels := format_levels s in
  if String.eqb levels (last_printed s) then ret false else
  if negb (last_event_print_ms s =? 0) &&
     (now - last_event_print_ms s <? BATT_EVENT_MIN_INTERVAL_MS) then ret false else
  modify (fun s => s <| last_event_print_ms := now |> <| last_printed := levels |>) ;;
  ret true.

Definition totem_batt_print (why : string) (with_mv : bool) : proc battery log_effect () :=
  now <- k_uptime_get_32 ;;
  let up_s := now `quot` 1000 in
  let mv := battery_mv in
  s <- get ;;
  let levels := format_levels s in
  let head := "totem_batt " +:+ why +:+ " t=" +:+ fmt_u up_s +:+ "s " +:+ levels in
  if with_mv && (0 <? mv) then
    emit (printk (head +:+ " " +:+ fmt_u mv +:+ "mV" +:+
                  (if peripheral_soc s <? 0 then "  (no report yet)" else "")))
  else if peripheral_soc s <? 0 then emit (printk (head +:+ "  (no report yet)"))
  else emit (printk head).

(** The events the listener is subscribed to. *)
Inductive batt_event :=
| peripheral_battery_state_changed (state_of_charge : Z)
| peripheral_battery_charging_changed
| battery_state_changed.
Definition totem_batt_listener (eh : batt_event) : proc battery log_effect () :=
  match eh with
  | peripheral_battery_state_changed soc =>
      modify (fun s => s <| peripheral_soc := soc |>) ;;
      b <- batt_event_should_print ;;
      when b (totem_batt_print "periph" false)
  | peripheral_battery_charging_changed =>
      b <- batt_event_should_print ;;
      when b (totem_batt_print "periph" false)
  | battery_state_changed =>
      b <- batt_event_should_print ;;
      when b (totem_batt_print "local" false)
  end.

Definition totem_batt_tick_handler : proc battery log_effect () :=
  totem_batt_print "tick" true ;;
  emit (reschedule_batt_tick (K_SECONDS CONFIG_TOTEM_BATTERY_LOG_INTERVAL_SEC)).

Definition totem_batt_heartbeat_handler : proc battery log_effect () :=
  s <- get ;;
  let word := Z.min battery_mv 0x7FFF in
  let word := if left_on_usb then Z.lor word 0x8000 else word in
  zoom id (fun s _ => s) host
    (totem_host_event_log_record_call TOTEM_HEVT_HEARTBEAT (i8 zmk_ble_active_profile_index)
       (i8 (peripheral_soc s)) zmk_battery_state_of_charge (u8 word) (u8 (word ≫ 8))) ;;
  emit (reschedule_batt_heartbeat (K_MINUTES CONFIG_TOTEM_DIAG_HEARTBEAT_MIN)).

Definition totem_batt_heartbeat_start : proc battery log_effect () :=
  when (0 <? CONFIG_TOTEM_DIAG_HEARTBEAT_MIN) (emit (schedule_batt_heartbeat (K_SECONDS 60))).
Definition totem_battery_log_init : proc battery log_effect () :=
  emit (schedule_batt_tick (K_SECONDS 10)) ;;
  totem_batt_heartbeat_start.
End code.
End Battery.

Module Endpoint.

(** ZMK's endpoint instances. *)
Class Endpoints := {
  zmk_endpoint_instance : Type;
  endpoint_zero : zmk_endpoint_instance;
  zmk_endpoint_instance_eq : zmk_endpoint_instance -> zmk_endpoint_instance -> bool;
  zmk_endpoint_instance_to_str : zmk_endpoint_instance -> option string;   (* None: negative *)
  CONFIG_TOTEM_BOOT_PROFILE_DUMP_DELAY_MS : Z;
}.

Section code.
Context `{!Endpoints}.

Record endpoint_log := MkEndpointLog {
  last_selected : zmk_endpoint_instance;
  last_preferred : zmk_endpoint_instance;
  have_last : bool;
}.
#[export] Instance endpoint_log_eta : Eta endpoint_log := fun s =>
  MkEndpointLog (last_selected s) (last_preferred s) (have_last s).
Definition endpoint_log_init : endpoint_log := MkEndpointLog endpoint_zero endpoint_zero false.

Definition endpoint_text (e : zmk_endpoint_instance) : string :=
  match zmk_endpoint_instance_to_str e with Some text => text | None => "?" end.

(** [selected] and [preferred] are what ZMK's getters return. *)
Definition totem_print_endpoints (why : string) (force : bool) (selected preferred : zmk_endpoint_instance)
    : proc endpoint_log log_effect () :=
  s <- get ;;
  if negb force && have_last s && zmk_endpoint_instance_eq selected (last_selected s) &&
     zmk_endpoint_instance_eq preferred (last_preferred s) then ret () else
  modify (fun s => s <| last_selected := selected |> <| last_preferred := preferred |>
                     <| have_last := true |>) ;;
  emit (printk ("totem_ep " +:+ why +:+ " selected=" +:+ endpoint_text selected +:+ " preferred=" +:+
    endpoint_text preferred +:+ (if zmk_endpoint_instance_eq selected preferred then "" else "  FALLBACK"))).

Definition totem_endpoint_poll_handler (selected preferred : zmk_endpoint_instance)
    : proc endpoint_log log_effect () :=
  totem_print_endpoints "changed" false selected preferred ;;
  emit (reschedule_endpoint_poll (K_MSEC 1000)).
(** [is_change] says the event is an endpoint change. *)
Definition totem_endpoint_changed_listener (is_change : bool) (selected preferred : zmk_endpoint_instance)
    : proc endpoint_log log_effect () :=
  if negb is_change then ret () else
  totem_print_endpoints "changed" false selected preferred.
Definition totem_endpoint_boot_work_handler (selected preferred : zmk_endpoint_instance)
    : proc endpoint_log log_effect () :=
  totem_print_endpoints "boot" true selected preferred.
Definition totem_endpoint_log_init : proc endpoint_log log_effect () :=
  emit (schedule_endpoint_boot (K_MSEC CONFIG_TOTEM_BOOT_PROFILE_DUMP_DELAY_MS)) ;;
  emit (schedule_endpoint_poll (K_MSEC (CONFIG_TOTEM_BOOT_PROFILE_DUMP_DELAY_MS + 1000))).
End code.
End Endpoint.

Module Params.
Section code.
Context `{!View} (bt_addr_le_to_str : bt_addr_le_t -> string).

Definition print_params (c : conn) (why : string) : proc () log_effect () :=
  match bt_conn_get_info c with
  | None => ret ()
  | Some info =>
      if negb (info_type info =? BT_CONN_TYPE_LE) then ret () else
      emit (printk ("totem_ble conn_params " +:+ why +:+ " addr=" +:+ bt_addr_le_to_str (bt_conn_get_dst c) +:+
        " role=" +:+ fmt_u (info_role info) +:+ " interval=" +:+ fmt_u (le_interval info) +:+
        " latency=" +:+ fmt_u (le_latency info) +:+ " timeout=" +:+ fmt_u (le_timeout info)))
  end.
Definition conn_params_connected (c : conn) (err : Z) : proc () log_effect () :=
  when (err =? 0) (print_params c "connected").
Definition conn_params_updated (c : conn) (interval latency timeout : Z) : proc () log_effect () :=
  print_params c "updated".
End code.
End Params.

Module LogProps.
Import Battery Endpoint.

(** ** The rate limit *)
Section battery.
Context `{!Clock} `{!BatteryConfig}.
Implicit Types (s : battery) (t : nat).

(** What the file receives: battery events and its two timers, each with its own view of the
    batteries. *)
Inductive batt_op :=
| on_event (e : batt_event)
| on_tick
| on_heartbeat (v : View).
Definition exec (bv : BatteryView) (o : batt_op) : proc battery log_effect () :=
  match o with
  | on_event e => totem_batt_listener e
  | on_tick => totem_batt_tick_handler
  | on_heartbeat v => @totem_batt_heartbeat_handler _ bv v
  end.
Definition is_event (o : batt_op) : bool := match o with on_event _ => true | _ => false end.

(** The lines on the console. *)
Definition line_of (e : log_effect) : option string := match e with printk text => Some text | _ => None end.
Definition lines (es : list log_effect) : list string := omap line_of es.
(** The line an event prints at the clock reading [t], in the state it leaves. *)
Definition event_line (bv : BatteryView) (o : batt_op) s t : string :=
  "totem_batt " +:+ (match o with on_event battery_state_changed => "local" | _ => "periph" end) +:+
  " t=" +:+ fmt_u (u32 (uptime (S t)) `quot` 1000) +:+ "s " +:+ format_levels s +:+
  (if peripheral_soc s <? 0 then "  (no report yet)" else "").

(** The event-driven lines of a run, from what is printed: the time at which the event was
    handled, the levels the batteries read then, the text, and the text it should be. *)
Record event_print := EventPrint { at_ms : Z; levels : string; shown : string; due_text : string }.
Fixpoint event_prints (ops : list (BatteryView * batt_op)) s t : list event_print :=
  match ops with
  | [] => []
  | (bv, o) :: ops =>
      let r := exec bv o s t in
      (if is_event o
       then (fun text => EventPrint (uptime t) (@format_levels bv (fin r)) text (event_line bv o (fin r) t)) <$>
            lines (eff r)
       else []) ++
      event_prints ops (fin r) (clk r)
  end.

(** The code takes a line printed at uptime 0 for no line yet. *)
Definition spaced_and_new (a b : Z * string) : Prop :=
  (a.1 <> 0 -> a.1 + BATT_EVENT_MIN_INTERVAL_MS <= b.1) /\ a.2 <> b.2.
Definition reading (p : event_print) : Z * string := (at_ms p, levels p).

(** What the listener does: print the levels and remember them, or nothing. *)
Lemma should_print_spec (bv : BatteryView) why s t :
  wp (b <- batt_event_should_print ;; when b (totem_batt_print why false)) (fun _ s' _ es =>
    (es = [] /\ last_event_print_ms s' = last_event_print_ms s /\ last_printed s' = last_printed s) \/
    (es = [printk ("totem_batt " +:+ why +:+ " t=" +:+ fmt_u (u32 (uptime (S t)) `quot` 1000) +:+ "s " +:+
           format_levels s' +:+ (if peripheral_soc s' <? 0 then "  (no report yet)" else ""))] /\
     last_printed s' = format_levels s' /\ last_event_print_ms s' = uptime t /\
     spaced_and_new (last_event_print_ms s, last_printed s) (uptime t, format_levels s'))) s t.
Proof.
  unfold batt_event_should_print. wp_steps.
  destruct (String.eqb_spec (format_levels s) (last_printed s)) as [|Hne]; [wp_steps; by left|].
  destruct (negb (last_event_print_ms s =? 0) && (uptime t - last_event_print_ms s <? BATT_EVENT_MIN_INTERVAL_MS))
    eqn:Hgap; [wp_steps; by left|].
  assert (spaced_and_new (last_event_print_ms s, last_printed s) (uptime t, format_levels s)) as Hnew.
  { split; cbn; [|congruence]. intros Hz. apply andb_false_iff in Hgap as [Hg|Hg].
    - by destruct (Z.eqb_spec (last_event_print_ms s) 0).
    - apply Z.ltb_ge in Hg. lia. }
  wp_steps. cbn [when]. unfold totem_batt_print. cbn [andb]. wp_steps. cbn [peripheral_soc].
  destruct (_ <? 0) eqn:Hsoc; wp_steps; right; (split; [|done]); cbn [set_field peripheral_soc] in Hsoc |- *;
    cbn in Hsoc |- *; rewrite ?Hsoc; by rewrite ?str_app_nil, !str_app_assoc.
Qed.
Lemma listener_spec (bv : BatteryView) e s t :
  wp (totem_batt_listener e) (fun _ s' _ es =>
    (es = [] /\ last_event_print_ms s' = last_event_print_ms s /\ last_printed s' = last_printed s) \/
    (es = [printk (event_line bv (on_event e) s' t)] /\
     last_printed s' = format_levels s' /\ last_event_print_ms s' = uptime t /\
     spaced_and_new (last_event_print_ms s, last_printed s) (uptime t, format_levels s'))) s t.
Proof.
  destruct e as [soc| |]; cbn [totem_batt_listener]; [|apply (should_print_spec bv)..].
  apply wp_bind, wp_modify. cbv beta. eapply wp_mono; [apply (should_print_spec bv)|].
  intros [] s' t' es Hs'. exact Hs'.
Qed.
(** The timers leave the limit alone. *)
Lemma timer_spec bv o s t :
  is_event o = false -> wp (exec bv o) (fun _ s' _ _ => s' = s) s t.
Proof.
  destruct o as [e| |v]; [done| |]; intros _; cbn [exec].
  - unfold totem_batt_tick_handler, totem_batt_print. wp_steps.
    destruct (true && _); [|destruct (_ <? 0)]; by wp_steps.
  - done.
Qed.

Lemma prints_spaced ops s t :
  Sorted spaced_and_new ((last_event_print_ms s, last_printed s) :: (reading <$> event_prints ops s t)) /\
  Forall (fun p => shown p = due_text p) (event_prints ops s t).
Proof.
  revert s t. induction ops as [|[bv o] ops IH]; intros s t; cbn [event_prints].
  { split; repeat constructor. }
  cbv zeta. destruct (IH (fin (exec bv o s t)) (clk (exec bv o s t))) as [Hsort Htext].
  destruct (is_event o) eqn:Ho.
  2: { pose proof (timer_spec bv o s t Ho) as Hs. unfold wp in Hs. rewrite Hs in Hsort, Htext |- *. by split. }
  destruct o as [e| |v]; [|done..]. cbn [exec] in *.
  pose proof (listener_spec bv e s t) as Hl. unfold wp in Hl.
  destruct Hl as [(He&Ht&Hp)|(He&Hp&Ht&Hnew)]; rewrite He, Hp, Ht in *.
  - by split.
  - cbn [lines omap list_omap line_of fmap list_fmap app reading at_ms levels shown due_text]. split; [|by constructor].
    constructor; [exact Hsort|by constructor].
Qed.

(** C39 Battery events cannot flood the console: of any sequence of battery events from boot, with
    ticks and heartbeats in between and whatever the batteries read at each, what is printed for
    an event is one line with its source, the time and the levels the batteries read at that
    moment; two consecutive such lines are printed at least a second apart and never show the
    same levels, and the first does not show the empty text.  (A line printed at uptime 0 is the
    one exemption from the second: the code takes it for no line yet.) *)
Theorem battery_lines_limited ops t :
  let prints := event_prints ops battery_init t in
  Sorted spaced_and_new ((0, "") :: (reading <$> prints)) /\
  Forall (fun p => shown p = due_text p) prints.
Proof. apply (prints_spaced ops battery_init t). Qed.

(** ** The heartbeat *)
Lemma battery_mv_range `{!BatteryView} : 0 <= battery_mv < 65536.
Proof.
  unfold battery_mv. destruct (_ =? 0); [|apply u16_range].
  destruct gauge_voltage as [[val1 val2]|]; apply u16_range.
Qed.

Lemma lor_top_bit m : 0 <= m < 2 ^ 15 -> Z.lor m 0x8000 = m + 2 ^ 15.
Proof.
  intros Hm. change 0x8000 with (2 ^ 15). assert (Z.land m (2 ^ 15) = 0) as Hl.
  { apply Z.bits_inj'. intros i Hi. rewrite Z.land_spec, Z.testbit_0_l, Z.pow2_bits_eqb by lia.
    destruct (Z.eqb_spec 15 i) as [<-|]; [|by rewrite andb_false_r].
    rewrite andb_true_r. apply Z.testbit_false; [lia|]. by rewrite Z.div_small by lia. }
  by rewrite Z.add_nocarry_lxor, Z.lxor_lor.
Qed.

(** The heartbeat of the journal is decodable: from the two bytes of its packed word a reader
    recovers the battery voltage, saturated at 32767 mV, and whether USB was powered, and the
    other fields are the selected profile, the right half's level and the left half's. *)
Theorem heartbeat_decodes (bv : BatteryView) (v : View) s t :
  exists w x,
    eff (totem_batt_heartbeat_handler s t) =
      [host (log_record TOTEM_HEVT_HEARTBEAT (i8 zmk_ble_active_profile_index) (i8 (peripheral_soc s))
               (u8 zmk_battery_state_of_charge) w x);
       reschedule_batt_heartbeat (K_MINUTES CONFIG_TOTEM_DIAG_HEARTBEAT_MIN)] /\
    is_byte w /\ is_byte x /\
    Z.land (of_le16 w x) 0x7FFF = Z.min battery_mv 32767 /\
    Z.testbit (of_le16 w x) 15 = left_on_usb.
Proof.
  pose proof battery_mv_range as Hmv. set (mv := Z.min battery_mv 0x7FFF).
  assert (0 <= mv < 2 ^ 15) as Hr by (unfold mv; lia).
  set (word := if left_on_usb then Z.lor mv 0x8000 else mv).
  assert (word = mv + (if left_on_usb then 2 ^ 15 else 0)) as Hword.
  { unfold word. destruct left_on_usb; [by apply lor_top_bit|lia]. }
  exists (u8 word), (u8 (word ≫ 8)). split_and!.
  - unfold totem_batt_heartbeat_handler. cbn -[u8 i8 battery_mv Z.shiftr Z.lor Z.min].
    fold mv. fold word. by rewrite !i8_idemp, !u8_idemp.
  - apply u8_range.
  - apply u8_range.
  - rewrite of_le16_le16, Hword, u16_small by (destruct left_on_usb; lia).
    change 0x7FFF with (Z.ones 15). rewrite Z.land_ones by lia. destruct left_on_usb.
    + rewrite <- (Z.mul_1_l (2 ^ 15)) at 1. rewrite Z.mod_add, Z.mod_small by lia. done.
    + rewrite Z.add_0_r, Z.mod_small by lia. done.
  - rewrite of_le16_le16, Hword, u16_small by (destruct left_on_usb; lia).
    destruct left_on_usb.
    + apply Z.testbit_true; [lia|]. rewrite <- (Z.mul_1_l (2 ^ 15)) at 1.
      rewrite Z.div_add, Z.div_small by lia. done.
    + apply Z.testbit_false; [lia|]. rewrite Z.add_0_r, Z.div_small by lia. done.
Qed.

End battery.

(** A storm of reports every 200 ms, with a tick in between. *)
Example storm :
  let bv := {| zmk_battery_millivolts := 0; gauge_voltage := None; zmk_battery_reported_soc := 80;
               zmk_battery_state_of_charge := 80; zmk_studio_log_battery_snapshot := None |} in
  let cfg := {| CONFIG_TOTEM_BATTERY_LOG_INTERVAL_SEC := 60; CONFIG_TOTEM_DIAG_HEARTBEAT_MIN := 15 |} in
  let report soc := (bv, on_event (peripheral_battery_state_changed soc)) in
  reading <$> @event_prints (ticking 200 200) cfg
    [report 50; report 50; (bv, on_tick); report 49; report 48; report 47; report 46; report 45] battery_init 0%nat =
  [(200, "left=80 right=50"); (1200, "left=80 right=48")].
Proof. vm_compute. reflexivity. Qed.

(** ** Endpoint changes *)
Section endpoints.
Context `{!Endpoints} `{!EqDecision zmk_endpoint_instance}.
Hypothesis eq_is_equality : forall a b, zmk_endpoint_instance_eq a b = bool_decide (a = b).
Notation pair := (zmk_endpoint_instance * zmk_endpoint_instance)%type.

(** What the polls print, as the pair each line reports. *)
Fixpoint polled (samples : list pair) (s : endpoint_log) t : list pair :=
  match samples with
  | [] => []
  | x :: samples =>
      let r := totem_endpoint_poll_handler x.1 x.2 s t in
      (if existsb (fun e => match e with printk _ => true | _ => false end) (eff r) then [x] else []) ++
      polled samples (fin r) (clk r)
  end.
(** The reference: the samples that differ from the one before. *)
Fixpoint changes (prev : pair) (samples : list pair) : list pair :=
  match samples with
  | [] => []
  | x :: samples => (if decide (x = prev) then [] else [x]) ++ changes x samples
  end.

(** Once the boot line is out, polling prints exactly the changes of the selected or the
    preferred endpoint, a fallback included. *)
Lemma polled_changes samples s t :
  have_last s = true -> polled samples s t = changes (last_selected s, last_preferred s) samples.
Proof.
  revert s t. induction samples as [|[sel pref] samples IH]; intros s t Hs; cbn [polled changes]; [done|].
  cbv zeta. cbn [fst snd].
  assert (wp (totem_endpoint_poll_handler sel pref) (fun _ s' _ es =>
    have_last s' = true /\ last_selected s' = sel /\ last_preferred s' = pref /\
    existsb (fun e => match e with printk _ => true | _ => false end) es =
      negb (bool_decide ((sel, pref) = (last_selected s, last_preferred s)))) s t) as Hp.
  { unfold totem_endpoint_poll_handler, totem_print_endpoints. wp_steps. rewrite Hs, !eq_is_equality. cbn [negb andb].
    destruct (bool_decide_reflect (sel = last_selected s)) as [->|], (bool_decide_reflect (pref = last_preferred s))
      as [->|]; cbn [andb]; wp_steps; split_and!; try done.
    1: by rewrite bool_decide_eq_true_2.
    all: by rewrite (bool_decide_eq_false_2 ((_, _) = (_, _))) by congruence. }
  unfold wp in Hp. destruct Hp as (Hh&Hsel&Hpref&->). rewrite IH, Hsel, Hpref by done.
  destruct (bool_decide_reflect ((sel, pref) = (last_selected s, last_preferred s))); by case_decide.
Qed.
End endpoints.
End LogProps.
