(* ===== verification/DumpReader.v ===== *)
(** * The reader of a dump on the computer (tools/read_diag_dump.py)

    The script asks for a dump over the serial port, takes the framing off, and exits with 0
    only when a begin line, every numbered data line and the matching end marker arrived.
    [Reader] is the script, [ReaderProps] the framing's round trip and the verdict of the
    script on what the keyboard sent. *)
From Stdlib Require Import Ascii String.
From S2P Require Import Prelude Events Platform Samples Text BootDiagnostics Fault HostEventLog.
From S2P Require Import HostEventSpec HostEventDump HostEventDumpProps StudioConsole.
Local Open Scope string_scope.
Local Open Scope list_scope.
Local Open Scope Z_scope.

Module Reader.

(** Python's [bytes] and [str] are lists of byte values and of code points. *)
Definition codes (s : string) : list Z := (fun a => Z.of_N (N_of_ascii a)) <$> list_ascii_of_string s.

(** The decimal digits of Unicode with their values, as [\d] and [int] know them. *)
Class UnicodeDigits := {
  decimal : Z -> option Z;
  decimal_ascii c : 0 <= c < 128 ->
    decimal c = if (48 <=? c) && (c <=? 57) then Some (c - 48) else None;
}.

(** ** Framing *)
Definition SOF : Z := 0xAB.
Definition ESC : Z := 0xAC.
Definition EOF : Z := 0xAD.

Definition escape (byte : Z) : list Z :=
  (if (byte =? SOF) || (byte =? ESC) || (byte =? EOF) then [ESC] else []) ++ [byte].
Definition frame (payload : list Z) : list Z := [SOF] ++ (payload ≫= escape) ++ [EOF].

Record deframer := Deframer { active : bool; escaped : bool; payload : list Z }.
#[export] Instance deframer_eta : Eta deframer := fun d => Deframer (active d) (escaped d) (payload d).
Definition deframer_init : deframer := Deframer false false [].

(** The branches on one byte of an active frame, and the payload they yield. *)
Definition in_frame (d : deframer) (byte : Z) : deframer * option (list Z) :=
  if escaped d then (d <| payload := payload d ++ [byte] |> <| escaped := false |>, None)
  else if byte =? ESC then (d <| escaped := true |>, None)
  else if byte =? SOF then (d <| payload := [] |>, None)
  else if byte =? EOF then (d <| active := false |> <| payload := [] |>, Some (payload d))
  else (d <| payload := payload d ++ [byte] |>, None).
Definition feed_byte (d : deframer) (byte : Z) : deframer * option (list Z) :=
  if negb (active d) then
    (if byte =? SOF then d <| active := true |> <| payload := [] |> else d, None)
  else
    let r := in_frame d byte in
    (if 512 <? alen (payload r.1)
     then r.1 <| active := false |> <| escaped := false |> <| payload := [] |> else r.1, r.2).
Fixpoint Deframer_feed (d : deframer) (chunk : list Z) : deframer * list (list Z) :=
  match chunk with
  | [] => (d, [])
  | byte :: chunk =>
      let r := feed_byte d byte in
      let r' := Deframer_feed r.1 chunk in
      (r'.1, option_list r.2 ++ r'.2)
  end.

(** ** [bytes.decode("utf-8", "replace")]

    Every maximal initial part of a character that is not one becomes U+FFFD.  A sequence that
    was begun lacks [missing] bytes, the next of them between [low] and [high]. *)
Record utf8_sequence := Utf8 { missing : nat; low : Z; high : Z; code : Z }.
Definition REPLACEMENT : Z := 0xFFFD.
Definition utf8_lead (b : Z) : option utf8_sequence :=
  if (0xC2 <=? b) && (b <=? 0xDF) then Some (Utf8 1 0x80 0xBF (b - 0xC0))
  else if (0xE0 <=? b) && (b <=? 0xEF) then
    Some (Utf8 2 (if b =? 0xE0 then 0xA0 else 0x80) (if b =? 0xED then 0x9F else 0xBF) (b - 0xE0))
  else if (0xF0 <=? b) && (b <=? 0xF4) then
    Some (Utf8 3 (if b =? 0xF0 then 0x90 else 0x80) (if b =? 0xF4 then 0x8F else 0xBF) (b - 0xF0))
  else None.
(** A byte outside a sequence: the characters it gives, the sequence it begins. *)
Definition utf8_start (b : Z) : list Z * option utf8_sequence :=
  if b <? 0x80 then ([b], None) else
  match utf8_lead b with Some q => ([], Some q) | None => ([REPLACEMENT], None) end.
Definition utf8_step (pending : option utf8_sequence) (b : Z) : list Z * option utf8_sequence :=
  match pending with
  | None => utf8_start b
  | Some q =>
      if (low q <=? b) && (b <=? high q) then
        let code := code q * 64 + (b - 0x80) in
        match missing q with
        | S (S n) => ([], Some (Utf8 (S n) 0x80 0xBF code))
        | _ => ([code], None)
        end
      else let r := utf8_start b in (REPLACEMENT :: r.1, r.2)
  end.
Fixpoint utf8_decode (pending : option utf8_sequence) (bs : list Z) : list Z :=
  match bs with
  | [] => match pending with Some _ => [REPLACEMENT] | None => [] end
  | b :: bs => let r := utf8_step pending b in r.1 ++ utf8_decode r.2 bs
  end.
Definition decode (bs : list Z) : list Z := utf8_decode None bs.

(** ** [re.match]

    A pattern is a sequence of pieces; a greedy piece tries the longest run first and falls
    back to shorter ones.  The result lists the groups. *)
Inductive piece :=
| text (s : string)          (* the characters themselves *)
| digits                     (* (\d+) *)
| dots                       (* (.+), everything but a newline *)
| eol.                       (* $, at the end or before a final newline *)

Fixpoint strip (prefix s : list Z) : option (list Z) :=
  match prefix, s with
  | [], _ => Some s
  | c :: prefix, c' :: s => if c =? c' then strip prefix s else None
  | _ :: _, [] => None
  end.
Fixpoint runs (p : Z -> bool) (s : list Z) : list (list Z * list Z) :=
  match s with
  | [] => []
  | c :: s => if p c then ((fun r => (c :: r.1, r.2)) <$> runs p s) ++ [([c], s)] else []
  end.
Fixpoint first_some {A B} (f : A -> option B) (l : list A) : option B :=
  match l with
  | [] => None
  | a :: l => match f a with Some b => Some b | None => first_some f l end
  end.

Section code.
Context `{!UnicodeDigits}.

Definition is_decimal (c : Z) : bool := bool_decide (is_Some (decimal c)).
Definition no_newline (c : Z) : bool := negb (c =? 10).
Definition at_end (s : list Z) : bool :=
  match s with [] => true | [c] => c =? 10 | _ => false end.

Fixpoint re_match (pattern : list piece) (s : list Z) : option (list (list Z)) :=
  match pattern with
  | [] => Some []
  | text t :: pattern => match strip (codes t) s with Some s => re_match pattern s | None => None end
  | digits :: pattern => first_some (fun r => cons r.1 <$> re_match pattern r.2) (runs is_decimal s)
  | dots :: pattern => first_some (fun r => cons r.1 <$> re_match pattern r.2) (runs no_newline s)
  | eol :: pattern => if at_end s then re_match pattern s else None
  end.

Definition BEGIN : list piece :=
  [text "totem_diag begin id="; digits; text " lines="; digits; text " blocks="; digits;
   text " persisted="; digits; text " ram="; digits; text " seq="; digits; eol].
Definition DATA : list piece := [text "totem_diag d="; digits; text " n="; digits; text " "; dots; eol].
Definition END : list piece :=
  [text "totem_diag end id="; digits; text " lines="; digits; text " status=ok"; eol].

(** [int(match[n])] *)
Definition int (s : list Z) : Z := foldl (fun n c => 10 * n + default 0 (decimal c)) 0 s.
Definition group (groups : list (list Z)) (n : nat) : Z := int (groups !!! (n - 1)%nat).

(** ** [DumpVerifier] *)
Inductive verify_error :=
| counts_disagree
| expected_line (next got : Z)
| expected_lines (expected : option Z) (got : Z).
Record dump_verifier := DumpVerifier {
  dump_id : option Z;
  expected : option Z;
  next_line : Z;
  error : option verify_error;
  complete : bool;
}.
#[export] Instance dump_verifier_eta : Eta dump_verifier := fun v =>
  DumpVerifier (dump_id v) (expected v) (next_line v) (error v) (complete v).
Definition verifier_init : dump_verifier := DumpVerifier None None 0 None false.

(** [match and int(match[1]) == self.dump_id] *)
Definition matches_id (groups : option (list (list Z))) (id : Z) : option (list (list Z)) :=
  match groups with Some g => if group g 1 =? id then Some g else None | None => None end.

Definition DumpVerifier_feed (v : dump_verifier) (line : list Z) : dump_verifier * bool :=
  match re_match BEGIN line with
  | Some begin =>
      (DumpVerifier (Some (group begin 1)) (Some (group begin 2)) 0
         (if negb (group begin 2 =? group begin 3 + group begin 4 + group begin 5)
          then Some counts_disagree else None) false, true)
  | None =>
  match dump_id v with
  | None => (v, false)
  | Some id =>
  match matches_id (re_match DATA line) id with
  | Some data =>
      let ordinal := group data 2 in
      (v <| error := if negb (ordinal =? next_line v) && bool_decide (error v = None)
                     then Some (expected_line (next_line v) ordinal) else error v |>
         <| next_line := ordinal + 1 |>, true)
  | None =>
  match matches_id (re_match END line) id with
  | Some fin =>
      let error' :=
        if bool_decide (Some (group fin 2) <> expected v) || bool_decide (Some (next_line v) <> expected v)
        then match error v with Some e => Some e | None => Some (expected_lines (expected v) (next_line v)) end
        else error v in
      (v <| error := error' |> <| complete := bool_decide (error' = None) |>, true)
  | None => (v, false)
  end end end end.

(** ** [main] *)
Definition startswith (prefix : string) (s : list Z) : bool := bool_decide (is_Some (strip (codes prefix) s)).

(** The body of the inner loop: the verifier, what is printed, and the exit status if it returns. *)
Definition on_payload (v : dump_verifier) (payload : list Z)
    : dump_verifier * list (list Z) * option Z :=
  if negb (startswith "L" payload) then (v, [], None) else
  let line := decode (drop 1 payload) in
  let '(v, recognized) := DumpVerifier_feed v line in
  let out := if recognized || startswith "totem_fault saved " line || startswith "totem_boot " line
             then [line] else [] in
  if complete v then (v, out, Some 0)
  else if recognized && bool_decide (is_Some (re_match END line)) then (v, out, Some 1)
  else (v, out, None).
Fixpoint on_payloads (v : dump_verifier) (payloads : list (list Z))
    : dump_verifier * list (list Z) * option Z :=
  match payloads with
  | [] => (v, [], None)
  | payload :: payloads =>
      let '(v, out, status) := on_payload v payload in
      match status with
      | Some _ => (v, out, status)
      | None => let '(v, out', status) := on_payloads v payloads in (v, out ++ out', status)
      end
  end.
(** [chunks] are the results of [port.read(256)] up to the deadline. *)
Fixpoint read_loop (d : deframer) (v : dump_verifier) (chunks : list (list Z)) : list (list Z) * Z :=
  match chunks with
  | [] => ([], 1)
  | chunk :: chunks =>
      let '(d, payloads) := Deframer_feed d chunk in
      let '(v, out, status) := on_payloads v payloads in
      match status with
      | Some status => (out, status)
      | None => let '(out', status) := read_loop d v chunks in (out ++ out', status)
      end
  end.

(** What the script writes to the port, what it prints and its exit status. *)
Definition main (chunks : list (list Z)) : list Z * list (list Z) * Z :=
  let '(printed, status) := read_loop deframer_init verifier_init chunks in
  (frame (codes "D1"), printed, status).
End code.
End Reader.

Module ReaderProps.
Import Journal JournalSpec Dump DumpProps Reader.

(** ** Framing *)
Section framing.
Implicit Types (d : deframer) (p bs : list Z) (ps : list (list Z)).

Lemma feed_app d bs bs' :
  Deframer_feed d (bs ++ bs') =
  ((Deframer_feed (Deframer_feed d bs).1 bs').1,
   (Deframer_feed d bs).2 ++ (Deframer_feed (Deframer_feed d bs).1 bs').2).
Proof.
  revert d. induction bs as [|b bs IH]; intros d; cbn [app Deframer_feed fst snd].
  - by rewrite <- surjective_pairing.
  - rewrite IH. cbn [fst snd]. by rewrite app_assoc.
Qed.

(** One byte of a payload, escaped if need be, is appended. *)
Lemma feed_escape acc b :
  alen acc < 512 ->
  Deframer_feed (Deframer true false acc) (escape b) = (Deframer true false (acc ++ [b]), []).
Proof.
  intros Hl. assert (alen (acc ++ [b]) <= 512) as Hl' by (unfold alen in *; rewrite length_app; cbn; lia).
  unfold escape.
  destruct (Z.eqb_spec b SOF) as [->|Hs]; [|destruct (Z.eqb_spec b ESC) as [->|He];
    [|destruct (Z.eqb_spec b EOF) as [->|Hf]]];
    cbn [orb app Deframer_feed]; unfold feed_byte, in_frame; cbn;
    rewrite ?(proj2 (Z.eqb_neq _ _) Hs), ?(proj2 (Z.eqb_neq _ _) He), ?(proj2 (Z.eqb_neq _ _) Hf);
    cbn; rewrite ?(proj2 (Z.ltb_ge 512 (alen acc))) by lia; cbn;
    rewrite ?(proj2 (Z.ltb_ge 512 (alen (acc ++ _)))) by lia; done.
Qed.
Lemma feed_escapes acc p :
  alen acc + alen p <= 512 ->
  Deframer_feed (Deframer true false acc) (p ≫= escape) = (Deframer true false (acc ++ p), []).
Proof.
  revert acc. induction p as [|b p IH]; intros acc Hl; [by rewrite app_nil_r|].
  cbn [mbind list_bind]. rewrite feed_app, feed_escape by (unfold alen in *; cbn [length] in *; lia).
  cbn [fst snd app]. rewrite IH by (unfold alen in *; rewrite length_app; cbn [length] in *; lia).
  by rewrite <- app_assoc.
Qed.
(** A frame is read whatever came before it, a part of another frame included, unless the
    bytes before it end inside an escape. *)
Lemma feed_frame d p :
  escaped d = false -> alen p <= 512 -> Deframer_feed d (frame p) = (deframer_init, [p]).
Proof.
  destruct d as [a e q]. cbn [escaped]. intros -> Hl. unfold frame. rewrite feed_app.
  assert (Deframer_feed (Deframer a false q) [SOF] = (Deframer true false [], [])) as ->
    by by destruct a.
  cbn [fst snd app]. rewrite feed_app, (feed_escapes [] p Hl). done.
Qed.

(** The buffer never holds more than 512 bytes, so no longer payload is ever yielded; a frame that
    is too long is given up. *)
Lemma feed_byte_bounded d b :
  alen (payload d) <= 512 ->
  alen (payload (feed_byte d b).1) <= 512 /\ Forall (fun p => alen p <= 512) (option_list (feed_byte d b).2).
Proof.
  intros Hl. unfold feed_byte. destruct (active d); cbn [negb fst snd].
  - split; [destruct (Z.ltb_spec 512 (alen (payload (in_frame d b).1))); [done|lia]|].
    unfold in_frame. destruct (escaped d), (b =? ESC), (b =? SOF), (b =? EOF); by repeat constructor.
  - split; [by destruct (b =? SOF)|constructor].
Qed.
Lemma feed_bounded d bs :
  alen (payload d) <= 512 -> Forall (fun p => alen p <= 512) (Deframer_feed d bs).2.
Proof.
  revert d. induction bs as [|b bs IH]; intros d Hl; [constructor|]. cbn [Deframer_feed snd].
  destruct (feed_byte_bounded d b Hl). apply Forall_app. auto.
Qed.

(** Bytes between frames: no frame of their own, and not the first half of an escape. *)
Definition gap_ok bs : Prop :=
  (Deframer_feed deframer_init bs).2 = [] /\ escaped (Deframer_feed deframer_init bs).1 = false.

(** Frames with gaps between them; the chunks in which they are read do not matter. *)
Definition stream (packets : list (list Z * list Z)) : list Z := packets ≫= fun x => x.1 ++ frame x.2.
Definition packet_ok (x : list Z * list Z) : Prop := gap_ok x.1 /\ alen x.2 <= 512.
Lemma feed_stream packets rest :
  Forall packet_ok packets -> (Deframer_feed deframer_init rest).2 = [] ->
  (Deframer_feed deframer_init (stream packets ++ rest)).2 = packets.*2.
Proof.
  intros Hp Hr. induction Hp as [|[gap p] packets [[Hg He] Hl] _ IH]; [done|].
  cbn [stream mbind list_bind fst snd fmap list_fmap] in *. rewrite <- !app_assoc, feed_app. cbn [snd].
  rewrite Hg, feed_app, (feed_frame _ p) by done. cbn [fst snd app]. by f_equal.
Qed.
End framing.

(** ** Printable text *)
Section texts.
Implicit Types (s : string) (z : Z).

Definition printable (a : ascii) : bool := (32 <=? Z.of_N (N_of_ascii a)) && (Z.of_N (N_of_ascii a) <? 127).
Definition plain s : bool := all_chars printable s.

Lemma codes_cons a s : codes (String a s) = Z.of_N (N_of_ascii a) :: codes s.
Proof. done. Qed.
Lemma codes_app s s' : codes (s +:+ s') = codes s ++ codes s'.
Proof. induction s as [|a s IH]; [done|]. rewrite cons_app, !codes_cons, IH. done. Qed.
Lemma len_codes s : alen (codes s) = len s.
Proof.
  unfold alen, len. f_equal. induction s as [|a s IH]; [done|]. rewrite codes_cons. cbn. by rewrite IH.
Qed.
Lemma plain_app s s' : plain (s +:+ s') = plain s && plain s'.
Proof. apply all_chars_app. Qed.
Lemma plain_codes s : plain s = true -> Forall (fun c => 32 <= c < 127) (codes s).
Proof.
  induction s as [|a s IH]; intros Hs; [constructor|]. cbn [plain all_chars] in Hs.
  apply andb_true_iff in Hs as [Ha Hs]. unfold printable in Ha. rewrite codes_cons.
  constructor; [lia|by apply IH].
Qed.

(** Numbers are printable, whatever their value. *)
Lemma digit_plain z : 0 <= z < 16 -> printable (digit z) = true.
Proof.
  intros Hz. unfold printable, digit. destruct (Z.ltb_spec z 10); rewrite N_ascii_embedding, Z2N.id by lia; apply andb_true_iff; lia.
Qed.
Lemma plain_dec fuel z : plain (dec fuel z) = true.
Proof.
  revert z. induction fuel as [|fuel IH]; intros z; [done|]. cbn [dec]. rewrite plain_app.
  pose proof (Z.mod_pos_bound z 10 ltac:(lia)).
  cbn -[printable digit plain]. cbn [plain all_chars]. rewrite digit_plain by lia.
  destruct (z <? 10); [done|]. by rewrite IH.
Qed.
Lemma plain_hex n z : plain (hex n z) = true.
Proof.
  revert z. induction n as [|n IH]; intros z; [done|]. cbn [hex]. rewrite plain_app, IH.
  pose proof (Z.mod_pos_bound z 16 ltac:(lia)). cbn [plain all_chars]. by rewrite digit_plain by lia.
Qed.
Lemma plain_u z : plain (fmt_u z) = true.
Proof. apply plain_dec. Qed.
Lemma plain_d z : plain (fmt_d z) = true.
Proof. unfold fmt_d. destruct (z <? 0); [rewrite plain_app|]; by rewrite plain_u. Qed.
Lemma plain_08x z : plain (fmt_08x z) = true.
Proof. apply plain_hex. Qed.

(** Text in ASCII is decoded as it is. *)
Lemma decode_codes s : plain s = true -> decode (codes s) = codes s.
Proof.
  intros Hs. apply plain_codes in Hs. unfold decode. induction Hs as [|c cs Hc _ IH]; [done|].
  cbn [utf8_decode utf8_step]. unfold utf8_start. destruct (Z.ltb_spec c 0x80); [|lia].
  cbn [fst snd app]. by rewrite IH.
Qed.
End texts.

(** ** Patterns on the lines of a dump *)
Section patterns.
Context `{!UnicodeDigits}.
Implicit Types (pattern : list piece) (cs : list Z) (line d : string) (id o z : Z).

Lemma is_decimal_ascii c : 0 <= c < 128 -> is_decimal c = (48 <=? c) && (c <=? 57).
Proof.
  intros Hc. unfold is_decimal. rewrite decimal_ascii by done. destruct (_ && _); [|done].
  by apply bool_decide_true.
Qed.
Lemma digit_decimal a : is_digit a = true -> decimal (Z.of_N (N_of_ascii a)) = Some (digit_value a).
Proof.
  unfold is_digit, digit_value. intros Ha. rewrite decimal_ascii by lia.
  destruct (Z.leb_spec 48 (Z.of_N (N_of_ascii a))), (Z.leb_spec (Z.of_N (N_of_ascii a)) 57);
    cbn [andb]; done || lia.
Qed.

(** What [\d+] captures of a number is read back by [int]. *)
Lemma int_digits (s : string) acc v :
  read_digits acc s = Some v -> foldl (fun n c => 10 * n + default 0 (decimal c)) acc (codes s) = v.
Proof.
  revert acc. induction s as [|a s IH]; intros acc; [intros [= ->]; done|].
  rewrite read_digits_cons, codes_cons. cbn [foldl]. destruct (is_digit a) eqn:Ha; [|done].
  rewrite digit_decimal by done. apply IH.
Qed.
Lemma int_fmt_u z : 0 <= z < 2 ^ 32 -> int (codes (fmt_u z)) = z.
Proof. intros Hz. apply int_digits. unfold fmt_u. apply read_dec; lia. Qed.
Lemma fmt_u_decimal z : 0 <= z -> Forall (fun c => is_decimal c = true) (codes (fmt_u z)).
Proof.
  intros Hz. pose proof (dec_digits 10 z Hz) as Hd. fold (fmt_u z) in Hd.
  induction (fmt_u z) as [|a s IH]; [constructor|]. cbn [all_chars] in Hd. apply andb_true_iff in Hd as [Ha Hs].
  rewrite codes_cons. constructor; [|by apply IH]. unfold is_decimal. rewrite digit_decimal by done. done.
Qed.
Lemma fmt_u_nonempty z : codes (fmt_u z) <> [].
Proof.
  unfold fmt_u. cbn [dec]. rewrite codes_app. intros Hn. apply app_nil in Hn as [_ Hn]. discriminate Hn.
Qed.

(** A greedy piece takes a maximal run. *)
Definition stops (p : Z -> bool) cs : Prop := match cs with [] => True | c :: _ => p c = false end.
Lemma runs_longest (p : Z -> bool) g cs :
  Forall (fun c => p c = true) g -> g <> [] -> stops p cs -> exists l, runs p (g ++ cs) = (g, cs) :: l.
Proof.
  intros Hg Hne Hs. induction Hg as [|c g Hc Hg IH]; [done|]. cbn [app runs]. rewrite Hc.
  destruct g as [|c' g].
  - destruct cs as [|c' cs]; cbn in *; [by exists []|]. rewrite Hs. by exists [].
  - destruct IH as [l ->]; [done|]. cbn. by eexists.
Qed.
Lemma match_digits pattern z cs groups :
  0 <= z -> stops is_decimal cs -> re_match pattern cs = Some groups ->
  re_match (digits :: pattern) (codes (fmt_u z) ++ cs) = Some (codes (fmt_u z) :: groups).
Proof.
  intros Hz Hs Hm. cbn [re_match].
  destruct (runs_longest is_decimal _ cs (fmt_u_decimal z Hz) (fmt_u_nonempty z) Hs) as [l ->].
  cbn. by rewrite Hm.
Qed.
Lemma match_last_digits z :
  0 <= z -> re_match [digits; eol] (codes (fmt_u z)) = Some [codes (fmt_u z)].
Proof. intros Hz. rewrite <- (app_nil_r (codes (fmt_u z))) at 1. by apply match_digits. Qed.
Lemma match_dots d : plain d = true -> d <> "" -> re_match [dots; eol] (codes d) = Some [codes d].
Proof.
  intros Hd Hne. cbn [re_match]. rewrite <- (app_nil_r (codes d)) at 1.
  destruct (runs_longest no_newline (codes d) []) as [l ->].
  - eapply Forall_impl; [by apply plain_codes|]. unfold no_newline. intros c Hc. cbn in Hc. lia.
  - by destruct d.
  - done.
  - done.
Qed.
Lemma strip_app cs cs' : strip cs (cs ++ cs') = Some cs'.
Proof. induction cs as [|c cs IH]; [by destruct cs'|]. cbn [app strip]. by rewrite Z.eqb_refl. Qed.
Lemma match_text pattern t cs : re_match (text t :: pattern) (codes t ++ cs) = re_match pattern cs.
Proof. cbn [re_match]. by rewrite strip_app. Qed.
Lemma match_last_text t : re_match [text t; eol] (codes t) = Some [].
Proof. rewrite <- (app_nil_r (codes t)). by rewrite match_text. Qed.

(** A number before a literal that begins with a space. *)
Lemma stops_space s cs : stops is_decimal (codes (String " " s) ++ cs).
Proof. unfold stops. cbn. by rewrite is_decimal_ascii by lia. Qed.
Lemma stops_last_space s : stops is_decimal (codes (String " " s)).
Proof. rewrite <- (app_nil_r (codes _)). apply stops_space. Qed.

Ltac stops_here :=
  match goal with |- stops _ (_ ++ _) => apply stops_space | _ => apply stops_last_space end.
Ltac match_line := repeat first
  [ apply match_last_text | rewrite match_text | apply match_last_digits; lia
  | eapply match_digits; [lia|stops_here|] ].
Lemma match_begin id lines blocks persisted ram seq :
  0 <= id -> 0 <= lines -> 0 <= blocks -> 0 <= persisted -> 0 <= ram -> 0 <= seq ->
  re_match BEGIN (codes (begin_text id lines blocks persisted ram seq)) =
  Some ((fun z => codes (fmt_u z)) <$> [id; lines; blocks; persisted; ram; seq]).
Proof. intros. unfold BEGIN, begin_text. rewrite !codes_app. match_line. Qed.
Lemma match_data id o d :
  0 <= id -> 0 <= o -> plain d = true -> d <> "" ->
  re_match DATA (codes (data_text id o d)) = Some [codes (fmt_u id); codes (fmt_u o); codes d].
Proof. intros. unfold DATA, data_text. rewrite !codes_app. match_line. by apply match_dots. Qed.
Lemma match_end id lines :
  0 <= id -> 0 <= lines ->
  re_match END (codes (end_text id lines)) = Some [codes (fmt_u id); codes (fmt_u lines)].
Proof.
  intros. unfold END, end_text. rewrite !codes_app. match_line.
Qed.

(** The first words tell the kinds of line apart. *)
Definition unmatched cs : Prop := re_match BEGIN cs = None /\ re_match DATA cs = None /\ re_match END cs = None.
Lemma data_not_begin id o d : re_match BEGIN (codes (data_text id o d)) = None.
Proof. reflexivity. Qed.
Lemma data_not_end id o d : re_match END (codes (data_text id o d)) = None.
Proof. reflexivity. Qed.
Lemma begin_not_end id lines blocks persisted ram seq :
  re_match END (codes (begin_text id lines blocks persisted ram seq)) = None.
Proof. reflexivity. Qed.
Lemma end_not_begin id lines : re_match BEGIN (codes (end_text id lines)) = None.
Proof. reflexivity. Qed.
Lemma end_not_data id lines : re_match DATA (codes (end_text id lines)) = None.
Proof. reflexivity. Qed.
Lemma header_unmatched (b : Boot.boot) (f : Fault.totem_fault_record) line :
  line ∈ header b f -> unmatched (codes line) /\
    startswith "totem_fault saved " (codes line) || startswith "totem_boot " (codes line) = true.
Proof.
  unfold header. rewrite elem_of_app, !elem_of_cons. intros [[->|[->|Hn]]|Hf].
  - done.
  - done.
  - by apply elem_of_nil in Hn.
  - destruct (Fault.kind f =? 0); [by apply elem_of_nil in Hf|].
    apply list_elem_of_singleton in Hf as ->. done.
Qed.
End patterns.

(** ** The lines of a dump are printable and fit a frame *)
Section lines.
Context `{!Config} `{!Clock} `{!Crc32}.
Implicit Types (j : journal) (id o : Z) (d : string).

Ltac solve_plain := rewrite ?plain_app, ?plain_u, ?plain_d, ?plain_08x; reflexivity.
Definition fits (s : string) : Prop := plain s = true /\ len s < 120.
Definition detail_ok d : Prop := plain d = true /\ d <> "" /\ len d <= 80.

Lemma event_detail_ok e source slot seq :
  event_ok e -> plain source = true -> len source = 1 -> u8_ok slot -> u32_ok seq ->
  detail_ok (event_text e source slot seq).
Proof.
  intros He Hp Hs Hslot Hseq. split_and!; [|done|by apply len_event_text].
  unfold event_text. rewrite ?plain_app, Hp, ?plain_u, ?plain_d. reflexivity.
Qed.
Lemma event_details_ok evs source slot :
  Forall (fun x => event_ok x.1 /\ u32_ok x.2) evs -> plain source = true -> len source = 1 ->
  u8_ok slot -> Forall detail_ok (event_details source slot evs).
Proof.
  intros Hev Hp Hs Hslot. unfold event_details. apply Forall_fmap. eapply Forall_impl; [done|].
  intros [e seq] [He Hq]. cbn. by apply event_detail_ok.
Qed.
Lemma slot_details_ok j slot :
  wf j -> 0 <= slot < JOURNAL_SLOTS -> Forall detail_ok (slot_details j slot).
Proof.
  intros Hwf Hslot. unfold slot_details. destruct (aget (restored_valid j) slot) eqn:Hv; [|constructor].
  pose proof (wf_block j slot Hwf Hslot Hv) as Hb. pose proof (block_events_ok slot _ Hb) as Hev.
  pose proof journal_slots_range. pose proof block_events_range.
  destruct Hb as (_&_&_&Hc&Hj&Hf&_). unfold block_details. constructor.
  - split_and!; [unfold block_text; solve_plain|done|]. apply len_block_text; unfold u8_ok, u32_ok; done || lia.
  - apply event_details_ok; unfold u8_ok; done || lia.
Qed.
Lemma details_ok j : wf j -> Forall detail_ok (details j).
Proof.
  intros Hwf. unfold details. apply Forall_app. split.
  - apply Forall_bind, Forall_fmap, Forall_true. intros off. cbn. apply slot_details_ok; [done|apply slot_of_range].
  - apply event_details_ok; [by apply ring_events_ok|done|done|unfold u8_ok; lia].
Qed.

Lemma numbered_fits id o ds :
  u32_ok id -> 0 <= o -> o + Z.of_nat (length ds) <= 2 ^ 32 -> Forall detail_ok ds ->
  Forall fits (numbered id o ds).
Proof.
  intros Hid Ho Hn Hds. revert o Ho Hn. induction Hds as [|d ds (Hp&_&Hl) _ IH]; intros o Ho Hn; [constructor|].
  cbn [numbered length] in *. constructor; [|apply IH; lia].
  split; [unfold data_text; rewrite ?plain_app, Hp, ?plain_u; reflexivity|].
  apply len_data_text; unfold u32_ok; done || lia.
Qed.
Lemma full_dump_fits id b f j :
  wf j -> boot_ok b -> fault_ok f -> u32_ok id -> Forall fits (full_dump id b f j).
Proof.
  intros Hwf Hb Hf Hid. destruct (counts_agree j Hwf) as (Hlines&Hcount&Hbl&Hpe&Hr).
  pose proof (wf_seqs j Hwf) as Hseqs. unfold full_dump, header. rewrite !Forall_app, !Forall_cons.
  split_and!; try apply Forall_nil_2; try split; try (by apply len_boot_text);
    try (unfold Boot.totem_boot_diagnostics_format, begin_text, end_text; solve_plain).
  - destruct (Fault.kind f =? 0); [constructor|]. constructor; [|constructor].
    split; [unfold fault_text; solve_plain|by apply len_fault_text].
  - apply len_begin_text; unfold u8_ok, u32_ok; done || lia.
  - apply numbered_fits; [done|lia|unfold count_lines in *; lia|by apply details_ok].
  - apply len_end_text; [done|lia].
Qed.
End lines.

(** ** The verdict on the lines that arrive *)
Section verdict.
Context `{!UnicodeDigits}.
Implicit Types (v : dump_verifier) (l : list string) (line d : string) (id o lines : Z) (ps : list (list Z)).

(** A line of the dump as the payload of a frame. *)
Definition wire line : list Z := codes ("L" +:+ line).

Lemma on_payloads_app v ps ps' :
  on_payloads v (ps ++ ps') =
  let '(v1, out, status) := on_payloads v ps in
  match status with
  | Some _ => (v1, out, status)
  | None => let '(v2, out', status') := on_payloads v1 ps' in (v2, out ++ out', status')
  end.
Proof.
  revert v. induction ps as [|p ps IH]; intros v; cbn [app on_payloads].
  - by destruct (on_payloads v ps') as [[v2 out'] status'].
  - destruct (on_payload v p) as [[v1 out] [status|]]; [done|]. rewrite IH.
    destruct (on_payloads v1 ps) as [[v2 out'] [status|]]; [done|].
    destruct (on_payloads v2 ps') as [[v3 out''] status']. by rewrite app_assoc.
Qed.

(** While the script runs, no dump is complete. *)
Lemma on_payload_running v p v' out :
  on_payload v p = (v', out, None) -> complete v = false -> complete v' = false.
Proof.
  unfold on_payload. destruct (negb _); [by intros [= <- _]|].
  destruct (DumpVerifier_feed v _) as [v1 r]. destruct (complete v1) eqn:Hc; [done|].
  destruct (r && _); [done|]. by intros [= <- _].
Qed.

(** What [on_payload] makes of a line, by the verifier's answer. *)
Lemma on_wire v line v' recognized :
  plain line = true -> DumpVerifier_feed v (codes line) = (v', recognized) ->
  on_payload v (wire line) =
  (v', if recognized || startswith "totem_fault saved " (codes line) || startswith "totem_boot " (codes line)
       then [codes line] else [],
   if complete v' then Some 0
   else if recognized && bool_decide (is_Some (re_match END (codes line))) then Some 1 else None).
Proof.
  intros Hp Hf. unfold on_payload, wire. change (startswith "L" (codes ("L" +:+ line))) with true.
  cbn [negb]. change (drop 1 (codes ("L" +:+ line))) with (codes line).
  rewrite decode_codes by done. rewrite Hf. destruct (complete v'); [done|]. by destruct (_ && bool_decide _).
Qed.
Lemma feed_unmatched v cs : unmatched cs -> DumpVerifier_feed v cs = (v, false).
Proof. intros (Hb&Hd&He). unfold DumpVerifier_feed. rewrite Hb, Hd, He. by destruct (dump_id v). Qed.
Lemma feed_no_begin v cs : dump_id v = None -> re_match BEGIN cs = None -> DumpVerifier_feed v cs = (v, false).
Proof. intros Hi Hb. unfold DumpVerifier_feed. by rewrite Hb, Hi. Qed.

Lemma feed_begin v id lines blocks persisted ram seq :
  u32_ok id -> 0 <= blocks <= 8 -> 0 <= persisted <= 264 -> 0 <= ram <= 1024 -> u32_ok seq ->
  lines = blocks + persisted + ram ->
  DumpVerifier_feed v (codes (begin_text id lines blocks persisted ram seq)) =
  (DumpVerifier (Some id) (Some lines) 0 None false, true).
Proof.
  unfold u32_ok. intros ?????->. unfold DumpVerifier_feed. rewrite match_begin by lia.
  unfold group. cbn [fmap list_fmap]. cbn -[int codes fmt_u]. rewrite !int_fmt_u by lia.
  by rewrite Z.eqb_refl.
Qed.
Lemma feed_data v id o d :
  u32_ok id -> u32_ok o -> detail_ok d -> dump_id v = Some id ->
  DumpVerifier_feed v (codes (data_text id o d)) =
  (v <| error := if negb (o =? next_line v) && bool_decide (error v = None)
                 then Some (expected_line (next_line v) o) else error v |>
     <| next_line := o + 1 |>, true).
Proof.
  unfold u32_ok. intros ?? (Hp&Hne&_) Hv. unfold DumpVerifier_feed, matches_id.
  rewrite data_not_begin, Hv, match_data by (done || lia). unfold group.
  cbn -[re_match int codes fmt_u next_line error]. rewrite !int_fmt_u by lia. rewrite Z.eqb_refl.
  change ([codes (fmt_u id); codes (fmt_u o); codes d] !!! 1%nat) with (codes (fmt_u o)).
  by rewrite int_fmt_u by lia.
Qed.
Lemma feed_end v id lines :
  u32_ok id -> u32_ok lines -> dump_id v = Some id -> expected v = Some lines ->
  let v' := (DumpVerifier_feed v (codes (end_text id lines))).1 in
  (DumpVerifier_feed v (codes (end_text id lines))).2 = true /\
  (complete v' = true <-> error v = None /\ next_line v = lines).
Proof.
  unfold u32_ok. intros ?? Hv He. unfold DumpVerifier_feed, matches_id.
  rewrite end_not_begin, Hv, end_not_data, match_end by lia. unfold group.
  cbn -[re_match int codes fmt_u next_line error expected]. rewrite !int_fmt_u by lia. rewrite Z.eqb_refl, He.
  change ([codes (fmt_u id); codes (fmt_u lines)] !!! 1%nat) with (codes (fmt_u lines)).
  rewrite int_fmt_u by lia. split; [done|].
  rewrite (bool_decide_false (Some lines <> Some lines)) by tauto. cbn. rewrite bool_decide_eq_true.
  destruct (decide (next_line v = lines)) as [->|Hne].
  - rewrite bool_decide_false by tauto. tauto.
  - rewrite bool_decide_true by congruence. destruct (error v); naive_solver.
Qed.

(** Lines that leave the verifier as it is. *)
Lemma on_wires_kept v l (shown : bool) :
  Forall (fun x => plain x = true /\ DumpVerifier_feed v (codes x) = (v, false) /\
    startswith "totem_fault saved " (codes x) || startswith "totem_boot " (codes x) = shown) l ->
  complete v = false ->
  on_payloads v (wire <$> l) = (v, if shown then codes <$> l else [], None).
Proof.
  intros Hl Hc. induction Hl as [|x l (Hp&Hf&Hs) _ IH]; [by destruct shown|].
  rewrite !fmap_cons. cbn [on_payloads]. rewrite (on_wire v x v false) by done. rewrite Hc. cbn [orb andb].
  rewrite Hs, IH. by destruct shown.
Qed.
Lemma header_lines v (b : Boot.boot) (f : Fault.totem_fault_record) l :
  l `sublist_of` header b f -> Forall (fun x => plain x = true) l -> complete v = false ->
  on_payloads v (wire <$> l) = (v, codes <$> l, None).
Proof.
  intros Hl Hp Hc. rewrite (on_wires_kept v l true); [done| |done].
  apply Forall_forall. intros x Hx. rewrite Forall_forall in Hp.
  destruct (header_unmatched b f x) as [Hu Hs]; [by eapply elem_of_sublist|].
  split_and!; [by apply Hp|by apply feed_unmatched|done].
Qed.

(** The data lines that arrive: no error afterwards means that their ordinals had no gap. *)
Lemma data_lines id ds o l v :
  u32_ok id -> 0 <= o -> o + Z.of_nat (length ds) <= 2 ^ 32 -> Forall detail_ok ds ->
  l `sublist_of` numbered id o ds -> Forall (fun x => plain x = true) l ->
  dump_id v = Some id -> complete v = false ->
  exists v', on_payloads v (wire <$> l) = (v', codes <$> l, None) /\
    dump_id v' = Some id /\ expected v' = expected v /\
    (error v' = None -> error v = None /\ next_line v' = next_line v + Z.of_nat (length l)) /\
    (l = numbered id o ds -> error v = None -> next_line v = o -> error v' = None).
Proof.
  intros Hid Ho Hn Hds Hl Hp. revert o l v Ho Hn Hl Hp.
  induction Hds as [|d ds Hd Hds IH]; intros o l v Ho Hn Hl Hp Hv Hc; cbn [numbered length] in *.
  { apply sublist_nil_r in Hl as ->. exists v. split_and!; try done. intros ?. split; [done|cbn; lia]. }
  apply sublist_cons_r in Hl as [Hl|(k&->&Hl)].
  - destruct (IH (o + 1) l v ltac:(lia) ltac:(lia) Hl Hp Hv Hc) as (v'&Hrun&?&?&?&_).
    exists v'. split_and!; try done. intros ->.
    apply sublist_length in Hl. cbn [length] in Hl. rewrite length_numbered in Hl. lia.
  - apply Forall_cons in Hp as [Hx Hp].
    pose proof (feed_data v id o d Hid ltac:(unfold u32_ok; lia) Hd Hv) as Hf.
    remember (v <| error := _ |> <| next_line := _ |>) as v1 eqn:Hv1.
    assert (dump_id v1 = Some id) as Hid1 by by subst.
    assert (complete v1 = false) as Hc1 by by subst.
    destruct (IH (o + 1) k v1 ltac:(lia) ltac:(lia) Hl Hp Hid1 Hc1) as (v'&Hrun&Hi&He&Hgap&Hall).
    exists v'. rewrite !fmap_cons. cbn [on_payloads]. rewrite (on_wire v _ v1 true), Hc1, data_not_end by done.
    rewrite Hrun. split_and!; [done|done|by subst|..].
    + intros Hnone. destruct (Hgap Hnone) as [He1 Hn1]. subst v1. cbn in He1, Hn1.
      destruct (Z.eqb_spec o (next_line v)) as [->|]; cbn in He1; [split; [done|cbn [length]; lia]|].
      case_bool_decide; done.
    + intros [= ->] He0 Hn0. apply Hall; [done|subst v1; cbn|by subst].
      by rewrite Hn0, Z.eqb_refl.
Qed.

(** The dump from its begin line to its end marker. *)
Context `{!Config} `{!Clock} `{!Crc32}.
Implicit Types (j : journal).
Definition body id j : list string :=
  [begin_text id (count_lines j) (dump_blocks j) (dump_persistent j) (ring_count j) (ring_seq j)] ++
  numbered id 0 (details j) ++ [end_text id (count_lines j)].

Lemma numbered_form (P : string -> Prop) id o ds :
  (forall o d, P (data_text id o d)) -> Forall P (numbered id o ds).
Proof. intros HP. revert o. induction ds as [|d ds IH]; intros o; cbn [numbered]; by constructor. Qed.

Lemma Forall_of_sublist {A} (P : A -> Prop) (l k : list A) : l `sublist_of` k -> Forall P k -> Forall P l.
Proof. rewrite !Forall_forall. intros Hl HP x Hx. apply HP. by eapply elem_of_sublist. Qed.
Lemma sublist_of_one {A} (x : A) (l : list A) : l `sublist_of` [x] -> l = [] \/ l = [x].
Proof. rewrite sublist_cons_r. intros [Hl%sublist_nil_r|(k&->&Hk%sublist_nil_r)]; subst; auto. Qed.

Lemma sublist_same_length {A} (l k : list A) : l `sublist_of` k -> length k = length l -> l = k.
Proof.
  induction 1 as [|x l k Hl IH|x l k Hl IH]; cbn; intros Hn; [done|by rewrite IH by lia|].
  apply sublist_length in Hl. lia.
Qed.

(** Without the begin line nothing is recognized. *)
Lemma no_begin_verdict id j l :
  l `sublist_of` numbered id 0 (details j) ++ [end_text id (count_lines j)] ->
  Forall (fun x => plain x = true) l ->
  on_payloads verifier_init (wire <$> l) = (verifier_init, [], None).
Proof.
  intros Hl Hp. apply (on_wires_kept verifier_init l false); [|done].
  assert (Forall (fun x => re_match BEGIN (codes x) = None /\
    startswith "totem_fault saved " (codes x) || startswith "totem_boot " (codes x) = false) l) as Hb.
  { eapply Forall_of_sublist; [exact Hl|]. apply Forall_app. split; [|by repeat constructor].
    apply numbered_form. done. }
  apply Forall_forall. intros x Hx. rewrite Forall_forall in Hp, Hb. destruct (Hb x Hx).
  split_and!; [by apply Hp|by apply feed_no_begin|done].
Qed.

(** The first and the last line. *)
Definition begun id lines : dump_verifier := DumpVerifier (Some id) (Some lines) 0 None false.
Lemma on_begin v id j :
  let line := begin_text id (count_lines j) (dump_blocks j) (dump_persistent j) (ring_count j) (ring_seq j) in
  wf j -> u32_ok id -> plain line = true ->
  on_payload v (wire line) = (begun id (count_lines j), [codes line], None).
Proof.
  intros line Hwf Hid Hp. destruct (counts_agree j Hwf) as (_&Hcount&Hbl&Hpe&Hr).
  pose proof (wf_seqs j Hwf) as Hseqs. rewrite (on_wire v line (begun id (count_lines j)) true).
  - unfold line. by rewrite begin_not_end.
  - done.
  - apply feed_begin; unfold u32_ok; done || lia.
Qed.
Lemma on_end v id lines :
  u32_ok id -> u32_ok lines -> dump_id v = Some id -> expected v = Some lines ->
  plain (end_text id lines) = true ->
  exists v' status, on_payload v (wire (end_text id lines)) = (v', [codes (end_text id lines)], Some status) /\
    (status = 0 <-> error v = None /\ next_line v = lines).
Proof.
  intros Hid Hl Hi He Hp. destruct (feed_end v id lines Hid Hl Hi He) as [Hr Hc].
  destruct (DumpVerifier_feed v (codes (end_text id lines))) as [v' r] eqn:Hf. cbn in Hr, Hc. subst r.
  rewrite (on_wire _ _ _ _ Hp Hf). exists v', (if complete v' then 0 else 1). split.
  - unfold u32_ok in *. rewrite match_end by lia. by destruct (complete v').
  - rewrite <- Hc. by destruct (complete v').
Qed.

(** The script accepts a part of the dump exactly when it is all of it. *)
Lemma body_verdict id j l :
  wf j -> u32_ok id -> l `sublist_of` body id j -> Forall (fun x => plain x = true) l ->
  let r := on_payloads verifier_init (wire <$> l) in
  (r.2 = Some 0 <-> l = body id j) /\ (r.2 = Some 0 -> r.1.2 = codes <$> l).
Proof.
  intros Hwf Hid Hl Hp. destruct (counts_agree j Hwf) as (_&Hcount&?&?&?).
  pose proof (details_ok j Hwf) as Hds. unfold body in *. cbv zeta.
  cbn [app] in Hl |- *. apply sublist_cons_r in Hl as [Hl|(k&->&Hl)].
  { rewrite (no_begin_verdict id j) by done. cbn. split; [|done]. split; [done|]. intros ->.
    apply sublist_length in Hl. cbn [length] in Hl. lia. }
  apply Forall_cons in Hp as [Hx Hp]. apply sublist_app_r in Hl as (kn&ke&->&Hn&He).
  apply Forall_app in Hp as [Hpn Hpe]. rewrite fmap_cons, fmap_app. cbn [on_payloads].
  rewrite on_begin, on_payloads_app by done.
  destruct (data_lines id (details j) 0 kn (begun id (count_lines j))) as (v&->&Hi&Hex&Hgap&Hall);
    try done; try (unfold count_lines in *; lia). cbn in Hex, Hgap, Hall.
  apply sublist_of_one in He as [->| ->].
  - cbn. split; [|done]. split; [done|]. intros [= Hk]. exfalso. rewrite app_nil_r in Hk.
    apply sublist_length in Hn. subst kn. rewrite length_app in Hn. cbn in Hn. lia.
  - apply Forall_cons in Hpe as [Hpe _]. rewrite (fmap_cons wire), fmap_nil. cbn [on_payloads].
    destruct (on_end v id (count_lines j)) as (v'&status&->&Hst); [done|unfold u32_ok; lia|done..|].
    cbn [fst snd]. rewrite fmap_cons, fmap_app. split; [|done].
    split; [intros [= ->]|intros [= ->%app_inv_tail]; f_equal].
    + destruct (proj1 Hst eq_refl) as [He Hnl]. destruct (Hgap He) as [_ Hlen].
      rewrite (sublist_same_length kn _ Hn); [done|].
      rewrite length_numbered. unfold count_lines in *. lia.
    + apply Hst. destruct (Hgap (Hall eq_refl eq_refl eq_refl)) as [_ Hlen].
      rewrite length_numbered in Hlen. split; [by apply Hall|unfold count_lines in *; lia].
Qed.

(** ** What is received

    The frames are those of the lines of the dump or of something else the console sends. *)
Inductive heard :=
| dump_line (line : string)
| other (payload : list Z).
Definition payload_of (h : heard) : list Z :=
  match h with dump_line line => wire line | other payload => payload end.
Definition lines_heard (received : list (list Z * heard)) : list string :=
  omap (fun x => match x.2 with dump_line line => Some line | other _ => None end) received.
(** A frame of something else: no log line, or one that begins no dump; it may belong to
    another dump. *)
Definition foreign id (payload : list Z) : Prop :=
  startswith "L" payload = true ->
  let line := decode (drop 1 payload) in
  re_match BEGIN line = None /\
  forall g, re_match DATA line = Some g \/ re_match END line = Some g -> group g 1 <> id.
Definition received_ok id (x : list Z * heard) : Prop :=
  gap_ok x.1 /\
  match x.2 with dump_line _ => True | other payload => alen payload <= 512 /\ foreign id payload end.
Definition packets (received : list (list Z * heard)) : list (list Z * list Z) :=
  (fun x => (x.1, payload_of x.2)) <$> received.
Definition bytes_received (received : list (list Z * heard)) : list Z := stream (packets received).

(** What is printed: the lines of the dump and, until the last of them, whatever else reports
    a boot or a fault. *)
Definition passed (payload : list Z) : list (list Z) :=
  let line := decode (drop 1 payload) in
  if startswith "L" payload && (startswith "totem_fault saved " line || startswith "totem_boot " line)
  then [line] else [].
Fixpoint shown (received : list (list Z * heard)) : list (list Z) :=
  match received with
  | [] => []
  | (_, dump_line line) :: received => codes line :: shown received
  | (_, other payload) :: received =>
      (if bool_decide (lines_heard received = []) then [] else passed payload) ++ shown received
  end.

Lemma packets_fit id received :
  Forall (received_ok id) received -> Forall fits (lines_heard received) -> Forall packet_ok (packets received).
Proof.
  intros Hr. induction Hr as [|[gap h] received [Hg Hh] _ IH]; intros Hl; [constructor|].
  cbn in Hg, Hh. cbn [packets fmap list_fmap]. destruct h as [line|payload]; cbn in Hl.
  - apply Forall_cons in Hl as [[_ Hlen] Hl]. constructor; [|by apply IH]. split; [done|].
    cbn [snd payload_of]. unfold wire. rewrite len_codes, len_app. change (len "L") with 1. lia.
  - constructor; [|by apply IH]. split; [done|apply Hh].
Qed.

(** The verifier knows no dump, or the one that is read. *)
Definition reading id v : Prop := dump_id v = None \/ dump_id v = Some id.
Definition begins_own id line : Prop := forall g, re_match BEGIN (codes line) = Some g -> group g 1 = id.
Lemma full_dump_own b f id j : wf j -> u32_ok id -> Forall (begins_own id) (full_dump id b f j).
Proof.
  unfold u32_ok. intros Hwf Hid. destruct (counts_agree j Hwf) as (_&Hcount&Hbl&Hpe&Hr).
  pose proof (wf_seqs j Hwf). unfold full_dump, begins_own. rewrite !Forall_app, !Forall_cons. split_and!.
  - apply Forall_forall. intros x Hx g. by destruct (header_unmatched b f x Hx) as [[-> _] _].
  - intros g. rewrite match_begin by lia. intros [= <-]. apply (int_fmt_u id). lia.
  - apply Forall_nil_2.
  - by apply numbered_form.
  - done.
  - apply Forall_nil_2.
Qed.
Lemma feed_reading id v line :
  begins_own id line -> reading id v -> reading id (DumpVerifier_feed v (codes line)).1.
Proof.
  intros Hb Hv. unfold DumpVerifier_feed. destruct (re_match BEGIN _) as [g|] eqn:Hg.
  { right. cbn. by rewrite (Hb g Hg). }
  destruct (dump_id v) as [i|] eqn:Hi; [|exact Hv].
  assert (reading id v) as Hv' by done. unfold reading in *. rewrite Hi in Hv'.
  destruct (matches_id (re_match DATA _) i); [by cbn; rewrite Hi|].
  by destruct (matches_id (re_match END _) i); cbn; rewrite Hi.
Qed.
Lemma on_foreign id v payload :
  foreign id payload -> reading id v -> complete v = false ->
  on_payload v payload = (v, passed payload, None).
Proof.
  unfold foreign, on_payload, passed. intros Hf Hv Hc. destruct (startswith "L" payload); [|done].
  destruct (Hf eq_refl) as [Hb Hg]. cbn [negb andb].
  assert (DumpVerifier_feed v (decode (drop 1 payload)) = (v, false)) as ->; [|by cbn [orb andb]; rewrite Hc].
  unfold DumpVerifier_feed. rewrite Hb. destruct Hv as [-> | ->]; [done|].
  assert (forall g, g = re_match DATA (decode (drop 1 payload)) \/ g = re_match END (decode (drop 1 payload)) ->
    matches_id g id = None) as Hno.
  { intros [g|] Hor; [|done]. unfold matches_id. rewrite (proj2 (Z.eqb_neq _ _)); [done|]. apply Hg.
    destruct Hor; auto. }
  by rewrite !Hno by auto.
Qed.

(** Each line heard is printed at most once. *)
Lemma on_wire_out v line v' out status :
  plain line = true -> on_payload v (wire line) = (v', out, status) ->
  v' = (DumpVerifier_feed v (codes line)).1 /\ (out = [] \/ out = [codes line]).
Proof.
  intros Hp. destruct (DumpVerifier_feed v (codes line)) as [v1 r] eqn:Hf. rewrite (on_wire v line v1 r Hp Hf).
  intros [= <- <- _]. split; [done|]. destruct (r || _ || _); auto.
Qed.
Lemma on_wires_length v l :
  Forall (fun x => plain x = true) l -> (length (on_payloads v (wire <$> l)).1.2 <= length l)%nat.
Proof.
  intros Hl. revert v. induction Hl as [|x l Hx _ IH]; intros v; [done|].
  rewrite fmap_cons. cbn [on_payloads length].
  destruct (on_payload v (wire x)) as [[v' out] status] eqn:Hp.
  destruct (on_wire_out v x v' out status Hx Hp) as [_ Hout]. specialize (IH v').
  destruct status; [cbn; destruct Hout as [-> | ->]; cbn; lia|].
  destruct (on_payloads v' (wire <$> l)) as [[v'' out'] status']. cbn in *. rewrite length_app.
  destruct Hout as [-> | ->]; cbn; lia.
Qed.
Lemma shown_end received : lines_heard received = [] -> shown received = [].
Proof.
  induction received as [|[gap [line|payload]] received IH]; [done|discriminate|].
  change (lines_heard ((gap, other payload) :: received)) with (lines_heard received).
  intros Hl. cbn [shown]. rewrite bool_decide_true by done. by apply IH.
Qed.

(** The frames of something else change neither the verdict nor the verifier. *)
Lemma foreign_passed id v received :
  Forall (received_ok id) received -> Forall (fun x => plain x = true /\ begins_own id x) (lines_heard received) ->
  reading id v -> complete v = false ->
  let r := on_payloads v (packets received).*2 in
  let r' := on_payloads v (wire <$> lines_heard received) in
  r.1.1 = r'.1.1 /\ r.2 = r'.2 /\
  (is_Some r'.2 -> r'.1.2 = codes <$> lines_heard received -> r.1.2 = shown received).
Proof.
  intros Hr. revert v. induction Hr as [|[gap h] received [_ Hh] _ IH]; intros v Hl Hv Hc; [done|].
  unfold packets. rewrite !fmap_cons. fold (packets received). cbn [on_payloads snd].
  destruct h as [line|payload]; cbn [payload_of].
  - change (lines_heard ((gap, dump_line line) :: received)) with (line :: lines_heard received) in *.
    apply Forall_cons in Hl as [[Hp Hb] Hl]. rewrite !fmap_cons. cbn [on_payloads shown].
    destruct (on_payload v (wire line)) as [[v' out] status] eqn:Hon.
    destruct (on_wire_out v line v' out status Hp Hon) as [Hv' Hout].
    destruct status as [status|].
    + cbn. split_and!; [done..|]. intros _ Heq. destruct Hout as [-> | ->]; [done|].
      injection Heq as Heq. symmetry in Heq. apply fmap_nil_inv in Heq. by rewrite shown_end.
    + assert (reading id v') as Hrd by (subst v'; by apply feed_reading).
      destruct (IH v' Hl Hrd) as (Hv1&Hst&Hsh); [by eapply on_payload_running|].
      pose proof (on_wires_length v' (lines_heard received)
        ltac:(eapply Forall_impl; [exact Hl|by intros ? [? _]])) as Hlen.
      destruct (on_payloads v' (packets received).*2) as [[v1 out1] st1].
      destruct (on_payloads v' (wire <$> lines_heard received)) as [[v2 out2] st2].
      cbn in Hv1, Hst, Hsh, Hlen |- *. split_and!; [done..|]. intros Hs Heq.
      destruct Hout as [-> | ->]; [|injection Heq as Heq; cbn; f_equal; by apply Hsh].
      exfalso. cbn in Heq. rewrite Heq in Hlen. cbn in Hlen. rewrite length_fmap in Hlen. lia.
  - change (lines_heard ((gap, other payload) :: received)) with (lines_heard received) in *.
    destruct Hh as [_ Hf]. rewrite (on_foreign id) by done. destruct (IH v Hl Hv Hc) as (Hv1&Hst&Hsh).
    destruct (on_payloads v (packets received).*2) as [[v1 out1] st1]. cbn in Hv1, Hst, Hsh |- *.
    split_and!; [done..|]. intros Hs Heq. rewrite bool_decide_false; [by rewrite Hsh|].
    intros Hn. rewrite Hn in Hs. by destruct Hs.
Qed.

(** The chunks in which the bytes are read do not matter. *)
Lemma read_loop_payloads (d : deframer) v chunks :
  read_loop d v chunks =
  let '(_, out, status) := on_payloads v (Deframer_feed d (concat chunks)).2 in (out, default 1 status).
Proof.
  revert d v. induction chunks as [|chunk chunks IH]; intros d v; [done|].
  cbn [read_loop concat]. rewrite feed_app. destruct (Deframer_feed d chunk) as [d' ps]. cbn [fst snd].
  rewrite on_payloads_app. destruct (on_payloads v ps) as [[v' out] [status|]]; [done|].
  rewrite IH. by destruct (on_payloads v' _) as [[v'' out'] status].
Qed.
Lemma main_on_lines id received rest chunks :
  concat chunks = bytes_received received ++ rest -> (Deframer_feed deframer_init rest).2 = [] ->
  Forall (received_ok id) received -> Forall fits (lines_heard received) ->
  Forall (begins_own id) (lines_heard received) ->
  let r := on_payloads verifier_init (wire <$> lines_heard received) in
  exists out, main chunks = (frame (codes "D1"), out, default 1 r.2) /\
    (is_Some r.2 -> r.1.2 = codes <$> lines_heard received -> out = shown received).
Proof.
  intros Hc Hrest Hr Hl Hb. unfold main. rewrite read_loop_payloads, Hc. unfold bytes_received.
  rewrite feed_stream by (done || by eapply packets_fit). cbv zeta.
  destruct (foreign_passed id verifier_init received Hr) as (_&Hst&Hsh); [|by left|done|].
  { apply Forall_and. split; [|done]. eapply Forall_impl; [exact Hl|]. by intros x []. }
  destruct (on_payloads verifier_init (packets received).*2) as [[v out] status]. cbn in Hst, Hsh.
  exists out. split; [by rewrite <- Hst|exact Hsh].
Qed.

(** Any part of the text of a dump. *)
Lemma begin_not_header (b : Boot.boot) (f : Fault.totem_fault_record) id lines blocks persisted ram seq :
  begin_text id lines blocks persisted ram seq ∉ header b f.
Proof. intros Hin. by destruct (header_unmatched b f _ Hin). Qed.
Lemma body_after_header b f id j l k :
  l `sublist_of` header b f -> k `sublist_of` body id j -> body id j `sublist_of` l ++ k -> k = body id j.
Proof.
  intros Hl Hk (k1&k2&Hb&Hk1&Hk2)%sublist_app_r. destruct k1 as [|x k1].
  - rewrite app_nil_l in Hb. subst k2. apply sublist_same_length; [done|]. apply sublist_length in Hk, Hk2. lia.
  - exfalso. injection Hb as <- _. eapply begin_not_header. eapply elem_of_sublist; [|exact Hl].
    eapply elem_of_sublist; [|exact Hk1]. by left.
Qed.
Lemma omap_nil_sublist {A B} (g : A -> option B) (l k : list A) :
  l `sublist_of` k -> omap g k = [] -> omap g l = [].
Proof. induction 1 as [|x l k _ IH|x l k _ IH]; cbn; [done|..]; destruct (g x); done || apply IH. Qed.
Lemma text_verdict b f id j l :
  wf j -> boot_ok b -> fault_ok f -> u32_ok id -> l `sublist_of` full_dump id b f j ->
  let r := on_payloads verifier_init (wire <$> l) in
  (r.2 = Some 0 <-> body id j `sublist_of` l) /\
  (r.2 = Some 0 -> r.1.2 = codes <$> l /\ read_events l = journal_events j).
Proof.
  intros Hwf Hb Hf Hid Hl. pose proof (full_dump_fits id b f j Hwf Hb Hf Hid) as Hfits.
  assert (Forall (fun x => plain x = true) l) as Hp.
  { eapply Forall_impl; [by eapply Forall_of_sublist|]. by intros x []. }
  change (full_dump id b f j) with (header b f ++ body id j) in Hl.
  apply sublist_app_r in Hl as (lh&lb&->&Hh&Hbd). apply Forall_app in Hp as [Hph Hpb].
  rewrite fmap_app, on_payloads_app, (header_lines _ b f) by done. cbv zeta.
  destruct (body_verdict id j lb Hwf Hid Hbd Hpb) as [Hiff Hout].
  destruct (on_payloads verifier_init (wire <$> lb)) as [[v out] status]. cbn [fst snd] in *. split.
  - rewrite Hiff. split; [intros ->; by apply sublist_inserts_l|by eapply body_after_header].
  - intros Hs. rewrite (Hout Hs), fmap_app. split; [done|]. apply Hiff in Hs as ->.
    rewrite <- (read_full_dump b f j id Hwf Hid).
    change (full_dump id b f j) with (header b f ++ body id j). rewrite !read_events_app. f_equal.
    rewrite read_header. pose proof (read_header b f) as Hn. unfold read_events in *.
    apply fmap_nil_inv in Hn. by rewrite (omap_nil_sublist _ lh _ Hh Hn).
Qed.

Context `{!StudioTransport}.
(** C9 The script on the computer accepts a dump exactly when all of it arrived: whatever lines
    of it are lost on the way, in whatever chunks the bytes are read, and whatever comes in
    between - frames that are no log lines, other log lines, data lines and end markers of
    another dump, boot and fault reports; bytes that form no frame, the beginning of one
    included, unless they end inside an escape - it exits with 0 if and only if the begin line,
    every numbered data line and the end marker of this dump were received; what it printed is
    then the lines of the dump it received, with the boot and fault reports that came before the
    last of them in their places, and those lines hold exactly the retained events of the
    journal.  (Only the begin line of another dump is excluded: the script starts anew with
    it.)  If the console accepts every line before its fortieth attempt and none is lost, it
    does exit with 0. *)
Theorem dump_accepted_iff_complete b f j id n t :
  wf j -> boot_ok b -> fault_ok f -> id = u32 (uptime t) ->
  wp (totem_host_event_log_dump b f j) (fun _ _ _ es =>
    forall received rest chunks,
      concat chunks = bytes_received received ++ rest -> (Deframer_feed deframer_init rest).2 = [] ->
      Forall (received_ok id) received -> lines_heard received `sublist_of` accepted es ->
      let '(_, printed, status) := main chunks in
      (status = 0 <-> body id j `sublist_of` lines_heard received) /\
      (status = 0 -> printed = shown received /\
                     read_events (lines_heard received) = journal_events j) /\
      (reliable -> lines_heard received = accepted es -> status = 0)) n t.
Proof.
  intros Hwf Hb Hf Hid. eapply wp_mono; [by apply dump_delivers|].
  intros _ n1 t1 es (Hp&_&Hrel) received rest chunks Hc Hrest Hr Hl.
  assert (u32_ok id) as Hid' by (rewrite Hid; apply u32_range).
  assert (lines_heard received `sublist_of` full_dump id b f j) as Hs.
  { etrans; [exact Hl|]. destruct Hp as [k ->]. by apply sublist_inserts_r. }
  pose proof (full_dump_fits id b f j Hwf Hb Hf Hid') as Hfits.
  destruct (main_on_lines id received rest chunks Hc Hrest Hr) as (out&->&Hprinted);
    [by eapply Forall_of_sublist|eapply Forall_of_sublist; [exact Hs|by apply full_dump_own]|].
  destruct (text_verdict b f id j _ Hwf Hb Hf Hid' Hs) as [Hiff Hout].
  destruct (on_payloads verifier_init (wire <$> lines_heard received)) as [[v out'] status].
  cbn [fst snd] in *.
  assert (default 1 status = 0 <-> status = Some 0) as Hst
    by (destruct status; cbn; split; congruence).
  rewrite Hst. split_and!; [done| |].
  - intros Hs0. destruct (Hout Hs0) as [Ho Hev]. split; [|exact Hev]. apply Hprinted; [by rewrite Hs0|exact Ho].
  - intros Hre Hall. apply Hiff. rewrite Hall, Hrel by done. by apply sublist_inserts_l.
Qed.
End verdict.

(** The request the script sends is one that the keyboard's handler answers with a dump. *)
Lemma request_answered `{!UnicodeDigits} `{!Extras.StudioLog} chunks (t : nat) :
  (Deframer_feed deframer_init (main chunks).1.1).2 = [codes "D1"] /\
  eff (Extras.dump_frame_cb (codes "D1") () t) =
  [StudioConsole.totem_host_event_log_request_dump; zmk_studio_log_set_streaming true].
Proof. unfold main. by destruct (read_loop _ _ _). Qed.

(** Digits of ASCII only, and the dump of [DumpProps] read in pieces of seven bytes.  A log
    line and a frame of another kind come first, a data line, the end marker of another dump
    and a boot report after the begin line, the last after a part of a frame. *)
#[local, refine] Instance ascii_digits : UnicodeDigits :=
  {| decimal c := if (48 <=? c) && (c <=? 57) then Some (c - 48) else None |}.
Proof. done. Defined.
#[local] Existing Instance busy_console.
#[local] Existing Instance dump_clock.

Fixpoint in_sevens (fuel : nat) (bs : list Z) : list (list Z) :=
  match fuel with O => [] | S fuel => take 7 bs :: in_sevens fuel (drop 7 bs) end.
Definition heard_lines (lines : list string) : list (list Z * heard) :=
  let own := (fun line => ([EOF], dump_line line)) <$> lines in
  [([1; 2], other (codes "Lzmk: log line")); ([], other [0xAB; 0xAC; 0xAD; 0xFF])] ++ take 3 own ++
  [([], other (codes "Ltotem_diag d=99 n=7 late")); ([], other (codes "Ltotem_diag end id=99 lines=3 status=ok"));
   ([SOF; 65; 66], other (codes "Ltotem_boot again"))] ++ drop 3 own.
Lemma heard_lines_ok lines : Forall (received_ok 100) (heard_lines lines).
Proof.
  assert (Forall (received_ok 100) ((fun line => ([EOF], dump_line line)) <$> lines)) as Hown.
  { apply Forall_fmap, Forall_true. by intros line. }
  unfold heard_lines. rewrite !Forall_app, !Forall_cons.
  assert (forall payload, alen payload <= 512 /\ (let line := decode (drop 1 payload) in
      re_match BEGIN line = None /\
      match re_match DATA line with Some g => group g 1 <> 100 | None => True end /\
      match re_match END line with Some g => group g 1 <> 100 | None => True end) ->
    alen payload <= 512 /\ foreign 100 payload) as Hforeign.
  { intros payload (Hl&Hb&Hd&He). split; [exact Hl|]. intros _. split; [exact Hb|].
    intros g [Hg|Hg]; [by rewrite Hg in Hd|by rewrite Hg in He]. }
  split_and!; try apply Forall_nil_2; [| |by apply Forall_take| | | |by apply Forall_drop];
    (split; [done|]); apply Hforeign; vm_compute; done.
Qed.
Definition read_back (lines : list string) : Z :=
  (main (in_sevens 170 (bytes_received (heard_lines lines)))).2.

(** The cases of tests/test_diag_dump.py. *)
Definition verify (lines : list string) : dump_verifier :=
  foldl (fun v line => (DumpVerifier_feed v (codes line)).1) verifier_init lines.
Example framing_escapes_control_bytes :
  let source := codes "L" ++ [SOF; ESC; EOF] in (Deframer_feed deframer_init (frame source)).2 = [source].
Proof. vm_compute. reflexivity. Qed.
Example large_dump :
  complete (verify (["totem_diag begin id=42 lines=1160 blocks=8 persisted=128 ram=1024 seq=1200"] ++
    ((fun o => "totem_diag d=42 n=" +:+ fmt_u o +:+ " record") <$> seqZ 0 1160) ++
    ["totem_diag end id=42 lines=1160 status=ok"])) = true.
Proof. vm_compute. reflexivity. Qed.
Example missing_line_fails :
  let v := verify ["totem_diag begin id=42 lines=2 blocks=1 persisted=1 ram=0 seq=5";
                   "totem_diag d=42 n=1 e s=p0 q=5 t=1 k=1 i=0 a=0 r=0 w=0 x=0";
                   "totem_diag end id=42 lines=2 status=ok"] in
  complete v = false /\ error v = Some (expected_line 0 1).
Proof. vm_compute. done. Qed.

Definition sevens : list (list Z) := in_sevens 170 (bytes_received (heard_lines (accepted dump_run)) ++ [SOF; 65]).
Lemma dump_accepted_iff_complete_witness :
  (main sevens).2 = 0 /\ read_back (delete 4%nat (accepted dump_run)) = 1 /\
  read_back (take 7 (accepted dump_run)) = 1 /\
  length (main sevens).1.2 = S (length (accepted dump_run)) /\
  Forall (received_ok 100) (heard_lines (accepted dump_run)) /\
  wp (totem_host_event_log_dump dumped_boot dumped_fault dumped_journal) (fun _ _ _ es =>
    forall received rest chunks,
      concat chunks = bytes_received received ++ rest -> (Deframer_feed deframer_init rest).2 = [] ->
      Forall (received_ok 100) received -> lines_heard received `sublist_of` accepted es ->
      let '(_, printed, status) := main chunks in
      (status = 0 <-> body 100 dumped_journal `sublist_of` lines_heard received) /\
      (status = 0 -> printed = shown received /\
                     read_events (lines_heard received) = journal_events dumped_journal) /\
      (reliable -> lines_heard received = accepted es -> status = 0)) 0%nat 0%nat.
Proof.
  split; [vm_compute; reflexivity|]. split; [vm_compute; reflexivity|]. split; [vm_compute; reflexivity|].
  split; [vm_compute; reflexivity|]. split; [apply heard_lines_ok|].
  exact (dump_accepted_iff_complete dumped_boot dumped_fault dumped_journal 100 0 0
    dumped_journal_wf dumped_boot_ok dumped_fault_ok eq_refl).
Defined.
End ReaderProps.
