(* ===== verification/Composition.v ===== *)
(** * The components together

    [Evidence] follows the report of a handoff from the link layer through the timing inbox
    into the ring of the journal.  [BlackBox] follows the journal through a power cycle into
    the dump of the next boot.  [Policies] runs the three modules that disconnect links - the
    exclusive host, the reconnect watch and the USB policy - side by side, in any
    interleaving. *)
From stdpp Require Import gmap.
From Stdlib Require Import Ascii.
From S2P Require Import Prelude Events Platform Samples RingBuffer DiagnosticTiming.
From S2P Require Import Text BootDiagnostics Fault.
From S2P Require Import HostEventLog HostEventSpec HostEventRestore HostEventProps HostEventDump HostEventDumpProps.
From S2P Require Import HandoffDiagnostics HandoffReport.
From S2P Require Import ExclusiveHost ExclusiveHostProps ReconnectWatch ReconnectWatchProps HostPolicies.
Local Open Scope Z_scope.

(** * From the radio to the journal *)
Module Evidence.
Import Journal JournalSpec JournalSink Inbox InboxSpec InboxProps Handoff Report.

Section facts.
Context `{!Config} `{!Clock} `{!Crc32} `{!Controller}.

(** A link-down, the captures it makes, the next drain of the inbox into the journal [j]. *)
Definition link_down (V : View) (h err : Z) (c : conn) (s : radios) (t : nat) : list observation :=
  eff (@__wrap_bt_conn_set_state _ _ V _ BT_CONN_TYPE_LE h err c BT_CONN_DISCONNECT_COMPLETE s t).
Definition drained (i : timing) (t : nat) (j : journal) : journal :=
  sink_put_all (logged_events (eff (timing_drain i t))) j.

(** The last [m] elements survive a bounded log that keeps at least as many. *)
Lemma lastn_app_keeps {A} n (l k : list A) :
  (length k <= n)%nat -> exists old, old `suffix_of` l /\ lastn n (l ++ k) = old ++ k.
Proof.
  intros Hk. unfold lastn. rewrite length_app. exists (drop (length l + length k - n) l).
  split; [|by rewrite drop_app_le by lia].
  exists (take (length l + length k - n) l). by rewrite take_drop.
Qed.

Lemma length_drops_notice t d : (length (drops_notice t d) <= 1)%nat.
Proof. unfold drops_notice. destruct (d =? 0); cbn; lia. Qed.

(** What a drain puts into the journal. *)
Lemma drained_events (i : timing) (t : nat) (j : journal) :
  wf i ->
  let evs := queued i ++ drops_notice t (timing_dropped i) in
  val (timing_drain i t) = true /\ drained i t j = sink_put_all evs j /\ Forall event_ok evs.
Proof.
  intros Hi evs. pose proof (length_queued i Hi) as Hq. pose proof Hi as (_&_&Hc&Hd&_).
  destruct (drain_turns_spec (S (Z.to_nat TIMING_CAP)) i t Hi) as (_&Hv&_&_&He&_);
    [unfold TIMING_CAP in *; lia|].
  split; [exact Hv|]. unfold drained.
  change (timing_drain i t) with (timing_drain_turns (S (Z.to_nat TIMING_CAP)) [] i t).
  rewrite He, logged_events_logged. split; [done|].
  apply Forall_app; split; [by apply queued_ok|]. by apply drops_notice_ok.
Qed.

(** It leaves all of it in the ring. *)
Lemma drained_recent (i : timing) (t : nat) (j : journal) :
  wf i -> ring_ok j ->
  exists old, old `suffix_of` ring_get_ordered j /\
    ring_get_ordered (drained i t j) = old ++ queued i ++ drops_notice t (timing_dropped i).
Proof.
  intros Hi Hj. pose proof (length_queued i Hi) as Hq. pose proof Hi as (_&_&Hc&_&_).
  destruct (drained_events i t j Hi) as (_&->&Hok).
  assert (ring_get_ordered (sink_put_all (queued i ++ drops_notice t (timing_dropped i)) j) =
    lastn keep (ring_get_ordered j ++ queued i ++ drops_notice t (timing_dropped i))) as ->
    by exact (proj2 (@sink_put_all_spec journal journal_sink _ j Hj Hok)).
  apply lastn_app_keeps. rewrite length_app. pose proof (length_drops_notice t (timing_dropped i)).
  
  pose proof ring_cap_range. unfold TIMING_CAP, timing_record in *. unfold keep. lia.
Qed.

(** When the link of an armed handoff goes down and seventeen slots of the inbox are free, the
    next drain puts into the journal, after what the inbox held before, the HCI record and the
    sixteen records of the handoff, each decoding to the value counted for that link; the
    drain itself overwrites none of them. *)
Lemma handoff_drained (V : View) (s : radios) (h err : Z) (c : conn) (t t' t'' : nat) (i : timing) (j : journal) :
  0 <= h < CONFIG_BT_MAX_CONN -> h < 65536 -> alen s = CONFIG_BT_MAX_CONN ->
  radio_wf (aget s h) -> armed (aget s h) = true ->
  wf i -> timing_count i + 17 <= TIMING_CAP -> ring_ok j ->
  let i' := fin (deliver (link_down V h err c s t) i t') in
  val (timing_drain i' t'') = true /\
  exists old hci report,
    let evs := queued i ++ (hci :: report) ++ drops_notice t'' (timing_dropped i) in
    Forall2 (says h) report (report_of (aget s h)) /\ old `suffix_of` ring_get_ordered j /\
    ring_get_ordered (drained i' t'' j) = old ++ evs /\
    drained i' t'' j = sink_put_all evs j /\ Forall event_ok evs.
Proof.
  intros Hh Hh16 Hlen Hwf Harm Hi Hfree Hj i'.
  destruct (link_down_burst V s h err c t Hh Hh16 Hlen Hwf Harm) as (Hok&Hn&hci&report&Hes&Hsays).
  fold (link_down V h err c s t) in Hok, Hn, Hes.
  destruct (deliver_queued _ i t' Hi Hok) as (Hwf'&Hq'&Hd'); [unfold alen; lia|].
  fold i' in Hwf', Hq', Hd'. rewrite Hes in Hq'.
  destruct (drained_events i' t'' j Hwf') as (Hv&Hput&Hevs).
  destruct (drained_recent i' t'' j Hwf' Hj) as (old&Hold&Hr).
  rewrite Hq', Hd', <- app_assoc in Hput, Hevs, Hr.
  split; [exact Hv|]. exists old, hci, report. by split_and!.
Qed.
End facts.
End Evidence.

(** * From one boot's journal to the dump of the next *)
Module BlackBox.
Import Journal JournalSpec JournalRestore JournalTrace Dump DumpProps.

(** The dump lines of RAM events numbered after [first]. *)
Definition ram_lines (first : Z) (evs : list event) : list (ascii * Z * Z * event) :=
  imap (fun i e => ("r"%char, 0, first + 1 + Z.of_nat i, e)) evs.
(** The dump lines of the flash blocks, oldest first. *)
Definition flash_lines `{!Config} (j : journal) : list (ascii * Z * Z * event) :=
  rotation j ≫= slot_events j.

Section facts.
Context `{!Config} `{!Clock} `{!Crc32} `{!StudioTransport}.

Lemma ring_lines (j : journal) (evs : list event) :
  wf j -> ring_get_ordered j = evs -> ring_seq j = persisted_event_seq j + Z.of_nat (length evs) ->
  ((fun '(e, seq) => ("r"%char, 0, seq, e)) <$> ring_events j) = ram_lines (persisted_event_seq j) evs.
Proof.
  intros Hwf Hr Hs. pose proof (wf_seqs j Hwf) as Hq.
  assert (ring_count j = Z.of_nat (length evs)) as Hc.
  { rewrite <- Hr, ring_get_ordered_retained, length_retained by apply Hwf. done. }
  unfold ring_events, ram_lines. rewrite Hr, Hc. apply list_eq. intros i.
  rewrite list_lookup_fmap, list_lookup_imap, lookup_zip_with, list_lookup_fmap.
  destruct (evs !! i) as [e|] eqn:He; cbn; [|done]. pose proof (lookup_lt_Some _ _ _ He).
  rewrite lookup_seqZ_lt by lia. cbn. do 3 f_equal. rewrite Hs, u32_small by lia. lia.
Qed.

Lemma same_flash_lines (s s' : journal) :
  next_slot s' = next_slot s -> (forall i, valid_at s' i <-> valid_at s i) ->
  (forall i, valid_at s i -> block_at s' i = block_at s i) -> flash_lines s' = flash_lines s.
Proof.
  intros Hn Hv Hb. unfold flash_lines, rotation. rewrite Hn. apply list_bind_ext_elem.
  intros slot (off&->&_)%list_elem_of_fmap. pose proof (slot_of_range s off) as Hslot. unfold slot_of in Hslot.
  set (i := _ `mod` _) in *. unfold slot_events. specialize (Hv i). specialize (Hb i).
  unfold valid_at, block_at in *.
  destruct (aget (restored_valid s) i), (aget (restored_valid s') i); naive_solver congruence.
Qed.
End facts.

(** The boot after a cut, from the flash the cut left. *)
Lemma next_boot_dumps `{!Config} (before after : Clock) `{!Crc32} `{!StudioTransport}
    (base : Z) (hist : list event) (s : journal) (t t' n t'' : nat) (f : gmap string (list Z))
    (order : list Z) (early : list record_call) (b : Boot.boot) (flt : Fault.totem_fault_record) :
  @Inv _ before _ base hist s t f -> ring_seq s + Z.of_nat (length early) < 2 ^ 32 ->
  order ≡ₚ all_slots -> reliable -> boot_ok b -> fault_ok flt ->
  wp (@boot _ after _ f order early) (fun _ s' _ _ =>
    exists evs, @recorded after early evs /\
    wp (@totem_host_event_log_dump _ after _ b flt s') (fun _ _ _ es =>
      read_events (accepted es) =
        flash_lines s ++ ram_lines (persisted_event_seq s) (lastn keep evs)) n t'')
    journal_init t'.
Proof.
  intros [Hwf _ Hr _ _ _ Hst Hf] Hearly Hord Hrel Hb Hflt.
  assert (persisted_event_seq s <= ring_seq s) by (by apply Hwf).
  eapply wp_mono; [apply (@boot_spec _ after _ _ order early s t' Hwf Hst Hf Hord); lia|].
  intros [] s' t2 es (evs&Hevs&Hinv2&Hp&Hn&Hv&Hbl&_). exists evs. split; [exact Hevs|].
  destruct Hinv2 as [Hwf2 _ _ _ Hs2 Hret2 _ _]. pose proof (u32_range (uptime t'')).
  eapply wp_mono; [by eapply (@dump_delivers _ after)|].
  intros [] n2 t3 es2 (_&_&Hall). rewrite (Hall Hrel). rewrite read_full_dump by done.
  unfold journal_events. rewrite <- (same_flash_lines s s' Hn Hv Hbl), <- Hp.
  f_equal. apply ring_lines; [done| |congruence].
  rewrite ring_get_ordered_retained, Hret2. apply lastn_all. rewrite length_lastn. lia.
Qed.

(** C4 The black box works: take any journal reached by any trace (successful and failed writes,
    records during writes), cut the power, and boot - on a clock of its own - whatever the
    order the settings backend presents the keys in and whatever is recorded before the
    post-load hook.  A dump of that boot over a console that takes each line in time is read
    back as exactly the flash lines a dump before the cut would have shown, same slots,
    sequence numbers and events, oldest block first, followed by the early events of the
    new boot numbered on from the last persisted one. *)
Theorem black_box_survives `{!Config} (before after : Clock) `{!Crc32} `{!StudioTransport}
    (save : string -> list Z -> Z) (ops : list op) (base : Z) (hist : list event) (s : journal)
    (t t' n t'' : nat) (f : gmap string (list Z)) (order : list Z) (early : list record_call)
    (b : Boot.boot) (flt : Fault.totem_fault_record) :
  @Inv _ before _ base hist s t f -> ring_seq s + total_calls ops + 1 < 2 ^ 32 ->
  journal_seq s + Z.of_nat (length ops) < 2 ^ 32 ->
  order ≡ₚ all_slots -> reliable -> boot_ok b -> fault_ok flt ->
  let r := for_each ops (@exec _ before _ save) s t in
  ring_seq (fin r) + Z.of_nat (length early) < 2 ^ 32 ->
  wp (@boot _ after _ (commit_all save f (eff r)) order early) (fun _ s' _ _ =>
    exists evs, @recorded after early evs /\
    wp (@totem_host_event_log_dump _ after _ b flt s') (fun _ _ _ es =>
      read_events (accepted es) =
        flash_lines (fin r) ++ ram_lines (persisted_event_seq (fin r)) (lastn keep evs)) n t'')
    journal_init t'.
Proof.
  intros Hinv Hq Hj Hord Hrel Hb Hflt r Hearly.
  destruct (@trace_inv _ before _ save ops base hist s t f Hinv Hq Hj) as (evs0&_&Hinv'&_).
  by apply (next_boot_dumps before after base (hist ++ evs0) (fin r) (clk r)).
Qed.

(** Four events, one of them written before the cut; the next boot records three of its own. *)
#[local] Instance reset_clock : Clock := ticking 40 10.
#[local] Existing Instances JournalProps.example_clock ieee_crc busy_console.

Definition cut : outcome journal effect () :=
  for_each JournalProps.example_ops (@exec _ JournalProps.example_clock _ (fun _ _ => 0))
    (fin JournalProps.booted) (clk JournalProps.booted).

Lemma black_box_survives_witness :
  length (flash_lines (fin cut)) = 1%nat /\
  wp (@boot _ reset_clock _ (commit_all (fun _ _ => 0) ∅ (eff cut)) (reverse all_slots) JournalProps.example_calls)
    (fun _ s' _ _ => exists evs, @recorded reset_clock JournalProps.example_calls evs /\
     wp (@totem_host_event_log_dump _ reset_clock _ dumped_boot dumped_fault s') (fun _ _ _ es =>
       read_events (accepted es) = flash_lines (fin cut) ++ ram_lines 1 (lastn keep evs)) 0%nat 9%nat)
    journal_init 0%nat.
Proof.
  split; [vm_compute; reflexivity|].
  refine (black_box_survives JournalProps.example_clock reset_clock (fun _ _ => 0) JournalProps.example_ops
    0 [] (fin JournalProps.booted) (clk JournalProps.booted) 0%nat 0%nat 9%nat ∅ (reverse all_slots)
    JournalProps.example_calls dumped_boot dumped_fault JournalProps.booted_inv _ _
    (reverse_Permutation all_slots) busy_console_reliable dumped_boot_ok dumped_fault_ok _);
    vm_compute; reflexivity.
Defined.
End BlackBox.

(** * The modules that disconnect links, side by side *)
Module Policies.
Import Exclusive Watch Quiet PolicyProps.

Section facts.
Context `{!Config} `{!Clock}.

(** The state of the three modules; the clock position is shared. *)
Record policies := Pol { p_host : host; p_clock : nat; p_watch : WatchRun.system }.
Definition policies_init (t : nat) : policies := Pol Exclusive.host_init t WatchRun.sys_init.

(** A callback or work item of one of the modules.  A Bluetooth callback that several of them
    register is a sequence of such occurrences in the same view. *)
Inductive policy_op (V : View) :=
| on_exclusive (i : ExclusiveRun.input V)
| on_watch (i : WatchRun.input)
| on_usb_quiet.
#[global] Arguments on_exclusive {V}.
#[global] Arguments on_watch {V}.
#[global] Arguments on_usb_quiet {V}.

Definition policy_step (p : policies) (V : View) (o : policy_op V) : policies * list effect :=
  match o with
  | on_exclusive i =>
      let r := ExclusiveRun.handle V i (p_host p) (p_clock p) in
      (Pol (fin r) (clk r) (p_watch p), eff r)
  | on_watch i =>
      let x := WatchRun.sys_step (p_watch p) (V, i) in
      (Pol (p_host p) (p_clock p) x.1, x.2)
  | on_usb_quiet => (p, eff (usb_host_quiet_work_handler () (p_clock p)))
  end.

Record policy_occ := POcc { pocc_view : View; pocc_op : policy_op pocc_view }.
Definition policy_run (p : policies) (os : list policy_occ) : policies :=
  foldl (fun p o => (policy_step p (pocc_view o) (pocc_op o)).1) p os.
Definition policies_at (os : list policy_occ) (t : nat) : policies := policy_run (policies_init t) os.

Definition same_module {V V' : View} (o : policy_op V) (o' : policy_op V') : Prop :=
  match o, o' with
  | on_exclusive _, on_exclusive _ | on_watch _, on_watch _ | on_usb_quiet, on_usb_quiet => True
  | _, _ => False
  end.

Definition host_link `{!View} (c : conn) : Prop :=
  c ∈ le_conns /\ exists info, bt_conn_get_info c = Some info /\ info_role info = BT_CONN_ROLE_PERIPHERAL.
Definition of_other_profile `{!View} (c : conn) : Prop :=
  0 <= zmk_ble_profile_index (bt_conn_get_dst c) /\
  zmk_ble_profile_index (bt_conn_get_dst c) <> zmk_ble_active_profile_index.

(** Why a module disconnects a link. *)
Definition kick_reason {V : View} (o : policy_op V) (c : conn) : Prop :=
  match o with
  | on_exclusive _ => ExclusiveRun.may_evict c
  | on_watch _ => WatchRun.recovery_allowed /\ WatchRun.droppable c
  | on_usb_quiet => totem_usb_cable_up = true /\ host_link c
  end.

Definition policies_ok (p : policies) : Prop := ExclusiveRun.host_ok (p_host p) (p_clock p).

Lemma elem_of_kicks c (es : list effect) :
  c ∈ WatchRun.kicks es -> exists r, bt_conn_disconnect c r ∈ es.
Proof.
  intros (e&He&Hk)%list_elem_of_omap. destruct e; try done. injection Hk as ->. by eexists.
Qed.

Lemma policy_step_ok p (V : View) (o : policy_op V) :
  policies_ok p ->
  policies_ok (policy_step p V o).1 /\
  forall c, c ∈ WatchRun.kicks (policy_step p V o).2 -> kick_reason o c.
Proof.
  intros Hp. destruct o as [i|i|]; cbn [policy_step fst snd kick_reason].
  - destruct (ExclusiveRun.handle_ok V i _ _ Hp) as [Hok Hes]. split; [exact Hok|].
    intros c (r&Hr)%elem_of_kicks. rewrite Forall_forall in Hes. by destruct (Hes _ Hr).
  - split; [exact Hp|]. apply WatchRun.sys_step_kicks.
  - split; [exact Hp|]. intros c (r&Hr)%elem_of_kicks. rewrite usb_quiet_run in Hr. cbn in Hr.
    unfold totem_usb_cable_up. destruct zmk_usb_is_powered; [|set_solver]. split; [done|].
    apply elem_of_app in Hr as [(c'&[= -> _]&Hc)%list_elem_of_fmap|Hr]; [|set_solver].
    apply list_elem_of_filter in Hc as [Hrole Hin]. split; [exact Hin|]. unfold role_is in Hrole.
    destruct (bt_conn_get_info c') as [info|]; [|done]. exists info. split; [done|]. by apply Z.eqb_eq.
Qed.

Lemma policies_at_ok os t : policies_ok (policies_at os t).
Proof.
  unfold policies_at, policy_run. assert (policies_ok (policies_init t)) as Hp by apply ExclusiveRun.init_ok.
  revert Hp. generalize (policies_init t). induction os as [|o os IH]; intros p Hp; [exact Hp|].
  cbn. apply IH. by apply policy_step_ok.
Qed.

(** The three modules never want to disconnect in the same view. *)
Lemma kick_reasons_exclusive {V : View} (o o' : policy_op V) (c c' : conn) :
  CONFIG_TOTEM_EVICT_REQUIRES_BONDED_ACTIVE = true ->
  kick_reason o c -> kick_reason o' c' -> same_module o o'.
Proof.
  intros Hreq. unfold kick_reason, ExclusiveRun.may_evict, ExclusiveRun.evictable, WatchRun.recovery_allowed.
  destruct o, o'; try done; naive_solver congruence.
Qed.

(** C6 No interleaving of the modules that disconnect links - the exclusive host, the reconnect
    watch and the USB policy - hurts a link it must keep: whatever callbacks and work items
    of the three have run, in whatever views, a disconnect is only asked for on a link of
    the table that this half is the peripheral of, so never on the split link, and without a
    cable only of a resolved profile other than the selected one; and when selection
    protects (the configuration in use), no other module, in any reachable state, disconnects
    anything in the same view, so they never work against each other. *)
Theorem policies_spare_selected (os : list policy_occ) (t : nat) (V : View) (o : policy_op V) (c : conn) :
  c ∈ WatchRun.kicks (policy_step (policies_at os t) V o).2 ->
  host_link c /\
  (totem_usb_cable_up = false -> totem_hid_is_usb = false /\ of_other_profile c) /\
  (CONFIG_TOTEM_EVICT_REQUIRES_BONDED_ACTIVE = true ->
   forall os' t' (o' : policy_op V), ~ same_module o o' ->
     WatchRun.kicks (policy_step (policies_at os' t') V o').2 = []).
Proof.
  intros Hc. pose proof (proj2 (policy_step_ok _ V o (policies_at_ok os t)) c Hc) as Hwhy.
  split; [|split].
  - unfold host_link. destruct o; cbn in Hwhy; unfold ExclusiveRun.may_evict, ExclusiveRun.evictable,
      WatchRun.droppable in Hwhy; naive_solver.
  - unfold of_other_profile. intros Hcab. destruct o; cbn in Hwhy; unfold ExclusiveRun.may_evict,
      ExclusiveRun.evictable, WatchRun.recovery_allowed, WatchRun.droppable in Hwhy; naive_solver congruence.
  - intros Hreq os' t' o' Hne. apply elem_of_nil_inv. intros c' Hc'.
    pose proof (proj2 (policy_step_ok _ V o' (policies_at_ok os' t')) c' Hc') as Hwhy'.
    destruct Hne. exact (kick_reasons_exclusive o o' c c' Hreq Hwhy Hwhy').
Qed.
End facts.

(** The selected computer and another one are connected: the exclusive host evicts the other,
    while neither the watch, armed by the switch before, nor the USB policy drops anything. *)
#[local] Instance policy_clock : Clock := ticking 1000 10.

Definition after_switch : list policy_occ :=
  [POcc WatchProps.switched (on_exclusive ExclusiveRun.in_profile_changed); POcc WatchProps.switched (on_watch WatchRun.in_profile_changed);
   POcc ExclusiveProps.two_hosts (on_exclusive (ExclusiveRun.in_connected 2%nat 0)); POcc ExclusiveProps.two_hosts on_usb_quiet].

Lemma policies_spare_selected_witness :
  2%nat ∈ WatchRun.kicks (policy_step (policies_at after_switch 0) ExclusiveProps.two_hosts (on_exclusive ExclusiveRun.in_evict_work)).2 /\
  @of_other_profile ExclusiveProps.two_hosts 2%nat /\
  WatchRun.kicks (policy_step (policies_at after_switch 0) ExclusiveProps.two_hosts (on_watch WatchRun.in_watch_timer)).2 = [].
Proof.
  assert (2%nat ∈ WatchRun.kicks (policy_step (policies_at after_switch 0) ExclusiveProps.two_hosts
    (on_exclusive ExclusiveRun.in_evict_work)).2) as Hk by (vm_compute; left).
  destruct (policies_spare_selected after_switch 0 ExclusiveProps.two_hosts _ 2%nat Hk) as (_&Ho&Hx).
  split; [exact Hk|]. split; [by apply Ho|]. apply (Hx eq_refl). exact (fun Hs => Hs).
Defined.
End Policies.
