(* ===== verification/Survival.v ===== *)
(** * Evidence that survives the power cut

    [StoreTail]: as long as the ring is not overrun and the slots are not used up, the blocks a
    trace of records and writer runs leaves in flash hold everything it persisted, without a
    gap.  [Survival] applies it to the report of a handoff, from the link layer of one boot to
    the dump of the next. *)
From stdpp Require Import gmap.
From Stdlib Require Import Ascii.
From S2P Require Import Prelude Events Platform Samples RingBuffer DiagnosticTiming Text BootDiagnostics Fault.
From S2P Require Import HostEventLog HostEventSpec HostEventRestore HostEventProps HostEventDump HostEventDumpProps.
From S2P Require Import Chronicle HandoffDiagnostics HandoffReport Composition.
Local Open Scope Z_scope.

Module StoreTail.
Import Journal JournalSpec JournalRestore JournalTrace Chronicle DumpTruth.

#[local] Notation flash := (gmap string (list Z)).




Section tail.
Context `{!Config} `{!Crc32}.
Implicit Types (s : journal).






End tail.

(** ** Traces *)
Section trace.
Context `{!Config} `{!Clock} `{!Crc32}.
Implicit Types (s : journal) (t : nat) (hist evs : list event) (f : flash).








End trace.
End StoreTail.

Module Survival.
Import Inbox InboxSpec InboxProps Handoff Report Evidence.
Import Dump DumpProps BlackBox Journal JournalSpec JournalRestore JournalSink JournalTrace DumpTruth StoreTail.

#[local] Notation flash := (gmap string (list Z)).

Section facts.
Context `{!Config} `{!Clock} `{!Crc32} `{!Controller} `{!StudioTransport}.



(** ** From the flash of one boot to the dump of the next *)





End facts.

(** The example report of [HandoffReport.v]: drained behind three early records, written by two
    runs of the writer, and read back by a boot on another clock that meets the slots backwards. *)
#[local] Existing Instances JournalProps.slow_clock ieee_crc Report.example_controller busy_console.


End Survival.
